(** * k8s-pvc-migrator: the two-phase PVC pivot, its quiescence step and the
      snapshot fast path, embedded as state-passing programs over a model of
      one Kubernetes namespace.

    The three scripts ([double_pivot_all.py], [double_pivot_safe.py],
    [moveStorage.py]) are translated function by function.  Every call to
    the Kubernetes client, every file operation and every [print] becomes a
    step of a state-and-exception monad over [world]; the calls are also
    appended to a trace, so that statements about which calls were issued,
    and in which order, can be read off the final world. *)

From Stdlib Require Import Ascii.
From stdpp Require Import gmap strings list fin_maps pretty sorting.

(** ** Python values and exceptions *)

Inductive exn :=
| ApiException (status : nat)
| KeyError (key : string)
| TypeError
| ValueError
| AttributeError
| FileNotFoundError (path : string).

(** [x or d] on an optional attribute. *)
Definition py_or {A} (x : option A) (d : A) : A := default d x.

Definition nl : string := String (ascii_of_nat 10) EmptyString.

(** ** Objects of the namespace *)

(** A PersistentVolumeClaim as the scripts read and create it; the name is
    the key under which the API server stores it. *)
Record pvc_spec := PvcSpec {
  storage_class_name : option string;
  storage : string;                    (* spec.resources.requests["storage"] *)
  access_modes : list string;
  data_source : option string          (* VolumeSnapshot the claim is cut from *)
}.

(** A listed claim: [metadata.name] paired with its spec. *)
Abbreviation PVC := (string * pvc_spec)%type.

Inductive pod_phase := Pending | Running | Succeeded | Failed | Unknown.

Record volume := Volume {
  vol_name : string;
  persistent_volume_claim : option string;     (* its claim_name *)
  projected : bool
}.

Record container := Container {
  c_name : string;
  image : string;
  command : option (list string);
  args : option (list string);
  ports : option (list nat);
  volume_mounts : option (list (string * string))   (* mount_path, name *)
}.

Record pod := Pod {
  pod_namespace : string;
  pod_volumes : option (list volume);
  containers : list container;
  restart_policy : string;
  owner_references : option (list bool);  (* the [controller] flag of each owner *)
  phases : list pod_phase                 (* what successive reads will observe *)
}.

Record claim_template := ClaimTemplate {
  vct_name : string;
  vct_storage_class_name : option string
}.

(** One record for the six controller kinds; a kind leaves unset the
    attributes it does not have.  [volumes] is the pod template's
    [spec.volumes], wherever the kind keeps its template. *)
Record workload := Workload {
  uid : string;
  replicas : option nat;
  volumes : option (list volume);
  volume_claim_templates : option (list claim_template);
  node_selector : option (list (string * string));
  suspend : option bool
}.

Abbreviation Workload_item := (string * workload)%type.

Record snapshot_class := SnapshotClass {
  sc_name : string;
  deletionPolicy : option string;
  driver : option string
}.

(** What one GET of a VolumeSnapshot shows: no [status] yet, or
    [status.readyToUse]. *)
Inductive snap_obs := NoStatus | ReadyToUse (b : option bool).

Record snapshot := Snapshot {
  snap_class : string;
  snap_source : string;
  snap_status : list snap_obs
}.

Record cluster := Cluster {
  pvcs : gmap string pvc_spec;
  pods : gmap string pod;
  deployments : gmap string workload;
  statefulsets : gmap string workload;
  replicasets : gmap string workload;
  daemonsets : gmap string workload;
  cronjobs : gmap string workload;
  jobs : gmap string workload;
  (** [None]: the snapshot API group is not served. *)
  snapshot_classes : option (list snapshot_class);
  snapshots : gmap string snapshot
}.

(** ** Files *)

Record PivotRecord := mkPivot {
  r_old_name : string;
  r_temp_name : string;
  r_size : string;
  r_modes : list string
}.

Inductive scale_value :=
| VInt (n : nat)
| VStr (s : string)
| VBool (b : bool).

(** The JSON form of the tuple [(kind, name, value)]. *)
Abbreviation ScaleEntry := (string * string * scale_value)%type.

Record manifest := Manifest {
  m_name : string;
  m_namespace : string;
  m_volumes : list (string * string);        (* name, claimName *)
  m_containers : list container
}.

(** File contents, up to serialisation.  [JsonPivot k rs] is a JSON array of
    pivot records whose access modes are stored under key [k];
    [JsonScale] is a JSON object in insertion order. *)
Inductive file :=
| JsonPivot (modes_key : string) (records : list PivotRecord)
| JsonScale (backups : list (string * ScaleEntry))
| Yaml (m : manifest)
| Text (lines : list string).

(** ** Trace *)

(** The bodies the scripts send with a PATCH. *)
Inductive patch :=
| ReplicasPatch (v : scale_value)                           (* {"spec": {"replicas": v}} *)
| NodeSelectorPatch (sel : option (list (string * string))) (* spec.template.spec.nodeSelector *)
| SuspendPatch (b : bool)                                   (* {"spec": {"suspend": b}} *)
| ObjectPatch (obj : workload).                             (* the whole, locally edited object *)

Inductive api_call :=
| list_namespaced_persistent_volume_claim
| create_namespaced_persistent_volume_claim (name : string) (body : pvc_spec)
| delete_namespaced_persistent_volume_claim (name : string)
| list_namespaced_pod
| create_namespaced_pod (name : string) (body : pod)
| read_namespaced_pod (name : string)
| delete_namespaced_pod (name : string)
| list_namespaced_deployment
| list_namespaced_stateful_set
| list_namespaced_replica_set
| list_namespaced_daemon_set
| list_namespaced_cron_job
| list_namespaced_job
| patch_namespaced_deployment_scale (name : string) (body : patch)
| patch_namespaced_replica_set_scale (name : string) (body : patch)
| patch_namespaced_stateful_set_scale (name : string) (body : patch)
| patch_namespaced_deployment (name : string) (body : patch)
| patch_namespaced_stateful_set (name : string) (body : patch)
| patch_namespaced_daemon_set (name : string) (body : patch)
| patch_namespaced_cron_job (name : string) (body : patch)
| delete_namespaced_job (name : string)
| list_cluster_custom_object                                (* volumesnapshotclasses *)
| create_namespaced_custom_object (name : string) (body : snapshot)
| get_namespaced_custom_object (name : string).

Inductive event :=
| Api (c : api_call)
| Stdout (line : string)
| Sleep (seconds : nat)
| FsWrite (path : string)
| FsAppend (path : string)
| FsRemove (path : string).

(** The calls that create, patch or delete a cluster object. *)
Definition mutating (c : api_call) : bool :=
  match c with
  | create_namespaced_persistent_volume_claim _ _
  | delete_namespaced_persistent_volume_claim _
  | create_namespaced_pod _ _
  | delete_namespaced_pod _
  | patch_namespaced_deployment_scale _ _
  | patch_namespaced_replica_set_scale _ _
  | patch_namespaced_stateful_set_scale _ _
  | patch_namespaced_deployment _ _
  | patch_namespaced_stateful_set _ _
  | patch_namespaced_daemon_set _ _
  | patch_namespaced_cron_job _ _
  | delete_namespaced_job _
  | create_namespaced_custom_object _ _ => true
  | list_namespaced_persistent_volume_claim
  | list_namespaced_pod
  | read_namespaced_pod _
  | list_namespaced_deployment
  | list_namespaced_stateful_set
  | list_namespaced_replica_set
  | list_namespaced_daemon_set
  | list_namespaced_cron_job
  | list_namespaced_job
  | list_cluster_custom_object
  | get_namespaced_custom_object _ => false
  end.

Definition mutation (e : event) : bool :=
  match e with Api c => mutating c | _ => false end.

(** ** The world a script runs in *)

(** moveStorage.py's global [dry_run_report]. *)
Record dry_run_report := Report {
  pvcs_found : list string;
  new_pvcs : list string;
  pivot_pods : list string;
  snapshots_used : list string;
  workloads_patched : list string;
  pvcs_deleted : list string;
  pod_manifests : list string
}.

Record world := World {
  k8s : cluster;
  fs : gmap string file;
  trace : list event;
  (** The phases the i-th pod started in this world goes through, one per
      read; a pod whose list has run out stays [Pending]. *)
  kubelet : nat → list pod_phase;
  pods_started : nat;
  (** What successive GETs of a snapshot of this name show; once the list
      has run out the snapshot has a status and is not ready. *)
  csi : string → list snap_obs;
  report : dry_run_report
}.

(** ** The monad of a running script *)

Inductive outcome (A : Type) :=
| Return (a : A)
| Raise (e : exn)     (* an exception nobody caught *)
| Hang.               (* a wait loop that never ends *)
Arguments Return {A} a.
Arguments Raise {A} e.
Arguments Hang {A}.

Definition M (A : Type) : Type := world → outcome A * world.

Global Instance M_ret : MRet M := λ A a w, (Return a, w).

Global Instance M_bind : MBind M := λ A B f m w,
  match m w with
  | (Return a, w') => f a w'
  | (Raise e, w') => (Raise e, w')
  | (Hang, w') => (Hang, w')
  end.

Definition raise {A} (e : exn) : M A := λ w, (Raise e, w).
Definition hang {A} : M A := λ w, (Hang, w).
Definition gets {A} (f : world → A) : M A := λ w, (Return (f w), w).
Definition modify (f : world → world) : M unit := λ w, (Return tt, f w).

(** [try: m except Exception as e: h e] *)
Definition try_except {A} (m : M A) (h : exn → M A) : M A := λ w,
  match m w with
  | (Raise e, w') => h e w'
  | r => r
  end.

(** [for x in xs: body x] *)
Fixpoint for_each {A} (xs : list A) (body : A → M unit) : M unit :=
  match xs with
  | [] => mret tt
  | x :: xs' => body x ;; for_each xs' body
  end.

(** A [for] loop that threads the local variables [s] it assigns. *)
Fixpoint for_fold {A S} (xs : list A) (s : S) (body : S → A → M S) : M S :=
  match xs with
  | [] => mret s
  | x :: xs' => s' ← body s x; for_fold xs' s' body
  end.

Definition when (b : bool) (m : M unit) : M unit := if b then m else mret tt.

(** *** Field updates *)

Definition with_k8s (f : cluster → cluster) (w : world) : world :=
  World (f (k8s w)) (fs w) (trace w) (kubelet w) (pods_started w) (csi w) (report w).
Definition with_fs (f : gmap string file → gmap string file) (w : world) : world :=
  World (k8s w) (f (fs w)) (trace w) (kubelet w) (pods_started w) (csi w) (report w).
Definition with_trace (f : list event → list event) (w : world) : world :=
  World (k8s w) (fs w) (f (trace w)) (kubelet w) (pods_started w) (csi w) (report w).
Definition with_pods_started (f : nat → nat) (w : world) : world :=
  World (k8s w) (fs w) (trace w) (kubelet w) (f (pods_started w)) (csi w) (report w).
Definition with_report (f : dry_run_report → dry_run_report) (w : world) : world :=
  World (k8s w) (fs w) (trace w) (kubelet w) (pods_started w) (csi w) (f (report w)).

Definition with_pvcs (f : gmap string pvc_spec → gmap string pvc_spec) (c : cluster) : cluster :=
  Cluster (f (pvcs c)) (pods c) (deployments c) (statefulsets c) (replicasets c)
          (daemonsets c) (cronjobs c) (jobs c) (snapshot_classes c) (snapshots c).
Definition with_pods (f : gmap string pod → gmap string pod) (c : cluster) : cluster :=
  Cluster (pvcs c) (f (pods c)) (deployments c) (statefulsets c) (replicasets c)
          (daemonsets c) (cronjobs c) (jobs c) (snapshot_classes c) (snapshots c).
Definition with_deployments (f : gmap string workload → gmap string workload) (c : cluster) : cluster :=
  Cluster (pvcs c) (pods c) (f (deployments c)) (statefulsets c) (replicasets c)
          (daemonsets c) (cronjobs c) (jobs c) (snapshot_classes c) (snapshots c).
Definition with_statefulsets (f : gmap string workload → gmap string workload) (c : cluster) : cluster :=
  Cluster (pvcs c) (pods c) (deployments c) (f (statefulsets c)) (replicasets c)
          (daemonsets c) (cronjobs c) (jobs c) (snapshot_classes c) (snapshots c).
Definition with_replicasets (f : gmap string workload → gmap string workload) (c : cluster) : cluster :=
  Cluster (pvcs c) (pods c) (deployments c) (statefulsets c) (f (replicasets c))
          (daemonsets c) (cronjobs c) (jobs c) (snapshot_classes c) (snapshots c).
Definition with_daemonsets (f : gmap string workload → gmap string workload) (c : cluster) : cluster :=
  Cluster (pvcs c) (pods c) (deployments c) (statefulsets c) (replicasets c)
          (f (daemonsets c)) (cronjobs c) (jobs c) (snapshot_classes c) (snapshots c).
Definition with_cronjobs (f : gmap string workload → gmap string workload) (c : cluster) : cluster :=
  Cluster (pvcs c) (pods c) (deployments c) (statefulsets c) (replicasets c)
          (daemonsets c) (f (cronjobs c)) (jobs c) (snapshot_classes c) (snapshots c).
Definition with_jobs (f : gmap string workload → gmap string workload) (c : cluster) : cluster :=
  Cluster (pvcs c) (pods c) (deployments c) (statefulsets c) (replicasets c)
          (daemonsets c) (cronjobs c) (f (jobs c)) (snapshot_classes c) (snapshots c).
Definition with_snapshots (f : gmap string snapshot → gmap string snapshot) (c : cluster) : cluster :=
  Cluster (pvcs c) (pods c) (deployments c) (statefulsets c) (replicasets c)
          (daemonsets c) (cronjobs c) (jobs c) (snapshot_classes c) (f (snapshots c)).

(** *** Output, time and files *)

Definition emit (e : event) : M unit := modify (with_trace (λ t, t ++ [e])).
Definition print (line : string) : M unit := emit (Stdout line).
Definition time_sleep (seconds : nat) : M unit := emit (Sleep seconds).

Definition os_path_exists (path : string) : M bool :=
  gets (λ w, bool_decide (is_Some (fs w !! path))).

(** [with open(path) as f: json.load(f)] *)
Definition read_file (path : string) : M file :=
  content ← gets (λ w, fs w !! path);
  match content with
  | Some c => mret c
  | None => raise (FileNotFoundError path)
  end.

(** [with open(path, "w") as f: dump(content, f)] *)
Definition write_file (path : string) (content : file) : M unit :=
  emit (FsWrite path);;
  modify (with_fs (insert path content)).

Definition os_remove (path : string) : M unit :=
  emit (FsRemove path);;
  content ← gets (λ w, fs w !! path);
  match content with
  | Some _ => modify (with_fs (delete path))
  | None => raise (FileNotFoundError path)
  end.

(** ** The API server *)

(** The server answers a LIST in the order of its keys. *)
Definition by_name {V} (a b : string * V) : Prop := String.leb a.1 b.1 = true.

Global Instance by_name_dec {V} (a b : string * V) : Decision (by_name a b) :=
  decide (String.leb a.1 b.1 = true).

Definition items {V} (m : gmap string V) : list (string * V) :=
  merge_sort by_name (map_to_list m).

Definition apply_patch (body : patch) (obj : workload) : option workload :=
  match body with
  | ReplicasPatch (VInt n) =>
      Some (Workload (uid obj) (Some n) (volumes obj) (volume_claim_templates obj)
                     (node_selector obj) (suspend obj))
  | ReplicasPatch _ => None
  | NodeSelectorPatch sel =>
      Some (Workload (uid obj) (replicas obj) (volumes obj) (volume_claim_templates obj)
                     sel (suspend obj))
  | SuspendPatch b =>
      Some (Workload (uid obj) (replicas obj) (volumes obj) (volume_claim_templates obj)
                     (node_selector obj) (Some b))
  | ObjectPatch new =>
      Some (Workload (uid obj) (replicas new) (volumes new) (volume_claim_templates new)
                     (node_selector new) (suspend new))
  end.

(** A PATCH of the object [name] of one kind: 404 when there is none, 422
    when the body does not fit. *)
Definition patch_in (kind : cluster → gmap string workload)
    (with_kind : (gmap string workload → gmap string workload) → cluster → cluster)
    (name : string) (body : patch) : M unit :=
  obj ← gets (λ w, kind (k8s w) !! name);
  match obj with
  | None => raise (ApiException 404)
  | Some o =>
      match apply_patch body o with
      | None => raise (ApiException 422)
      | Some o' => modify (with_k8s (with_kind (insert name o')))
      end
  end.

Module v1.

Definition list_namespaced_persistent_volume_claim (namespace : string) : M (list PVC) :=
  emit (Api list_namespaced_persistent_volume_claim);;
  gets (λ w, items (pvcs (k8s w))).

Definition create_namespaced_persistent_volume_claim
    (namespace name : string) (body : pvc_spec) : M unit :=
  emit (Api (create_namespaced_persistent_volume_claim name body));;
  existing ← gets (λ w, pvcs (k8s w) !! name);
  match existing with
  | Some _ => raise (ApiException 409)
  | None => modify (with_k8s (with_pvcs (insert name body)))
  end.

Definition delete_namespaced_persistent_volume_claim (name namespace : string) : M unit :=
  emit (Api (delete_namespaced_persistent_volume_claim name));;
  existing ← gets (λ w, pvcs (k8s w) !! name);
  match existing with
  | Some _ => modify (with_k8s (with_pvcs (delete name)))
  | None => raise (ApiException 404)
  end.

Definition list_namespaced_pod (namespace : string) : M (list (string * pod)) :=
  emit (Api list_namespaced_pod);;
  gets (λ w, items (pods (k8s w))).

(** The new pod is the next one the kubelet runs. *)
Definition create_namespaced_pod (namespace name : string) (body : pod) : M unit :=
  emit (Api (create_namespaced_pod name body));;
  existing ← gets (λ w, pods (k8s w) !! name);
  match existing with
  | Some _ => raise (ApiException 409)
  | None =>
      life ← gets (λ w, kubelet w (pods_started w));
      modify (with_pods_started S);;
      modify (with_k8s (with_pods (insert name
        (Pod namespace (pod_volumes body) (containers body) (restart_policy body)
             (owner_references body) life))))
  end.

(** Returns [status.phase]; the next read sees the next phase. *)
Definition read_namespaced_pod (name namespace : string) : M pod_phase :=
  emit (Api (read_namespaced_pod name));;
  existing ← gets (λ w, pods (k8s w) !! name);
  match existing with
  | None => raise (ApiException 404)
  | Some p =>
      modify (with_k8s (with_pods (insert name
        (Pod (pod_namespace p) (pod_volumes p) (containers p) (restart_policy p)
             (owner_references p) (tail (phases p))))));;
      mret (match phases p with [] => Pending | ph :: _ => ph end)
  end.

Definition delete_namespaced_pod (name namespace : string) : M unit :=
  emit (Api (delete_namespaced_pod name));;
  existing ← gets (λ w, pods (k8s w) !! name);
  match existing with
  | Some _ => modify (with_k8s (with_pods (delete name)))
  | None => raise (ApiException 404)
  end.

End v1.

Module apps_v1.

Definition list_namespaced_deployment (namespace : string) : M (list Workload_item) :=
  emit (Api list_namespaced_deployment);;
  gets (λ w, items (deployments (k8s w))).

Definition list_namespaced_stateful_set (namespace : string) : M (list Workload_item) :=
  emit (Api list_namespaced_stateful_set);;
  gets (λ w, items (statefulsets (k8s w))).

Definition list_namespaced_replica_set (namespace : string) : M (list Workload_item) :=
  emit (Api list_namespaced_replica_set);;
  gets (λ w, items (replicasets (k8s w))).

Definition list_namespaced_daemon_set (namespace : string) : M (list Workload_item) :=
  emit (Api list_namespaced_daemon_set);;
  gets (λ w, items (daemonsets (k8s w))).

Definition patch_namespaced_deployment_scale (name namespace : string) (body : patch) : M unit :=
  emit (Api (patch_namespaced_deployment_scale name body));;
  patch_in deployments with_deployments name body.

Definition patch_namespaced_replica_set_scale (name namespace : string) (body : patch) : M unit :=
  emit (Api (patch_namespaced_replica_set_scale name body));;
  patch_in replicasets with_replicasets name body.

Definition patch_namespaced_stateful_set_scale (name namespace : string) (body : patch) : M unit :=
  emit (Api (patch_namespaced_stateful_set_scale name body));;
  patch_in statefulsets with_statefulsets name body.

Definition patch_namespaced_deployment (name namespace : string) (body : patch) : M unit :=
  emit (Api (patch_namespaced_deployment name body));;
  patch_in deployments with_deployments name body.

Definition patch_namespaced_stateful_set (name namespace : string) (body : patch) : M unit :=
  emit (Api (patch_namespaced_stateful_set name body));;
  patch_in statefulsets with_statefulsets name body.

Definition patch_namespaced_daemon_set (name namespace : string) (body : patch) : M unit :=
  emit (Api (patch_namespaced_daemon_set name body));;
  patch_in daemonsets with_daemonsets name body.

End apps_v1.

Module batch_v1.

Definition list_namespaced_cron_job (namespace : string) : M (list Workload_item) :=
  emit (Api list_namespaced_cron_job);;
  gets (λ w, items (cronjobs (k8s w))).

Definition list_namespaced_job (namespace : string) : M (list Workload_item) :=
  emit (Api list_namespaced_job);;
  gets (λ w, items (jobs (k8s w))).

Definition patch_namespaced_cron_job (name namespace : string) (body : patch) : M unit :=
  emit (Api (patch_namespaced_cron_job name body));;
  patch_in cronjobs with_cronjobs name body.

Definition delete_namespaced_job (name namespace : string) : M unit :=
  emit (Api (delete_namespaced_job name));;
  existing ← gets (λ w, jobs (k8s w) !! name);
  match existing with
  | Some _ => modify (with_k8s (with_jobs (delete name)))
  | None => raise (ApiException 404)
  end.

End batch_v1.

(** The snapshot.storage.k8s.io/v1 resources. *)
Module custom_api.

Definition list_cluster_custom_object : M (list snapshot_class) :=
  emit (Api list_cluster_custom_object);;
  classes ← gets (λ w, snapshot_classes (k8s w));
  match classes with
  | Some l => mret l
  | None => raise (ApiException 404)
  end.

Definition create_namespaced_custom_object
    (namespace name : string) (body : snapshot) : M unit :=
  emit (Api (create_namespaced_custom_object name body));;
  existing ← gets (λ w, snapshots (k8s w) !! name);
  served ← gets (λ w, snapshot_classes (k8s w));
  match served, existing with
  | None, _ => raise (ApiException 404)
  | _, Some _ => raise (ApiException 409)
  | Some _, None =>
      life ← gets (λ w, csi w name);
      modify (with_k8s (with_snapshots (insert name
        (Snapshot (snap_class body) (snap_source body) life))))
  end.

Definition get_namespaced_custom_object (namespace name : string) : M snap_obs :=
  emit (Api (get_namespaced_custom_object name));;
  existing ← gets (λ w, snapshots (k8s w) !! name);
  match existing with
  | None => raise (ApiException 404)
  | Some s =>
      modify (with_k8s (with_snapshots (insert name
        (Snapshot (snap_class s) (snap_source s) (tail (snap_status s))))));;
      mret (match snap_status s with [] => ReadyToUse None | o :: _ => o end)
  end.

End custom_api.

(** ** Helpers shared by the scripts *)

(** [s[:n]] *)
Fixpoint str_take (n : nat) (s : string) : string :=
  match n, s with
  | S n', String c s' => String c (str_take n' s')
  | _, _ => EmptyString
  end.

Definition phase_str (ph : pod_phase) : string :=
  match ph with
  | Pending => "Pending"
  | Running => "Running"
  | Succeeded => "Succeeded"
  | Failed => "Failed"
  | Unknown => "Unknown"
  end.

(** [phase in ("Succeeded", "Failed")] *)
Definition finished (ph : pod_phase) : bool :=
  match ph with Succeeded | Failed => true | _ => false end.

(** [while True: body], where [body] answers [Some a] when it breaks.  The
    loop is run for [fuel] rounds and hangs after them; callers pass the
    number of rounds after which the polled object cannot change any more. *)
Fixpoint while_true {A} (fuel : nat) (body : M (option A)) : M A :=
  match fuel with
  | 0 => hang
  | S fuel' =>
      r ← body;
      match r with
      | Some a => mret a
      | None => while_true fuel' body
      end
  end.

(** Reads of pod [name] after which its phase is settled for good. *)
Definition pod_polls (name : string) (w : world) : nat :=
  match pods (k8s w) !! name with
  | Some p => S (length (phases p))
  | None => 1
  end.

Definition snapshot_polls (name : string) (w : world) : nat :=
  match snapshots (k8s w) !! name with
  | Some s => S (length (snap_status s))
  | None => 1
  end.

(** [d[k] = v] on a dict kept in insertion order. *)
Fixpoint dict_set {V} (k : string) (v : V) (d : list (string * V)) : list (string * V) :=
  match d with
  | [] => [(k, v)]
  | (k', v') :: d' => if bool_decide (k' = k) then (k, v) :: d' else (k', v') :: dict_set k v d'
  end.

(** [str(e)], shortened to the status. *)
Definition exn_str (e : exn) : string :=
  match e with
  | ApiException status => "(" +:+ pretty status +:+ ")"
  | KeyError key => "'" +:+ key +:+ "'"
  | FileNotFoundError path => "[Errno 2] No such file or directory: '" +:+ path +:+ "'"
  | TypeError | ValueError | AttributeError => EmptyString
  end.

Definition value_str (v : scale_value) : string :=
  match v with
  | VInt n => pretty n
  | VStr s => s
  | VBool true => "True"
  | VBool false => "False"
  end.

(** [vol.persistent_volume_claim and vol.persistent_volume_claim.claim_name in names] *)
Definition claims_one_of (names : list string) (vol : volume) : bool :=
  match persistent_volume_claim vol with
  | Some claim_name => bool_decide (claim_name ∈ names)
  | None => false
  end.

(** [s.lower()] on ASCII text: A-Z become a-z.  Beyond ASCII Python follows
    the Unicode case tables and may change the number of characters; bytes
    above 127 are left alone here, and what depends on them is stated for
    ASCII text only. *)
Definition lower_char (c : ascii) : ascii :=
  let n := nat_of_ascii c in
  if (65 <=? n) && (n <=? 90) then ascii_of_nat (n + 32) else c.

Fixpoint lower (s : string) : string :=
  match s with
  | EmptyString => EmptyString
  | String c s' => String (lower_char c) (lower s')
  end.

(** [needle in hay] on strings. *)
Fixpoint str_contains (needle hay : string) : bool :=
  String.prefix needle hay ||
  match hay with
  | EmptyString => false
  | String _ hay' => str_contains needle hay'
  end.

(** Truth value of an optional string: [None] and the empty string are false. *)
Definition truthy (x : option string) : bool :=
  match x with
  | Some (String _ _) => true
  | _ => false
  end.

(** [with open(path, "a") as f: f.write(...)] *)
Definition append_file (path : string) (lines : list string) : M unit :=
  emit (FsAppend path);;
  modify (with_fs (λ files,
    match files !! path with
    | Some (Text old) => <[path := Text (old ++ lines)]> files
    | _ => <[path := Text lines]> files
    end)).

(** * double_pivot_all.py *)

Module All.

Record Args := mkArgs {
  origin_sc : string;
  target_sc : string;
  namespace : string;
  recreate : bool;
  metadata_file : string;
  dry_run : bool;
  preserve_temp : bool
}.

Definition DEFAULT_METADATA_FILE : string := "double_pivot_metadata.json".

Definition list_pvcs_in_storageclass (namespace storage_class : string) : M (list PVC) :=
  all_pvcs ← v1.list_namespaced_persistent_volume_claim namespace;
  mret (filter (λ p : PVC, storage_class_name p.2 = Some storage_class) all_pvcs).

Definition create_pvc (namespace name storage_class size : string)
    (access_modes : list string) (dry_run : bool) : M unit :=
  if dry_run then
    print ("[DRY-RUN] Would create PVC '" +:+ name +:+ "' in SC '" +:+ storage_class
           +:+ "' (size=" +:+ size +:+ ").")
  else
    let pvc_body := PvcSpec (Some storage_class) size access_modes None in
    v1.create_namespaced_persistent_volume_claim namespace name pvc_body;;
    print ("[+] Created PVC '" +:+ name +:+ "' in SC '" +:+ storage_class +:+ "'").

Definition pod_body (source_pvc target_pvc : string) : pod :=
  Pod EmptyString
    (Some [Volume "src" (Some source_pvc) false; Volume "dst" (Some target_pvc) false])
    [Container "copy" "alpine"
       (Some ["sh"; "-c"; "apk add --no-cache rsync && rsync -a /old/ /new/ && sleep 2"])
       None None (Some [("/old", "src"); ("/new", "dst")])]
    "Never" None [].

(** The [pod_name] of [copy_data_with_pod]. *)
Definition pivot_pod_name (prefix source_pvc : string) : string :=
  prefix +:+ "-" +:+ str_take 20 source_pvc.

Definition copy_data_with_pod (namespace source_pvc target_pvc prefix : string)
    (dry_run : bool) : M unit :=
  let pod_name := pivot_pod_name prefix source_pvc in
  if dry_run then
    print ("[DRY-RUN] Would create pivot pod '" +:+ pod_name +:+ "' to copy "
           +:+ source_pvc +:+ " -> " +:+ target_pvc +:+ ".")
  else
    v1.create_namespaced_pod namespace pod_name (pod_body source_pvc target_pvc);;
    print ("[~] Pivot pod '" +:+ pod_name +:+ "' created. Waiting for it to finish...");;
    (* Wait loop *)
    fuel ← gets (pod_polls pod_name);
    while_true fuel (
      phase ← v1.read_namespaced_pod pod_name namespace;
      if finished phase then
        print ("[✓] Pivot pod finished with status: " +:+ phase_str phase);;
        mret (Some tt)
      else
        time_sleep 2;;
        mret None);;
    (* Delete the pivot pod *)
    v1.delete_namespaced_pod pod_name namespace;;
    print ("[x] Deleted pivot pod '" +:+ pod_name +:+ "'.").

(** The body of the loop of [phase_one] over the claims found. *)
Definition pivot_to_temp (ns target_sc : string) (dry_run : bool)
    (pivot_info : list PivotRecord) (pvc : PVC) : M (list PivotRecord) :=
  let old_name := pvc.1 in
  let size := storage pvc.2 in
  let access_modes := access_modes pvc.2 in
  let temp_name := old_name +:+ "-temp" in
  print (nl +:+ "[>] Migrating '" +:+ old_name +:+ "' → temp '" +:+ temp_name +:+ "'");;
  create_pvc ns temp_name target_sc size access_modes dry_run;;
  copy_data_with_pod ns old_name temp_name "pivot1" dry_run;;
  mret (pivot_info ++ [mkPivot old_name temp_name size access_modes]).

Definition phase_one (args : Args) : M unit :=
  let origin_sc := origin_sc args in
  let target_sc := target_sc args in
  let ns := namespace args in
  let dry_run := dry_run args in
  let meta_path := metadata_file args in
  (* 1) Find matching PVCs *)
  old_pvcs ← list_pvcs_in_storageclass ns origin_sc;
  match old_pvcs with
  | [] =>
      print ("[!] No PVCs found in '" +:+ ns +:+ "' with SC '" +:+ origin_sc
             +:+ "'. Nothing to do.")
  | _ =>
      print ("[=] Found " +:+ pretty (length old_pvcs) +:+ " PVC(s) in '" +:+ ns
             +:+ "' using SC '" +:+ origin_sc +:+ "'. Starting Phase 1.");;
      (* 2) For each, create temp + copy *)
      pivot_info ← for_fold old_pvcs [] (pivot_to_temp ns target_sc dry_run);
      (* 3) Write pivot metadata *)
      when (negb dry_run && bool_decide (pivot_info ≠ []))
        (write_file meta_path (JsonPivot "access_modes" pivot_info);;
         print ("[+] Wrote pivot metadata to '" +:+ meta_path +:+ "'"));;
      print (nl +:+ "[!] Phase 1 complete. Please manually delete the old PVC(s) in the cluster.");;
      print ("    After that, run this script again with `--recreate` to finalize the migration to '"
             +:+ target_sc +:+ "'." +:+ nl)
  end.

(** The loop of [phase_two] over the loaded records. *)
Definition recreate_entry (ns target_sc : string) (dry_run preserve_temp : bool)
    (entry : PivotRecord) : M unit :=
  let old_name := r_old_name entry in
  let temp_name := r_temp_name entry in
  let size := r_size entry in
  let access_modes := r_modes entry in
  print (nl +:+ "[>] Recreating old PVC '" +:+ old_name +:+ "' in SC '" +:+ target_sc
         +:+ "' from temp '" +:+ temp_name +:+ "'");;
  (* 1) Create final PVC with old_name *)
  create_pvc ns old_name target_sc size access_modes dry_run;;
  (* 2) Copy temp->old *)
  copy_data_with_pod ns temp_name old_name "pivot2" dry_run;;
  (* 3) Possibly delete the temp *)
  if negb preserve_temp then
    if dry_run then
      print ("[DRY-RUN] Would delete temp PVC '" +:+ temp_name +:+ "'")
    else
      v1.delete_namespaced_persistent_volume_claim temp_name ns;;
      print ("[x] Deleted temp PVC '" +:+ temp_name +:+ "'")
  else
    print ("[~] Preserving temp PVC '" +:+ temp_name +:+ "' as requested by --preserve-temp").

Definition phase_two (args : Args) : M unit :=
  let target_sc := target_sc args in
  let ns := namespace args in
  let dry_run := dry_run args in
  let meta_path := metadata_file args in
  let preserve_temp := preserve_temp args in
  present ← os_path_exists meta_path;
  if negb present then
    print ("[!] Metadata file '" +:+ meta_path +:+ "' not found. Cannot proceed with --recreate.")
  else
    loaded ← read_file meta_path;
    match loaded with
    | JsonPivot _ [] | JsonScale [] =>
        print "[!] Metadata is empty. Nothing to recreate."
    | JsonPivot modes_key pivot_info =>
        print ("[=] Found " +:+ pretty (length pivot_info) +:+ " pivot records in '"
               +:+ meta_path +:+ "'. Starting Phase 2.");;
        for_each pivot_info (λ entry,
          if bool_decide (modes_key = "access_modes")
          then recreate_entry ns target_sc dry_run preserve_temp entry
          else raise (KeyError "access_modes"));;
        (* Cleanup metadata file *)
        when (negb dry_run)
          (os_remove meta_path;;
           print ("[~] Removed metadata file '" +:+ meta_path +:+ "'"));;
        print (nl +:+ "[✓] Phase 2 complete. Your PVCs now exist under their original names in the new storage class.")
    | JsonScale backups =>
        print ("[=] Found " +:+ pretty (length backups) +:+ " pivot records in '"
               +:+ meta_path +:+ "'. Starting Phase 2.");;
        raise TypeError
    | Yaml _ | Text _ => raise ValueError
    end.

Definition main (args : Args) : M unit :=
  if recreate args then phase_two args else phase_one args.

End All.

(** * double_pivot_safe.py *)

Module Safe.

Record Args := mkArgs {
  origin_sc : string;
  target_sc : string;
  namespace : string;
  recreate : bool;
  dry_run : bool;
  set_replica_0 : bool
}.

Definition DEFAULT_METADATA_FILE : string := "double_pivot_metadata.json".
Definition SCALE_TRACK_FILE : string := "workload_scale_backup.json".

Definition list_pvcs (namespace storage_class : string) : M (list PVC) :=
  all_pvcs ← v1.list_namespaced_persistent_volume_claim namespace;
  mret (filter (λ p : PVC, storage_class_name p.2 = Some storage_class) all_pvcs).

Definition create_pvc (namespace name storage_class size : string)
    (access_modes : list string) (dry_run : bool) : M unit :=
  if dry_run then
    print ("[DRY-RUN] Create PVC '" +:+ name +:+ "' in SC '" +:+ storage_class
           +:+ "' (" +:+ size +:+ ")")
  else
    let body := PvcSpec (Some storage_class) size access_modes None in
    try_except
      (v1.create_namespaced_persistent_volume_claim namespace name body;;
       print ("[+] Created PVC '" +:+ name +:+ "'"))
      (λ e, match e with
            | ApiException 409 =>
                print ("[!] PVC '" +:+ name +:+ "' already exists. Skipping creation.")
            | _ => raise e
            end).

(** The class [a-z0-9\-]. *)
Definition allowed (c : ascii) : bool :=
  let n := nat_of_ascii c in
  ((97 <=? n) && (n <=? 122)) || ((48 <=? n) && (n <=? 57)) || (n =? 45).

(** [re.sub(r'[^a-z0-9\-]', '', s)] *)
Fixpoint strip_disallowed (s : string) : string :=
  match s with
  | EmptyString => EmptyString
  | String c s' => if allowed c then String c (strip_disallowed s') else strip_disallowed s'
  end.

(** [s.rstrip('-')] *)
Fixpoint rstrip_dash (s : string) : string :=
  match s with
  | EmptyString => EmptyString
  | String c s' =>
      match rstrip_dash s' with
      | EmptyString => if (nat_of_ascii c =? 45) then EmptyString else String c EmptyString
      | rest => String c rest
      end
  end.

Definition sanitize_pod_name (name prefix : string) : string :=
  let base := rstrip_dash (str_take 20 (strip_disallowed (lower name))) in
  prefix +:+ "-" +:+ base.

Definition pod_body (src dst : string) : pod :=
  Pod EmptyString
    (Some [Volume "src" (Some src) false; Volume "dst" (Some dst) false])
    [Container "copy" "alpine"
       (Some ["sh"; "-c"; "apk add rsync && rsync -a /old/ /new/ && sleep 2"])
       None None (Some [("/old", "src"); ("/new", "dst")])]
    "Never" None [].

Definition copy_data (namespace src dst prefix : string) (dry_run : bool) : M unit :=
  let pod_name := sanitize_pod_name src prefix in
  if dry_run then
    print ("[DRY-RUN] Copy data " +:+ src +:+ " -> " +:+ dst +:+ " via pod " +:+ pod_name)
  else
    v1.create_namespaced_pod namespace pod_name (pod_body src dst);;
    print ("[~] Waiting for pod '" +:+ pod_name +:+ "'...");;
    fuel ← gets (pod_polls pod_name);
    while_true fuel (
      p ← v1.read_namespaced_pod pod_name namespace;
      if finished p then
        mret (Some tt)
      else
        time_sleep 2;;
        mret None);;
    v1.delete_namespaced_pod pod_name namespace;;
    print ("[x] Deleted pivot pod '" +:+ pod_name +:+ "'").

(** *** Workload scale helpers *)

(** The three branches of [match_pvc_template] read the same list in this
    model: the volumes of the pod template. *)
Definition match_pvc_template (pvc_names : list string) (workload : Workload_item) : bool :=
  let volumes := py_or (volumes workload.2) [] in
  existsb (claims_one_of pvc_names) volumes.

(** The [found_match] computed for a StatefulSet. *)
Definition match_stateful_set (pvc_names : list string) (sts : Workload_item) : bool :=
  let volume_claim_names := vct_name <$> py_or (volume_claim_templates sts.2) [] in
  existsb (λ pvc_name,
    existsb (λ vct_name,
      String.prefix (vct_name +:+ "-" +:+ sts.1 +:+ "-") pvc_name) volume_claim_names)
    pvc_names
  || existsb (claims_one_of pvc_names) (py_or (volumes sts.2) []).

Definition detect_and_scale_down (namespace : string) (pvc_names : list string)
    (dry_run : bool) : M (list (string * ScaleEntry)) :=
  let replicas_backup : list (string * ScaleEntry) := [] in
  deployments ← apps_v1.list_namespaced_deployment namespace;
  statefulsets ← apps_v1.list_namespaced_stateful_set namespace;
  replicasets ← apps_v1.list_namespaced_replica_set namespace;
  daemonsets ← apps_v1.list_namespaced_daemon_set namespace;
  cronjobs ← batch_v1.list_namespaced_cron_job namespace;
  jobs ← batch_v1.list_namespaced_job namespace;

  replicas_backup ← for_fold deployments replicas_backup (λ replicas_backup deploy,
    if match_pvc_template pvc_names deploy then
      print ("[=] Scaling down Deployment '" +:+ deploy.1 +:+ "'...");;
      match replicas deploy.2 with
      | None => raise TypeError
      | Some replicas =>
          when (0 <? replicas)
            (if dry_run then
               print ("[DRY-RUN] Would scale Deployment '" +:+ deploy.1 +:+ "' to 0")
             else
               apps_v1.patch_namespaced_deployment_scale deploy.1 namespace
                 (ReplicasPatch (VInt 0)));;
          mret (dict_set (uid deploy.2) ("Deployment", deploy.1, VInt replicas) replicas_backup)
      end
    else mret replicas_backup);

  replicas_backup ← for_fold replicasets replicas_backup (λ replicas_backup rs,
    if match_pvc_template pvc_names rs then
      let replicas := py_or (replicas rs.2) 0 in
      print ("[=] Scaling down ReplicaSet '" +:+ rs.1 +:+ "'...");;
      when (0 <? replicas)
        (if dry_run then
           print ("[DRY-RUN] Would scale ReplicaSet '" +:+ rs.1 +:+ "' to 0")
         else
           apps_v1.patch_namespaced_replica_set_scale rs.1 namespace
             (ReplicasPatch (VInt 0)));;
      mret (dict_set (uid rs.2) ("ReplicaSet", rs.1, VInt replicas) replicas_backup)
    else mret replicas_backup);

  replicas_backup ← for_fold statefulsets replicas_backup (λ replicas_backup sts,
    if match_stateful_set pvc_names sts then
      print ("[=] Scaling down StatefulSet '" +:+ sts.1 +:+ "'...");;
      match replicas sts.2 with
      | None => raise TypeError
      | Some replicas =>
          when (0 <? replicas)
            (if dry_run then
               print ("[DRY-RUN] Would scale StatefulSet '" +:+ sts.1 +:+ "' to 0")
             else
               apps_v1.patch_namespaced_stateful_set_scale sts.1 namespace
                 (ReplicasPatch (VInt 0)));;
          mret (dict_set (uid sts.2) ("StatefulSet", sts.1, VInt replicas) replicas_backup)
      end
    else mret replicas_backup);

  replicas_backup ← for_fold daemonsets replicas_backup (λ replicas_backup ds,
    if match_pvc_template pvc_names ds then
      print ("[=] Pausing DaemonSet '" +:+ ds.1 +:+ "' (nodeSelector patch)...");;
      (if dry_run then
         print ("[DRY-RUN] Would patch DaemonSet '" +:+ ds.1 +:+ "' with nodeSelector")
       else
         let patch_body := NodeSelectorPatch (Some [("migration-paused", "true")]) in
         apps_v1.patch_namespaced_daemon_set ds.1 namespace patch_body);;
      mret (dict_set (uid ds.2) ("DaemonSet", ds.1, VStr "patched") replicas_backup)
    else mret replicas_backup);

  replicas_backup ← for_fold cronjobs replicas_backup (λ replicas_backup cj,
    if match_pvc_template pvc_names cj then
      print ("[=] Suspending CronJob '" +:+ cj.1 +:+ "'...");;
      (if dry_run then
         print ("[DRY-RUN] Would suspend CronJob '" +:+ cj.1 +:+ "'")
       else
         batch_v1.patch_namespaced_cron_job cj.1 namespace (SuspendPatch true));;
      mret (dict_set (uid cj.2) ("CronJob", cj.1, VBool true) replicas_backup)
    else mret replicas_backup);

  replicas_backup ← for_fold jobs replicas_backup (λ replicas_backup job,
    if match_pvc_template pvc_names job then
      print ("[=] Deleting active Job '" +:+ job.1 +:+ "'...");;
      (if dry_run then
         print ("[DRY-RUN] Would delete Job '" +:+ job.1 +:+ "'")
       else
         batch_v1.delete_namespaced_job job.1 namespace);;
      mret (dict_set (uid job.2) ("Job", job.1, VStr "deleted") replicas_backup)
    else mret replicas_backup);

  when (negb dry_run)
    (write_file SCALE_TRACK_FILE (JsonScale replicas_backup));;

  mret replicas_backup.

(** *** Main logic *)

(** The body of the loop of [scale_back_up]. *)
Definition restore_entry (namespace : string) (dry_run : bool)
    (item : string * ScaleEntry) : M unit :=
  let '(uid, (kind, name, value)) := item in
  if bool_decide (kind = "Deployment") then
    print ("[+] Restoring Deployment '" +:+ name +:+ "' to replicas=" +:+ value_str value);;
    if dry_run then
      print ("[DRY-RUN] Would scale Deployment '" +:+ name +:+ "' to " +:+ value_str value)
    else
      apps_v1.patch_namespaced_deployment_scale name namespace (ReplicasPatch value)
  else if bool_decide (kind = "ReplicaSet") then
    print ("[+] Restoring ReplicaSet '" +:+ name +:+ "' to replicas=" +:+ value_str value);;
    if dry_run then
      print ("[DRY-RUN] Would scale ReplicaSet '" +:+ name +:+ "' to " +:+ value_str value)
    else
      apps_v1.patch_namespaced_replica_set_scale name namespace (ReplicasPatch value)
  else if bool_decide (kind = "StatefulSet") then
    print ("[+] Restoring StatefulSet '" +:+ name +:+ "' to replicas=" +:+ value_str value);;
    if dry_run then
      print ("[DRY-RUN] Would scale StatefulSet '" +:+ name +:+ "' to " +:+ value_str value)
    else
      apps_v1.patch_namespaced_stateful_set_scale name namespace (ReplicasPatch value)
  else if bool_decide (kind = "DaemonSet") then
    print ("[+] Unpausing DaemonSet '" +:+ name +:+ "' (removing nodeSelector)");;
    if dry_run then
      print ("[DRY-RUN] Would unpatch DaemonSet '" +:+ name +:+ "'")
    else
      apps_v1.patch_namespaced_daemon_set name namespace (NodeSelectorPatch None)
  else if bool_decide (kind = "CronJob") then
    print ("[+] Resuming CronJob '" +:+ name +:+ "'...");;
    if dry_run then
      print ("[DRY-RUN] Would resume CronJob '" +:+ name +:+ "'")
    else
      batch_v1.patch_namespaced_cron_job name namespace (SuspendPatch false)
  else if bool_decide (kind = "Job") then
    print ("[~] Job '" +:+ name +:+ "' was deleted earlier and will not be resumed")
  else mret tt.

Definition scale_back_up (namespace : string) (dry_run : bool) : M unit :=
  present ← os_path_exists SCALE_TRACK_FILE;
  if negb present then
    print "[!] No scale backup file found. Cannot restore replicas."
  else
    loaded ← read_file SCALE_TRACK_FILE;
    match loaded with
    | JsonScale backups =>
        for_each backups (restore_entry namespace dry_run);;
        when (negb dry_run) (os_remove SCALE_TRACK_FILE)
    | JsonPivot _ _ => raise AttributeError      (* a list has no [items] *)
    | Yaml _ | Text _ => raise ValueError
    end.

(** *** Main execution *)

(** The body of the phase-2 loop of [main]. *)
Definition recreate_record (ns target_sc modes_key : string) (dry_run : bool)
    (r : PivotRecord) : M unit :=
  when (negb dry_run)
    (try_except
       (v1.delete_namespaced_persistent_volume_claim (r_old_name r) ns;;
        print ("[x] Deleted original PVC '" +:+ r_old_name r +:+ "'");;
        time_sleep 2)
       (λ e, match e with
             | ApiException _ =>
                 print ("[!] Could not delete original PVC '" +:+ r_old_name r +:+ "': "
                        +:+ exn_str e)
             | _ => raise e
             end));;
  (if bool_decide (modes_key = "modes")
   then create_pvc ns (r_old_name r) target_sc (r_size r) (r_modes r) dry_run
   else raise (KeyError "modes"));;
  copy_data ns (r_temp_name r) (r_old_name r) "pivot2" dry_run;;
  when (negb dry_run)
    (try_except
       (v1.delete_namespaced_persistent_volume_claim (r_temp_name r) ns;;
        print ("[x] Deleted temp PVC '" +:+ r_temp_name r +:+ "'"))
       (λ e, match e with
             | ApiException _ =>
                 print ("[!] Could not delete temp PVC '" +:+ r_temp_name r +:+ "': "
                        +:+ exn_str e)
             | _ => raise e
             end)).

(** The body of the phase-1 loop of [main]. *)
Definition pivot_to_temp (ns target_sc : string) (dry_run : bool)
    (metadata : list PivotRecord) (pvc : PVC) : M (list PivotRecord) :=
  let old_name := pvc.1 in
  let temp_name := old_name +:+ "-temp" in
  let size := storage pvc.2 in
  let modes := access_modes pvc.2 in
  create_pvc ns temp_name target_sc size modes dry_run;;
  copy_data ns old_name temp_name "pivot1" dry_run;;
  mret (metadata ++ [mkPivot old_name temp_name size modes]).

Definition main (args : Args) : M unit :=
  let ns := namespace args in
  if negb (recreate args) then
    pvcs ← list_pvcs ns (origin_sc args);
    match pvcs with
    | [] => print ("[!] No PVCs found in SC '" +:+ origin_sc args +:+ "'")
    | _ =>
        let pvc_names := (λ p : PVC, p.1) <$> pvcs in
        when (set_replica_0 args)
          (print "[=] Scaling workloads using these PVCs to 0 before starting...";;
           detect_and_scale_down ns pvc_names (dry_run args);;
           mret tt);;
        metadata ← for_fold pvcs [] (pivot_to_temp ns (target_sc args) (dry_run args));
        when (negb (dry_run args))
          (write_file DEFAULT_METADATA_FILE (JsonPivot "modes" metadata);;
           print "[~] Phase 1 complete. Delete old PVCs and run with --recreate")
    end
  else
    present ← os_path_exists DEFAULT_METADATA_FILE;
    if negb present then
      print "[!] No metadata found"
    else
      loaded ← read_file DEFAULT_METADATA_FILE;
      match loaded with
      | JsonPivot modes_key records =>
          for_each records (recreate_record ns (target_sc args) modes_key (dry_run args));;
          scale_back_up ns (dry_run args);;
          when (negb (dry_run args)) (os_remove DEFAULT_METADATA_FILE)
      | JsonScale [] =>
          scale_back_up ns (dry_run args);;
          when (negb (dry_run args)) (os_remove DEFAULT_METADATA_FILE)
      | JsonScale _ => raise TypeError      (* the keys of a dict are strings *)
      | Yaml _ | Text _ => raise ValueError
      end.

End Safe.

(** * moveStorage.py *)

Module MoveStorage.

Record Args := mkArgs {
  origin : string;
  target : string;
  namespace : string;
  dry_run : bool;
  prefer_snapshot : bool;
  export_pods : bool;
  delete_pvc : bool;
  copy_only : bool
}.

Definition MANIFEST_DIR : string := "manifests".
Definition POST_SCRIPT_PATH : string := MANIFEST_DIR +:+ "/post-migrate.sh".

(** The statements the module runs when it is loaded. *)
Definition module_init : M unit :=
  write_file POST_SCRIPT_PATH
    (Text ["#!/bin/bash" +:+ nl;
           "echo '[INFO] Running post-migration script'" +:+ nl +:+ nl]);;
  modify (with_report (λ _, Report [] [] [] [] [] [] [])).

(** [dry_run_report[...].append(x)] for each of its lists. *)
Definition report_pvcs_found (x : string) : M unit :=
  modify (with_report (λ r, Report (pvcs_found r ++ [x]) (new_pvcs r) (pivot_pods r)
    (snapshots_used r) (workloads_patched r) (pvcs_deleted r) (pod_manifests r))).
Definition report_new_pvcs (x : string) : M unit :=
  modify (with_report (λ r, Report (pvcs_found r) (new_pvcs r ++ [x]) (pivot_pods r)
    (snapshots_used r) (workloads_patched r) (pvcs_deleted r) (pod_manifests r))).
Definition report_pivot_pods (x : string) : M unit :=
  modify (with_report (λ r, Report (pvcs_found r) (new_pvcs r) (pivot_pods r ++ [x])
    (snapshots_used r) (workloads_patched r) (pvcs_deleted r) (pod_manifests r))).
Definition report_snapshots_used (x : string) : M unit :=
  modify (with_report (λ r, Report (pvcs_found r) (new_pvcs r) (pivot_pods r)
    (snapshots_used r ++ [x]) (workloads_patched r) (pvcs_deleted r) (pod_manifests r))).
Definition report_workloads_patched (x : string) : M unit :=
  modify (with_report (λ r, Report (pvcs_found r) (new_pvcs r) (pivot_pods r)
    (snapshots_used r) (workloads_patched r ++ [x]) (pvcs_deleted r) (pod_manifests r))).
Definition report_pvcs_deleted (x : string) : M unit :=
  modify (with_report (λ r, Report (pvcs_found r) (new_pvcs r) (pivot_pods r)
    (snapshots_used r) (workloads_patched r) (pvcs_deleted r ++ [x]) (pod_manifests r))).
Definition report_pod_manifests (x : string) : M unit :=
  modify (with_report (λ r, Report (pvcs_found r) (new_pvcs r) (pivot_pods r)
    (snapshots_used r) (workloads_patched r) (pvcs_deleted r) (pod_manifests r ++ [x]))).

Definition get_pvcs_by_storage_class (namespace storage_class : string) : M (list PVC) :=
  pvcs ← v1.list_namespaced_persistent_volume_claim namespace;
  mret (filter (λ pvc : PVC, storage_class_name pvc.2 = Some storage_class) pvcs).

(** The [for] loop of [get_snapshot_class_for_storage_class]. *)
Fixpoint first_usable_class (storage_class_name : string)
    (snapshot_classes : list snapshot_class) : option string :=
  match snapshot_classes with
  | [] => None
  | sc :: rest =>
      if bool_decide (deletionPolicy sc = Some "Delete")
         && str_contains storage_class_name (py_or (driver sc) EmptyString)
      then Some (sc_name sc)
      else first_usable_class storage_class_name rest
  end.

Definition get_snapshot_class_for_storage_class (storage_class_name : string)
    : M (option string) :=
  try_except
    (snapshot_classes ← custom_api.list_cluster_custom_object;
     mret (first_usable_class storage_class_name snapshot_classes))
    (λ e,
       print ("[!] Snapshot detection failed: " +:+ exn_str e);;
       mret None).

Definition create_volume_snapshot (namespace pvc_name snapshot_class_name : string)
    (dry_run : bool) : M string :=
  let snapshot_name := pvc_name +:+ "-snap" in
  if dry_run then
    print ("[DRY-RUN] Would create VolumeSnapshot '" +:+ snapshot_name +:+ "' for PVC '"
           +:+ pvc_name +:+ "' using class '" +:+ snapshot_class_name +:+ "'");;
    report_snapshots_used snapshot_name;;
    mret snapshot_name
  else
    let snapshot_body := Snapshot snapshot_class_name pvc_name [] in
    custom_api.create_namespaced_custom_object namespace snapshot_name snapshot_body;;
    print ("[+] Created snapshot: " +:+ snapshot_name);;
    (* Wait for snapshot to be ready *)
    fuel ← gets (snapshot_polls snapshot_name);
    while_true fuel (
      snap ← custom_api.get_namespaced_custom_object namespace snapshot_name;
      match snap with
      | NoStatus => raise (KeyError "status")
      | ReadyToUse (Some true) => mret (Some tt)
      | ReadyToUse _ => time_sleep 2;; mret None
      end);;
    mret snapshot_name.

(** [s.replace('_', '-')] *)
Fixpoint underscores_to_dashes (s : string) : string :=
  match s with
  | EmptyString => EmptyString
  | String c s' =>
      String (if nat_of_ascii c =? 95 then ascii_of_nat 45 else c) (underscores_to_dashes s')
  end.

Definition create_new_pvc (old_pvc : PVC) (target_storage_class namespace : string)
    (dry_run : bool) (snapshot_name : option string) : M string :=
  let clean_sc := underscores_to_dashes (lower target_storage_class) in
  let new_pvc_name := old_pvc.1 +:+ "-" +:+ clean_sc in
  if dry_run then
    print ("[DRY-RUN] Would create new PVC: " +:+ new_pvc_name +:+ " with storageClass '"
           +:+ target_storage_class +:+ "'");;
    report_new_pvcs new_pvc_name;;
    mret new_pvc_name
  else
    let pvc_spec :=
      if truthy snapshot_name then
        PvcSpec (Some target_storage_class) (storage old_pvc.2) (access_modes old_pvc.2)
                snapshot_name
      else
        PvcSpec (Some target_storage_class) (storage old_pvc.2) (access_modes old_pvc.2)
                None in
    v1.create_namespaced_persistent_volume_claim namespace new_pvc_name pvc_spec;;
    print ("[+] Created new PVC: " +:+ new_pvc_name);;
    mret new_pvc_name.

Definition pod_manifest (source_pvc target_pvc : string) : pod :=
  Pod EmptyString
    (Some [Volume "source" (Some source_pvc) false; Volume "target" (Some target_pvc) false])
    [Container "copy" "alpine"
       (Some ["sh"; "-c"; "apk add --no-cache rsync && rsync -a /old/ /new/ && sleep 2"])
       None None (Some [("/old", "source"); ("/new", "target")])]
    "Never" None [].

(** The [pod_name] of [create_pivot_pod]. *)
Definition pivot_pod_name (source_pvc : string) : string :=
  "pivot-copy-" +:+ str_take 20 source_pvc.

Definition create_pivot_pod (namespace source_pvc target_pvc : string)
    (dry_run : bool) : M unit :=
  let pod_name := pivot_pod_name source_pvc in
  if dry_run then
    print ("[DRY-RUN] Would create pivot pod '" +:+ pod_name +:+ "' to copy data from '"
           +:+ source_pvc +:+ "' to '" +:+ target_pvc +:+ "'");;
    report_pivot_pods pod_name
  else
    v1.create_namespaced_pod namespace pod_name (pod_manifest source_pvc target_pvc);;
    print ("[~] Pivot pod '" +:+ pod_name +:+ "' created. Waiting for copy to finish...");;
    (* Wait for pivot to finish *)
    fuel ← gets (pod_polls pod_name);
    pod_status ← while_true fuel (
      pod_status ← v1.read_namespaced_pod pod_name namespace;
      if finished pod_status then
        mret (Some pod_status)
      else
        time_sleep 2;;
        mret None);
    print ("[✓] Pivot pod finished with status: " +:+ phase_str pod_status);;
    v1.delete_namespaced_pod pod_name namespace.

(** *** Export minimal Pod manifest *)

Definition post_script_lines (pod_name namespace : string) : list string :=
  ["echo 'Deleting old pod: " +:+ pod_name +:+ "'" +:+ nl;
   "kubectl delete pod " +:+ pod_name +:+ " -n " +:+ namespace
     +:+ " --ignore-not-found=true" +:+ nl;
   "echo 'Applying pod: " +:+ pod_name +:+ "'" +:+ nl;
   "kubectl apply -f " +:+ pod_name +:+ ".yaml -n " +:+ namespace +:+ nl +:+ nl].

Definition append_post_script (pod_name namespace : string) : M unit :=
  append_file POST_SCRIPT_PATH (post_script_lines pod_name namespace).

(** An attribute that is unset or empty is left out of the manifest. *)
Definition if_set {A} (x : option (list A)) : option (list A) :=
  match x with
  | Some (_ :: _) => x
  | _ => None
  end.

Definition export_pod_manifest (pod : string * pod) (new_pvc_name : string) : M unit :=
  let pod_name := pod.1 in
  let namespace := pod_namespace pod.2 in
  match pod_volumes pod.2 with
  | None => raise TypeError
  | Some volumes =>
      (* 1) Skip injected serviceaccount volumes; 2) keep the claims *)
      let kept := filter (λ vol,
        ¬ (projected vol = true ∧ String.prefix "kube-api-access" (vol_name vol) = true)
        ∧ is_Some (persistent_volume_claim vol)) volumes in
      let clean_volumes := (λ vol, (vol_name vol, new_pvc_name)) <$> kept in
      let valid_volume_names := vol_name <$> kept in
      let clean_containers := (λ container,
        Container (c_name container) (image container)
          (if_set (command container))
          (if_set (args container))
          (if_set (ports container))
          ((λ mounts, filter (λ m : string * string, m.2 ∈ valid_volume_names) mounts)
             <$> if_set (volume_mounts container))) <$> containers pod.2 in
      let pod_manifest := Manifest pod_name namespace clean_volumes clean_containers in
      let path := MANIFEST_DIR +:+ "/" +:+ pod_name +:+ ".yaml" in
      write_file path (Yaml pod_manifest);;
      (* Append to post-migrate script *)
      append_file POST_SCRIPT_PATH (post_script_lines pod_name namespace);;
      report_pod_manifests path
  end.

(** *** Patch Deployments / DaemonSets / etc., plus handle bare Pods *)

(** [vct.spec.storage_class_name = cls] on the i-th template of the local
    copy of the workload. *)
Definition set_template_class (i : nat) (cls : string) (obj : workload) : workload :=
  Workload (uid obj) (replicas obj) (volumes obj)
    (alter (λ vct, ClaimTemplate (vct_name vct) (Some cls)) i <$> volume_claim_templates obj)
    (node_selector obj) (suspend obj).

(** [pvc_claim.claim_name = name] on the i-th volume of the local copy. *)
Definition set_claim_name (i : nat) (name : string) (obj : workload) : workload :=
  Workload (uid obj) (replicas obj)
    (alter (λ vol, Volume (vol_name vol) (Some name) (projected vol)) i <$> volumes obj)
    (volume_claim_templates obj) (node_selector obj) (suspend obj).

Definition enumerate {A} (l : list A) : list (nat * A) := zip (seq 0 (length l)) l.

(** The loop over [workload.spec.template.spec.volumes]; its two copies in
    the source print the same lines. *)
Definition patch_volumes (kind : string)
    (patch_func : string → string → patch → M unit)
    (namespace old_pvc_name new_pvc_name : string) (dry_run : bool)
    (name : string) (st : workload * bool) : M (workload * bool) :=
  let volumes := py_or (volumes st.1) [] in
  for_fold (enumerate volumes) st (λ '(workload, updated) '(i, vol),
    if bool_decide (persistent_volume_claim vol = Some old_pvc_name) then
      if dry_run then
        print ("[DRY-RUN] Would patch " +:+ kind +:+ ": " +:+ name +:+ " to use PVC '"
               +:+ new_pvc_name +:+ "'");;
        report_workloads_patched (kind +:+ ":" +:+ name);;
        mret (workload, true)
      else
        let workload := set_claim_name i new_pvc_name workload in
        patch_func name namespace (ObjectPatch workload);;
        print ("[~] Patched " +:+ kind +:+ ": " +:+ name);;
        mret (workload, true)
    else mret (workload, updated)).

(** The loop over [workload.spec.volume_claim_templates] of a StatefulSet. *)
Definition patch_templates
    (patch_func : string → string → patch → M unit)
    (namespace : string) (old_sc : option string) (new_pvc_name : string) (dry_run : bool)
    (name : string) (st : workload * bool) : M (workload * bool) :=
  let vct_list := py_or (volume_claim_templates st.1) [] in
  for_fold (enumerate vct_list) st (λ '(workload, updated) '(i, vct),
    if bool_decide (vct_storage_class_name vct = old_sc) then
      if dry_run then
        print ("[DRY-RUN] Would patch StatefulSet '" +:+ name +:+ "' volumeClaimTemplate '"
               +:+ vct_name vct +:+ "' from '" +:+ py_or old_sc "None"
               +:+ "' to the new StorageClass.");;
        report_workloads_patched ("StatefulSet:" +:+ name);;
        mret (workload, true)
      else
        let workload := set_template_class i new_pvc_name workload in
        patch_func name namespace (ObjectPatch workload);;
        print ("[~] Patched StatefulSet '" +:+ name +:+ "' volumeClaimTemplate from '"
               +:+ py_or old_sc "None" +:+ "' to '" +:+ new_pvc_name +:+ "'.");;
        mret (workload, true)
    else mret (workload, updated)).

(** An entry of [workload_types]: kind, list function, patch function. *)
Abbreviation workload_type :=
  (string * (string → M (list Workload_item)) * (string → string → patch → M unit))%type.

Definition patch_workload_using_pvc (namespace : string) (old_pvc : PVC)
    (new_pvc_name : string) (dry_run export_pods : bool) : M unit :=
  let old_pvc_name := old_pvc.1 in
  let old_sc := storage_class_name old_pvc.2 in
  let workload_types : list workload_type :=
    [("Deployment", apps_v1.list_namespaced_deployment, apps_v1.patch_namespaced_deployment);
     ("StatefulSet", apps_v1.list_namespaced_stateful_set, apps_v1.patch_namespaced_stateful_set);
     ("DaemonSet", apps_v1.list_namespaced_daemon_set, apps_v1.patch_namespaced_daemon_set)] in
  let found := false in
  (* 1) Patch known workload controllers *)
  found ← for_fold workload_types found
    (λ (found : bool) '((kind, list_func, patch_func) : workload_type),
      workloads ← list_func namespace;
      for_fold workloads found (λ (found : bool) (item : Workload_item),
        let name := item.1 in
        let st : workload * bool := (item.2, false) in
        st ← (if bool_decide (kind = "StatefulSet") then
                st ← patch_templates patch_func namespace old_sc new_pvc_name dry_run name st;
                patch_volumes kind patch_func namespace old_pvc_name new_pvc_name dry_run name st
              else
                patch_volumes kind patch_func namespace old_pvc_name new_pvc_name dry_run name st);
        mret (if (st.2 : bool) then true else found)));
  (* 2) Check for truly standalone Pods (no higher-level controller) *)
  all_pods ← v1.list_namespaced_pod namespace;
  found ← for_fold all_pods found (λ found (pod : string * pod),
    if existsb id (py_or (owner_references pod.2) []) then
      mret found
    else
      let volumes := py_or (pod_volumes pod.2) [] in
      if existsb (λ vol, bool_decide (persistent_volume_claim vol = Some old_pvc_name)) volumes
      then
        (if dry_run then
           print ("[DRY-RUN] Standalone Pod '" +:+ pod.1 +:+ "' uses PVC '" +:+ old_pvc_name
                  +:+ "' — manual redeployment needed.");;
           report_workloads_patched ("Pod:" +:+ pod.1);;
           when export_pods (export_pod_manifest pod new_pvc_name)
         else
           print ("[!] Standalone Pod '" +:+ pod.1 +:+ "' uses PVC '" +:+ old_pvc_name
                  +:+ "', but can't be live-patched. Manual re-apply required.");;
           when export_pods (export_pod_manifest pod new_pvc_name));;
        mret true
      else mret found);
  when (negb found)
    (print ("[!] Warning: No workload found referencing PVC '" +:+ old_pvc_name
            +:+ "' or StorageClass '" +:+ py_or old_sc "None" +:+ "'")).

(** *** Delete old PVC (only if --delete-pvc is set) *)

Definition delete_old_pvc (namespace pvc_name : string) (dry_run delete_enabled : bool)
    : M unit :=
  if negb delete_enabled then
    print ("[SKIPPED] PVC deletion disabled for '" +:+ pvc_name
           +:+ "' (use --delete-pvc to enable)")
  else if dry_run then
    print ("[DRY-RUN] Would delete old PVC: " +:+ pvc_name);;
    report_pvcs_deleted pvc_name
  else
    v1.delete_namespaced_persistent_volume_claim pvc_name namespace;;
    print ("[x] Deleted old PVC: " +:+ pvc_name).

(** *** Main *)

(** The body of the loop of [main] over the claims found. *)
Definition migrate_pvc (args : Args) (pvc : PVC) : M unit :=
  let namespace := namespace args in
  print (nl +:+ "[>] Migrating PVC: " +:+ pvc.1);;
  report_pvcs_found pvc.1;;
  snapshot_name ←
    (if prefer_snapshot args then
       snapshot_class ← get_snapshot_class_for_storage_class (origin args);
       if truthy snapshot_class then
         print ("[~] Detected snapshot class '" +:+ py_or snapshot_class EmptyString
                +:+ "'. Creating snapshot.");;
         snapshot_name ← create_volume_snapshot namespace pvc.1
                            (py_or snapshot_class EmptyString) (dry_run args);
         mret (Some snapshot_name)
       else
         print "[!] No usable snapshot class found. Falling back to pivot copy.";;
         mret None
     else mret None);
  new_pvc_name ← create_new_pvc pvc (target args) namespace (dry_run args) snapshot_name;
  (* If no snapshot was used, do pivot copy *)
  when (negb (truthy snapshot_name))
    (create_pivot_pod namespace pvc.1 new_pvc_name (dry_run args));;
  (* If user wants only copy, skip patching + old PVC deletion *)
  if copy_only args then
    print "[~] Skipping workload patching and PVC deletion due to --copy-only."
  else
    patch_workload_using_pvc namespace pvc new_pvc_name (dry_run args) (export_pods args);;
    delete_old_pvc namespace pvc.1 (dry_run args) (delete_pvc args).

Definition main (args : Args) : M unit :=
  let namespace := namespace args in
  print ("[=] Scanning for PVCs in storage class '" +:+ origin args +:+ "' in namespace '"
         +:+ namespace +:+ "'");;
  pvcs ← get_pvcs_by_storage_class namespace (origin args);
  match pvcs with
  | [] =>
      print ("[!] No PVCs found with the specified origin storage class '" +:+ origin args
             +:+ "'. Nothing to do.")
  | _ =>
      for_each pvcs (migrate_pvc args);;
      (* Summaries *)
      if dry_run args then
        r ← gets report;
        print (nl +:+ "====== DRY-RUN SUMMARY ======");;
        print ("PVCs found:             " +:+ pretty (length (pvcs_found r)));;
        print ("New PVCs to create:     " +:+ pretty (length (new_pvcs r)));;
        print ("Snapshots to create:    " +:+ pretty (length (snapshots_used r)));;
        print ("Pivot pods to launch:   " +:+ pretty (length (pivot_pods r)));;
        print ("Workloads to patch:     " +:+ pretty (length (workloads_patched r)));;
        print ("PVCs to delete:         " +:+ pretty (length (pvcs_deleted r)));;
        print ("Pod manifests exported: " +:+ pretty (length (pod_manifests r)));;
        print "====== END OF DRY-RUN ======";;
        when (copy_only args)
          (print (nl +:+ "[!] NOTE: --copy-only was set. No workloads were patched or PVCs deleted."));;
        print (nl +:+ "[!] To apply new pods:" +:+ nl +:+ "  cd " +:+ MANIFEST_DIR
               +:+ " && chmod +x post-migrate.sh && ./post-migrate.sh")
      else
        print (nl +:+ "[✓] Migration completed successfully.")
  end.

(** Loading the module, then [main]. *)
Definition script (args : Args) : M unit :=
  module_init;;
  main args.

End MoveStorage.

(** * Vocabulary of the statements *)

(** Every step of [m] keeps the relation [R] between the world before and
    the world after. *)
Definition respects (R : relation world) {A} (m : M A) : Prop := ∀ w, R w (m w).2.

(** [w'] has the cluster of [w], and the calls issued in between mutate
    nothing. *)
Definition cluster_untouched (w w' : world) : Prop :=
  k8s w' = k8s w ∧
  ∃ t, trace w' = trace w ++ t ∧ Forall (λ e, mutation e = false) t.

Abbreviation harmless := (respects cluster_untouched).

(** One run of one of the three scripts. *)
Inductive invocation :=
| RunAll (args : All.Args)
| RunSafe (args : Safe.Args)
| RunMoveStorage (args : MoveStorage.Args).

Definition run (i : invocation) : M unit :=
  match i with
  | RunAll args => All.main args
  | RunSafe args => Safe.main args
  | RunMoveStorage args => MoveStorage.script args
  end.

Definition is_dry_run (i : invocation) : bool :=
  match i with
  | RunAll args => All.dry_run args
  | RunSafe args => Safe.dry_run args
  | RunMoveStorage args => MoveStorage.dry_run args
  end.

(** ** Example worlds *)

Definition no_cluster : cluster := Cluster ∅ ∅ ∅ ∅ ∅ ∅ ∅ ∅ None ∅.

Definition no_report : dry_run_report := Report [] [] [] [] [] [] [].

(** A world with cluster [c], no files, and a kubelet under which every pod
    goes through the phases [life]. *)
Definition world_of (c : cluster) (life : list pod_phase) : world :=
  World c ∅ [] (λ _, life) 0 (λ _, []) no_report.

Definition data_pvc : pvc_spec := PvcSpec (Some "old-sc") "10Gi" ["ReadWriteOnce"] None.

(** One claim, [data-pvc], in the origin class [old-sc]. *)
Definition data_cluster : cluster := with_pvcs (insert "data-pvc" data_pvc) no_cluster.

(** A string of lower-case letters, digits and dashes only. *)
Fixpoint all_allowed (s : string) : bool :=
  match s with
  | EmptyString => true
  | String c s' => Safe.allowed c && all_allowed s'
  end.

(** The phase in which a pod with the given life settles, if it does. *)
Fixpoint terminal_phase (life : list pod_phase) : option pod_phase :=
  match life with
  | [] => None
  | ph :: rest => if finished ph then Some ph else terminal_phase rest
  end.

(** [w'] differs from [w] at most in the pod [name], in the calls made and
    in the number of pods started. *)
Definition pod_only (name : string) (w w' : world) : Prop :=
  with_pods (delete name) (k8s w') = with_pods (delete name) (k8s w) ∧ fs w' = fs w.

(** The exit status of the interpreter: 0 when [main] returns, 1 when an
    exception escapes it. *)
Definition exit_status {A} (o : outcome A) : option nat :=
  match o with
  | Return _ => Some 0
  | Raise _ => Some 1
  | Hang => None
  end.

(** The lines printed in a trace. *)
Definition stdout (t : list event) : list string :=
  omap (λ e, match e with Stdout line => Some line | _ => None end) t.

Definition logs_pvc : pvc_spec := PvcSpec (Some "old-sc") "5Gi" ["ReadWriteMany"] None.

(** Two claims in the origin class; the copy pod of the first one started
    fails, every later one succeeds. *)
Definition two_claims : cluster :=
  with_pvcs (insert "logs-pvc" logs_pvc) data_cluster.

Definition first_copy_fails : world :=
  World two_claims ∅ []
    (λ i, match i with 0 => [Pending; Running; Failed] | _ => [Running; Succeeded] end)
    0 (λ _, []) no_report.

Definition is_file_event (e : event) : bool :=
  match e with
  | FsWrite _ | FsAppend _ | FsRemove _ => true
  | _ => false
  end.

(** [w'] has the files of [w], and nothing in between touched a file. *)
Definition files_untouched (w w' : world) : Prop :=
  fs w' = fs w ∧
  ∃ t, trace w' = trace w ++ t ∧ Forall (λ e, is_file_event e = false) t.

(** In the trace [t], the file [path] is written before the first call that
    mutates the cluster, if there is such a call. *)
Fixpoint written_before_mutating (path : string) (t : list event) : bool :=
  match t with
  | [] => true
  | e :: t' =>
      match e with
      | FsWrite p => bool_decide (p = path) || written_before_mutating path t'
      | _ => negb (mutation e) && written_before_mutating path t'
      end
  end.

Definition web : workload :=
  Workload "uid-web" (Some 3) (Some [Volume "data" (Some "data-pvc") false]) None None None.

Definition nightly : workload :=
  Workload "uid-nightly" None (Some [Volume "data" (Some "data-pvc") false]) None None None.

(** [data-pvc] is mounted by the Deployment [web], with 3 replicas, and by
    the Job [nightly]. *)
Definition web_cluster : cluster :=
  with_jobs (insert "nightly" nightly) (with_deployments (insert "web" web) data_cluster).

(** The run [r] from [w] wrote the scale-state file as its very last step,
    if it returned, and touched no file if it did not. *)
Definition written_last (w : world) (r : outcome (list (string * ScaleEntry)) * world) : Prop :=
  ∃ calls, Forall (λ e, is_file_event e = false) calls ∧
    match r.1 with
    | Return backup =>
        trace r.2 = trace w ++ calls ++ [FsWrite Safe.SCALE_TRACK_FILE] ∧
        fs r.2 = <[Safe.SCALE_TRACK_FILE := JsonScale backup]> (fs w)
    | _ => trace r.2 = trace w ++ calls ∧ fs r.2 = fs w
    end.

(** Two worlds that differ at most in their traces. *)
Definition same_but_trace (w1 w2 : world) : Prop :=
  k8s w1 = k8s w2 ∧ fs w1 = fs w2 ∧ kubelet w1 = kubelet w2 ∧
  pods_started w1 = pods_started w2 ∧ csi w1 = csi w2 ∧ report w1 = report w2.

(** [m] does not look at the trace: from two worlds that differ in nothing
    else it gives the same outcome and two such worlds again. *)
Definition trace_blind {A} (m : M A) : Prop :=
  ∀ w1 w2, same_but_trace w1 w2 →
    (m w1).1 = (m w2).1 ∧ same_but_trace (m w1).2 (m w2).2.

(** [w'] is [w] after some calls, none of which starts a pod. *)
Definition is_pod_create (e : event) : bool :=
  match e with
  | Api (create_namespaced_pod _ _) => true
  | _ => false
  end.

Definition no_pod_created (w w' : world) : Prop :=
  ∃ t, trace w' = trace w ++ t ∧ Forall (λ e, is_pod_create e = false) t.

(** What probing for a snapshot class finds in a cluster. *)
Definition usable_class (origin : string) (c : cluster) : option string :=
  match snapshot_classes c with
  | Some classes => MoveStorage.first_usable_class origin classes
  | None => None
  end.

(** The arguments [args] without the snapshot preference. *)
Definition without_snapshot (args : MoveStorage.Args) : MoveStorage.Args :=
  MoveStorage.mkArgs (MoveStorage.origin args) (MoveStorage.target args)
    (MoveStorage.namespace args) (MoveStorage.dry_run args) false
    (MoveStorage.export_pods args) (MoveStorage.delete_pvc args) (MoveStorage.copy_only args).

(** [data-pvc] in a cluster that serves snapshots, with a class whose driver
    name contains the origin class. *)
Definition snapshot_cluster : cluster :=
  Cluster (pvcs data_cluster) ∅ ∅ ∅ ∅ ∅ ∅ ∅
    (Some [SnapshotClass "csi-snapclass" (Some "Delete") (Some "old-sc.csi.example.com")]) ∅.

(** The same, with a snapshot named [data-pvc-snap] left from an earlier run. *)
Definition stale_snapshot_cluster : cluster :=
  with_snapshots (insert "data-pvc-snap" (Snapshot "csi-snapclass" "data-pvc" []))
    snapshot_cluster.

(** Snapshots become ready at the second look. *)
Definition snapshot_world (c : cluster) : world :=
  World c ∅ [] (λ _, [Running; Succeeded]) 0
    (λ _, [ReadyToUse None; ReadyToUse (Some true)]) no_report.

Definition prefer_snapshot_args : MoveStorage.Args :=
  MoveStorage.mkArgs "old-sc" "new-sc" "prod" false true false false false.

Definition basic_phase1 : All.Args :=
  All.mkArgs "old-sc" "new-sc" "prod" false All.DEFAULT_METADATA_FILE false false.

Definition basic_phase2 : All.Args :=
  All.mkArgs "old-sc" "new-sc" "prod" true All.DEFAULT_METADATA_FILE false false.

Definition safe_phase1 : Safe.Args := Safe.mkArgs "old-sc" "new-sc" "prod" false false false.

Definition safe_phase2 : Safe.Args := Safe.mkArgs "old-sc" "new-sc" "prod" true false false.

(** The Deployment [web] scaled to 0 by an earlier quiescence step, its 3
    replicas recorded in the scale-state file, and a ledger that holds no
    record. *)
Definition empty_ledger_world : world :=
  World (with_deployments
           (insert "web" (Workload "uid-web" (Some 0)
              (Some [Volume "data" (Some "data-pvc") false]) None None None))
           data_cluster)
        (<[Safe.SCALE_TRACK_FILE := JsonScale [("uid-web", ("Deployment", "web", VInt 3))]]>
           (<[Safe.DEFAULT_METADATA_FILE := JsonPivot "modes" []]> ∅))
        [] (λ _, [Succeeded]) 0 (λ _, []) no_report.

(** The claims phase 1 finds in the origin class. *)
Definition discovered (origin : string) (w : world) : list PVC :=
  filter (λ p : PVC, storage_class_name p.2 = Some origin) (items (pvcs (k8s w))).

(** The ledger record phase 1 writes for a claim. *)
Definition pivot_record (p : PVC) : PivotRecord :=
  mkPivot p.1 (p.1 +:+ "-temp") (storage p.2) (access_modes p.2).

(** The claim phases 1 and 2 create for a volume in the target class. *)
Definition pivoted (target : string) (spec : pvc_spec) : pvc_spec :=
  PvcSpec (Some target) (storage spec) (access_modes spec) None.

(** The claims of [w'] are those of [w]. *)
Definition claims_kept (w w' : world) : Prop := pvcs (k8s w') = pvcs (k8s w).

(** Every claim of [w] is still in [w'], unchanged. *)
Definition claims_grow (w w' : world) : Prop :=
  ∀ k v, pvcs (k8s w) !! k = Some v → pvcs (k8s w') !! k = Some v.

(** Outside the names [ks], the claims of [w'] are those of [w]. *)
Definition claims_outside (ks : list string) (w w' : world) : Prop :=
  ∀ k, k ∉ ks → pvcs (k8s w') !! k = pvcs (k8s w) !! k.

(** The claim phase 2 creates for a record. *)
Definition recreated (target : string) (r : PivotRecord) : pvc_spec :=
  PvcSpec (Some target) (r_size r) (r_modes r) None.

(** The names the records of a ledger speak of. *)
Definition ledger_names (rs : list PivotRecord) : list string :=
  (r_old_name <$> rs) ++ (r_temp_name <$> rs).

Global Instance PivotRecord_eq_dec : EqDecision PivotRecord.
Proof. solve_decision. Defined.

(** [data-pvc] in the origin class, and a claim named [data-pvc-temp] that
    belongs to something else. *)
Definition squatted_cluster : cluster :=
  with_pvcs (insert "data-pvc-temp" (PvcSpec (Some "scratch-sc") "1Gi" ["ReadWriteMany"] None))
    data_cluster.

(** Two claims of the origin class, one named like the temp of the other. *)
Definition clashing_cluster : cluster :=
  with_pvcs (insert "data-pvc-temp" (PvcSpec (Some "old-sc") "1Gi" ["ReadWriteMany"] None))
    data_cluster.

(** What one round of a phase-2 loop does to the claims: it touches the two
    names of its record only and leaves the original name in the target
    class; with [gone], the temp name is free afterwards. *)
Definition recreates (target : string) (gone : bool) (body : PivotRecord → M unit) : Prop :=
  ∀ r w w', body r w = (Return tt, w') →
    claims_outside [r_old_name r; r_temp_name r] w w' ∧
    (r_old_name r ≠ r_temp_name r →
     pvcs (k8s w') !! r_old_name r = Some (recreated target r)) ∧
    (gone = true → pvcs (k8s w') !! r_temp_name r = None).

(** ** Controller kinds *)

(** The six kinds the quiescence step scans, in its order. *)
Inductive kind := Deployment | ReplicaSet | StatefulSet | DaemonSet | CronJob | Job.

Global Instance kind_eq_dec : EqDecision kind.
Proof. solve_decision. Defined.

(** The name under which the scale-state file records a kind. *)
Definition kind_name (k : kind) : string :=
  match k with
  | Deployment => "Deployment"
  | ReplicaSet => "ReplicaSet"
  | StatefulSet => "StatefulSet"
  | DaemonSet => "DaemonSet"
  | CronJob => "CronJob"
  | Job => "Job"
  end.

Definition store (k : kind) (c : cluster) : gmap string workload :=
  match k with
  | Deployment => deployments c
  | ReplicaSet => replicasets c
  | StatefulSet => statefulsets c
  | DaemonSet => daemonsets c
  | CronJob => cronjobs c
  | Job => jobs c
  end.

Definition with_store (k : kind) :
    (gmap string workload → gmap string workload) → cluster → cluster :=
  match k with
  | Deployment => with_deployments
  | ReplicaSet => with_replicasets
  | StatefulSet => with_statefulsets
  | DaemonSet => with_daemonsets
  | CronJob => with_cronjobs
  | Job => with_jobs
  end.

Definition scalable (k : kind) : bool :=
  match k with
  | Deployment | ReplicaSet | StatefulSet => true
  | _ => false
  end.

(** Which controllers of a kind the quiescence step acts on. *)
Definition affected (k : kind) (pvc_names : list string) (item : Workload_item) : bool :=
  match k with
  | StatefulSet => Safe.match_stateful_set pvc_names item
  | _ => Safe.match_pvc_template pvc_names item
  end.

(** The prior state the quiescence step records for a controller. *)
Definition recorded (k : kind) (obj : workload) : scale_value :=
  match k with
  | Deployment | ReplicaSet | StatefulSet => VInt (py_or (replicas obj) 0)
  | DaemonSet => VStr "patched"
  | CronJob => VBool true
  | Job => VStr "deleted"
  end.

Definition entry_of (k : kind) (item : Workload_item) : string * ScaleEntry :=
  (uid item.2, (kind_name k, item.1, recorded k item.2)).

(** An entry of the backup that records a controller of the cluster [c]. *)
Definition justified (c : cluster) (e : string * ScaleEntry) : Prop :=
  ∃ k item, store k c !! item.1 = Some item.2 ∧ e = entry_of k item.

(** What a PATCH does to the stored object. *)
Definition patched (body : patch) (obj : workload) : workload :=
  default obj (apply_patch body obj).

(** What the quiescence step does to an affected controller. *)
Definition quiesce (k : kind) (item : Workload_item) (c : cluster) : cluster :=
  match k with
  | Deployment | ReplicaSet | StatefulSet =>
      if 0 <? py_or (replicas item.2) 0
      then with_store k (alter (patched (ReplicasPatch (VInt 0))) item.1) c
      else c
  | DaemonSet =>
      with_store k
        (alter (patched (NodeSelectorPatch (Some [("migration-paused", "true")]))) item.1) c
  | CronJob => with_store k (alter (patched (SuspendPatch true)) item.1) c
  | Job => with_store k (delete item.1) c
  end.

(** One round of a loop of the scan over the controllers of kind [k]. *)
Definition scans (k : kind) (pvc_names : list string)
    (body : list (string * ScaleEntry) → Workload_item → M (list (string * ScaleEntry)))
    : Prop :=
  ∀ b item w b' w', body b item w = (Return b', w') →
    fs w' = fs w ∧
    if affected k pvc_names item
    then b' = dict_set (uid item.2) (entry_of k item).2 b ∧ k8s w' = quiesce k item (k8s w)
    else b' = b ∧ k8s w' = k8s w.

(** The workloads of [w'] are those of [w]. *)
Definition workloads_kept (w w' : world) : Prop :=
  ∀ k, store k (k8s w') = store k (k8s w).

(** The controllers [ts] are those of the cluster [c]. *)
Definition listed (c : cluster) (t : kind * Workload_item) : Prop :=
  store t.1 c !! t.2.1 = Some t.2.2.

(** The replica count of the controller [name] of kind [k] is [n]. *)
Definition has_replicas (k : kind) (name : string) (n : nat) (c : cluster) : Prop :=
  replicas <$> store k c !! name = Some (Some n).

(** What the restore pass prints for a deleted Job. *)
Definition not_resumed (name : string) : event :=
  Stdout ("[~] Job '" +:+ name +:+ "' was deleted earlier and will not be resumed").

Definition kinds : list kind := [Deployment; ReplicaSet; StatefulSet; DaemonSet; CronJob; Job].

(** The controllers of kind [k] among [xs] the scan acts on, in order. *)
Definition targets_in (k : kind) (pvc_names : list string) (xs : list Workload_item)
    : list (kind * Workload_item) :=
  (λ item, (k, item)) <$> List.filter (affected k pvc_names) xs.

(** All the controllers of the cluster. *)
Definition controllers (c : cluster) : list (kind * Workload_item) :=
  kinds ≫= (λ k, (λ item, (k, item)) <$> items (store k c)).

(** No two controllers of the cluster have the same uid. *)
Definition uids_distinct (c : cluster) : Prop :=
  NoDup ((λ t : kind * Workload_item, uid t.2.2) <$> controllers c).

(** All the controllers the scan acts on, in its order. *)
Definition targets (pvc_names : list string) (c : cluster) : list (kind * Workload_item) :=
  kinds ≫= (λ k, targets_in k pvc_names (items (store k c))).

Definition record_target (backup : list (string * ScaleEntry)) (t : kind * Workload_item)
    : list (string * ScaleEntry) :=
  dict_set (uid t.2.2) (entry_of t.1 t.2).2 backup.

Definition quiesce_target (c : cluster) (t : kind * Workload_item) : cluster :=
  quiesce t.1 t.2 c.

(** What the restore pass does for the entry of a controller. *)
Definition restore_target (k : kind) (item : Workload_item) (c : cluster) : cluster :=
  match k with
  | Deployment | ReplicaSet | StatefulSet =>
      with_store k (alter (patched (ReplicasPatch (recorded k item.2))) item.1) c
  | DaemonSet => with_store k (alter (patched (NodeSelectorPatch None)) item.1) c
  | CronJob => with_store k (alter (patched (SuspendPatch false)) item.1) c
  | Job => c
  end.


(** ** Names of pods and claims *)

(** The last character of a string. *)
Fixpoint last_char (s : string) : option ascii :=
  match s with
  | EmptyString => None
  | String c s' =>
      match last_char s' with
      | None => Some c
      | last => last
      end
  end.

(** The string is made of [n] dashes. *)
Fixpoint dashes (n : nat) : string :=
  match n with
  | 0 => EmptyString
  | S n' => String (ascii_of_nat 45) (dashes n')
  end.

(** Neither an upper-case ASCII letter nor an underscore. *)
Definition lower_no_underscore (c : ascii) : bool :=
  let n := nat_of_ascii c in
  negb ((65 <=? n) && (n <=? 90)) && negb (n =? 95).

Fixpoint all_chars (P : ascii → bool) (s : string) : bool :=
  match s with
  | EmptyString => true
  | String c s' => P c && all_chars P s'
  end.

(** [s.isascii()] *)
Definition isascii (s : string) : bool := all_chars (λ c, nat_of_ascii c <? 128) s.

(** A letter, a digit, a dash or an underscore. *)
Definition class_name_char (c : ascii) : bool :=
  let n := nat_of_ascii c in
  ((97 <=? n) && (n <=? 122)) || ((65 <=? n) && (n <=? 90)) ||
  ((48 <=? n) && (n <=? 57)) || (n =? 45) || (n =? 95).

(** A pod without an owner that mounts [data-pvc], with the service
    account volume the API server injects. *)
Definition toolbox : pod :=
  Pod "prod"
    (Some [Volume "data" (Some "data-pvc") false;
           Volume "kube-api-access-x7k2p" None true;
           Volume "cache" None false])
    [Container "shell" "busybox" (Some ["sleep"; "3600"]) None None
       (Some [("/data", "data"); ("/cache", "cache");
              ("/var/run/secrets/kubernetes.io/serviceaccount", "kube-api-access-x7k2p")])]
    "Always" None [Running].

(** The worlds phase 1 of the two pivot scripts leaves behind for
    [data-pvc]. *)
Definition after_basic_phase1 : world :=
  (All.main basic_phase1 (world_of data_cluster [Running; Succeeded])).2.

Definition after_safe_phase1 : world :=
  (Safe.main safe_phase1 (world_of data_cluster [Running; Succeeded])).2.

(** ** What a run leaves alone *)

(** From [w] to [w'] the part [part] of the cluster has moved along [R],
    and none of the events in between is one of [P]. *)
Definition evolves {X} (R : relation X) (part : cluster → X) (P : event → bool)
    (w w' : world) : Prop :=
  R (part (k8s w)) (part (k8s w')) ∧
  ∃ t, trace w' = trace w ++ t ∧ Forall (λ e, P e = false) t.

Definition is_claim_delete (e : event) : bool :=
  match e with
  | Api (delete_namespaced_persistent_volume_claim _) => true
  | _ => false
  end.

(** A call that patches or deletes a controller. *)
Definition is_workload_call (e : event) : bool :=
  match e with
  | Api (patch_namespaced_deployment_scale _ _)
  | Api (patch_namespaced_replica_set_scale _ _)
  | Api (patch_namespaced_stateful_set_scale _ _)
  | Api (patch_namespaced_deployment _ _)
  | Api (patch_namespaced_stateful_set _ _)
  | Api (patch_namespaced_daemon_set _ _)
  | Api (patch_namespaced_cron_job _ _)
  | Api (delete_namespaced_job _) => true
  | _ => false
  end.

(** The controllers of a cluster, kind by kind. *)
Definition workloads (c : cluster) :=
  (deployments c, statefulsets c, replicasets c, daemonsets c, cronjobs c, jobs c).

(** No claim is deleted or changed, and no call to delete one is issued. *)
Abbreviation deletes_no_claim := (evolves (⊆) pvcs is_claim_delete).

(** No controller is changed, and no call to patch or delete one is
    issued. *)
Abbreviation touches_no_workload := (evolves eq workloads is_workload_call).

(** The runs that have no business with the controllers: the basic pivot
    script, phase 1 of the safe one without --set-replica-0, and
    moveStorage.py with --copy-only. *)
Definition leaves_workloads (i : invocation) : bool :=
  match i with
  | RunAll _ => true
  | RunSafe args => negb (Safe.recreate args) && negb (Safe.set_replica_0 args)
  | RunMoveStorage args => MoveStorage.copy_only args
  end.

(** A call that creates a claim or starts a pod. *)
Definition is_copy_call (e : event) : bool :=
  match e with
  | Api (create_namespaced_persistent_volume_claim _ _)
  | Api (create_namespaced_pod _ _) => true
  | _ => false
  end.

(** None of the events from [w] to [w'] is one of [P]. *)
Abbreviation quiet P := (evolves eq (λ _ : cluster, ()) P).

(** The name moveStorage.py gives the claim that replaces [pvc] in the
    class [target], and the spec it creates it with. *)
Definition new_claim_name (target : string) (pvc : PVC) : string :=
  pvc.1 +:+ "-" +:+ MoveStorage.underscores_to_dashes (lower target).

Definition new_claim (target : string) (pvc : PVC) (source : option string) : pvc_spec :=
  PvcSpec (Some target) (storage pvc.2) (access_modes pvc.2) source.

(** The dry-run round of a loop of the scan answers what the real round
    answers, and touches neither the cluster nor the files. *)
Definition predicts
    (real dry : list (string * ScaleEntry) → Workload_item → M (list (string * ScaleEntry)))
    : Prop :=
  ∀ b item w b' w', real b item w = (Return b', w') →
    ∀ wd, ∃ wd', dry b item wd = (Return b', wd') ∧ k8s wd' = k8s wd ∧ fs wd' = fs wd.

(** The attribute [f] of the controller [name] of kind [k] has the value
    [v]. *)
Definition has_field {X} (f : workload → X) (k : kind) (name : string) (v : X)
    (c : cluster) : Prop :=
  f <$> store k c !! name = Some v.

(** The node selector the quiescence step puts on a DaemonSet. *)
Definition migration_paused : list (string * string) := [("migration-paused", "true")].

(** [data-pvc] is mounted by the CronJob [report], which is suspended, and
    by the DaemonSet [agent], which has a node selector of its own. *)
Definition batch_cluster : cluster :=
  with_cronjobs
    (insert "report"
       (Workload "uid-report" None (Some [Volume "data" (Some "data-pvc") false]) None None
          (Some true)))
    (with_daemonsets
       (insert "agent"
          (Workload "uid-agent" None (Some [Volume "data" (Some "data-pvc") false]) None
             (Some [("disk", "ssd")]) None))
       data_cluster).

(** ** Files and snapshots *)

(** The lines moveStorage.py writes to post-migrate.sh when it is loaded. *)
Definition post_script_header : list string :=
  ["#!/bin/bash" +:+ nl; "echo '[INFO] Running post-migration script'" +:+ nl +:+ nl].

(** From [w] to [w'] the post-migration script has only been appended to,
    if it was there as a text. *)
Definition post_script_grows (w w' : world) : Prop :=
  ∀ lines, fs w !! MoveStorage.POST_SCRIPT_PATH = Some (Text lines) →
    ∃ more, fs w' !! MoveStorage.POST_SCRIPT_PATH = Some (Text (lines ++ more)).

(** [data-pvc] in a cluster that serves snapshots; a snapshot has no status
    at the first look. *)
Definition slow_snapshot_world : world :=
  World snapshot_cluster ∅ [] (λ _, [Running; Succeeded]) 0
    (λ _, [NoStatus; ReadyToUse (Some true)]) no_report.

(** What makes a snapshot class usable for a storage class. *)
Definition usable (storage_class_name : string) (sc : snapshot_class) : bool :=
  bool_decide (deletionPolicy sc = Some "Delete")
  && str_contains storage_class_name (py_or (driver sc) EmptyString).

(** ** The dry run of moveStorage.py *)

(** What the summary of a dry run counts first: the claims found, the new
    claims, the copy pods. *)
Definition summary (r : dry_run_report) : list string * list string * list string :=
  (pvcs_found r, new_pvcs r, pivot_pods r).

(** [m] returns from every world, and leaves the cluster and these three
    lists of the report as they were. *)
Definition passes {A} (m : M A) : Prop :=
  ∀ w, ∃ a w', m w = (Return a, w') ∧
    k8s w' = k8s w ∧ summary (report w') = summary (report w).

(** A snapshot is used for the claims of a dry run. *)
Definition snapshot_planned (args : MoveStorage.Args) (c : cluster) : bool :=
  MoveStorage.prefer_snapshot args && truthy (usable_class (MoveStorage.origin args) c).

(** What the dry run of the migration of one claim adds to the three
    lists. *)
Definition planned (args : MoveStorage.Args) (c : cluster) (s : list string * list string * list string)
    (pvc : PVC) : list string * list string * list string :=
  (s.1.1 ++ [pvc.1],
   s.1.2 ++ [new_claim_name (MoveStorage.target args) pvc],
   s.2 ++ (if snapshot_planned args c then [] else [MoveStorage.pivot_pod_name pvc.1])).

(** The three lists a dry run of moveStorage.py plans for the claims [ds]. *)
Definition dry_plan (args : MoveStorage.Args) (c : cluster) (ds : list PVC)
    : list string * list string * list string :=
  (ds.*1,
   new_claim_name (MoveStorage.target args) <$> ds,
   if snapshot_planned args c then []
   else (λ p : PVC, MoveStorage.pivot_pod_name p.1) <$> ds).

(** ** Repointing the controllers in moveStorage.py *)

(** A volume after [pvc_claim.claim_name = new_pvc_name] where it claimed
    the old claim. *)
Definition retarget_volume (old_pvc_name new_pvc_name : string) (vol : volume) : volume :=
  if bool_decide (persistent_volume_claim vol = Some old_pvc_name)
  then Volume (vol_name vol) (Some new_pvc_name) (projected vol)
  else vol.

(** A claim template after [vct.spec.storage_class_name = new_pvc_name]
    where it was in the class of the old claim. *)
Definition retarget_template (old_sc : option string) (new_pvc_name : string)
    (vct : claim_template) : claim_template :=
  if bool_decide (vct_storage_class_name vct = old_sc)
  then ClaimTemplate (vct_name vct) (Some new_pvc_name)
  else vct.

(** A controller of kind [k] with its volumes, and for a StatefulSet its
    claim templates, repointed. *)
Definition retargeted (k : kind) (old_pvc : PVC) (new_pvc_name : string) (o : workload)
    : workload :=
  Workload (uid o) (replicas o)
    ((λ vs : list volume, retarget_volume old_pvc.1 new_pvc_name <$> vs) <$> volumes o)
    (match k with
     | StatefulSet =>
         (λ vcts : list claim_template,
            retarget_template (storage_class_name old_pvc.2) new_pvc_name <$> vcts)
           <$> volume_claim_templates o
     | _ => volume_claim_templates o
     end)
    (node_selector o) (suspend o).

(** The cluster with its Deployments, StatefulSets and DaemonSets
    repointed, and the rest as it is. *)
Definition repointed (old_pvc : PVC) (new_pvc_name : string) (c : cluster) : cluster :=
  Cluster (pvcs c) (pods c)
    (retargeted Deployment old_pvc new_pvc_name <$> deployments c)
    (retargeted StatefulSet old_pvc new_pvc_name <$> statefulsets c)
    (replicasets c)
    (retargeted DaemonSet old_pvc new_pvc_name <$> daemonsets c)
    (cronjobs c) (jobs c) (snapshot_classes c) (snapshots c).

(** One round of the loop over the volumes, on the local variables. *)
Definition volume_step (old_pvc_name new_pvc_name : string) (st : workload * bool)
    (x : nat * volume) : workload * bool :=
  if bool_decide (persistent_volume_claim x.2 = Some old_pvc_name)
  then (MoveStorage.set_claim_name x.1 new_pvc_name st.1, true)
  else st.

(** One round of the loop over the claim templates, on the local variables. *)
Definition template_step (old_sc : option string) (new_pvc_name : string)
    (st : workload * bool) (x : nat * claim_template) : workload * bool :=
  if bool_decide (vct_storage_class_name x.2 = old_sc)
  then (MoveStorage.set_template_class x.1 new_pvc_name st.1, true)
  else st.

(** [patch_func] is the call that patches a controller of kind [k]. *)
Definition patches (k : kind) (patch_func : string → string → patch → M unit) : Prop :=
  ∀ name ns body w, ∃ e,
    patch_func name ns body w
    = patch_in (store k) (with_store k) name body (with_trace (λ t, t ++ [e]) w).

(** The cluster of [w] is [c0] with the local copy [wl] patched in for
    the object [oc] under [name]. *)
Definition synced (k : kind) (name : string) (oc : workload) (c0 : cluster)
    (st : workload * bool) (w : world) : Prop :=
  k8s w = with_store k (insert name (patched (ObjectPatch st.1) oc)) c0.

(** A round of the loop over the controllers of kind [k]: it returns, and
    has repointed the controller it was given. *)
Definition repoints (k : kind) (old_pvc : PVC) (new_pvc_name : string)
    (body : bool → Workload_item → M bool) : Prop :=
  ∀ found item w, store k (k8s w) !! item.1 = Some item.2 →
    ∃ found' w', body found item w = (Return found', w') ∧
      k8s w' = with_store k (insert item.1 (retargeted k old_pvc new_pvc_name item.2)) (k8s w).

(** ** Runs that do not return *)

(** The file [path] is in [w'] what it is in [w]. *)
Definition file_kept (path : string) (w w' : world) : Prop :=
  fs w' !! path = fs w !! path.

(** From every world, [m] returns or leaves a world related by [R]. *)
Definition returns_or (R : relation world) {A} (m : M A) : Prop :=
  ∀ w, (∃ a, (m w).1 = Return a) ∨ R w (m w).2.

(** The copy pod of the first claim never settles. *)
Definition stuck_copy : world := world_of data_cluster [Pending; Running; Running].

(** The world in which a copy starts to wait for its pod. *)
Definition copy_started (ns name : string) (body : pod) (line : string) (w : world) : world :=
  ((v1.create_namespaced_pod ns name body;; print line) w).2.

(** ** A copy pod that ends Failed *)

(** Every pod the kubelet runs settles, in [Succeeded] or in [Failed]. *)
Definition every_pod_settles (w : world) : Prop :=
  ∀ i, is_Some (terminal_phase (kubelet w i)).

(** Two worlds with the same cluster and the same files, in which every pod
    settles; they may differ in how the pods end. *)
Definition same_but_endings (w1 w2 : world) : Prop :=
  k8s w1 = k8s w2 ∧ fs w1 = fs w2 ∧ every_pod_settles w1 ∧ every_pod_settles w2.

(** [m] does not tell a copy pod that ended [Failed] from one that ended
    [Succeeded]: from two such worlds it gives the same outcome and two such
    worlds again. *)
Definition ending_blind {A} (m : M A) : Prop :=
  ∀ w1 w2, same_but_endings w1 w2 →
    (m w1).1 = (m w2).1 ∧ same_but_endings (m w1).2 (m w2).2.

(** [w'] runs its pods as [w] does. *)
Definition kubelet_kept (w w' : world) : Prop := kubelet w' = kubelet w.

(** [two_claims], with every copy pod ending [Succeeded]. *)
Definition all_copies_succeed : world := world_of two_claims [Running; Succeeded].

(** * Reasoning about runs *)

Lemma bind_run {A B} (m : M A) (f : A → M B) (w : world) :
  (m ≫= f) w =
  match m w with
  | (Return a, w') => f a w'
  | (Raise e, w') => (Raise e, w')
  | (Hang, w') => (Hang, w')
  end.
Proof. reflexivity. Qed.

Lemma bind_Return {A B} (m : M A) (f : A → M B) (w w1 : world) (a : A) :
  m w = (Return a, w1) → (m ≫= f) w = f a w1.
Proof. intros H. rewrite bind_run, H. reflexivity. Qed.

Lemma bind_Return_inv {A B} (m : M A) (f : A → M B) (w w2 : world) (b : B) :
  (m ≫= f) w = (Return b, w2) →
  ∃ a w1, m w = (Return a, w1) ∧ f a w1 = (Return b, w2).
Proof.
  rewrite bind_run. destruct (m w) as [[a|e|] w1]; intros H; try discriminate.
  exists a, w1. split; [reflexivity | exact H].
Qed.

(** ** Relations every step of a run preserves *)

Section Respects.

Context (R : relation world) `{!PreOrder R}.

Lemma respects_ret {A} (a : A) : respects R (mret a).
Proof. intros w. reflexivity. Qed.

Lemma respects_raise {A} (e : exn) : respects R (@raise A e).
Proof. intros w. reflexivity. Qed.

Lemma respects_hang {A} : respects R (@hang A).
Proof. intros w. reflexivity. Qed.

Lemma respects_gets {A} (f : world → A) : respects R (gets f).
Proof. intros w. reflexivity. Qed.

Lemma respects_modify (f : world → world) : (∀ w, R w (f w)) → respects R (modify f).
Proof. intros H w. apply H. Qed.

Lemma respects_bind {A B} (m : M A) (f : A → M B) :
  respects R m → (∀ a, respects R (f a)) → respects R (m ≫= f).
Proof.
  intros Hm Hf w. rewrite bind_run. specialize (Hm w).
  destruct (m w) as [[a|e|] w1]; simpl in *; try exact Hm.
  etrans; [exact Hm | apply Hf].
Qed.

Lemma respects_try_except {A} (m : M A) (h : exn → M A) :
  respects R m → (∀ e, respects R (h e)) → respects R (try_except m h).
Proof.
  intros Hm Hh w. unfold try_except. specialize (Hm w).
  destruct (m w) as [[a|e|] w1]; simpl in *; try exact Hm.
  etrans; [exact Hm | apply Hh].
Qed.

Lemma respects_when (b : bool) (m : M unit) : respects R m → respects R (when b m).
Proof. intros Hm. destruct b; [exact Hm | apply respects_ret]. Qed.

Lemma respects_for_each {A} (xs : list A) (body : A → M unit) :
  (∀ x, respects R (body x)) → respects R (for_each xs body).
Proof.
  intros Hb. induction xs as [|x xs IH]; simpl.
  - apply respects_ret.
  - apply respects_bind; [apply Hb | intros _; exact IH].
Qed.

Lemma respects_for_fold {A S} (xs : list A) (s : S) (body : S → A → M S) :
  (∀ s x, respects R (body s x)) → respects R (for_fold xs s body).
Proof.
  intros Hb. revert s. induction xs as [|x xs IH]; intros s; simpl.
  - apply respects_ret.
  - apply respects_bind; [apply Hb | intros s'; apply IH].
Qed.

Lemma respects_for_fold_in {A S} (xs : list A) (s : S) (body : S → A → M S) :
  (∀ s x, x ∈ xs → respects R (body s x)) → respects R (for_fold xs s body).
Proof.
  revert s. induction xs as [|x xs IH]; intros s Hb; simpl.
  - apply respects_ret.
  - apply respects_bind; [apply Hb; left | intros s'; apply IH].
    intros s'' y Hy. apply Hb. by right.
Qed.

Lemma respects_while_true {A} (fuel : nat) (body : M (option A)) :
  respects R body → respects R (while_true fuel body).
Proof.
  intros Hb. induction fuel as [|fuel IH]; simpl.
  - apply respects_hang.
  - apply respects_bind; [exact Hb | intros [a|]; [apply respects_ret | exact IH]].
Qed.

End Respects.

(** One structural step of a proof of [respects]. *)
Ltac respects_step :=
  lazymatch goal with
  | |- respects _ (mbind _ _) => apply respects_bind; [apply _ | | intros ?; cbv beta]
  | |- respects _ (mret _) => apply respects_ret; apply _
  | |- respects _ (raise _) => apply respects_raise; apply _
  | |- respects _ (gets _) => apply respects_gets; apply _
  | |- respects _ (when _ _) => apply respects_when; [apply _ | ]
  | |- respects _ (for_each _ _) => apply respects_for_each; [apply _ | intros ?; cbv beta]
  | |- respects _ (for_fold _ _ _) =>
      apply respects_for_fold; [apply _ | intros ? ?; cbv beta]
  | |- respects _ (try_except _ _) =>
      apply respects_try_except; [apply _ | | intros ?; cbv beta]
  | |- respects _ (while_true _ _) => apply respects_while_true; [apply _ | ]
  | |- respects _ (if ?b then _ else _) => destruct b
  | |- respects _ (match ?x with _ => _ end) => destruct x
  | |- respects _ (match ?x with _ => _ end _) => destruct x; cbv beta iota
  end.

(** ** Dry runs *)

Global Instance cluster_untouched_preorder : PreOrder cluster_untouched.
Proof.
  split.
  - intros w. split; [reflexivity | exists []; split; [by rewrite app_nil_r | constructor]].
  - intros w1 w2 w3 [Hk1 (t1 & Ht1 & Hf1)] [Hk2 (t2 & Ht2 & Hf2)]. split; [congruence |].
    exists (t1 ++ t2). split; [rewrite Ht2, Ht1, app_assoc; reflexivity | by apply Forall_app].
Qed.

Lemma harmless_emit (e : event) : mutation e = false → harmless (emit e).
Proof.
  intros He w. split; [reflexivity |].
  exists [e]. split; [reflexivity | by constructor].
Qed.

Lemma harmless_touching_nothing (f : world → world) :
  (∀ w, k8s (f w) = k8s w) → (∀ w, trace (f w) = trace w) → harmless (modify f).
Proof.
  intros Hk Ht w. split; [apply Hk |].
  exists []. split; [simpl; rewrite app_nil_r; apply Ht | constructor].
Qed.

Lemma harmless_print (line : string) : harmless (print line).
Proof. by apply harmless_emit. Qed.

Lemma harmless_time_sleep (n : nat) : harmless (time_sleep n).
Proof. by apply harmless_emit. Qed.

Lemma harmless_os_path_exists (path : string) : harmless (os_path_exists path).
Proof. apply respects_gets; apply _. Qed.

Lemma harmless_read_file (path : string) : harmless (read_file path).
Proof. unfold read_file. repeat respects_step. Qed.

Lemma harmless_write_file (path : string) (content : file) :
  harmless (write_file path content).
Proof.
  unfold write_file. respects_step; [by apply harmless_emit |].
  by apply harmless_touching_nothing.
Qed.

Lemma harmless_append_file (path : string) (lines : list string) :
  harmless (append_file path lines).
Proof.
  unfold append_file. respects_step; [by apply harmless_emit |].
  by apply harmless_touching_nothing.
Qed.

Lemma harmless_list_pvc (ns : string) :
  harmless (v1.list_namespaced_persistent_volume_claim ns).
Proof.
  unfold v1.list_namespaced_persistent_volume_claim.
  respects_step; [by apply harmless_emit | respects_step].
Qed.

Lemma harmless_list_pod (ns : string) : harmless (v1.list_namespaced_pod ns).
Proof. unfold v1.list_namespaced_pod. respects_step; [by apply harmless_emit | respects_step]. Qed.

Lemma harmless_list_deployment (ns : string) :
  harmless (apps_v1.list_namespaced_deployment ns).
Proof.
  unfold apps_v1.list_namespaced_deployment.
  respects_step; [by apply harmless_emit | respects_step].
Qed.

Lemma harmless_list_stateful_set (ns : string) :
  harmless (apps_v1.list_namespaced_stateful_set ns).
Proof.
  unfold apps_v1.list_namespaced_stateful_set.
  respects_step; [by apply harmless_emit | respects_step].
Qed.

Lemma harmless_list_replica_set (ns : string) :
  harmless (apps_v1.list_namespaced_replica_set ns).
Proof.
  unfold apps_v1.list_namespaced_replica_set.
  respects_step; [by apply harmless_emit | respects_step].
Qed.

Lemma harmless_list_daemon_set (ns : string) :
  harmless (apps_v1.list_namespaced_daemon_set ns).
Proof.
  unfold apps_v1.list_namespaced_daemon_set.
  respects_step; [by apply harmless_emit | respects_step].
Qed.

Lemma harmless_list_cron_job (ns : string) : harmless (batch_v1.list_namespaced_cron_job ns).
Proof.
  unfold batch_v1.list_namespaced_cron_job.
  respects_step; [by apply harmless_emit | respects_step].
Qed.

Lemma harmless_list_job (ns : string) : harmless (batch_v1.list_namespaced_job ns).
Proof.
  unfold batch_v1.list_namespaced_job.
  respects_step; [by apply harmless_emit | respects_step].
Qed.

Lemma harmless_list_snapshot_classes : harmless custom_api.list_cluster_custom_object.
Proof.
  unfold custom_api.list_cluster_custom_object.
  respects_step; [by apply harmless_emit | repeat respects_step].
Qed.

Create HintDb harmless discriminated.

#[export] Hint Resolve harmless_print harmless_time_sleep harmless_os_path_exists
  harmless_read_file harmless_write_file harmless_append_file harmless_list_pvc
  harmless_list_pod harmless_list_deployment harmless_list_stateful_set
  harmless_list_replica_set harmless_list_daemon_set harmless_list_cron_job
  harmless_list_job harmless_list_snapshot_classes : harmless.

(** Closes [harmless m] for a program [m] built from the harmless steps. *)
Ltac harmless :=
  repeat first [ solve [auto with harmless] | respects_step ].

(** *** double_pivot_all.py *)

Lemma All_create_pvc_dry (ns name sc size : string) (modes : list string) :
  harmless (All.create_pvc ns name sc size modes true).
Proof. unfold All.create_pvc. harmless. Qed.

Lemma All_copy_data_with_pod_dry (ns src dst prefix : string) :
  harmless (All.copy_data_with_pod ns src dst prefix true).
Proof. unfold All.copy_data_with_pod. harmless. Qed.

#[export] Hint Resolve All_create_pvc_dry All_copy_data_with_pod_dry : harmless.

Lemma All_main_dry (args : All.Args) :
  All.dry_run args = true → harmless (All.main args).
Proof.
  destruct args as [origin target ns recreate meta dry preserve]. simpl. intros ->.
  unfold All.main, All.phase_one, All.phase_two, All.recreate_entry, All.pivot_to_temp,
    All.list_pvcs_in_storageclass.
  cbv beta iota zeta delta [All.origin_sc All.target_sc All.namespace All.recreate
    All.metadata_file All.dry_run All.preserve_temp negb andb when].
  harmless.
Qed.

(** *** double_pivot_safe.py *)

Lemma Safe_create_pvc_dry (ns name sc size : string) (modes : list string) :
  harmless (Safe.create_pvc ns name sc size modes true).
Proof. unfold Safe.create_pvc. harmless. Qed.

Lemma Safe_copy_data_dry (ns src dst prefix : string) :
  harmless (Safe.copy_data ns src dst prefix true).
Proof. unfold Safe.copy_data. harmless. Qed.

#[export] Hint Resolve Safe_create_pvc_dry Safe_copy_data_dry : harmless.

Lemma Safe_detect_and_scale_down_dry (ns : string) (pvc_names : list string) :
  harmless (Safe.detect_and_scale_down ns pvc_names true).
Proof.
  unfold Safe.detect_and_scale_down.
  cbv beta iota zeta delta [negb when].
  harmless.
Qed.

Lemma Safe_scale_back_up_dry (ns : string) : harmless (Safe.scale_back_up ns true).
Proof.
  unfold Safe.scale_back_up, Safe.restore_entry.
  cbv beta iota zeta delta [negb when].
  harmless.
Qed.

#[export] Hint Resolve Safe_detect_and_scale_down_dry Safe_scale_back_up_dry : harmless.

Lemma Safe_main_dry (args : Safe.Args) :
  Safe.dry_run args = true → harmless (Safe.main args).
Proof.
  destruct args as [origin target ns recreate dry scale]. simpl. intros ->.
  unfold Safe.main, Safe.recreate_record, Safe.pivot_to_temp, Safe.list_pvcs.
  cbv beta iota zeta delta [Safe.origin_sc Safe.target_sc Safe.namespace Safe.recreate
    Safe.dry_run Safe.set_replica_0 negb andb when].
  harmless.
Qed.

(** *** moveStorage.py *)

Lemma harmless_report (f : dry_run_report → dry_run_report) :
  harmless (modify (with_report f)).
Proof. by apply harmless_touching_nothing. Qed.

#[export] Hint Resolve harmless_report : harmless.

Lemma MoveStorage_get_snapshot_class_harmless (sc : string) :
  harmless (MoveStorage.get_snapshot_class_for_storage_class sc).
Proof. unfold MoveStorage.get_snapshot_class_for_storage_class. harmless. Qed.

Lemma MoveStorage_create_volume_snapshot_dry (ns pvc_name cls : string) :
  harmless (MoveStorage.create_volume_snapshot ns pvc_name cls true).
Proof.
  unfold MoveStorage.create_volume_snapshot, MoveStorage.report_snapshots_used. harmless.
Qed.

Lemma MoveStorage_create_new_pvc_dry (old_pvc : PVC) (target ns : string)
    (snapshot_name : option string) :
  harmless (MoveStorage.create_new_pvc old_pvc target ns true snapshot_name).
Proof. unfold MoveStorage.create_new_pvc, MoveStorage.report_new_pvcs. harmless. Qed.

Lemma MoveStorage_create_pivot_pod_dry (ns src dst : string) :
  harmless (MoveStorage.create_pivot_pod ns src dst true).
Proof. unfold MoveStorage.create_pivot_pod, MoveStorage.report_pivot_pods. harmless. Qed.

Lemma MoveStorage_export_pod_manifest_harmless (pod : string * pod) (new_pvc_name : string) :
  harmless (MoveStorage.export_pod_manifest pod new_pvc_name).
Proof.
  unfold MoveStorage.export_pod_manifest, MoveStorage.report_pod_manifests.
  cbv beta iota zeta. harmless.
Qed.

#[export] Hint Resolve MoveStorage_get_snapshot_class_harmless
  MoveStorage_create_volume_snapshot_dry MoveStorage_create_new_pvc_dry
  MoveStorage_create_pivot_pod_dry MoveStorage_export_pod_manifest_harmless : harmless.

Lemma MoveStorage_patch_volumes_dry (kind : string)
    (patch_func : string → string → patch → M unit)
    (ns old_pvc_name new_pvc_name name : string) (st : workload * bool) :
  harmless (MoveStorage.patch_volumes kind patch_func ns old_pvc_name new_pvc_name true name st).
Proof.
  unfold MoveStorage.patch_volumes, MoveStorage.report_workloads_patched.
  cbv beta iota zeta. harmless.
Qed.

Lemma MoveStorage_patch_templates_dry
    (patch_func : string → string → patch → M unit)
    (ns : string) (old_sc : option string) (new_pvc_name name : string)
    (st : workload * bool) :
  harmless (MoveStorage.patch_templates patch_func ns old_sc new_pvc_name true name st).
Proof.
  unfold MoveStorage.patch_templates, MoveStorage.report_workloads_patched.
  cbv beta iota zeta. harmless.
Qed.

#[export] Hint Resolve MoveStorage_patch_volumes_dry MoveStorage_patch_templates_dry
  : harmless.

Lemma MoveStorage_patch_workload_using_pvc_dry (ns : string) (old_pvc : PVC)
    (new_pvc_name : string) (export_pods : bool) :
  harmless (MoveStorage.patch_workload_using_pvc ns old_pvc new_pvc_name true export_pods).
Proof.
  unfold MoveStorage.patch_workload_using_pvc, MoveStorage.report_workloads_patched.
  cbv beta iota zeta delta [negb when].
  respects_step; [| harmless].
  apply respects_for_fold_in; [apply _ |]. intros found [[kind list_func] patch_func] Hin.
  repeat (apply elem_of_cons in Hin as [[= -> -> ->] | Hin]); [harmless .. |].
  by apply elem_of_nil in Hin.
Qed.

Lemma MoveStorage_delete_old_pvc_dry (ns pvc_name : string) (delete_enabled : bool) :
  harmless (MoveStorage.delete_old_pvc ns pvc_name true delete_enabled).
Proof. unfold MoveStorage.delete_old_pvc, MoveStorage.report_pvcs_deleted. harmless. Qed.

#[export] Hint Resolve MoveStorage_patch_workload_using_pvc_dry
  MoveStorage_delete_old_pvc_dry : harmless.

Lemma MoveStorage_script_dry (args : MoveStorage.Args) :
  MoveStorage.dry_run args = true → harmless (MoveStorage.script args).
Proof.
  destruct args as [origin target ns dry snap export del copy]. simpl. intros ->.
  unfold MoveStorage.script, MoveStorage.module_init, MoveStorage.main,
    MoveStorage.migrate_pvc, MoveStorage.get_pvcs_by_storage_class,
    MoveStorage.report_pvcs_found.
  cbv beta iota zeta delta [MoveStorage.origin MoveStorage.target MoveStorage.namespace
    MoveStorage.dry_run MoveStorage.prefer_snapshot MoveStorage.export_pods
    MoveStorage.delete_pvc MoveStorage.copy_only negb when].
  harmless.
Qed.

(** C4: an invocation of any of the three scripts with the dry-run flag set,
    whatever the other flags, leaves the cluster exactly as it found it, and
    none of the API calls it issues creates, patches or deletes an object. *)
Theorem dry_run_issues_no_mutating_call (i : invocation) (w : world) :
  is_dry_run i = true →
  k8s (run i w).2 = k8s w ∧
  ∃ calls, trace (run i w).2 = trace w ++ calls ∧ Forall (λ e, mutation e = false) calls.
Proof.
  destruct i as [args|args|args]; simpl; intros Hdry.
  - by apply All_main_dry.
  - by apply Safe_main_dry.
  - by apply MoveStorage_script_dry.
Qed.

Lemma dry_run_issues_no_mutating_call_witness :
  let i := RunSafe (Safe.mkArgs "old-sc" "new-sc" "prod" false true true) in
  let w := world_of data_cluster [Running; Succeeded] in
  is_dry_run i = true ∧
  k8s (run i w).2 = k8s w ∧
  ∃ calls, trace (run i w).2 = trace w ++ calls ∧ Forall (λ e, mutation e = false) calls.
Proof.
  intros i w. split; [reflexivity |].
  apply (dry_run_issues_no_mutating_call i w). reflexivity.
Defined.

(** ** Pod names *)

Lemma str_take_idemp (n : nat) (s : string) : str_take n (str_take n s) = str_take n s.
Proof.
  revert s. induction n as [|n IH]; intros [|c s]; simpl; try reflexivity.
  by rewrite IH.
Qed.

Lemma allowed_lower_char (c : ascii) : Safe.allowed c = true → lower_char c = c.
Proof.
  unfold Safe.allowed, lower_char. intros H.
  destruct (65 <=? nat_of_ascii c) eqn:H1; [| reflexivity].
  destruct (nat_of_ascii c <=? 90) eqn:H2; [| reflexivity]. exfalso.
  apply Nat.leb_le in H1, H2.
  apply orb_true_iff in H as [H | H]; [apply orb_true_iff in H as [H | H] |].
  - apply andb_true_iff in H as [H _]. apply Nat.leb_le in H. lia.
  - apply andb_true_iff in H as [_ H]. apply Nat.leb_le in H. lia.
  - apply Nat.eqb_eq in H. lia.
Qed.

Lemma all_allowed_strip (s : string) : all_allowed (Safe.strip_disallowed s) = true.
Proof.
  induction s as [|c s IH]; simpl; [reflexivity |].
  destruct (Safe.allowed c) eqn:Hc; simpl; [by rewrite Hc | exact IH].
Qed.

Lemma all_allowed_take (n : nat) (s : string) :
  all_allowed s = true → all_allowed (str_take n s) = true.
Proof.
  revert s. induction n as [|n IH]; intros [|c s]; simpl; try reflexivity.
  intros [Hc Hs]%andb_true_iff. rewrite Hc. by apply IH.
Qed.

Lemma all_allowed_clean (s : string) :
  all_allowed s = true → Safe.strip_disallowed (lower s) = s.
Proof.
  induction s as [|c s IH]; simpl; [reflexivity |].
  intros [Hc Hs]%andb_true_iff. rewrite (allowed_lower_char c Hc), Hc. by rewrite IH.
Qed.

(** C10: in each script the copy pod's name is computed from the prefix and
    the first 20 characters of the source name alone (in the safe variant,
    of the lower-cased source name with the disallowed characters removed);
    two distinct source names that agree on that prefix get the same pod
    name in all three scripts, so the derivation is not injective. *)
Theorem pod_name_not_injective :
  (∀ prefix src,
     All.pivot_pod_name prefix src = All.pivot_pod_name prefix (str_take 20 src)) ∧
  (∀ src, MoveStorage.pivot_pod_name src = MoveStorage.pivot_pod_name (str_take 20 src)) ∧
  (∀ prefix src,
     Safe.sanitize_pod_name src prefix =
     Safe.sanitize_pod_name (str_take 20 (Safe.strip_disallowed (lower src))) prefix) ∧
  ∃ a b, a ≠ b ∧
    str_take 20 a = str_take 20 b ∧
    str_take 20 (Safe.strip_disallowed (lower a)) = str_take 20 (Safe.strip_disallowed (lower b)) ∧
    ∀ prefix,
      All.pivot_pod_name prefix a = All.pivot_pod_name prefix b ∧
      Safe.sanitize_pod_name a prefix = Safe.sanitize_pod_name b prefix ∧
      MoveStorage.pivot_pod_name a = MoveStorage.pivot_pod_name b.
Proof.
  assert (HAll : ∀ prefix src,
    All.pivot_pod_name prefix src = All.pivot_pod_name prefix (str_take 20 src)).
  { intros. unfold All.pivot_pod_name. by rewrite str_take_idemp. }
  assert (HMove : ∀ src,
    MoveStorage.pivot_pod_name src = MoveStorage.pivot_pod_name (str_take 20 src)).
  { intros. unfold MoveStorage.pivot_pod_name. by rewrite str_take_idemp. }
  assert (HSafe : ∀ prefix src,
    Safe.sanitize_pod_name src prefix =
    Safe.sanitize_pod_name (str_take 20 (Safe.strip_disallowed (lower src))) prefix).
  { intros. unfold Safe.sanitize_pod_name.
    rewrite (all_allowed_clean (str_take 20 _)), str_take_idemp; [reflexivity |].
    apply all_allowed_take, all_allowed_strip. }
  split; [exact HAll |]. split; [exact HMove |]. split; [exact HSafe |].
  exists "data-volume-for-orders-east", "data-volume-for-orders-west".
  split; [discriminate |]. split; [reflexivity |]. split; [by vm_compute |].
  intros prefix. split; [| split; [| reflexivity]].
  - rewrite HAll, (HAll _ "data-volume-for-orders-west"). reflexivity.
  - rewrite HSafe, (HSafe _ "data-volume-for-orders-west").
    by replace (str_take 20 (Safe.strip_disallowed (lower "data-volume-for-orders-east")))
      with (str_take 20 (Safe.strip_disallowed (lower "data-volume-for-orders-west")))
      by (by vm_compute).
Qed.

(** ** The copy pod *)

Global Instance pod_only_preorder (name : string) : PreOrder (pod_only name).
Proof.
  split.
  - intros w. by split.
  - intros w1 w2 w3 [Hk1 Hf1] [Hk2 Hf2]. split; congruence.
Qed.

Lemma pod_only_emit (name : string) (e : event) : respects (pod_only name) (emit e).
Proof. intros w. by split. Qed.

Lemma pod_only_pods_started (name : string) (f : nat → nat) :
  respects (pod_only name) (modify (with_pods_started f)).
Proof. intros w. by split. Qed.

Lemma pod_only_insert (name : string) (p : pod) :
  respects (pod_only name) (modify (with_k8s (with_pods (insert name p)))).
Proof.
  intros w. split; [| reflexivity]. simpl. unfold with_pods. simpl.
  by rewrite delete_insert_eq.
Qed.

Lemma pod_only_delete (name : string) :
  respects (pod_only name) (modify (with_k8s (with_pods (delete name)))).
Proof.
  intros w. split; [| reflexivity]. simpl. unfold with_pods. simpl.
  by rewrite delete_delete_eq.
Qed.

Create HintDb pod_only discriminated.

#[export] Hint Resolve pod_only_emit pod_only_pods_started pod_only_insert pod_only_delete
  : pod_only.

Ltac pod_only :=
  repeat first [ solve [auto with pod_only] | respects_step ].

Lemma pod_only_create_pod (ns name : string) (body : pod) :
  respects (pod_only name) (v1.create_namespaced_pod ns name body).
Proof. unfold v1.create_namespaced_pod. pod_only. Qed.

Lemma pod_only_read_pod (ns name : string) :
  respects (pod_only name) (v1.read_namespaced_pod name ns).
Proof. unfold v1.read_namespaced_pod. pod_only. Qed.

Lemma pod_only_delete_pod (ns name : string) :
  respects (pod_only name) (v1.delete_namespaced_pod name ns).
Proof. unfold v1.delete_namespaced_pod. pod_only. Qed.

#[export] Hint Resolve pod_only_create_pod pod_only_read_pod pod_only_delete_pod : pod_only.

Lemma All_copy_pod_only (ns src dst prefix : string) (dry_run : bool) :
  respects (pod_only (All.pivot_pod_name prefix src))
    (All.copy_data_with_pod ns src dst prefix dry_run).
Proof.
  unfold All.copy_data_with_pod, print, time_sleep. cbv zeta. pod_only.
Qed.

Lemma Safe_copy_pod_only (ns src dst prefix : string) (dry_run : bool) :
  respects (pod_only (Safe.sanitize_pod_name src prefix))
    (Safe.copy_data ns src dst prefix dry_run).
Proof.
  unfold Safe.copy_data, print, time_sleep. cbv zeta. pod_only.
Qed.

Lemma pod_only_absent (name : string) (w w' : world) :
  pod_only name w w' →
  pods (k8s w) !! name = None → pods (k8s w') !! name = None →
  k8s w' = k8s w ∧ fs w' = fs w.
Proof.
  intros [Hk Hf] Hw Hw'. split; [| exact Hf].
  destruct (k8s w) as [c1 p1 ? ? ? ? ? ? ? ?], (k8s w') as [c2 p2 ? ? ? ? ? ? ? ?].
  unfold with_pods in Hk. simpl in *.
  rewrite (delete_id p1), (delete_id p2) in Hk by assumption. exact Hk.
Qed.

(** What the steps of a copy answer. *)

Lemma run_emit (e : event) (w : world) :
  emit e w = (Return tt, with_trace (λ t, t ++ [e]) w).
Proof. reflexivity. Qed.

Lemma run_create_pod (ns name : string) (body : pod) (w : world) :
  pods (k8s w) !! name = None →
  ∃ w', v1.create_namespaced_pod ns name body w = (Return tt, w') ∧
        phases <$> pods (k8s w') !! name = Some (kubelet w (pods_started w)).
Proof.
  intros Hfree. unfold v1.create_namespaced_pod.
  rewrite bind_run, run_emit, bind_run. unfold gets at 1. simpl. rewrite Hfree.
  eexists. split; [reflexivity |]. simpl. by rewrite lookup_insert_eq.
Qed.

Lemma run_create_pod_taken (ns name : string) (body : pod) (w : world) :
  is_Some (pods (k8s w) !! name) →
  v1.create_namespaced_pod ns name body w
  = (Raise (ApiException 409),
     with_trace (λ t, t ++ [Api (create_namespaced_pod name body)]) w).
Proof.
  intros [p Hp]. unfold v1.create_namespaced_pod.
  rewrite bind_run, run_emit, bind_run. unfold gets at 1. cbn [k8s with_trace].
  by rewrite Hp.
Qed.

Lemma run_read_pod (ns name : string) (p : pod) (w : world) :
  pods (k8s w) !! name = Some p →
  ∃ w', v1.read_namespaced_pod name ns w = (Return (hd Pending (phases p)), w') ∧
        phases <$> pods (k8s w') !! name = Some (tail (phases p)).
Proof.
  intros Hp. unfold v1.read_namespaced_pod.
  rewrite bind_run, run_emit, bind_run. unfold gets at 1. simpl. rewrite Hp.
  eexists. split; [reflexivity |]. simpl. by rewrite lookup_insert_eq.
Qed.

Lemma run_delete_pod (ns name : string) (w : world) :
  is_Some (pods (k8s w) !! name) →
  ∃ w', v1.delete_namespaced_pod name ns w = (Return tt, w') ∧
        pods (k8s w') !! name = None.
Proof.
  intros [p Hp]. unfold v1.delete_namespaced_pod.
  rewrite bind_run, run_emit, bind_run. unfold gets at 1. simpl. rewrite Hp.
  eexists. split; [reflexivity |]. simpl. by rewrite lookup_delete_eq.
Qed.

(** The wait loop of a copy ends as soon as the pod has settled, whichever
    way; it hangs when the pod never does. *)
Lemma wait_loop_ends (name : string) (body : M (option unit)) :
  (∀ w p, pods (k8s w) !! name = Some p →
     ∃ w', body w = (Return (if finished (hd Pending (phases p)) then Some tt else None), w') ∧
           phases <$> pods (k8s w') !! name = Some (tail (phases p))) →
  ∀ life w,
    phases <$> pods (k8s w) !! name = Some life →
    is_Some (terminal_phase life) →
    ∃ w', while_true (S (length life)) body w = (Return tt, w') ∧
          is_Some (pods (k8s w') !! name).
Proof.
  intros Hbody life. induction life as [|ph rest IH]; intros w Hlife Hend.
  - by destruct Hend.
  - destruct (pods (k8s w) !! name) as [p|] eqn:Hp; [| discriminate].
    simpl in Hlife. injection Hlife as Hlife.
    destruct (Hbody w p Hp) as (w1 & Hrun & Hnext).
    rewrite Hlife in Hrun, Hnext. simpl in Hrun, Hnext.
    change (while_true (S (length (ph :: rest))) body)
      with (r ← body; match r with Some a => mret a | None => while_true (S (length rest)) body end).
    rewrite bind_run, Hrun. simpl in Hend.
    destruct (finished ph).
    + exists w1. split; [reflexivity |].
      destruct (pods (k8s w1) !! name); [by eexists | discriminate].
    + by apply IH.
Qed.

Lemma wait_loop_hangs (name : string) (body : M (option unit)) :
  (∀ w p, pods (k8s w) !! name = Some p →
     ∃ w', body w = (Return (if finished (hd Pending (phases p)) then Some tt else None), w') ∧
           phases <$> pods (k8s w') !! name = Some (tail (phases p))) →
  ∀ life w,
    phases <$> pods (k8s w) !! name = Some life →
    terminal_phase life = None →
    (while_true (S (length life)) body w).1 = Hang.
Proof.
  intros Hbody life. induction life as [|ph rest IH]; intros w Hlife Hend.
  - destruct (pods (k8s w) !! name) as [p|] eqn:Hp; [| discriminate].
    simpl in Hlife. injection Hlife as Hlife.
    destruct (Hbody w p Hp) as (w1 & Hrun & Hnext).
    rewrite Hlife in Hrun. simpl in *. by rewrite bind_run, Hrun.
  - destruct (pods (k8s w) !! name) as [p|] eqn:Hp; [| discriminate].
    simpl in Hlife. injection Hlife as Hlife.
    destruct (Hbody w p Hp) as (w1 & Hrun & Hnext).
    rewrite Hlife in Hrun, Hnext. simpl in Hrun, Hnext.
    change (while_true (S (length (ph :: rest))) body)
      with (r ← body; match r with Some a => mret a | None => while_true (S (length rest)) body end).
    rewrite bind_run, Hrun. simpl in Hend.
    destruct (finished ph); [discriminate |]. by apply IH.
Qed.

Lemma All_copy_returns (ns src dst prefix : string) (w : world) :
  pods (k8s w) !! All.pivot_pod_name prefix src = None →
  is_Some (terminal_phase (kubelet w (pods_started w))) →
  ∃ w', All.copy_data_with_pod ns src dst prefix false w = (Return tt, w') ∧
        k8s w' = k8s w ∧ fs w' = fs w.
Proof.
  intros Hfree Hend.
  pose proof (All_copy_pod_only ns src dst prefix false w) as Honly.
  unfold All.copy_data_with_pod in *. cbv zeta in *.
  set (name := All.pivot_pod_name prefix src) in *.
  destruct (run_create_pod ns name (All.pod_body src dst) w Hfree) as (w1 & Hcreate & Hlife).
  rewrite bind_run, Hcreate in Honly |- *.
  rewrite bind_run in Honly |- *. unfold print at 1 in Honly. unfold print at 1.
  rewrite run_emit in Honly |- *.
  set (w2 := with_trace _ w1) in *.
  assert (Hlife2 : phases <$> pods (k8s w2) !! name = Some (kubelet w (pods_started w)))
    by exact Hlife.
  rewrite bind_run in Honly |- *. unfold gets at 1 in Honly. unfold gets at 1.
  assert (Hfuel : pod_polls name w2 = S (length (kubelet w (pods_started w)))).
  { unfold pod_polls. destruct (pods (k8s w2) !! name); [| discriminate].
    simpl in Hlife2. by injection Hlife2 as ->. }
  rewrite Hfuel in Honly |- *.
  lazymatch goal with |- context [while_true _ ?b] => set (body := b) in * end.
  destruct (wait_loop_ends name body) with (life := kubelet w (pods_started w)) (w := w2)
    as (w3 & Hloop & Hpod); [| exact Hlife2 | exact Hend |].
  { intros w0 p Hp. destruct (run_read_pod ns name p w0 Hp) as (w0' & Hread & Hnext).
    unfold body. rewrite bind_run, Hread. destruct (finished _).
    - rewrite bind_run. unfold print. rewrite run_emit. eexists. split; [reflexivity | exact Hnext].
    - rewrite bind_run. unfold time_sleep. rewrite run_emit.
      eexists. split; [reflexivity | exact Hnext]. }
  rewrite bind_run, Hloop in Honly |- *.
  destruct (run_delete_pod ns name w3 Hpod) as (w4 & Hdelete & Hgone).
  rewrite bind_run, Hdelete in Honly |- *.
  unfold print in Honly |- *. rewrite run_emit in Honly |- *.
  eexists. split; [reflexivity |].
  apply (pod_only_absent name); [exact Honly | exact Hfree | exact Hgone].
Qed.

Lemma Safe_copy_returns (ns src dst prefix : string) (w : world) :
  pods (k8s w) !! Safe.sanitize_pod_name src prefix = None →
  is_Some (terminal_phase (kubelet w (pods_started w))) →
  ∃ w', Safe.copy_data ns src dst prefix false w = (Return tt, w') ∧
        k8s w' = k8s w ∧ fs w' = fs w.
Proof.
  intros Hfree Hend.
  pose proof (Safe_copy_pod_only ns src dst prefix false w) as Honly.
  unfold Safe.copy_data in *. cbv zeta in *.
  set (name := Safe.sanitize_pod_name src prefix) in *.
  destruct (run_create_pod ns name (Safe.pod_body src dst) w Hfree) as (w1 & Hcreate & Hlife).
  rewrite bind_run, Hcreate in Honly |- *.
  rewrite bind_run in Honly |- *. unfold print at 1 in Honly. unfold print at 1.
  rewrite run_emit in Honly |- *.
  set (w2 := with_trace _ w1) in *.
  assert (Hlife2 : phases <$> pods (k8s w2) !! name = Some (kubelet w (pods_started w)))
    by exact Hlife.
  rewrite bind_run in Honly |- *. unfold gets at 1 in Honly. unfold gets at 1.
  assert (Hfuel : pod_polls name w2 = S (length (kubelet w (pods_started w)))).
  { unfold pod_polls. destruct (pods (k8s w2) !! name); [| discriminate].
    simpl in Hlife2. by injection Hlife2 as ->. }
  rewrite Hfuel in Honly |- *.
  lazymatch goal with |- context [while_true _ ?b] => set (body := b) in * end.
  destruct (wait_loop_ends name body) with (life := kubelet w (pods_started w)) (w := w2)
    as (w3 & Hloop & Hpod); [| exact Hlife2 | exact Hend |].
  { intros w0 p Hp. destruct (run_read_pod ns name p w0 Hp) as (w0' & Hread & Hnext).
    unfold body. rewrite bind_run, Hread. destruct (finished _).
    - eexists. split; [reflexivity | exact Hnext].
    - rewrite bind_run. unfold time_sleep. rewrite run_emit.
      eexists. split; [reflexivity | exact Hnext]. }
  rewrite bind_run, Hloop in Honly |- *.
  destruct (run_delete_pod ns name w3 Hpod) as (w4 & Hdelete & Hgone).
  rewrite bind_run, Hdelete in Honly |- *.
  unfold print in Honly |- *. rewrite run_emit in Honly |- *.
  eexists. split; [reflexivity |].
  apply (pod_only_absent name); [exact Honly | exact Hfree | exact Hgone].
Qed.

(** ** A copy pod that ends Failed *)

Global Instance kubelet_kept_preorder : PreOrder kubelet_kept.
Proof.
  split; [by intros w |]. intros w1 w2 w3 H1 H2. unfold kubelet_kept in *. congruence.
Qed.

Lemma kubelet_kept_modify (f : world → world) :
  (∀ w, kubelet (f w) = kubelet w) → respects kubelet_kept (modify f).
Proof. intros Hf w. apply Hf. Qed.

Create HintDb kubelet_kept discriminated.

#[export] Hint Extern 1 (respects kubelet_kept (emit _)) =>
  apply kubelet_kept_modify; reflexivity : kubelet_kept.
#[export] Hint Extern 1 (respects kubelet_kept (print _)) =>
  apply kubelet_kept_modify; reflexivity : kubelet_kept.
#[export] Hint Extern 1 (respects kubelet_kept (time_sleep _)) =>
  apply kubelet_kept_modify; reflexivity : kubelet_kept.
#[export] Hint Extern 1 (respects kubelet_kept (modify _)) =>
  apply kubelet_kept_modify; reflexivity : kubelet_kept.

Ltac kubelet_kept :=
  repeat first [ solve [auto with kubelet_kept] | respects_step ].

Lemma All_copy_kubelet_kept (ns src dst prefix : string) (dry_run : bool) :
  respects kubelet_kept (All.copy_data_with_pod ns src dst prefix dry_run).
Proof.
  unfold All.copy_data_with_pod, v1.create_namespaced_pod, v1.read_namespaced_pod,
    v1.delete_namespaced_pod.
  cbv zeta. kubelet_kept.
Qed.

Lemma Safe_copy_kubelet_kept (ns src dst prefix : string) (dry_run : bool) :
  respects kubelet_kept (Safe.copy_data ns src dst prefix dry_run).
Proof.
  unfold Safe.copy_data, v1.create_namespaced_pod, v1.read_namespaced_pod,
    v1.delete_namespaced_pod.
  cbv zeta. kubelet_kept.
Qed.

Lemma ending_blind_ret {A} (a : A) : ending_blind (mret a).
Proof. intros w1 w2 H. by split. Qed.

Lemma ending_blind_raise {A} (e : exn) : ending_blind (@raise A e).
Proof. intros w1 w2 H. by split. Qed.

Lemma ending_blind_gets {A} (f : world → A) :
  (∀ w1 w2, same_but_endings w1 w2 → f w1 = f w2) → ending_blind (gets f).
Proof. intros Hf w1 w2 H. split; [simpl; f_equal; by apply Hf | exact H]. Qed.

Lemma ending_blind_modify (f : world → world) :
  (∀ w1 w2, same_but_endings w1 w2 → same_but_endings (f w1) (f w2)) →
  ending_blind (modify f).
Proof. intros Hf w1 w2 H. split; [reflexivity | by apply Hf]. Qed.

Lemma ending_blind_bind {A B} (m : M A) (f : A → M B) :
  ending_blind m → (∀ a, ending_blind (f a)) → ending_blind (m ≫= f).
Proof.
  intros Hm Hf w1 w2 H. rewrite !bind_run. destruct (Hm w1 w2 H) as [Ho Hw].
  destruct (m w1) as [[a1|e1|] w1'], (m w2) as [[a2|e2|] w2']; simpl in *; try discriminate.
  - injection Ho as ->. by apply Hf.
  - injection Ho as ->. by split.
  - by split.
Qed.

Lemma ending_blind_try_except {A} (m : M A) (h : exn → M A) :
  ending_blind m → (∀ e, ending_blind (h e)) → ending_blind (try_except m h).
Proof.
  intros Hm Hh w1 w2 H. unfold try_except. destruct (Hm w1 w2 H) as [Ho Hw].
  destruct (m w1) as [[a1|e1|] w1'], (m w2) as [[a2|e2|] w2']; simpl in *; try discriminate.
  - by split.
  - injection Ho as ->. by apply Hh.
  - by split.
Qed.

Lemma ending_blind_for_each {A} (xs : list A) (body : A → M unit) :
  (∀ x, ending_blind (body x)) → ending_blind (for_each xs body).
Proof.
  intros Hb. induction xs as [|x xs IH]; simpl.
  - apply ending_blind_ret.
  - apply ending_blind_bind; [apply Hb | intros _; exact IH].
Qed.

Lemma ending_blind_for_fold {A S} (xs : list A) (s : S) (body : S → A → M S) :
  (∀ s x, ending_blind (body s x)) → ending_blind (for_fold xs s body).
Proof.
  intros Hb. revert s. induction xs as [|x xs IH]; intros s; simpl.
  - apply ending_blind_ret.
  - apply ending_blind_bind; [apply Hb | intros s'; apply IH].
Qed.

Lemma ending_blind_on_conflict {A} (e : exn) (a b : M A) :
  ending_blind a → ending_blind b →
  ending_blind (match e with ApiException 409 => a | _ => b end).
Proof.
  intros Ha Hb. destruct e as [n| | | | |]; try exact Hb.
  do 409 (destruct n as [|n]; [exact Hb |]). destruct n; [exact Ha | exact Hb].
Qed.

Ltac same_but_endings :=
  let Hk := fresh in let Hf := fresh in let Hs1 := fresh in let Hs2 := fresh in
  intros ? ? (Hk & Hf & Hs1 & Hs2);
  unfold same_but_endings, every_pod_settles; simpl;
  rewrite ?Hk, ?Hf; done.

Ltac ending_blind_step :=
  lazymatch goal with
  | |- ending_blind (mbind _ _) => apply ending_blind_bind; [| intros ?; cbv beta]
  | |- ending_blind (mret _) => apply ending_blind_ret
  | |- ending_blind (raise _) => apply ending_blind_raise
  | |- ending_blind (gets _) => apply ending_blind_gets; same_but_endings
  | |- ending_blind (modify _) => apply ending_blind_modify; same_but_endings
  | |- ending_blind (emit _) => apply ending_blind_modify; same_but_endings
  | |- ending_blind (print _) => apply ending_blind_modify; same_but_endings
  | |- ending_blind (time_sleep _) => apply ending_blind_modify; same_but_endings
  | |- ending_blind (when _ _) => unfold when
  | |- ending_blind (for_each _ _) => apply ending_blind_for_each; intros ?; cbv beta
  | |- ending_blind (for_fold _ _ _) => apply ending_blind_for_fold; intros ? ?; cbv beta
  | |- ending_blind (try_except _ _) => apply ending_blind_try_except; [| intros ?; cbv beta]
  | |- ending_blind (match ?e with ApiException _ => _ | _ => _ end) =>
      is_var e; first [apply ending_blind_on_conflict | destruct e]
  | |- ending_blind (if ?b then _ else _) => destruct b
  | |- ending_blind (match ?x with _ => _ end) => destruct x
  | |- ending_blind (match ?x with _ => _ end _) => destruct x; cbv beta iota
  end.

Create HintDb ending_blind discriminated.

Ltac ending_blind :=
  unfold write_file, os_remove, read_file, os_path_exists, patch_in;
  repeat first [ solve [auto with ending_blind] | ending_blind_step ].

(** A copy: with the name of the pod taken it is answered 409, else it
    returns when the pod has settled, whichever way. *)
Lemma copy_ending_blind (name : string) (copy : M unit) :
  respects kubelet_kept copy →
  (∀ w, is_Some (pods (k8s w) !! name) →
     (copy w).1 = Raise (ApiException 409) ∧ k8s (copy w).2 = k8s w ∧ fs (copy w).2 = fs w) →
  (∀ w, pods (k8s w) !! name = None →
     is_Some (terminal_phase (kubelet w (pods_started w))) →
     ∃ w', copy w = (Return tt, w') ∧ k8s w' = k8s w ∧ fs w' = fs w) →
  ending_blind copy.
Proof.
  intros Hkept Htaken Hfree w1 w2 (Hk & Hf & Hs1 & Hs2).
  assert (every_pod_settles (copy w1).2 ∧ every_pod_settles (copy w2).2) as [Hs1' Hs2'].
  { unfold every_pod_settles. rewrite (Hkept w1), (Hkept w2). by split. }
  destruct (pods (k8s w1) !! name) as [p|] eqn:Hp.
  - destruct (Htaken w1) as (-> & Hk1 & Hf1); [by eexists |].
    destruct (Htaken w2) as (-> & Hk2 & Hf2); [rewrite <- Hk, Hp; by eexists |].
    split; [reflexivity |]. repeat split; [congruence | congruence | done | done].
  - destruct (Hfree w1 Hp (Hs1 _)) as (w1' & Hrun1 & Hk1 & Hf1).
    destruct (Hfree w2) as (w2' & Hrun2 & Hk2 & Hf2); [by rewrite <- Hk | apply Hs2 |].
    rewrite Hrun1, Hrun2 in *. split; [reflexivity |].
    repeat split; [simpl; congruence | simpl; congruence | done | done].
Qed.

Lemma All_copy_ending_blind (ns src dst prefix : string) (dry_run : bool) :
  ending_blind (All.copy_data_with_pod ns src dst prefix dry_run).
Proof.
  destruct dry_run; [unfold All.copy_data_with_pod; cbv zeta iota; ending_blind |].
  apply (copy_ending_blind (All.pivot_pod_name prefix src)).
  - apply All_copy_kubelet_kept.
  - intros w Htaken. unfold All.copy_data_with_pod. cbv zeta.
    by rewrite bind_run, (run_create_pod_taken _ _ _ _ Htaken).
  - apply All_copy_returns.
Qed.

Lemma Safe_copy_ending_blind (ns src dst prefix : string) (dry_run : bool) :
  ending_blind (Safe.copy_data ns src dst prefix dry_run).
Proof.
  destruct dry_run; [unfold Safe.copy_data; cbv zeta iota; ending_blind |].
  apply (copy_ending_blind (Safe.sanitize_pod_name src prefix)).
  - apply Safe_copy_kubelet_kept.
  - intros w Htaken. unfold Safe.copy_data. cbv zeta.
    by rewrite bind_run, (run_create_pod_taken _ _ _ _ Htaken).
  - apply Safe_copy_returns.
Qed.

#[export] Hint Resolve All_copy_ending_blind Safe_copy_ending_blind : ending_blind.

Lemma All_main_ending_blind (args : All.Args) : ending_blind (All.main args).
Proof.
  unfold All.main, All.phase_one, All.phase_two, All.list_pvcs_in_storageclass,
    All.pivot_to_temp, All.recreate_entry, All.create_pvc,
    v1.list_namespaced_persistent_volume_claim, v1.create_namespaced_persistent_volume_claim,
    v1.delete_namespaced_persistent_volume_claim.
  cbv beta iota zeta. ending_blind.
Qed.

Lemma Safe_main_ending_blind (args : Safe.Args) : ending_blind (Safe.main args).
Proof.
  unfold Safe.main, Safe.list_pvcs, Safe.pivot_to_temp, Safe.recreate_record,
    Safe.create_pvc, Safe.detect_and_scale_down, Safe.scale_back_up, Safe.restore_entry,
    v1.list_namespaced_persistent_volume_claim, v1.create_namespaced_persistent_volume_claim,
    v1.delete_namespaced_persistent_volume_claim.
  unfold apps_v1.list_namespaced_deployment, apps_v1.list_namespaced_stateful_set,
    apps_v1.list_namespaced_replica_set, apps_v1.list_namespaced_daemon_set,
    batch_v1.list_namespaced_cron_job, batch_v1.list_namespaced_job,
    apps_v1.patch_namespaced_deployment_scale, apps_v1.patch_namespaced_replica_set_scale,
    apps_v1.patch_namespaced_stateful_set_scale, apps_v1.patch_namespaced_daemon_set,
    batch_v1.patch_namespaced_cron_job, batch_v1.delete_namespaced_job.
  cbv beta iota zeta. ending_blind.
Qed.

(** C3 (as amended): when the copy pod settles in [Failed], the copy
    operation of either pivot script deletes the pod and returns normally to
    its caller, leaving the claims, the other objects and the files as they
    were.  Nothing marks the volume as failed: two runs of a pivot script
    from the same cluster and the same files, in each of which every copy
    pod settles, in [Failed] or in [Succeeded], end with the same outcome,
    the same cluster and the same files.  So the run goes on with this
    volume, and with the other volumes of the batch, as it does after
    [Succeeded]. *)
Theorem failed_copy_returns_normally (ns src dst prefix : string) (w : world) :
  (terminal_phase (kubelet w (pods_started w)) = Some Failed →
   pods (k8s w) !! All.pivot_pod_name prefix src = None →
   pods (k8s w) !! Safe.sanitize_pod_name src prefix = None →
   (∃ w', All.copy_data_with_pod ns src dst prefix false w = (Return tt, w') ∧
          k8s w' = k8s w ∧ fs w' = fs w) ∧
   (∃ w', Safe.copy_data ns src dst prefix false w = (Return tt, w') ∧
          k8s w' = k8s w ∧ fs w' = fs w)) ∧
  (∀ w', same_but_endings w w' →
     (∀ args,
        (All.main args w).1 = (All.main args w').1 ∧
        k8s (All.main args w).2 = k8s (All.main args w').2 ∧
        fs (All.main args w).2 = fs (All.main args w').2) ∧
     (∀ args,
        (Safe.main args w).1 = (Safe.main args w').1 ∧
        k8s (Safe.main args w).2 = k8s (Safe.main args w').2 ∧
        fs (Safe.main args w).2 = fs (Safe.main args w').2)).
Proof.
  split.
  - intros Hfailed Hfree1 Hfree2. split.
    + apply All_copy_returns; [exact Hfree1 | by rewrite Hfailed].
    + apply Safe_copy_returns; [exact Hfree2 | by rewrite Hfailed].
  - intros w' Hsame. split; intros args.
    + destruct (All_main_ending_blind args w w' Hsame) as (Hout & Hk & Hf & _). done.
    + destruct (Safe_main_ending_blind args w w' Hsame) as (Hout & Hk & Hf & _). done.
Qed.

Lemma failed_copy_returns_normally_witness :
  let w := first_copy_fails in
  terminal_phase (kubelet w (pods_started w)) = Some Failed ∧
  (∃ w', All.copy_data_with_pod "prod" "data-pvc" "data-pvc-temp" "pivot1" false w
           = (Return tt, w') ∧ k8s w' = k8s w ∧ fs w' = fs w) ∧
  (∃ w', Safe.copy_data "prod" "data-pvc" "data-pvc-temp" "pivot1" false w
           = (Return tt, w') ∧ k8s w' = k8s w ∧ fs w' = fs w) ∧
  (* the batch of two claims, the first copy pod ending Failed, against the
     batch with every copy pod ending Succeeded *)
  (All.main basic_phase1 w).1 = (All.main basic_phase1 all_copies_succeed).1 ∧
  k8s (All.main basic_phase1 w).2 = k8s (All.main basic_phase1 all_copies_succeed).2 ∧
  fs (All.main basic_phase1 w).2 = fs (All.main basic_phase1 all_copies_succeed).2.
Proof.
  intros w. split; [reflexivity |].
  destruct (failed_copy_returns_normally "prod" "data-pvc" "data-pvc-temp" "pivot1" w)
    as [Hcopy Hbatch].
  destruct Hcopy as [Hall Hsafe]; [reflexivity | reflexivity | reflexivity |].
  split; [exact Hall |]. split; [exact Hsafe |].
  assert (same_but_endings w all_copies_succeed) as Hsame.
  { split; [reflexivity |]. split; [reflexivity |].
    split; intros [|i]; by eexists. }
  exact (proj1 (Hbatch all_copies_succeed Hsame) basic_phase1).
Defined.

(** C3 as stated fails: with two claims to migrate and the first copy pod
    ending [Failed], phase 1 of both pivot scripts exits with status 0 and
    writes the failed volume into the ledger next to the other one; the safe
    variant prints no line that mentions the failure. *)
Lemma failed_copy_is_reported_counterexample :
  let w := first_copy_fails in
  let basic := All.main (All.mkArgs "old-sc" "new-sc" "prod" false
                           All.DEFAULT_METADATA_FILE false false) w in
  let safe := Safe.main (Safe.mkArgs "old-sc" "new-sc" "prod" false false false) w in
  let ledger := [mkPivot "data-pvc" "data-pvc-temp" "10Gi" ["ReadWriteOnce"];
                 mkPivot "logs-pvc" "logs-pvc-temp" "5Gi" ["ReadWriteMany"]] in
  terminal_phase (kubelet w 0) = Some Failed ∧
  exit_status basic.1 = Some 0 ∧
  fs basic.2 !! All.DEFAULT_METADATA_FILE = Some (JsonPivot "access_modes" ledger) ∧
  exit_status safe.1 = Some 0 ∧
  fs safe.2 !! Safe.DEFAULT_METADATA_FILE = Some (JsonPivot "modes" ledger) ∧
  existsb (str_contains "ail") (stdout (trace safe.2)) = false.
Proof. vm_compute. repeat split. Qed.

(** ** Quiescence: what is persisted, and when *)

Global Instance files_untouched_preorder : PreOrder files_untouched.
Proof.
  split.
  - intros w. split; [reflexivity | exists []; split; [by rewrite app_nil_r | constructor]].
  - intros w1 w2 w3 [Hk1 (t1 & Ht1 & Hf1)] [Hk2 (t2 & Ht2 & Hf2)]. split; [congruence |].
    exists (t1 ++ t2). split; [rewrite Ht2, Ht1, app_assoc; reflexivity | by apply Forall_app].
Qed.

Lemma files_untouched_emit (e : event) :
  is_file_event e = false → respects files_untouched (emit e).
Proof.
  intros He w. split; [reflexivity |].
  exists [e]. split; [reflexivity | by constructor].
Qed.

Lemma files_untouched_k8s (f : cluster → cluster) :
  respects files_untouched (modify (with_k8s f)).
Proof.
  intros w. split; [reflexivity |]. exists []. split; [by rewrite app_nil_r | constructor].
Qed.

Lemma files_untouched_print (line : string) : respects files_untouched (print line).
Proof. by apply files_untouched_emit. Qed.

Create HintDb files_untouched discriminated.

#[export] Hint Resolve files_untouched_k8s files_untouched_print : files_untouched.

#[export] Hint Extern 1 (respects files_untouched (emit _)) =>
  apply files_untouched_emit; reflexivity : files_untouched.

Ltac files_untouched :=
  repeat first [ solve [auto with files_untouched] | respects_step ].

Lemma files_untouched_patch_in (kind : cluster → gmap string workload)
    (with_kind : (gmap string workload → gmap string workload) → cluster → cluster)
    (name : string) (body : patch) :
  respects files_untouched (patch_in kind with_kind name body).
Proof. unfold patch_in. files_untouched. Qed.

#[export] Hint Resolve files_untouched_patch_in : files_untouched.


Lemma written_last_bind {A} (m : M A) (f : A → M (list (string * ScaleEntry))) :
  respects files_untouched m →
  (∀ a w1, written_last w1 (f a w1)) →
  ∀ w, written_last w ((m ≫= f) w).
Proof.
  intros Hm Hf w. rewrite bind_run. destruct (Hm w) as [Hfs (t & Ht & Hquiet)].
  destruct (m w) as [[a|e|] w1]; simpl in *.
  - destruct (Hf a w1) as (calls & Hcalls & Hr).
    exists (t ++ calls). split; [by apply Forall_app |].
    destruct (f a w1) as [[b|e|] w2]; simpl in *;
      destruct Hr as [Hr1 Hr2]; rewrite Hr1, Hr2, Ht, Hfs, <- ?app_assoc; by split.
  - exists t. by split.
  - exists t. by split.
Qed.

(** C8 (as amended): in every run of the quiescence step that is not a dry
    run, the scale-state file is written once, as the last step, after
    every scale-down, suspend, node-selector patch and delete of the scan;
    it holds the prior states the scan returns.  A scan cut short by an
    exception has written no file. *)
Theorem scale_state_written_after_mutations (ns : string) (pvc_names : list string)
    (w : world) :
  let r := Safe.detect_and_scale_down ns pvc_names false w in
  ∃ calls, Forall (λ e, is_file_event e = false) calls ∧
    match r.1 with
    | Return backup =>
        trace r.2 = trace w ++ calls ++ [FsWrite Safe.SCALE_TRACK_FILE] ∧
        fs r.2 = <[Safe.SCALE_TRACK_FILE := JsonScale backup]> (fs w)
    | _ => trace r.2 = trace w ++ calls ∧ fs r.2 = fs w
    end.
Proof.
  cbv zeta. change (written_last w (Safe.detect_and_scale_down ns pvc_names false w)).
  unfold Safe.detect_and_scale_down.
  unfold apps_v1.list_namespaced_deployment, apps_v1.list_namespaced_stateful_set,
    apps_v1.list_namespaced_replica_set, apps_v1.list_namespaced_daemon_set,
    batch_v1.list_namespaced_cron_job, batch_v1.list_namespaced_job,
    apps_v1.patch_namespaced_deployment_scale, apps_v1.patch_namespaced_replica_set_scale,
    apps_v1.patch_namespaced_stateful_set_scale, apps_v1.patch_namespaced_daemon_set,
    batch_v1.patch_namespaced_cron_job, batch_v1.delete_namespaced_job.
  cbv beta iota zeta delta [negb when].
  revert w.
  repeat (apply written_last_bind; [solve [files_untouched] | intros ?]).
  intros w. exists []. split; [constructor |]. by split.
Qed.

(** C8 as stated fails: scaling down the Deployment [web] comes before the
    write of the scale-state file. *)
Lemma scale_state_written_first_counterexample :
  let w := world_of web_cluster [Succeeded] in
  let r := Safe.detect_and_scale_down "prod" ["data-pvc"] false w in
  r.1 = Return [("uid-web", ("Deployment", "web", VInt 3));
                ("uid-nightly", ("Job", "nightly", VStr "deleted"))] ∧
  written_before_mutating Safe.SCALE_TRACK_FILE (trace r.2) = false ∧
  trace r.2 !! 7 = Some (Api (patch_namespaced_deployment_scale "web" (ReplicasPatch (VInt 0)))) ∧
  trace r.2 !! 10 = Some (FsWrite Safe.SCALE_TRACK_FILE).
Proof. vm_compute. repeat split. Qed.

(** ** Programs that do not look at the trace *)

Global Instance same_but_trace_equiv : Equivalence same_but_trace.
Proof.
  split.
  - intros w. by repeat split.
  - intros w1 w2 (?&?&?&?&?&?). by repeat split.
  - intros w1 w2 w3 (?&?&?&?&?&?) (?&?&?&?&?&?). repeat split; congruence.
Qed.

Lemma trace_blind_ret {A} (a : A) : trace_blind (mret a).
Proof. intros w1 w2 H. by split. Qed.

Lemma trace_blind_raise {A} (e : exn) : trace_blind (@raise A e).
Proof. intros w1 w2 H. by split. Qed.

Lemma trace_blind_hang {A} : trace_blind (@hang A).
Proof. intros w1 w2 H. by split. Qed.

Lemma trace_blind_gets {A} (f : world → A) :
  (∀ w1 w2, same_but_trace w1 w2 → f w1 = f w2) → trace_blind (gets f).
Proof. intros Hf w1 w2 H. split; [simpl; f_equal; by apply Hf | exact H]. Qed.

Lemma trace_blind_modify (f : world → world) :
  (∀ w1 w2, same_but_trace w1 w2 → same_but_trace (f w1) (f w2)) → trace_blind (modify f).
Proof. intros Hf w1 w2 H. split; [reflexivity | by apply Hf]. Qed.

Lemma trace_blind_bind {A B} (m : M A) (f : A → M B) :
  trace_blind m → (∀ a, trace_blind (f a)) → trace_blind (m ≫= f).
Proof.
  intros Hm Hf w1 w2 H. rewrite !bind_run. destruct (Hm w1 w2 H) as [Ho Hw].
  destruct (m w1) as [[a1|e1|] w1'], (m w2) as [[a2|e2|] w2']; simpl in *; try discriminate.
  - injection Ho as ->. by apply Hf.
  - injection Ho as ->. by split.
  - by split.
Qed.

Lemma trace_blind_try_except {A} (m : M A) (h : exn → M A) :
  trace_blind m → (∀ e, trace_blind (h e)) → trace_blind (try_except m h).
Proof.
  intros Hm Hh w1 w2 H. unfold try_except. destruct (Hm w1 w2 H) as [Ho Hw].
  destruct (m w1) as [[a1|e1|] w1'], (m w2) as [[a2|e2|] w2']; simpl in *; try discriminate.
  - by split.
  - injection Ho as ->. by apply Hh.
  - by split.
Qed.

Lemma trace_blind_for_each {A} (xs : list A) (body : A → M unit) :
  (∀ x, trace_blind (body x)) → trace_blind (for_each xs body).
Proof.
  intros Hb. induction xs as [|x xs IH]; simpl.
  - apply trace_blind_ret.
  - apply trace_blind_bind; [apply Hb | intros _; exact IH].
Qed.

Lemma trace_blind_for_fold {A S} (xs : list A) (s : S) (body : S → A → M S) :
  (∀ s x, trace_blind (body s x)) → trace_blind (for_fold xs s body).
Proof.
  intros Hb. revert s. induction xs as [|x xs IH]; intros s; simpl.
  - apply trace_blind_ret.
  - apply trace_blind_bind; [apply Hb | intros s'; apply IH].
Qed.

Lemma trace_blind_for_fold_in {A S} (xs : list A) (s : S) (body : S → A → M S) :
  (∀ s x, x ∈ xs → trace_blind (body s x)) → trace_blind (for_fold xs s body).
Proof.
  revert s. induction xs as [|x xs IH]; intros s Hb; simpl.
  - apply trace_blind_ret.
  - apply trace_blind_bind; [apply Hb; left | intros s'; apply IH].
    intros s'' y Hy. apply Hb. by right.
Qed.

Lemma trace_blind_while_true {A} (fuel : nat) (body : M (option A)) :
  trace_blind body → trace_blind (while_true fuel body).
Proof.
  intros Hb. induction fuel as [|fuel IH]; simpl.
  - apply trace_blind_hang.
  - apply trace_blind_bind; [exact Hb | intros [a|]; [apply trace_blind_ret | exact IH]].
Qed.

(** The loops of a copy and of a snapshot take their fuel from the world. *)
Lemma trace_blind_wait {A B} (fuel : world → nat) (body : M (option A)) (k : A → M B) :
  (∀ w1 w2, same_but_trace w1 w2 → fuel w1 = fuel w2) →
  trace_blind body → (∀ a, trace_blind (k a)) →
  trace_blind (n ← gets fuel; while_true n body ≫= k).
Proof.
  intros Hfuel Hb Hk. apply trace_blind_bind; [by apply trace_blind_gets |].
  intros n. apply trace_blind_bind; [by apply trace_blind_while_true | exact Hk].
Qed.

Ltac same_but_trace :=
  let Hk := fresh in let Hf := fresh in let Hl := fresh in
  let Hp := fresh in let Hc := fresh in let Hr := fresh in
  intros ? ? (Hk & Hf & Hl & Hp & Hc & Hr);
  unfold same_but_trace, pod_polls, snapshot_polls; simpl;
  rewrite ?Hk, ?Hf, ?Hl, ?Hp, ?Hc, ?Hr; done.

Ltac trace_blind_step :=
  lazymatch goal with
  | |- trace_blind (mbind _ _) => apply trace_blind_bind; [| intros ?; cbv beta]
  | |- trace_blind (mret _) => apply trace_blind_ret
  | |- trace_blind (raise _) => apply trace_blind_raise
  | |- trace_blind (gets _) => apply trace_blind_gets; same_but_trace
  | |- trace_blind (modify _) => apply trace_blind_modify; same_but_trace
  | |- trace_blind (emit _) => apply trace_blind_modify; same_but_trace
  | |- trace_blind (print _) => apply trace_blind_modify; same_but_trace
  | |- trace_blind (time_sleep _) => apply trace_blind_modify; same_but_trace
  | |- trace_blind (for_each _ _) => apply trace_blind_for_each; intros ?; cbv beta
  | |- trace_blind (for_fold _ _ _) => apply trace_blind_for_fold; intros ? ?; cbv beta
  | |- trace_blind (try_except _ _) => apply trace_blind_try_except; [| intros ?; cbv beta]
  | |- trace_blind (while_true _ _) => apply trace_blind_while_true
  | |- trace_blind (if ?b then _ else _) => destruct b
  | |- trace_blind (match ?x with _ => _ end) => destruct x
  | |- trace_blind (match ?x with _ => _ end _) => destruct x; cbv beta iota
  end.

Create HintDb trace_blind discriminated.

Ltac trace_blind :=
  repeat first [ solve [auto with trace_blind] | trace_blind_step ].

Lemma trace_blind_write_file (path : string) (content : file) :
  trace_blind (write_file path content).
Proof. unfold write_file. trace_blind. Qed.

Lemma trace_blind_append_file (path : string) (lines : list string) :
  trace_blind (append_file path lines).
Proof. unfold append_file. trace_blind. Qed.

Lemma trace_blind_patch_in (kind : cluster → gmap string workload)
    (with_kind : (gmap string workload → gmap string workload) → cluster → cluster)
    (name : string) (body : patch) :
  trace_blind (patch_in kind with_kind name body).
Proof. unfold patch_in. trace_blind. Qed.

#[export] Hint Resolve trace_blind_write_file trace_blind_append_file trace_blind_patch_in
  : trace_blind.

Lemma trace_blind_create_pvc (ns name : string) (body : pvc_spec) :
  trace_blind (v1.create_namespaced_persistent_volume_claim ns name body).
Proof. unfold v1.create_namespaced_persistent_volume_claim. trace_blind. Qed.

Lemma trace_blind_delete_pvc (ns name : string) :
  trace_blind (v1.delete_namespaced_persistent_volume_claim name ns).
Proof. unfold v1.delete_namespaced_persistent_volume_claim. trace_blind. Qed.

Lemma trace_blind_list_pod (ns : string) : trace_blind (v1.list_namespaced_pod ns).
Proof. unfold v1.list_namespaced_pod. trace_blind. Qed.

Lemma trace_blind_create_pod (ns name : string) (body : pod) :
  trace_blind (v1.create_namespaced_pod ns name body).
Proof. unfold v1.create_namespaced_pod. trace_blind. Qed.

Lemma trace_blind_read_pod (ns name : string) : trace_blind (v1.read_namespaced_pod name ns).
Proof. unfold v1.read_namespaced_pod. trace_blind. Qed.

Lemma trace_blind_delete_pod (ns name : string) :
  trace_blind (v1.delete_namespaced_pod name ns).
Proof. unfold v1.delete_namespaced_pod. trace_blind. Qed.

Lemma trace_blind_list_deployment (ns : string) :
  trace_blind (apps_v1.list_namespaced_deployment ns).
Proof. unfold apps_v1.list_namespaced_deployment. trace_blind. Qed.

Lemma trace_blind_list_stateful_set (ns : string) :
  trace_blind (apps_v1.list_namespaced_stateful_set ns).
Proof. unfold apps_v1.list_namespaced_stateful_set. trace_blind. Qed.

Lemma trace_blind_list_daemon_set (ns : string) :
  trace_blind (apps_v1.list_namespaced_daemon_set ns).
Proof. unfold apps_v1.list_namespaced_daemon_set. trace_blind. Qed.

Lemma trace_blind_patch_deployment (name ns : string) (body : patch) :
  trace_blind (apps_v1.patch_namespaced_deployment name ns body).
Proof. unfold apps_v1.patch_namespaced_deployment. trace_blind. Qed.

Lemma trace_blind_patch_stateful_set (name ns : string) (body : patch) :
  trace_blind (apps_v1.patch_namespaced_stateful_set name ns body).
Proof. unfold apps_v1.patch_namespaced_stateful_set. trace_blind. Qed.

Lemma trace_blind_patch_daemon_set (name ns : string) (body : patch) :
  trace_blind (apps_v1.patch_namespaced_daemon_set name ns body).
Proof. unfold apps_v1.patch_namespaced_daemon_set. trace_blind. Qed.

#[export] Hint Resolve trace_blind_create_pvc trace_blind_delete_pvc trace_blind_list_pod
  trace_blind_create_pod trace_blind_read_pod trace_blind_delete_pod
  trace_blind_list_deployment trace_blind_list_stateful_set trace_blind_list_daemon_set
  trace_blind_patch_deployment trace_blind_patch_stateful_set trace_blind_patch_daemon_set
  : trace_blind.

Lemma MoveStorage_create_new_pvc_blind (old_pvc : PVC) (target ns : string) (dry_run : bool)
    (snapshot_name : option string) :
  trace_blind (MoveStorage.create_new_pvc old_pvc target ns dry_run snapshot_name).
Proof.
  unfold MoveStorage.create_new_pvc, MoveStorage.report_new_pvcs. cbv zeta. trace_blind.
Qed.

Lemma MoveStorage_create_pivot_pod_blind (ns src dst : string) (dry_run : bool) :
  trace_blind (MoveStorage.create_pivot_pod ns src dst dry_run).
Proof.
  unfold MoveStorage.create_pivot_pod, MoveStorage.report_pivot_pods. cbv zeta. trace_blind.
Qed.

Lemma MoveStorage_export_pod_manifest_blind (pod : string * pod) (new_pvc_name : string) :
  trace_blind (MoveStorage.export_pod_manifest pod new_pvc_name).
Proof.
  unfold MoveStorage.export_pod_manifest, MoveStorage.report_pod_manifests.
  cbv beta iota zeta. trace_blind.
Qed.

Lemma MoveStorage_delete_old_pvc_blind (ns pvc_name : string) (dry_run delete_enabled : bool) :
  trace_blind (MoveStorage.delete_old_pvc ns pvc_name dry_run delete_enabled).
Proof. unfold MoveStorage.delete_old_pvc, MoveStorage.report_pvcs_deleted. trace_blind. Qed.

#[export] Hint Resolve MoveStorage_create_new_pvc_blind MoveStorage_create_pivot_pod_blind
  MoveStorage_export_pod_manifest_blind MoveStorage_delete_old_pvc_blind : trace_blind.

Lemma MoveStorage_patch_volumes_blind (kind : string)
    (patch_func : string → string → patch → M unit)
    (ns old_pvc_name new_pvc_name : string) (dry_run : bool) (name : string)
    (st : workload * bool) :
  (∀ n s b, trace_blind (patch_func n s b)) →
  trace_blind (MoveStorage.patch_volumes kind patch_func ns old_pvc_name new_pvc_name
                 dry_run name st).
Proof.
  intros Hpatch.
  unfold MoveStorage.patch_volumes, MoveStorage.report_workloads_patched.
  cbv beta iota zeta. trace_blind.
Qed.

Lemma MoveStorage_patch_templates_blind
    (patch_func : string → string → patch → M unit)
    (ns : string) (old_sc : option string) (new_pvc_name : string) (dry_run : bool)
    (name : string) (st : workload * bool) :
  (∀ n s b, trace_blind (patch_func n s b)) →
  trace_blind (MoveStorage.patch_templates patch_func ns old_sc new_pvc_name dry_run name st).
Proof.
  intros Hpatch.
  unfold MoveStorage.patch_templates, MoveStorage.report_workloads_patched.
  cbv beta iota zeta. trace_blind.
Qed.

Lemma MoveStorage_patch_workload_using_pvc_blind (ns : string) (old_pvc : PVC)
    (new_pvc_name : string) (dry_run export_pods : bool) :
  trace_blind (MoveStorage.patch_workload_using_pvc ns old_pvc new_pvc_name dry_run export_pods).
Proof.
  unfold MoveStorage.patch_workload_using_pvc, MoveStorage.report_workloads_patched.
  cbv beta iota zeta delta [negb when].
  trace_blind_step; [| trace_blind].
  apply trace_blind_for_fold_in. intros found [[kind list_func] patch_func] Hin.
  repeat (apply elem_of_cons in Hin as [[= -> -> ->] | Hin]);
    [ trace_blind;
      first [ apply MoveStorage_patch_volumes_blind
            | apply MoveStorage_patch_templates_blind ];
      auto with trace_blind .. |].
  by apply elem_of_nil in Hin.
Qed.

#[export] Hint Resolve MoveStorage_patch_workload_using_pvc_blind : trace_blind.

(** ** Calls that start no pod *)

Global Instance no_pod_created_preorder : PreOrder no_pod_created.
Proof.
  split.
  - intros w. exists []. split; [by rewrite app_nil_r | constructor].
  - intros w1 w2 w3 (t1 & Ht1 & Hf1) (t2 & Ht2 & Hf2).
    exists (t1 ++ t2). split; [rewrite Ht2, Ht1, app_assoc; reflexivity | by apply Forall_app].
Qed.

Lemma no_pod_created_emit (e : event) :
  is_pod_create e = false → respects no_pod_created (emit e).
Proof. intros He w. exists [e]. split; [reflexivity | by constructor]. Qed.

Lemma no_pod_created_modify (f : world → world) :
  (∀ w, trace (f w) = trace w) → respects no_pod_created (modify f).
Proof. intros Hf w. exists []. split; [simpl; by rewrite app_nil_r | constructor]. Qed.

Create HintDb no_pod_created discriminated.

#[export] Hint Extern 1 (respects no_pod_created (emit _)) =>
  apply no_pod_created_emit; reflexivity : no_pod_created.
#[export] Hint Extern 1 (respects no_pod_created (print _)) =>
  apply no_pod_created_emit; reflexivity : no_pod_created.
#[export] Hint Extern 1 (respects no_pod_created (time_sleep _)) =>
  apply no_pod_created_emit; reflexivity : no_pod_created.
#[export] Hint Extern 1 (respects no_pod_created (modify _)) =>
  apply no_pod_created_modify; reflexivity : no_pod_created.

Ltac no_pod_created :=
  repeat first [ solve [auto with no_pod_created] | respects_step ].

Lemma no_pod_created_write_file (path : string) (content : file) :
  respects no_pod_created (write_file path content).
Proof. unfold write_file. no_pod_created. Qed.

Lemma no_pod_created_append_file (path : string) (lines : list string) :
  respects no_pod_created (append_file path lines).
Proof. unfold append_file. no_pod_created. Qed.

Lemma no_pod_created_patch_in (kind : cluster → gmap string workload)
    (with_kind : (gmap string workload → gmap string workload) → cluster → cluster)
    (name : string) (body : patch) :
  respects no_pod_created (patch_in kind with_kind name body).
Proof. unfold patch_in. no_pod_created. Qed.

#[export] Hint Resolve no_pod_created_write_file no_pod_created_append_file
  no_pod_created_patch_in : no_pod_created.

Lemma MoveStorage_get_snapshot_class_no_pod (sc : string) :
  respects no_pod_created (MoveStorage.get_snapshot_class_for_storage_class sc).
Proof.
  unfold MoveStorage.get_snapshot_class_for_storage_class,
    custom_api.list_cluster_custom_object.
  no_pod_created.
Qed.

Lemma MoveStorage_create_volume_snapshot_no_pod (ns pvc_name cls : string) (dry_run : bool) :
  respects no_pod_created (MoveStorage.create_volume_snapshot ns pvc_name cls dry_run).
Proof.
  unfold MoveStorage.create_volume_snapshot, MoveStorage.report_snapshots_used,
    custom_api.create_namespaced_custom_object, custom_api.get_namespaced_custom_object.
  cbv zeta. no_pod_created.
Qed.

Lemma MoveStorage_create_new_pvc_no_pod (old_pvc : PVC) (target ns : string) (dry_run : bool)
    (snapshot_name : option string) :
  respects no_pod_created (MoveStorage.create_new_pvc old_pvc target ns dry_run snapshot_name).
Proof.
  unfold MoveStorage.create_new_pvc, MoveStorage.report_new_pvcs,
    v1.create_namespaced_persistent_volume_claim.
  cbv zeta. no_pod_created.
Qed.

Lemma MoveStorage_export_pod_manifest_no_pod (pod : string * pod) (new_pvc_name : string) :
  respects no_pod_created (MoveStorage.export_pod_manifest pod new_pvc_name).
Proof.
  unfold MoveStorage.export_pod_manifest, MoveStorage.report_pod_manifests.
  cbv beta iota zeta. no_pod_created.
Qed.

Lemma MoveStorage_delete_old_pvc_no_pod (ns pvc_name : string) (dry_run delete_enabled : bool) :
  respects no_pod_created (MoveStorage.delete_old_pvc ns pvc_name dry_run delete_enabled).
Proof.
  unfold MoveStorage.delete_old_pvc, MoveStorage.report_pvcs_deleted,
    v1.delete_namespaced_persistent_volume_claim.
  no_pod_created.
Qed.

#[export] Hint Resolve MoveStorage_get_snapshot_class_no_pod
  MoveStorage_create_volume_snapshot_no_pod MoveStorage_create_new_pvc_no_pod
  MoveStorage_export_pod_manifest_no_pod MoveStorage_delete_old_pvc_no_pod : no_pod_created.

Lemma MoveStorage_patch_volumes_no_pod (kind : string)
    (patch_func : string → string → patch → M unit)
    (ns old_pvc_name new_pvc_name : string) (dry_run : bool) (name : string)
    (st : workload * bool) :
  (∀ n s b, respects no_pod_created (patch_func n s b)) →
  respects no_pod_created
    (MoveStorage.patch_volumes kind patch_func ns old_pvc_name new_pvc_name dry_run name st).
Proof.
  intros Hpatch.
  unfold MoveStorage.patch_volumes, MoveStorage.report_workloads_patched.
  cbv beta iota zeta. no_pod_created.
Qed.

Lemma MoveStorage_patch_templates_no_pod
    (patch_func : string → string → patch → M unit)
    (ns : string) (old_sc : option string) (new_pvc_name : string) (dry_run : bool)
    (name : string) (st : workload * bool) :
  (∀ n s b, respects no_pod_created (patch_func n s b)) →
  respects no_pod_created
    (MoveStorage.patch_templates patch_func ns old_sc new_pvc_name dry_run name st).
Proof.
  intros Hpatch.
  unfold MoveStorage.patch_templates, MoveStorage.report_workloads_patched.
  cbv beta iota zeta. no_pod_created.
Qed.

Lemma MoveStorage_patch_workload_using_pvc_no_pod (ns : string) (old_pvc : PVC)
    (new_pvc_name : string) (dry_run export_pods : bool) :
  respects no_pod_created
    (MoveStorage.patch_workload_using_pvc ns old_pvc new_pvc_name dry_run export_pods).
Proof.
  unfold MoveStorage.patch_workload_using_pvc, MoveStorage.report_workloads_patched,
    v1.list_namespaced_pod.
  cbv beta iota zeta delta [negb when].
  respects_step; [| no_pod_created].
  apply respects_for_fold_in; [apply _ |]. intros found [[kind list_func] patch_func] Hin.
  repeat (apply elem_of_cons in Hin as [[= -> -> ->] | Hin]);
    [ unfold apps_v1.list_namespaced_deployment, apps_v1.list_namespaced_stateful_set,
        apps_v1.list_namespaced_daemon_set;
      no_pod_created;
      first [ apply MoveStorage_patch_volumes_no_pod
            | apply MoveStorage_patch_templates_no_pod ];
      intros; unfold apps_v1.patch_namespaced_deployment,
        apps_v1.patch_namespaced_stateful_set, apps_v1.patch_namespaced_daemon_set;
      no_pod_created .. |].
  by apply elem_of_nil in Hin.
Qed.

#[export] Hint Resolve MoveStorage_patch_workload_using_pvc_no_pod : no_pod_created.

(** ** The snapshot fast path *)

(** Probing answers with the usable class, if any, whatever the API does;
    it changes nothing but the trace. *)
Lemma MoveStorage_probe_answers (origin : string) (w : world) :
  ∃ w', MoveStorage.get_snapshot_class_for_storage_class origin w
          = (Return (usable_class origin (k8s w)), w') ∧
        same_but_trace w' w.
Proof.
  unfold MoveStorage.get_snapshot_class_for_storage_class, try_except,
    custom_api.list_cluster_custom_object, usable_class.
  rewrite !bind_run, run_emit, !bind_run. unfold gets at 1. simpl.
  destruct (snapshot_classes (k8s w)) as [classes|]; simpl.
  - eexists. split; [reflexivity | by repeat split].
  - eexists. split; [reflexivity | by repeat split].
Qed.

Lemma trace_blind_runs {A} (rest : M A) (x y : outcome A * world) (w1 w2 : world) :
  x = rest w1 → y = rest w2 → same_but_trace w1 w2 → trace_blind rest →
  x.1 = y.1 ∧ same_but_trace x.2 y.2.
Proof. intros -> -> Hw Hrest. by apply Hrest. Qed.

(** With nothing usable found, the choice of the snapshot name ends in
    [None], as it does without the snapshot preference. *)
Lemma MoveStorage_probe_finds_nothing (origin ns name : string) (dry : bool) (w : world) :
  truthy (usable_class origin (k8s w)) = false →
  ∃ w',
    (snapshot_class ← MoveStorage.get_snapshot_class_for_storage_class origin;
     if truthy snapshot_class then
       print ("[~] Detected snapshot class '" +:+ py_or snapshot_class EmptyString
              +:+ "'. Creating snapshot.");;
       snapshot_name ← MoveStorage.create_volume_snapshot ns name
                          (py_or snapshot_class EmptyString) dry;
       mret (Some snapshot_name)
     else
       print "[!] No usable snapshot class found. Falling back to pivot copy.";;
       mret None) w = (Return None, w') ∧
    same_but_trace w' w.
Proof.
  intros Hnone. destruct (MoveStorage_probe_answers origin w) as (w1 & Hprobe & Hw1).
  rewrite bind_run, Hprobe, Hnone.
  eexists. split; [reflexivity | exact Hw1].
Qed.

Lemma MoveStorage_fallback_is_copy_path (args : MoveStorage.Args) (pvc : PVC) (w : world) :
  MoveStorage.prefer_snapshot args = true →
  truthy (usable_class (MoveStorage.origin args) (k8s w)) = false →
  let r := MoveStorage.migrate_pvc args pvc w in
  let r' := MoveStorage.migrate_pvc (without_snapshot args) pvc w in
  r.1 = r'.1 ∧ same_but_trace r.2 r'.2.
Proof.
  destruct args as [origin target ns dry snap export del copy]. simpl. intros -> Hnone.
  unfold MoveStorage.migrate_pvc, without_snapshot.
  cbv beta iota zeta delta [MoveStorage.origin MoveStorage.target MoveStorage.namespace
    MoveStorage.dry_run MoveStorage.prefer_snapshot MoveStorage.export_pods
    MoveStorage.delete_pvc MoveStorage.copy_only].
  set (wb := with_report
    (λ r, Report (pvcs_found r ++ [pvc.1]) (new_pvcs r) (pivot_pods r) (snapshots_used r)
            (workloads_patched r) (pvcs_deleted r) (pod_manifests r))
    (with_trace (λ t, t ++ [Stdout (nl +:+ "[>] Migrating PVC: " +:+ pvc.1)]) w)).
  destruct (MoveStorage_probe_finds_nothing origin ns pvc.1 dry wb Hnone) as (wd & Hblock & Hwd).
  eapply trace_blind_runs with (w1 := wd) (w2 := wb).
  - erewrite (bind_Return (print _)) by reflexivity.
    erewrite (bind_Return (MoveStorage.report_pvcs_found _)) by reflexivity.
    erewrite bind_Return by exact Hblock.
    reflexivity.
  - erewrite (bind_Return (print _)) by reflexivity.
    erewrite (bind_Return (MoveStorage.report_pvcs_found _)) by reflexivity.
    erewrite (bind_Return (mret None)) by reflexivity.
    reflexivity.
  - exact Hwd.
  - unfold when. trace_blind.
Qed.

Lemma respects_bind_val (R : relation world) `{!PreOrder R} {A B}
    (m : M A) (f : A → M B) (P : A → Prop) :
  respects R m →
  (∀ w a w', m w = (Return a, w') → P a) →
  (∀ a, P a → respects R (f a)) →
  respects R (m ≫= f).
Proof.
  intros Hm HP Hf w. rewrite bind_run. specialize (Hm w). specialize (HP w).
  destruct (m w) as [[a|e|] w1]; simpl in *; try exact Hm.
  etrans; [exact Hm | by apply Hf, (HP a w1)].
Qed.

Lemma truthy_snapshot_name (pvc_name : string) : truthy (Some (pvc_name +:+ "-snap")) = true.
Proof. by destruct pvc_name. Qed.

(** A snapshot that was taken has the name [<pvc>-snap]. *)
Lemma MoveStorage_snapshot_name (ns pvc_name cls : string) (dry_run : bool)
    (w w' : world) (a : string) :
  MoveStorage.create_volume_snapshot ns pvc_name cls dry_run w = (Return a, w') →
  a = pvc_name +:+ "-snap".
Proof.
  unfold MoveStorage.create_volume_snapshot. cbv zeta. intros H. destruct dry_run.
  - repeat (apply bind_Return_inv in H as (? & ? & _ & H)). by injection H as <- _.
  - repeat (apply bind_Return_inv in H as (? & ? & _ & H)). by injection H as <- _.
Qed.

Lemma MoveStorage_snapshot_taken_no_pod (args : MoveStorage.Args) (pvc : PVC) (cls : string) :
  respects no_pod_created
    ((print ("[~] Detected snapshot class '" +:+ cls +:+ "'. Creating snapshot.");;
      snapshot_name ← MoveStorage.create_volume_snapshot (MoveStorage.namespace args) pvc.1
                         cls (MoveStorage.dry_run args);
      mret (Some snapshot_name)) ≫= λ snapshot_name,
     new_pvc_name ← MoveStorage.create_new_pvc pvc (MoveStorage.target args)
                       (MoveStorage.namespace args) (MoveStorage.dry_run args) snapshot_name;
     when (negb (truthy snapshot_name))
       (MoveStorage.create_pivot_pod (MoveStorage.namespace args) pvc.1 new_pvc_name
          (MoveStorage.dry_run args));;
     if MoveStorage.copy_only args then
       print "[~] Skipping workload patching and PVC deletion due to --copy-only."
     else
       MoveStorage.patch_workload_using_pvc (MoveStorage.namespace args) pvc new_pvc_name
         (MoveStorage.dry_run args) (MoveStorage.export_pods args);;
       MoveStorage.delete_old_pvc (MoveStorage.namespace args) pvc.1
         (MoveStorage.dry_run args) (MoveStorage.delete_pvc args)).
Proof.
  apply respects_bind_val with (P := λ a, truthy a = true); [apply _ | | |].
  - no_pod_created.
  - intros w a w' H.
    apply bind_Return_inv in H as (? & ? & _ & H).
    apply bind_Return_inv in H as (s & ? & Hs & H).
    apply MoveStorage_snapshot_name in Hs as ->. injection H as <- _.
    apply truthy_snapshot_name.
  - intros a ->. unfold when. simpl negb. cbv iota. no_pod_created.
Qed.

Lemma MoveStorage_snapshot_used_no_pod (args : MoveStorage.Args) (pvc : PVC) (w : world) :
  MoveStorage.prefer_snapshot args = true →
  truthy (usable_class (MoveStorage.origin args) (k8s w)) = true →
  no_pod_created w (MoveStorage.migrate_pvc args pvc w).2.
Proof.
  intros Hprefer Hfound.
  pose proof (MoveStorage_snapshot_taken_no_pod args pvc
                (py_or (usable_class (MoveStorage.origin args) (k8s w)) EmptyString)) as Htaken.
  unfold MoveStorage.migrate_pvc. rewrite Hprefer. cbv zeta.
  erewrite (bind_Return (print _)) by reflexivity.
  erewrite (bind_Return (MoveStorage.report_pvcs_found _)) by reflexivity.
  match goal with |- no_pod_created _ (_ ?wb).2 => set (w1 := wb) end.
  destruct (MoveStorage_probe_answers (MoveStorage.origin args) w1) as (w2 & Hprobe & Hw2).
  change (k8s w1) with (k8s w) in Hprobe.
  rewrite bind_run, (bind_run (MoveStorage.get_snapshot_class_for_storage_class _)), Hprobe.
  rewrite Hfound, <- bind_run.
  transitivity w2; [| apply Htaken].
  transitivity w1.
  - exists [Stdout (nl +:+ "[>] Migrating PVC: " +:+ pvc.1)]. split; [reflexivity |].
    by repeat constructor.
  - pose proof (MoveStorage_get_snapshot_class_no_pod (MoveStorage.origin args) w1) as H.
    by rewrite Hprobe in H.
Qed.

(** C9 (as amended): with the snapshot preference set, probing for a
    snapshot class always answers, also when the API call fails; when it
    finds nothing usable, the migration of the volume is the one of the copy
    path, with the same outcome, cluster and files as without the
    preference; when it finds a class, no copy pod is created for the
    volume.  (A failure while the snapshot itself is created is not caught.) *)
Theorem snapshot_probe_falls_back (args : MoveStorage.Args) (pvc : PVC) (w : world) :
  MoveStorage.prefer_snapshot args = true →
  let probe := MoveStorage.get_snapshot_class_for_storage_class (MoveStorage.origin args) w in
  let found := usable_class (MoveStorage.origin args) (k8s w) in
  let r := MoveStorage.migrate_pvc args pvc w in
  (probe.1 = Return found ∧ k8s probe.2 = k8s w ∧ fs probe.2 = fs w) ∧
  (truthy found = false →
     let r' := MoveStorage.migrate_pvc (without_snapshot args) pvc w in
     r.1 = r'.1 ∧ k8s r.2 = k8s r'.2 ∧ fs r.2 = fs r'.2) ∧
  (truthy found = true →
     ∃ calls, trace r.2 = trace w ++ calls ∧ Forall (λ e, is_pod_create e = false) calls).
Proof.
  intros Hprefer. cbv zeta. split; [| split].
  - destruct (MoveStorage_probe_answers (MoveStorage.origin args) w) as (w' & -> & Hk & Hf & _).
    by repeat split.
  - intros Hnone.
    destruct (MoveStorage_fallback_is_copy_path args pvc w Hprefer Hnone) as (Ho & Hk & Hf & _).
    by repeat split.
  - intros Hfound. by apply MoveStorage_snapshot_used_no_pod.
Qed.

Lemma snapshot_probe_falls_back_witness :
  let args := prefer_snapshot_args in
  let pvc := ("data-pvc", data_pvc) in
  (* the snapshot API is not served: the copy path *)
  (let w := world_of data_cluster [Running; Succeeded] in
   let r := MoveStorage.migrate_pvc args pvc w in
   let r' := MoveStorage.migrate_pvc (without_snapshot args) pvc w in
   truthy (usable_class "old-sc" (k8s w)) = false ∧
   r.1 = r'.1 ∧ k8s r.2 = k8s r'.2 ∧ fs r.2 = fs r'.2) ∧
  (* a class is found: no copy pod *)
  (let w := snapshot_world snapshot_cluster in
   let r := MoveStorage.migrate_pvc args pvc w in
   truthy (usable_class "old-sc" (k8s w)) = true ∧
   ∃ calls, trace r.2 = trace w ++ calls ∧ Forall (λ e, is_pod_create e = false) calls).
Proof.
  intros args pvc. split.
  - intros w r r'. split; [by vm_compute |].
    apply (snapshot_probe_falls_back args pvc w); by vm_compute.
  - intros w r. split; [by vm_compute |].
    apply (snapshot_probe_falls_back args pvc w); by vm_compute.
Defined.

(** C9 as stated fails for a failure of the snapshot creation: with a usable
    class and a snapshot named [data-pvc-snap] already there, creating the
    snapshot raises a 409 that nothing catches; the run aborts with no
    destination claim created and no copy pod started. *)
Lemma snapshot_failure_falls_back_counterexample :
  let w := snapshot_world stale_snapshot_cluster in
  let r := MoveStorage.script prefer_snapshot_args w in
  usable_class "old-sc" (k8s w) = Some "csi-snapclass" ∧
  r.1 = Raise (ApiException 409) ∧
  pvcs (k8s r.2) = pvcs (k8s w) ∧
  existsb is_pod_create (trace r.2) = false.
Proof. vm_compute. repeat split. Qed.

(** ** Phase 1 twice, and phase 2 on an empty ledger *)

(** C5 (the code at the failing input): in the basic variant a second run
    of phase 1 finds [data-pvc-temp] in place, and the conflict aborts the
    run with an uncaught 409; the safe variant skips the creation and runs
    to its end, leaving the claims and the ledger as they were. *)
Theorem phase_one_twice_conflict :
  let w := world_of data_cluster [Running; Succeeded] in
  let first := All.main basic_phase1 w in
  let second := All.main basic_phase1 first.2 in
  let safe_first := Safe.main safe_phase1 w in
  let safe_second := Safe.main safe_phase1 safe_first.2 in
  first.1 = Return tt ∧
  second.1 = Raise (ApiException 409) ∧
  pvcs (k8s second.2) = pvcs (k8s first.2) ∧
  fs second.2 = fs first.2 ∧
  safe_first.1 = Return tt ∧
  safe_second.1 = Return tt ∧
  k8s safe_second.2 = k8s safe_first.2 ∧
  fs safe_second.2 = fs safe_first.2.
Proof. cbv zeta. repeat apply conj; vm_compute; reflexivity. Qed.

(** C6 (the code at the failing input): in the safe variant, phase 2 on a
    ledger without records prints nothing about it, runs the restore pass,
    which patches the Deployment [web], and removes both state files. *)
Theorem safe_recreate_on_empty_ledger :
  let w := empty_ledger_world in
  let r := Safe.main safe_phase2 w in
  fs w !! Safe.DEFAULT_METADATA_FILE = Some (JsonPivot "modes" []) ∧
  r.1 = Return tt ∧
  trace r.2 =
    [Stdout "[+] Restoring Deployment 'web' to replicas=3";
     Api (patch_namespaced_deployment_scale "web" (ReplicasPatch (VInt 3)));
     FsRemove Safe.SCALE_TRACK_FILE;
     FsRemove Safe.DEFAULT_METADATA_FILE] ∧
  replicas <$> deployments (k8s r.2) !! "web" = Some (Some 3) ∧
  fs r.2 = ∅.
Proof. cbv zeta. repeat apply conj; vm_compute; reflexivity. Qed.

(** ** Names *)

Lemma length_append (a b : string) :
  String.length (a +:+ b) = String.length a + String.length b.
Proof. induction a as [|c a IH]; simpl; [reflexivity | by rewrite IH]. Qed.

Lemma append_inj_l (a b s : string) : a +:+ s = b +:+ s → a = b.
Proof.
  revert b. induction a as [|c a IH]; intros [|c' b] H.
  - reflexivity.
  - apply (f_equal String.length) in H. rewrite !length_append in H. simpl in H. lia.
  - apply (f_equal String.length) in H. rewrite !length_append in H. simpl in H. lia.
  - injection H as -> H. f_equal. by apply IH.
Qed.

Lemma temp_name_inj (a b : string) : a +:+ "-temp" = b +:+ "-temp" → a = b.
Proof. apply append_inj_l. Qed.

Lemma temp_name_neq (a : string) : a ≠ a +:+ "-temp".
Proof.
  intros H. apply (f_equal String.length) in H. rewrite length_append in H. simpl in H. lia.
Qed.

(** ** Listings *)

Lemma elem_of_items {V} (m : gmap string V) (k : string) (v : V) :
  (k, v) ∈ items m ↔ m !! k = Some v.
Proof. unfold items. rewrite merge_sort_Permutation. apply elem_of_map_to_list. Qed.

Lemma NoDup_items {V} (m : gmap string V) : NoDup (items m).*1.
Proof. unfold items. rewrite merge_sort_Permutation. apply NoDup_fst_map_to_list. Qed.

Lemma elem_of_discovered (origin : string) (w : world) (name : string) (spec : pvc_spec) :
  (name, spec) ∈ discovered origin w ↔
  pvcs (k8s w) !! name = Some spec ∧ storage_class_name spec = Some origin.
Proof.
  unfold discovered. rewrite list_elem_of_filter, elem_of_items. simpl. tauto.
Qed.

Lemma NoDup_filter_fst {V} (P : string * V → Prop) `{!∀ x, Decision (P x)}
    (l : list (string * V)) :
  NoDup l.*1 → NoDup (filter P l).*1.
Proof.
  induction l as [|x l IH]; simpl; [constructor |].
  rewrite NoDup_cons. intros [Hx Hl]. rewrite filter_cons.
  destruct (decide (P x)); [| by apply IH].
  simpl. apply NoDup_cons. split; [| by apply IH].
  intros Hin. apply Hx. apply list_elem_of_fmap in Hin as (y & -> & Hy).
  apply list_elem_of_fmap. exists y. split; [reflexivity |].
  by apply list_elem_of_filter in Hy as [_ Hy].
Qed.

Lemma NoDup_discovered (origin : string) (w : world) : NoDup (discovered origin w).*1.
Proof. apply NoDup_filter_fst, NoDup_items. Qed.

(** ** Claims *)

Global Instance claims_kept_preorder : PreOrder claims_kept.
Proof. split; [by intros w | intros w1 w2 w3 H1 H2; unfold claims_kept in *; congruence]. Qed.

Global Instance claims_grow_preorder : PreOrder claims_grow.
Proof. split; [intros w k v Hk; exact Hk | intros w1 w2 w3 H1 H2 k v Hk; by apply H2, H1]. Qed.

Global Instance claims_outside_preorder (ks : list string) : PreOrder (claims_outside ks).
Proof.
  split; [intros w k Hk; reflexivity | intros w1 w2 w3 H1 H2 k Hk]. by rewrite H2, H1.
Qed.

Lemma claims_kept_grow (w w' : world) : claims_kept w w' → claims_grow w w'.
Proof. intros H k v. by rewrite H. Qed.

Lemma claims_kept_outside (ks : list string) (w w' : world) :
  claims_kept w w' → claims_outside ks w w'.
Proof. intros H k _. by rewrite H. Qed.

Lemma claims_outside_mono (ks ks' : list string) (w w' : world) :
  ks ⊆ ks' → claims_outside ks w w' → claims_outside ks' w w'.
Proof. intros Hsub H k Hk. apply H. intros Hin. by apply Hk, Hsub. Qed.

Lemma claims_kept_modify (f : world → world) :
  (∀ w, pvcs (k8s (f w)) = pvcs (k8s w)) → respects claims_kept (modify f).
Proof. intros Hf w. apply Hf. Qed.

Create HintDb claims_kept discriminated.

#[export] Hint Extern 1 (respects claims_kept (emit _)) =>
  apply claims_kept_modify; reflexivity : claims_kept.
#[export] Hint Extern 1 (respects claims_kept (print _)) =>
  apply claims_kept_modify; reflexivity : claims_kept.
#[export] Hint Extern 1 (respects claims_kept (time_sleep _)) =>
  apply claims_kept_modify; reflexivity : claims_kept.
#[export] Hint Extern 1 (respects claims_kept (modify _)) =>
  apply claims_kept_modify; reflexivity : claims_kept.

Ltac claims_kept :=
  repeat first [ solve [auto with claims_kept] | respects_step ].

Lemma claims_kept_write_file (path : string) (content : file) :
  respects claims_kept (write_file path content).
Proof. unfold write_file. claims_kept. Qed.

Lemma claims_kept_os_remove (path : string) : respects claims_kept (os_remove path).
Proof. unfold os_remove. claims_kept. Qed.

Lemma claims_kept_read_file (path : string) : respects claims_kept (read_file path).
Proof. unfold read_file. claims_kept. Qed.

Lemma claims_kept_patch_in (kind : cluster → gmap string workload)
    (with_kind : (gmap string workload → gmap string workload) → cluster → cluster)
    (name : string) (body : patch) :
  (∀ f c, pvcs (with_kind f c) = pvcs c) →
  respects claims_kept (patch_in kind with_kind name body).
Proof.
  intros Hkind. unfold patch_in. claims_kept.
  apply claims_kept_modify. intros ?. apply Hkind.
Qed.

#[export] Hint Resolve claims_kept_write_file claims_kept_os_remove claims_kept_read_file
  : claims_kept.
#[export] Hint Extern 1 (respects claims_kept (patch_in _ _ _ _)) =>
  apply claims_kept_patch_in; reflexivity : claims_kept.

Lemma All_copy_claims_kept (ns src dst prefix : string) (dry_run : bool) :
  respects claims_kept (All.copy_data_with_pod ns src dst prefix dry_run).
Proof.
  unfold All.copy_data_with_pod, v1.create_namespaced_pod, v1.read_namespaced_pod,
    v1.delete_namespaced_pod.
  cbv zeta. claims_kept.
Qed.

Lemma Safe_copy_claims_kept (ns src dst prefix : string) (dry_run : bool) :
  respects claims_kept (Safe.copy_data ns src dst prefix dry_run).
Proof.
  unfold Safe.copy_data, v1.create_namespaced_pod, v1.read_namespaced_pod,
    v1.delete_namespaced_pod.
  cbv zeta. claims_kept.
Qed.

Lemma Safe_detect_claims_kept (ns : string) (pvc_names : list string) (dry_run : bool) :
  respects claims_kept (Safe.detect_and_scale_down ns pvc_names dry_run).
Proof.
  unfold Safe.detect_and_scale_down.
  unfold apps_v1.list_namespaced_deployment, apps_v1.list_namespaced_stateful_set,
    apps_v1.list_namespaced_replica_set, apps_v1.list_namespaced_daemon_set,
    batch_v1.list_namespaced_cron_job, batch_v1.list_namespaced_job,
    apps_v1.patch_namespaced_deployment_scale, apps_v1.patch_namespaced_replica_set_scale,
    apps_v1.patch_namespaced_stateful_set_scale, apps_v1.patch_namespaced_daemon_set,
    batch_v1.patch_namespaced_cron_job, batch_v1.delete_namespaced_job.
  cbv beta iota zeta delta [when]. claims_kept.
Qed.

Lemma Safe_scale_back_up_claims_kept (ns : string) (dry_run : bool) :
  respects claims_kept (Safe.scale_back_up ns dry_run).
Proof.
  unfold Safe.scale_back_up, Safe.restore_entry, os_path_exists.
  unfold apps_v1.patch_namespaced_deployment_scale, apps_v1.patch_namespaced_replica_set_scale,
    apps_v1.patch_namespaced_stateful_set_scale, apps_v1.patch_namespaced_daemon_set,
    batch_v1.patch_namespaced_cron_job.
  cbv beta iota zeta delta [when]. claims_kept.
Qed.

(** What creating and deleting a claim answers. *)

Lemma run_create_claim (ns name : string) (body : pvc_spec) (w : world) :
  v1.create_namespaced_persistent_volume_claim ns name body w =
  let w1 := with_trace
              (λ t, t ++ [Api (create_namespaced_persistent_volume_claim name body)]) w in
  match pvcs (k8s w) !! name with
  | Some _ => (Raise (ApiException 409), w1)
  | None => (Return tt, with_k8s (with_pvcs (insert name body)) w1)
  end.
Proof.
  unfold v1.create_namespaced_persistent_volume_claim.
  rewrite bind_run, run_emit, bind_run. unfold gets at 1. simpl.
  by destruct (pvcs (k8s w) !! name).
Qed.

Lemma run_delete_claim (ns name : string) (w : world) :
  v1.delete_namespaced_persistent_volume_claim name ns w =
  let w1 := with_trace (λ t, t ++ [Api (delete_namespaced_persistent_volume_claim name)]) w in
  match pvcs (k8s w) !! name with
  | Some _ => (Return tt, with_k8s (with_pvcs (delete name)) w1)
  | None => (Raise (ApiException 404), w1)
  end.
Proof.
  unfold v1.delete_namespaced_persistent_volume_claim.
  rewrite bind_run, run_emit, bind_run. unfold gets at 1. simpl.
  by destruct (pvcs (k8s w) !! name).
Qed.

(** The basic [create_pvc] returns only if the name was free. *)
Lemma All_create_pvc_returns (ns name sc size : string) (modes : list string) (w w' : world) :
  All.create_pvc ns name sc size modes false w = (Return tt, w') →
  pvcs (k8s w) !! name = None ∧
  pvcs (k8s w') = <[name := PvcSpec (Some sc) size modes None]> (pvcs (k8s w)).
Proof.
  unfold All.create_pvc. cbv zeta. rewrite bind_run, run_create_claim. cbv zeta.
  destruct (pvcs (k8s w) !! name); [discriminate |].
  unfold print. rewrite run_emit. intros [= <-]. by split.
Qed.

(** The safe [create_pvc] always returns; a claim that is there is kept. *)
Lemma Safe_create_pvc_returns (ns name sc size : string) (modes : list string) (w : world) :
  ∃ w', Safe.create_pvc ns name sc size modes false w = (Return tt, w') ∧
    pvcs (k8s w') =
    match pvcs (k8s w) !! name with
    | Some _ => pvcs (k8s w)
    | None => <[name := PvcSpec (Some sc) size modes None]> (pvcs (k8s w))
    end.
Proof.
  unfold Safe.create_pvc, try_except. cbv zeta. rewrite bind_run, run_create_claim. cbv zeta.
  destruct (pvcs (k8s w) !! name); unfold print; rewrite run_emit; eexists; by split.
Qed.

(** The two tolerant deletions of the safe phase 2: whatever was there, the
    claim is gone afterwards. *)
Lemma Safe_delete_original_returns (ns name : string) (w : world) :
  ∃ w',
    try_except
      (v1.delete_namespaced_persistent_volume_claim name ns;;
       print ("[x] Deleted original PVC '" +:+ name +:+ "'");;
       time_sleep 2)
      (λ e, match e with
            | ApiException _ =>
                print ("[!] Could not delete original PVC '" +:+ name +:+ "': " +:+ exn_str e)
            | _ => raise e
            end) w = (Return tt, w') ∧
    pvcs (k8s w') = delete name (pvcs (k8s w)).
Proof.
  unfold try_except. rewrite bind_run, run_delete_claim. cbv zeta.
  destruct (pvcs (k8s w) !! name) eqn:Hname.
  - eexists. by split.
  - eexists. split; [reflexivity |]. simpl. by rewrite delete_id.
Qed.

Lemma Safe_delete_temp_returns (ns name : string) (w : world) :
  ∃ w',
    try_except
      (v1.delete_namespaced_persistent_volume_claim name ns;;
       print ("[x] Deleted temp PVC '" +:+ name +:+ "'"))
      (λ e, match e with
            | ApiException _ =>
                print ("[!] Could not delete temp PVC '" +:+ name +:+ "': " +:+ exn_str e)
            | _ => raise e
            end) w = (Return tt, w') ∧
    pvcs (k8s w') = delete name (pvcs (k8s w)).
Proof.
  unfold try_except. rewrite bind_run, run_delete_claim. cbv zeta.
  destruct (pvcs (k8s w) !! name) eqn:Hname.
  - eexists. by split.
  - eexists. split; [reflexivity |]. simpl. by rewrite delete_id.
Qed.

(** ** Phase 1 *)

Lemma All_pivot_to_temp_returns (ns target : string) (acc acc' : list PivotRecord)
    (p : PVC) (w w' : world) :
  All.pivot_to_temp ns target false acc p w = (Return acc', w') →
  acc' = acc ++ [pivot_record p] ∧
  pvcs (k8s w) !! (p.1 +:+ "-temp") = None ∧
  pvcs (k8s w') = <[p.1 +:+ "-temp" := pivoted target p.2]> (pvcs (k8s w)).
Proof.
  unfold All.pivot_to_temp. cbv zeta. intros H.
  apply bind_Return_inv in H as ([] & w1 & Hprint & H).
  apply bind_Return_inv in H as ([] & w2 & Hcreate & H).
  apply bind_Return_inv in H as ([] & w3 & Hcopy & H).
  injection H as <- <-.
  unfold print in Hprint. rewrite run_emit in Hprint. injection Hprint as <-.
  apply All_create_pvc_returns in Hcreate as [Hfree Hcreated].
  pose proof (All_copy_claims_kept ns p.1 (p.1 +:+ "-temp") "pivot1" false w2) as Hkept.
  rewrite Hcopy in Hkept. unfold claims_kept in Hkept. simpl in Hkept.
  split; [reflexivity |]. split; [exact Hfree |]. by rewrite Hkept, Hcreated.
Qed.

Lemma All_phase_one_loop (ns target : string) (xs : list PVC) (acc acc' : list PivotRecord)
    (w w' : world) :
  for_fold xs acc (All.pivot_to_temp ns target false) w = (Return acc', w') →
  acc' = acc ++ (pivot_record <$> xs) ∧
  claims_grow w w' ∧
  (∀ p, p ∈ xs → pvcs (k8s w') !! (p.1 +:+ "-temp") = Some (pivoted target p.2)) ∧
  (∀ p k, p ∈ xs → is_Some (pvcs (k8s w) !! k) → k ≠ p.1 +:+ "-temp").
Proof.
  revert acc w. induction xs as [|x xs IH]; intros acc w H; simpl in H.
  - injection H as <- <-. rewrite app_nil_r. repeat split; [done | |].
    + intros p Hp. by apply elem_of_nil in Hp.
    + intros p k Hp. by apply elem_of_nil in Hp.
  - apply bind_Return_inv in H as (acc1 & w1 & Hbody & H).
    apply All_pivot_to_temp_returns in Hbody as (-> & Hfree & Hcreated).
    apply IH in H as (-> & Hgrow & Hthere & Hclash).
    assert (Hstep : claims_grow w w1).
    { intros k v Hk. rewrite Hcreated. rewrite lookup_insert_ne; [exact Hk |].
      intros <-. congruence. }
    split; [by rewrite <- app_assoc |]. split; [by etrans |]. split.
    + intros p [-> | Hp]%elem_of_cons; [| by apply Hthere].
      apply Hgrow. rewrite Hcreated. apply lookup_insert_eq.
    + intros p k [-> | Hp]%elem_of_cons [v Hk].
      * intros ->. congruence.
      * apply (Hclash p k Hp). exists v. by apply Hstep.
Qed.

Lemma Safe_pivot_to_temp_returns (ns target : string) (acc acc' : list PivotRecord)
    (p : PVC) (w w' : world) :
  Safe.pivot_to_temp ns target false acc p w = (Return acc', w') →
  acc' = acc ++ [pivot_record p] ∧
  pvcs (k8s w') =
  match pvcs (k8s w) !! (p.1 +:+ "-temp") with
  | Some _ => pvcs (k8s w)
  | None => <[p.1 +:+ "-temp" := pivoted target p.2]> (pvcs (k8s w))
  end.
Proof.
  unfold Safe.pivot_to_temp. cbv zeta. intros H.
  apply bind_Return_inv in H as ([] & w1 & Hcreate & H).
  apply bind_Return_inv in H as ([] & w2 & Hcopy & H).
  injection H as <- <-.
  destruct (Safe_create_pvc_returns ns (p.1 +:+ "-temp") target (storage p.2)
              (access_modes p.2) w) as (w1' & Hrun & Hcreated).
  rewrite Hrun in Hcreate. injection Hcreate as ->.
  pose proof (Safe_copy_claims_kept ns p.1 (p.1 +:+ "-temp") "pivot1" false w1) as Hkept.
  rewrite Hcopy in Hkept. unfold claims_kept in Hkept. simpl in Hkept.
  split; [reflexivity |]. by rewrite Hkept, Hcreated.
Qed.

Lemma Safe_phase_one_loop (ns target : string) (xs : list PVC) (acc acc' : list PivotRecord)
    (w w' : world) :
  for_fold xs acc (Safe.pivot_to_temp ns target false) w = (Return acc', w') →
  acc' = acc ++ (pivot_record <$> xs) ∧
  claims_grow w w' ∧
  (∀ p, p ∈ xs → NoDup xs.*1 → pvcs (k8s w) !! (p.1 +:+ "-temp") = None →
        pvcs (k8s w') !! (p.1 +:+ "-temp") = Some (pivoted target p.2)).
Proof.
  revert acc w. induction xs as [|x xs IH]; intros acc w H; simpl in H.
  - injection H as <- <-. rewrite app_nil_r. repeat split; [done |].
    intros p Hp. by apply elem_of_nil in Hp.
  - apply bind_Return_inv in H as (acc1 & w1 & Hbody & H).
    apply Safe_pivot_to_temp_returns in Hbody as (-> & Hcreated).
    apply IH in H as (-> & Hgrow & Hthere).
    assert (Hstep : claims_grow w w1).
    { intros k v Hk. rewrite Hcreated.
      destruct (pvcs (k8s w) !! (x.1 +:+ "-temp")) eqn:Htemp; [exact Hk |].
      rewrite lookup_insert_ne; [exact Hk |]. intros <-. congruence. }
    split; [by rewrite <- app_assoc |]. split; [by etrans |].
    intros p Hp Hnodup Hfree. simpl in Hnodup. apply NoDup_cons in Hnodup as [Hx Hnodup].
    apply elem_of_cons in Hp as [-> | Hp].
    + apply Hgrow. rewrite Hcreated, Hfree. apply lookup_insert_eq.
    + apply Hthere; [exact Hp | exact Hnodup |].
      rewrite Hcreated. destruct (pvcs (k8s w) !! (x.1 +:+ "-temp")); [exact Hfree |].
      rewrite lookup_insert_ne; [exact Hfree |].
      intros Heq%temp_name_inj. apply Hx. rewrite Heq.
      apply list_elem_of_fmap. by exists p.
Qed.

Lemma filter_none {A} (P : A → Prop) `{!∀ x, Decision (P x)} (l : list A) :
  (∀ x, x ∈ l → ¬ P x) → filter P l = [].
Proof.
  induction l as [|x l IH]; intros Hnone; [reflexivity |].
  rewrite filter_cons, decide_False by (apply Hnone; left).
  apply IH. intros y Hy. apply Hnone. by right.
Qed.

(** Names are not listed twice, so a claim has one record in the ledger. *)
Lemma filter_pivot_records (xs : list PVC) (name : string) (spec : pvc_spec) :
  NoDup xs.*1 → (name, spec) ∈ xs →
  filter (λ r, r_old_name r = name) (pivot_record <$> xs) = [pivot_record (name, spec)].
Proof.
  induction xs as [|x xs IH]; intros Hnodup Hin; [by apply elem_of_nil in Hin |].
  simpl in Hnodup. apply NoDup_cons in Hnodup as [Hx Hnodup].
  rewrite fmap_cons, filter_cons.
  apply elem_of_cons in Hin as [<- | Hin].
  - rewrite decide_True by reflexivity. f_equal.
    apply filter_none. intros r (y & -> & Hy)%list_elem_of_fmap Heq. simpl in Heq.
    apply Hx. rewrite <- Heq. apply list_elem_of_fmap. by exists y.
  - rewrite decide_False; [by apply IH |].
    simpl. intros Heq. apply Hx. rewrite Heq.
    apply list_elem_of_fmap. by exists (name, spec).
Qed.

Lemma run_list_claims (ns : string) (w : world) :
  v1.list_namespaced_persistent_volume_claim ns w =
  (Return (items (pvcs (k8s w))),
   with_trace (λ t, t ++ [Api list_namespaced_persistent_volume_claim]) w).
Proof. reflexivity. Qed.

Lemma All_phase_one_returns (args : All.Args) (w w1 : world) (name : string) (spec : pvc_spec) :
  All.recreate args = false → All.dry_run args = false →
  All.main args w = (Return tt, w1) →
  (name, spec) ∈ discovered (All.origin_sc args) w →
  fs w1 !! All.metadata_file args
    = Some (JsonPivot "access_modes" (pivot_record <$> discovered (All.origin_sc args) w)) ∧
  pvcs (k8s w1) !! (name +:+ "-temp") = Some (pivoted (All.target_sc args) spec) ∧
  (∀ p k, p ∈ discovered (All.origin_sc args) w →
          is_Some (pvcs (k8s w) !! k) → k ≠ p.1 +:+ "-temp").
Proof.
  intros Hrecreate Hdry Hrun Hin.
  unfold All.main in Hrun. rewrite Hrecreate in Hrun.
  unfold All.phase_one, All.list_pvcs_in_storageclass in Hrun.
  rewrite Hdry in Hrun. cbv zeta in Hrun.
  rewrite bind_run, bind_run, run_list_claims in Hrun.
  unfold mret at 1, M_ret at 1 in Hrun. cbv beta iota in Hrun.
  fold (discovered (All.origin_sc args) w) in Hrun.
  destruct (discovered (All.origin_sc args) w) as [|x xs] eqn:Hxs;
    [by apply elem_of_nil in Hin |].
  apply bind_Return_inv in Hrun as ([] & w2 & Hprint & Hrun).
  unfold print in Hprint. rewrite run_emit in Hprint. injection Hprint as <-.
  apply bind_Return_inv in Hrun as (acc & w3 & Hloop & Hrun).
  apply All_phase_one_loop in Hloop as (-> & Hgrow & Hthere & Hclash).
  simpl in Hrun. unfold when in Hrun.
  apply bind_Return_inv in Hrun as ([] & w4 & Hwrite & Hrun).
  apply bind_Return_inv in Hwrite as ([] & w5 & Hwrite & Hprint).
  unfold print in Hprint, Hrun. rewrite run_emit in Hprint. injection Hprint as <-.
  rewrite bind_run, !run_emit in Hrun. injection Hrun as <-.
  unfold write_file in Hwrite. rewrite bind_run, run_emit in Hwrite.
  injection Hwrite as <-. simpl.
  split; [by rewrite lookup_insert_eq |]. split; [by apply (Hthere (name, spec)) |].
  exact Hclash.
Qed.

Lemma Safe_phase_one_returns (args : Safe.Args) (w w1 : world) (name : string)
    (spec : pvc_spec) :
  Safe.recreate args = false → Safe.dry_run args = false →
  Safe.main args w = (Return tt, w1) →
  (name, spec) ∈ discovered (Safe.origin_sc args) w →
  fs w1 !! Safe.DEFAULT_METADATA_FILE
    = Some (JsonPivot "modes" (pivot_record <$> discovered (Safe.origin_sc args) w)) ∧
  (pvcs (k8s w) !! (name +:+ "-temp") = None →
   pvcs (k8s w1) !! (name +:+ "-temp") = Some (pivoted (Safe.target_sc args) spec)).
Proof.
  intros Hrecreate Hdry Hrun Hin.
  unfold Safe.main in Hrun. rewrite Hrecreate in Hrun.
  unfold Safe.list_pvcs in Hrun. rewrite Hdry in Hrun. cbv zeta in Hrun.
  change (negb false) with true in Hrun. cbv iota in Hrun.
  rewrite bind_run, bind_run, run_list_claims in Hrun.
  unfold mret at 1, M_ret at 1 in Hrun. cbv beta iota in Hrun.
  fold (discovered (Safe.origin_sc args) w) in Hrun.
  pose proof (NoDup_discovered (Safe.origin_sc args) w) as Hnodup.
  destruct (discovered (Safe.origin_sc args) w) as [|x xs] eqn:Hxs;
    [by apply elem_of_nil in Hin |].
  apply bind_Return_inv in Hrun as ([] & w2 & Hscale & Hrun).
  assert (Hkept : pvcs (k8s w2) = pvcs (k8s w)).
  { unfold when in Hscale. destruct (Safe.set_replica_0 args).
    - apply bind_Return_inv in Hscale as ([] & w3 & Hprint & Hscale).
      unfold print in Hprint. rewrite run_emit in Hprint. injection Hprint as <-.
      apply bind_Return_inv in Hscale as (b & w4 & Hdetect & Hscale).
      injection Hscale as <-.
      match type of Hdetect with
      | Safe.detect_and_scale_down ?ns ?names ?dry ?w0 = _ =>
          pose proof (Safe_detect_claims_kept ns names dry w0) as Hk
      end.
      rewrite Hdetect in Hk. exact Hk.
    - by injection Hscale as <-. }
  apply bind_Return_inv in Hrun as (acc & w3 & Hloop & Hrun).
  apply Safe_phase_one_loop in Hloop as (-> & Hgrow & Hthere).
  unfold when in Hrun. simpl in Hrun.
  apply bind_Return_inv in Hrun as ([] & w4 & Hwrite & Hprint).
  unfold print in Hprint. rewrite run_emit in Hprint. injection Hprint as <-.
  unfold write_file in Hwrite. rewrite bind_run, run_emit in Hwrite.
  injection Hwrite as <-. simpl.
  split; [by rewrite lookup_insert_eq |].
  intros Hfree. apply (Hthere (name, spec)); [exact Hin | exact Hnodup |].
  by rewrite Hkept.
Qed.

(** C2 (as amended): after a phase 1 that is not a dry run has returned, the
    ledger holds exactly one record for every claim found in the origin
    class at discovery, with its name, [<name>-temp], its size and its
    access modes.  In the basic variant the claim [<name>-temp] is then in
    the target class with that size and those modes; in the safe variant
    the same holds provided no claim of that name existed at discovery (one
    that did is kept as it is, the conflict being swallowed). *)
Theorem phase_one_postcondition (w w1 : world) (name : string) (spec : pvc_spec) :
  (∀ args,
     All.recreate args = false → All.dry_run args = false →
     All.main args w = (Return tt, w1) →
     pvcs (k8s w) !! name = Some spec →
     storage_class_name spec = Some (All.origin_sc args) →
     ∃ records,
       fs w1 !! All.metadata_file args = Some (JsonPivot "access_modes" records) ∧
       filter (λ r, r_old_name r = name) records
         = [mkPivot name (name +:+ "-temp") (storage spec) (access_modes spec)] ∧
       pvcs (k8s w1) !! (name +:+ "-temp")
         = Some (PvcSpec (Some (All.target_sc args)) (storage spec) (access_modes spec) None)) ∧
  (∀ args,
     Safe.recreate args = false → Safe.dry_run args = false →
     Safe.main args w = (Return tt, w1) →
     pvcs (k8s w) !! name = Some spec →
     storage_class_name spec = Some (Safe.origin_sc args) →
     ∃ records,
       fs w1 !! Safe.DEFAULT_METADATA_FILE = Some (JsonPivot "modes" records) ∧
       filter (λ r, r_old_name r = name) records
         = [mkPivot name (name +:+ "-temp") (storage spec) (access_modes spec)] ∧
       (pvcs (k8s w) !! (name +:+ "-temp") = None →
        pvcs (k8s w1) !! (name +:+ "-temp")
          = Some (PvcSpec (Some (Safe.target_sc args)) (storage spec) (access_modes spec) None))).
Proof.
  split; intros args Hrecreate Hdry Hrun Hname Hclass.
  - assert (Hin : (name, spec) ∈ discovered (All.origin_sc args) w)
      by by apply elem_of_discovered.
    destruct (All_phase_one_returns args w w1 name spec Hrecreate Hdry Hrun Hin)
      as (Hledger & Htemp & _).
    eexists. split; [exact Hledger |]. split; [| exact Htemp].
    apply (filter_pivot_records _ name spec); [apply NoDup_discovered | exact Hin].
  - assert (Hin : (name, spec) ∈ discovered (Safe.origin_sc args) w)
      by by apply elem_of_discovered.
    destruct (Safe_phase_one_returns args w w1 name spec Hrecreate Hdry Hrun Hin)
      as (Hledger & Htemp).
    eexists. split; [exact Hledger |]. split; [| exact Htemp].
    apply (filter_pivot_records _ name spec); [apply NoDup_discovered | exact Hin].
Qed.

Lemma phase_one_postcondition_witness :
  let w := world_of data_cluster [Running; Succeeded] in
  (let w1 := (All.main basic_phase1 w).2 in
   All.main basic_phase1 w = (Return tt, w1) ∧
   ∃ records,
     fs w1 !! All.metadata_file basic_phase1 = Some (JsonPivot "access_modes" records) ∧
     filter (λ r, r_old_name r = "data-pvc") records
       = [mkPivot "data-pvc" ("data-pvc" +:+ "-temp") "10Gi" ["ReadWriteOnce"]] ∧
     pvcs (k8s w1) !! ("data-pvc" +:+ "-temp")
       = Some (PvcSpec (Some "new-sc") "10Gi" ["ReadWriteOnce"] None)) ∧
  (let w1 := (Safe.main safe_phase1 w).2 in
   Safe.main safe_phase1 w = (Return tt, w1) ∧
   pvcs (k8s w) !! ("data-pvc" +:+ "-temp") = None ∧
   ∃ records,
     fs w1 !! Safe.DEFAULT_METADATA_FILE = Some (JsonPivot "modes" records) ∧
     filter (λ r, r_old_name r = "data-pvc") records
       = [mkPivot "data-pvc" ("data-pvc" +:+ "-temp") "10Gi" ["ReadWriteOnce"]] ∧
     (pvcs (k8s w) !! ("data-pvc" +:+ "-temp") = None →
      pvcs (k8s w1) !! ("data-pvc" +:+ "-temp")
        = Some (PvcSpec (Some "new-sc") "10Gi" ["ReadWriteOnce"] None))).
Proof.
  intros w. split.
  - intros w1. split; [by vm_compute |].
    apply (proj1 (phase_one_postcondition w w1 "data-pvc" data_pvc) basic_phase1);
      by vm_compute.
  - intros w1. split; [by vm_compute |]. split; [by vm_compute |].
    apply (proj2 (phase_one_postcondition w w1 "data-pvc" data_pvc) safe_phase1);
      by vm_compute.
Defined.

(** C2 as stated fails in the safe variant: with a claim named
    [data-pvc-temp] already there, in another class and of another size,
    phase 1 returns normally and records [data-pvc-temp] as the temp volume,
    but that claim is still the foreign one. *)
Lemma temp_claim_created_counterexample :
  let w := world_of squatted_cluster [Running; Succeeded] in
  let r := Safe.main safe_phase1 w in
  pvcs (k8s w) !! "data-pvc" = Some data_pvc ∧
  r.1 = Return tt ∧
  fs r.2 !! Safe.DEFAULT_METADATA_FILE
    = Some (JsonPivot "modes" [mkPivot "data-pvc" "data-pvc-temp" "10Gi" ["ReadWriteOnce"]]) ∧
  pvcs (k8s r.2) !! "data-pvc-temp"
    = Some (PvcSpec (Some "scratch-sc") "1Gi" ["ReadWriteMany"] None).
Proof. cbv zeta. repeat apply conj; vm_compute; reflexivity. Qed.

(** ** Phase 2 *)

Lemma All_recreate_entry_returns (ns target : string) (preserve : bool) (r : PivotRecord)
    (w w' : world) :
  All.recreate_entry ns target false preserve r w = (Return tt, w') →
  pvcs (k8s w') =
  (if preserve then id else delete (r_temp_name r))
    (<[r_old_name r := recreated target r]> (pvcs (k8s w))).
Proof.
  unfold All.recreate_entry. cbv zeta. intros H.
  apply bind_Return_inv in H as ([] & w1 & Hprint & H).
  apply bind_Return_inv in H as ([] & w2 & Hcreate & H).
  apply bind_Return_inv in H as ([] & w3 & Hcopy & H).
  unfold print in Hprint. rewrite run_emit in Hprint. injection Hprint as <-.
  apply All_create_pvc_returns in Hcreate as [Hfree Hcreated].
  pose proof (All_copy_claims_kept ns (r_temp_name r) (r_old_name r) "pivot2" false w2) as Hkept.
  rewrite Hcopy in Hkept. unfold claims_kept in Hkept. simpl in Hkept.
  destruct preserve; simpl in H.
  - unfold print in H. rewrite run_emit in H. injection H as <-. simpl.
    by rewrite Hkept, Hcreated.
  - rewrite bind_run, run_delete_claim in H. cbv zeta in H.
    destruct (pvcs (k8s w3) !! r_temp_name r); [| discriminate].
    unfold print in H. rewrite run_emit in H. injection H as <-. simpl.
    by rewrite Hkept, Hcreated.
Qed.

Lemma Safe_recreate_record_returns (ns target : string) (r : PivotRecord) (w w' : world) :
  Safe.recreate_record ns target "modes" false r w = (Return tt, w') →
  pvcs (k8s w') =
  delete (r_temp_name r)
    (<[r_old_name r := recreated target r]> (delete (r_old_name r) (pvcs (k8s w)))).
Proof.
  unfold Safe.recreate_record, when. simpl negb. cbv iota.
  change (bool_decide ("modes" = "modes")) with true. cbv iota. intros H.
  destruct (Safe_delete_original_returns ns (r_old_name r) w) as (w1 & Hdelete & Hgone).
  rewrite bind_run, Hdelete in H.
  destruct (Safe_create_pvc_returns ns (r_old_name r) target (r_size r) (r_modes r) w1)
    as (w2 & Hcreate & Hcreated).
  rewrite bind_run, Hcreate in H.
  apply bind_Return_inv in H as ([] & w3 & Hcopy & H).
  pose proof (Safe_copy_claims_kept ns (r_temp_name r) (r_old_name r) "pivot2" false w2) as Hkept.
  rewrite Hcopy in Hkept. unfold claims_kept in Hkept. simpl in Hkept.
  destruct (Safe_delete_temp_returns ns (r_temp_name r) w3) as (w4 & Hdelete' & Hgone').
  rewrite Hdelete' in H. injection H as <-.
  rewrite Hgone', Hkept, Hcreated, Hgone, lookup_delete_eq. reflexivity.
Qed.

Lemma All_recreate_entry_recreates (ns target : string) (preserve : bool) :
  recreates target (negb preserve) (All.recreate_entry ns target false preserve).
Proof.
  intros r w w' H. apply All_recreate_entry_returns in H. repeat split.
  - intros k Hk. rewrite H. apply not_elem_of_cons in Hk as [Hold Hk].
    apply not_elem_of_cons in Hk as [Htemp _].
    destruct preserve; simpl.
    + by rewrite lookup_insert_ne.
    + by rewrite lookup_delete_ne, lookup_insert_ne.
  - intros Hne. rewrite H. destruct preserve; simpl.
    + apply lookup_insert_eq.
    + rewrite lookup_delete_ne by done. apply lookup_insert_eq.
  - intros Hgone. rewrite H. destruct preserve; [discriminate |]. apply lookup_delete_eq.
Qed.

Lemma Safe_recreate_record_recreates (ns target : string) :
  recreates target true (Safe.recreate_record ns target "modes" false).
Proof.
  intros r w w' H. apply Safe_recreate_record_returns in H. repeat split.
  - intros k Hk. rewrite H. apply not_elem_of_cons in Hk as [Hold Hk].
    apply not_elem_of_cons in Hk as [Htemp _].
    by rewrite lookup_delete_ne, lookup_insert_ne, lookup_delete_ne.
  - intros Hne. rewrite H. rewrite lookup_delete_ne by done. apply lookup_insert_eq.
  - intros _. rewrite H. apply lookup_delete_eq.
Qed.

Lemma recreate_loop_frame (target : string) (gone : bool) (body : PivotRecord → M unit)
    (rs : list PivotRecord) (w w' : world) :
  recreates target gone body →
  for_each rs body w = (Return tt, w') →
  claims_outside (ledger_names rs) w w'.
Proof.
  intros Hbody. revert w. induction rs as [|r rs IH]; intros w H; simpl in H.
  - by injection H as <-.
  - apply bind_Return_inv in H as ([] & w1 & Hstep & H).
    apply Hbody in Hstep as (Hframe & _). apply IH in H.
    etrans; [eapply claims_outside_mono, Hframe | eapply claims_outside_mono, H].
    + intros k [-> | [-> | []%elem_of_nil]%elem_of_cons]%elem_of_cons;
        unfold ledger_names; rewrite !fmap_cons; set_solver.
    + intros k Hk. unfold ledger_names in *. rewrite !fmap_cons. set_solver.
Qed.

(** A record whose two names no other record of the ledger speaks of ends
    the loop recreated. *)
Lemma recreate_loop (target : string) (gone : bool) (body : PivotRecord → M unit)
    (rs : list PivotRecord) (w w' : world) (r0 : PivotRecord) :
  recreates target gone body →
  for_each rs body w = (Return tt, w') →
  r0 ∈ rs →
  r_old_name r0 ≠ r_temp_name r0 →
  (∀ r, r ∈ rs → r ≠ r0 →
     r_old_name r ≠ r_old_name r0 ∧ r_temp_name r ≠ r_old_name r0 ∧
     r_old_name r ≠ r_temp_name r0 ∧ r_temp_name r ≠ r_temp_name r0) →
  pvcs (k8s w') !! r_old_name r0 = Some (recreated target r0) ∧
  (gone = true → pvcs (k8s w') !! r_temp_name r0 = None).
Proof.
  intros Hbody. revert w. induction rs as [|r rs IH]; intros w H Hin Hne Hapart.
  - by apply elem_of_nil in Hin.
  - simpl in H. apply bind_Return_inv in H as ([] & w1 & Hstep & H).
    destruct (decide (r0 ∈ rs)) as [Hlater | Hlast].
    + apply (IH w1 H Hlater Hne). intros r' Hr'. apply Hapart. by right.
    + apply elem_of_cons in Hin as [-> | Hin]; [| done].
      apply Hbody in Hstep as (_ & Hold & Htemp).
      pose proof (recreate_loop_frame target gone body rs w1 w' Hbody H) as Hframe.
      assert (Hout : ∀ k, (k = r_old_name r ∨ k = r_temp_name r) → k ∉ ledger_names rs).
      { intros k Hk Hin. unfold ledger_names in Hin.
        apply elem_of_app in Hin as [(r' & -> & Hr')%list_elem_of_fmap
                                   | (r' & -> & Hr')%list_elem_of_fmap].
        - assert (r' ≠ r) by (intros ->; done).
          destruct (Hapart r') as (? & ? & ? & ?); [by right | done |].
          destruct Hk; congruence.
        - assert (r' ≠ r) by (intros ->; done).
          destruct (Hapart r') as (? & ? & ? & ?); [by right | done |].
          destruct Hk; congruence. }
      split.
      * rewrite Hframe by (apply Hout; by left). by apply Hold.
      * intros Hgone. rewrite Hframe by (apply Hout; by right). by apply Htemp.
Qed.

Lemma NoDup_fst_unique {V} (xs : list (string * V)) (k : string) (v1 v2 : V) :
  NoDup xs.*1 → (k, v1) ∈ xs → (k, v2) ∈ xs → v1 = v2.
Proof.
  induction xs as [|[k' v'] xs IH]; intros Hnodup H1 H2; [by apply elem_of_nil in H1 |].
  simpl in Hnodup. apply NoDup_cons in Hnodup as [Hk Hnodup].
  apply elem_of_cons in H1 as [H1 | H1], H2 as [H2 | H2].
  - congruence.
  - injection H1 as -> ->. exfalso. apply Hk. apply list_elem_of_fmap. by exists (k', v2).
  - injection H2 as -> ->. exfalso. apply Hk. apply list_elem_of_fmap. by exists (k', v1).
  - by apply IH.
Qed.

(** The records of the claims found are apart when the names of the claims
    are. *)
Lemma pivot_records_apart (xs : list PVC) (name : string) (spec : pvc_spec) :
  NoDup xs.*1 → (name, spec) ∈ xs →
  (∀ p, p ∈ xs → p.1 ≠ name +:+ "-temp" ∧ name ≠ p.1 +:+ "-temp") →
  ∀ r, r ∈ pivot_record <$> xs → r ≠ pivot_record (name, spec) →
    r_old_name r ≠ name ∧ r_temp_name r ≠ name ∧
    r_old_name r ≠ name +:+ "-temp" ∧ r_temp_name r ≠ name +:+ "-temp".
Proof.
  intros Hnodup Hin Hclash r (p & -> & Hp)%list_elem_of_fmap Hr.
  destruct (Hclash p Hp) as [Hc1 Hc2].
  assert (Hname : p.1 ≠ name).
  { intros Heq. apply Hr. f_equal. destruct p as [n s]. simpl in Heq. subst n. f_equal.
    by apply (NoDup_fst_unique xs name). }
  simpl. repeat split; [done | congruence | done |].
  intros Heq%temp_name_inj. done.
Qed.

(** The loops of the two phase-2 runs, for the ledger phase 1 wrote. *)
Lemma recreated_pivot_record (target : string) (p : PVC) :
  recreated target (pivot_record p) = pivoted target p.2.
Proof. reflexivity. Qed.

Lemma round_trip_loop (target : string) (gone : bool) (body : PivotRecord → M unit)
    (xs : list PVC) (w w' : world) (name : string) (spec : pvc_spec) :
  recreates target gone body →
  for_each (pivot_record <$> xs) body w = (Return tt, w') →
  NoDup xs.*1 → (name, spec) ∈ xs →
  (∀ p, p ∈ xs → p.1 ≠ name +:+ "-temp" ∧ name ≠ p.1 +:+ "-temp") →
  pvcs (k8s w') !! name = Some (pivoted target spec) ∧
  (gone = true → pvcs (k8s w') !! (name +:+ "-temp") = None).
Proof.
  intros Hbody Hloop Hnodup Hin Hclash.
  apply (recreate_loop target gone body _ w w' (pivot_record (name, spec)) Hbody Hloop).
  - apply list_elem_of_fmap. by exists (name, spec).
  - apply temp_name_neq.
  - intros r Hr Hne. by apply (pivot_records_apart xs name spec).
Qed.

Lemma All_phase_two_returns (args : All.Args) (w w2 : world) (xs : list PVC)
    (name : string) (spec : pvc_spec) :
  All.recreate args = true → All.dry_run args = false →
  fs w !! All.metadata_file args = Some (JsonPivot "access_modes" (pivot_record <$> xs)) →
  All.main args w = (Return tt, w2) →
  NoDup xs.*1 → (name, spec) ∈ xs →
  (∀ p, p ∈ xs → p.1 ≠ name +:+ "-temp" ∧ name ≠ p.1 +:+ "-temp") →
  pvcs (k8s w2) !! name = Some (pivoted (All.target_sc args) spec) ∧
  (All.preserve_temp args = false → pvcs (k8s w2) !! (name +:+ "-temp") = None).
Proof.
  intros Hrecreate Hdry Hledger Hrun Hnodup Hin Hclash.
  unfold All.main in Hrun. rewrite Hrecreate in Hrun.
  unfold All.phase_two in Hrun. rewrite Hdry in Hrun. cbv zeta in Hrun.
  rewrite bind_run in Hrun. unfold os_path_exists, gets at 1 in Hrun.
  rewrite Hledger in Hrun. simpl in Hrun.
  rewrite bind_run in Hrun. unfold read_file at 1 in Hrun.
  rewrite bind_run in Hrun. unfold gets at 1 in Hrun. rewrite Hledger in Hrun.
  unfold mret at 1, M_ret at 1 in Hrun. cbv beta iota in Hrun.
  destruct (pivot_record <$> xs) as [|r rs] eqn:Hrs.
  { apply fmap_nil_inv in Hrs. subst xs. by apply elem_of_nil in Hin. }
  rewrite <- Hrs in Hrun.
  apply bind_Return_inv in Hrun as ([] & w3 & Hprint & Hrun).
  unfold print in Hprint. rewrite run_emit in Hprint. injection Hprint as <-.
  apply bind_Return_inv in Hrun as ([] & w4 & Hloop & Hrun).
  unfold when in Hrun. simpl in Hrun.
  apply bind_Return_inv in Hrun as ([] & w5 & Hremove & Hrun).
  apply bind_Return_inv in Hremove as ([] & w6 & Hremove & Hprint).
  unfold print in Hprint, Hrun. rewrite run_emit in Hprint, Hrun.
  injection Hprint as <-. injection Hrun as <-.
  pose proof (claims_kept_os_remove (All.metadata_file args) w4) as Hkept.
  rewrite Hremove in Hkept. unfold claims_kept in Hkept. simpl in Hkept.
  simpl. rewrite Hkept.
  destruct (round_trip_loop (All.target_sc args) (negb (All.preserve_temp args)) _ xs _ w4
              name spec (All_recreate_entry_recreates (All.namespace args) (All.target_sc args)
                           (All.preserve_temp args)) Hloop Hnodup Hin Hclash) as [Hold Htemp].
  split; [exact Hold |]. intros Hpreserve. apply Htemp. by rewrite Hpreserve.
Qed.

(** ** The order of a listing *)

Lemma ascii_compare_N (a b : ascii) :
  Ascii.compare a b = N.compare (N_of_ascii a) (N_of_ascii b).
Proof. reflexivity. Qed.

Lemma string_compare_trans (s1 s2 s3 : string) :
  String.compare s1 s2 ≠ Gt → String.compare s2 s3 ≠ Gt → String.compare s1 s3 ≠ Gt.
Proof.
  revert s2 s3. induction s1 as [|a x IH]; intros [|b y] [|c z]; simpl; try done.
  rewrite !ascii_compare_N.
  destruct (N.compare_spec (N_of_ascii a) (N_of_ascii b)) as [Hab | Hab | Hab]; [| | done].
  - rewrite Hab. destruct (N.compare_spec (N_of_ascii b) (N_of_ascii c)); try done.
    apply IH.
  - destruct (N.compare_spec (N_of_ascii b) (N_of_ascii c)) as [Hbc | Hbc | Hbc]; [| | done].
    + rewrite <- Hbc. intros _ _. by apply N.compare_lt_iff in Hab as ->.
    + intros _ _. assert (N_of_ascii a < N_of_ascii c)%N as Hac by lia.
      by apply N.compare_lt_iff in Hac as ->.
Qed.

Lemma string_leb_trans (s1 s2 s3 : string) :
  String.leb s1 s2 = true → String.leb s2 s3 = true → String.leb s1 s3 = true.
Proof.
  unfold String.leb. intros H12 H23.
  pose proof (string_compare_trans s1 s2 s3) as Htrans.
  destruct (String.compare s1 s2), (String.compare s2 s3), (String.compare s1 s3);
    try done; exfalso; by apply Htrans.
Qed.

(** A name comes before the name it is a proper prefix of. *)
Lemma string_leb_suffix (s t : string) :
  t ≠ EmptyString → String.leb (s +:+ t) s = false.
Proof.
  intros Ht. unfold String.leb.
  assert (String.compare (s +:+ t) s = Gt) as ->; [| done].
  induction s as [|a x IH].
  - change ("" +:+ t) with t. by destruct t.
  - change (String a x +:+ t) with (String a (x +:+ t)). simpl.
    by rewrite ascii_compare_N, N.compare_refl.
Qed.

Lemma by_name_trans {V} : Transitive (@by_name V).
Proof. intros a b c. apply string_leb_trans. Qed.

Lemma by_name_total {V} : Total (@by_name V).
Proof. intros a b. apply String.leb_total. Qed.

Lemma StronglySorted_filter {A} (R : relation A) (P : A → Prop) `{!∀ x, Decision (P x)}
    (l : list A) :
  StronglySorted R l → StronglySorted R (filter P l).
Proof.
  induction 1 as [|x l Hl IH Hx]; [constructor |].
  rewrite filter_cons. destruct (decide (P x)); [| exact IH].
  constructor; [exact IH |]. rewrite Forall_forall in Hx |- *.
  intros y [_ Hy]%list_elem_of_filter. by apply Hx.
Qed.

Lemma discovered_sorted (origin : string) (w : world) :
  StronglySorted by_name (discovered origin w).
Proof.
  unfold discovered, items. apply StronglySorted_filter.
  apply StronglySorted_merge_sort; [apply by_name_trans | apply by_name_total].
Qed.

(** ** The phase-2 loop over a ledger in the order of the listing *)

Lemma for_each_app {A} (xs ys : list A) (body : A → M unit) (w w' : world) :
  for_each (xs ++ ys) body w = (Return tt, w') →
  ∃ w1, for_each xs body w = (Return tt, w1) ∧ for_each ys body w1 = (Return tt, w').
Proof.
  revert w. induction xs as [|x xs IH]; intros w H; simpl in *.
  - by exists w.
  - apply bind_Return_inv in H as ([] & w0 & Hx & H).
    destruct (IH w0 H) as (w1 & Hxs & Hys). exists w1.
    by rewrite bind_run, Hx.
Qed.

(** A name that is free, and is not the original name of a record, is free
    after the loop. *)
Lemma recreate_loop_free (target : string) (body : PivotRecord → M unit)
    (rs : list PivotRecord) (w w' : world) (k : string) :
  recreates target true body →
  for_each rs body w = (Return tt, w') →
  (∀ r, r ∈ rs → r_old_name r ≠ k) →
  pvcs (k8s w) !! k = None → pvcs (k8s w') !! k = None.
Proof.
  intros Hbody. revert w. induction rs as [|r rs IH]; intros w H Hold Hfree; simpl in H.
  - by injection H as <-.
  - apply bind_Return_inv in H as ([] & w1 & Hstep & H).
    apply (IH w1 H); [intros r' Hr'; apply Hold; by right |].
    apply Hbody in Hstep as (Hframe & _ & Hgone).
    destruct (decide (k = r_temp_name r)) as [-> | Htemp]; [by apply Hgone |].
    rewrite Hframe; [exact Hfree |].
    intros [-> | [-> | []%elem_of_nil]%elem_of_cons]%elem_of_cons; [| done].
    by apply (Hold r); [left |].
Qed.

(** The loop of phase 2 of the safe variant over the ledger of the claims
    [xs], listed by name: every claim ends recreated, whatever the names;
    its temp name ends free when no claim of [xs] has that name. *)
Lemma sorted_round_trip (target : string) (body : PivotRecord → M unit)
    (xs : list PVC) (w w' : world) (name : string) (spec : pvc_spec) :
  recreates target true body →
  for_each (pivot_record <$> xs) body w = (Return tt, w') →
  NoDup xs.*1 → StronglySorted by_name xs → (name, spec) ∈ xs →
  pvcs (k8s w') !! name = Some (pivoted target spec) ∧
  ((∀ p, p ∈ xs → p.1 ≠ name +:+ "-temp") →
   pvcs (k8s w') !! (name +:+ "-temp") = None).
Proof.
  intros Hbody Hloop Hnodup Hsorted Hin.
  apply list_elem_of_split in Hin as (pre & post & ->).
  rewrite fmap_app, fmap_cons in Hloop.
  apply for_each_app in Hloop as (w1 & _ & Hloop). simpl in Hloop.
  apply bind_Return_inv in Hloop as ([] & w2 & Hstep & Hloop).
  apply Hbody in Hstep as (_ & Hold & Hgone). simpl in Hold, Hgone.
  specialize (Hold (temp_name_neq name)). specialize (Hgone eq_refl).
  rewrite fmap_app, fmap_cons in Hnodup. simpl in Hnodup.
  apply NoDup_app in Hnodup as (_ & _ & Hnodup). apply NoDup_cons in Hnodup as [Hfresh _].
  apply StronglySorted_app_1_r, StronglySorted_inv in Hsorted as [_ Hafter].
  rewrite Forall_forall in Hafter.
  split.
  - rewrite (recreate_loop_frame target true body _ w2 w' Hbody Hloop); [exact Hold |].
    unfold ledger_names. rewrite <- !list_fmap_compose.
    intros [(p & Hp & Hpost)%list_elem_of_fmap | (p & Hp & Hpost)%list_elem_of_fmap]%elem_of_app;
      simpl in Hp.
    + apply Hfresh. rewrite Hp. apply list_elem_of_fmap. by exists p.
    + specialize (Hafter p Hpost). unfold by_name in Hafter. simpl in Hafter.
      rewrite Hp, string_leb_suffix in Hafter; done.
  - intros Hclash.
    apply (recreate_loop_free target body _ w2 w' _ Hbody Hloop); [| exact Hgone].
    intros r (p & -> & Hpost)%list_elem_of_fmap. simpl. apply Hclash.
    apply elem_of_app. right. by right.
Qed.

Lemma Safe_phase_two_round_trip (args : Safe.Args) (w w2 : world) (xs : list PVC)
    (name : string) (spec : pvc_spec) :
  Safe.recreate args = true → Safe.dry_run args = false →
  fs w !! Safe.DEFAULT_METADATA_FILE = Some (JsonPivot "modes" (pivot_record <$> xs)) →
  Safe.main args w = (Return tt, w2) →
  NoDup xs.*1 → StronglySorted by_name xs → (name, spec) ∈ xs →
  pvcs (k8s w2) !! name = Some (pivoted (Safe.target_sc args) spec) ∧
  ((∀ p, p ∈ xs → p.1 ≠ name +:+ "-temp") →
   pvcs (k8s w2) !! (name +:+ "-temp") = None).
Proof.
  intros Hrecreate Hdry Hledger Hrun Hnodup Hsorted Hin.
  unfold Safe.main in Hrun. rewrite Hrecreate, Hdry in Hrun. cbv zeta in Hrun.
  change (negb true) with false in Hrun. change (negb false) with true in Hrun.
  cbv iota in Hrun.
  rewrite bind_run in Hrun. unfold os_path_exists, gets at 1 in Hrun.
  rewrite Hledger in Hrun. simpl in Hrun.
  rewrite bind_run in Hrun. unfold read_file at 1 in Hrun.
  rewrite bind_run in Hrun. unfold gets at 1 in Hrun. rewrite Hledger in Hrun.
  unfold mret at 1, M_ret at 1 in Hrun. cbv beta iota in Hrun.
  apply bind_Return_inv in Hrun as ([] & w3 & Hloop & Hrun).
  apply bind_Return_inv in Hrun as ([] & w4 & Hscale & Hrun).
  unfold when in Hrun.
  pose proof (Safe_scale_back_up_claims_kept (Safe.namespace args) false w3) as Hkept.
  rewrite Hscale in Hkept. unfold claims_kept in Hkept. simpl in Hkept.
  pose proof (claims_kept_os_remove Safe.DEFAULT_METADATA_FILE w4) as Hkept'.
  rewrite Hrun in Hkept'. unfold claims_kept in Hkept'. simpl in Hkept'.
  rewrite Hkept', Hkept.
  exact (sorted_round_trip (Safe.target_sc args) _ xs _ w3 name spec
           (Safe_recreate_record_recreates (Safe.namespace args) (Safe.target_sc args))
           Hloop Hnodup Hsorted Hin).
Qed.

(** C1 (as amended): take a claim [name] found in the origin class at
    discovery.  Basic variant: when phase 1 has returned, the operator has
    had his turn (the ledger being left as written) and phase 2 has
    returned, the claim [name] is in the target class with the size and
    access modes it had, and [<name>-temp] is gone unless temp preservation
    was requested.  Safe variant: when both phases have returned, the claim
    [name] is in the target class with the size and access modes it had,
    whatever the names of the claims; and [<name>-temp] is gone, provided no
    claim found in the origin class is named [<name>-temp]. *)
Theorem pivot_round_trip (w w1 w1' w2 : world) (name : string) (spec : pvc_spec) :
  (∀ args1 args2,
     All.recreate args1 = false → All.dry_run args1 = false →
     All.recreate args2 = true → All.dry_run args2 = false →
     All.metadata_file args2 = All.metadata_file args1 →
     All.main args1 w = (Return tt, w1) →
     fs w1' !! All.metadata_file args1 = fs w1 !! All.metadata_file args1 →
     All.main args2 w1' = (Return tt, w2) →
     pvcs (k8s w) !! name = Some spec →
     storage_class_name spec = Some (All.origin_sc args1) →
     pvcs (k8s w2) !! name
       = Some (PvcSpec (Some (All.target_sc args2)) (storage spec) (access_modes spec) None) ∧
     (All.preserve_temp args2 = false → pvcs (k8s w2) !! (name +:+ "-temp") = None)) ∧
  (∀ args1 args2,
     Safe.recreate args1 = false → Safe.dry_run args1 = false →
     Safe.recreate args2 = true → Safe.dry_run args2 = false →
     Safe.main args1 w = (Return tt, w1) →
     fs w1' !! Safe.DEFAULT_METADATA_FILE = fs w1 !! Safe.DEFAULT_METADATA_FILE →
     Safe.main args2 w1' = (Return tt, w2) →
     pvcs (k8s w) !! name = Some spec →
     storage_class_name spec = Some (Safe.origin_sc args1) →
     pvcs (k8s w2) !! name
       = Some (PvcSpec (Some (Safe.target_sc args2)) (storage spec) (access_modes spec) None) ∧
     ((∀ other s,
         pvcs (k8s w) !! other = Some s → storage_class_name s = Some (Safe.origin_sc args1) →
         other ≠ name +:+ "-temp") →
      pvcs (k8s w2) !! (name +:+ "-temp") = None)).
Proof.
  split.
  - intros args1 args2 Hrec1 Hdry1 Hrec2 Hdry2 Hfile Hrun1 Hkeep Hrun2 Hname Hclass.
    assert (Hin : (name, spec) ∈ discovered (All.origin_sc args1) w)
      by by apply elem_of_discovered.
    destruct (All_phase_one_returns args1 w w1 name spec Hrec1 Hdry1 Hrun1 Hin)
      as (Hledger & _ & Hclash).
    rewrite <- Hkeep, <- Hfile in Hledger.
    apply (All_phase_two_returns args2 w1' w2 _ name spec Hrec2 Hdry2 Hledger Hrun2);
      [apply NoDup_discovered | exact Hin |].
    intros [other s] Hother. simpl. split.
    + apply elem_of_discovered in Hother as [Hother _].
      apply (Hclash (name, spec) other Hin). by eexists.
    + apply (Hclash (other, s) name Hother). by eexists.
  - intros args1 args2 Hrec1 Hdry1 Hrec2 Hdry2 Hrun1 Hkeep Hrun2 Hname Hclass.
    assert (Hin : (name, spec) ∈ discovered (Safe.origin_sc args1) w)
      by by apply elem_of_discovered.
    destruct (Safe_phase_one_returns args1 w w1 name spec Hrec1 Hdry1 Hrun1 Hin)
      as (Hledger & _).
    rewrite <- Hkeep in Hledger.
    destruct (Safe_phase_two_round_trip args2 w1' w2 _ name spec Hrec2 Hdry2 Hledger Hrun2)
      as [Hold Htemp]; [apply NoDup_discovered | apply discovered_sorted | exact Hin |].
    split; [exact Hold |]. intros Hclash. apply Htemp.
    intros [other s] [Hother Hs]%elem_of_discovered. simpl. by apply (Hclash other s).
Qed.

Lemma pivot_round_trip_witness :
  (* basic variant: the operator deletes data-pvc between the phases *)
  (let w := world_of data_cluster [Running; Succeeded] in
   let w1 := (All.main basic_phase1 w).2 in
   let w1' := with_k8s (with_pvcs (delete "data-pvc")) w1 in
   let w2 := (All.main basic_phase2 w1').2 in
   All.main basic_phase1 w = (Return tt, w1) ∧
   All.main basic_phase2 w1' = (Return tt, w2) ∧
   pvcs (k8s w2) !! "data-pvc"
     = Some (PvcSpec (Some "new-sc") "10Gi" ["ReadWriteOnce"] None) ∧
   (All.preserve_temp basic_phase2 = false →
    pvcs (k8s w2) !! ("data-pvc" +:+ "-temp") = None)) ∧
  (* safe variant, with data-pvc and data-pvc-temp both in the origin class:
     phase 2 deletes the originals itself *)
  (let w := world_of clashing_cluster [Running; Succeeded] in
   let w1 := (Safe.main safe_phase1 w).2 in
   let w2 := (Safe.main safe_phase2 w1).2 in
   Safe.main safe_phase1 w = (Return tt, w1) ∧
   Safe.main safe_phase2 w1 = (Return tt, w2) ∧
   pvcs (k8s w2) !! "data-pvc"
     = Some (PvcSpec (Some "new-sc") "10Gi" ["ReadWriteOnce"] None) ∧
   pvcs (k8s w2) !! "data-pvc-temp"
     = Some (PvcSpec (Some "new-sc") "1Gi" ["ReadWriteMany"] None) ∧
   pvcs (k8s w2) !! ("data-pvc-temp" +:+ "-temp") = None).
Proof.
  split.
  - intros w w1 w1' w2. split; [by vm_compute |]. split; [by vm_compute |].
    apply (proj1 (pivot_round_trip w w1 w1' w2 "data-pvc" data_pvc) basic_phase1 basic_phase2);
      by vm_compute.
  - intros w w1 w2.
    assert (Safe.main safe_phase1 w = (Return tt, w1)) as Hrun1 by (by vm_compute).
    assert (Safe.main safe_phase2 w1 = (Return tt, w2)) as Hrun2 by (by vm_compute).
    assert (pvcs (k8s w) !! "data-pvc" = Some data_pvc) as Hdata by (by vm_compute).
    assert (pvcs (k8s w) !! "data-pvc-temp"
            = Some (PvcSpec (Some "old-sc") "1Gi" ["ReadWriteMany"] None)) as Hother
      by (by vm_compute).
    split; [exact Hrun1 |]. split; [exact Hrun2 |]. split.
    + exact (proj1 (proj2 (pivot_round_trip w w1 w1 w2 "data-pvc" data_pvc)
                      safe_phase1 safe_phase2 eq_refl eq_refl eq_refl eq_refl
                      Hrun1 eq_refl Hrun2 Hdata eq_refl)).
    + destruct (proj2 (pivot_round_trip w w1 w1 w2 "data-pvc-temp"
                         (PvcSpec (Some "old-sc") "1Gi" ["ReadWriteMany"] None))
                  safe_phase1 safe_phase2 eq_refl eq_refl eq_refl eq_refl
                  Hrun1 eq_refl Hrun2 Hother eq_refl) as [Hold Htemp].
      split; [exact Hold |]. apply Htemp. intros other s Hin _.
      change (pvcs (k8s w))
        with (<["data-pvc-temp" := PvcSpec (Some "old-sc") "1Gi" ["ReadWriteMany"] None]>
                (<["data-pvc" := data_pvc]> (∅ : gmap string pvc_spec))) in Hin.
      apply lookup_insert_Some in Hin as [[<- _] | [_ Hin]]; [discriminate |].
      apply lookup_insert_Some in Hin as [[<- _] | [_ Hempty]]; [discriminate |].
      by rewrite lookup_empty in Hempty.
Defined.

(** C1 as stated fails in the safe variant: with [data-pvc] and
    [data-pvc-temp] both in the origin class, the two phases return
    normally, [data-pvc] ends in the target class, and so does
    [data-pvc-temp]: the temp volume of [data-pvc] still exists. *)
Lemma temp_volume_gone_counterexample :
  let w := world_of clashing_cluster [Running; Succeeded] in
  let phase1 := Safe.main safe_phase1 w in
  let phase2 := Safe.main safe_phase2 phase1.2 in
  pvcs (k8s w) !! "data-pvc" = Some data_pvc ∧
  phase1.1 = Return tt ∧
  phase2.1 = Return tt ∧
  pvcs (k8s phase2.2) !! "data-pvc"
    = Some (PvcSpec (Some "new-sc") "10Gi" ["ReadWriteOnce"] None) ∧
  pvcs (k8s phase2.2) !! "data-pvc-temp"
    = Some (PvcSpec (Some "new-sc") "1Gi" ["ReadWriteMany"] None).
Proof. cbv zeta. repeat apply conj; vm_compute; reflexivity. Qed.


(** ** Quiescence and restore *)

Lemma run_patch_in (k : kind) (name : string) (body : patch) (w : world) :
  patch_in (store k) (with_store k) name body w =
  match store k (k8s w) !! name with
  | None => (Raise (ApiException 404), w)
  | Some o =>
      match apply_patch body o with
      | None => (Raise (ApiException 422), w)
      | Some o' => (Return tt, with_k8s (with_store k (alter (patched body) name)) w)
      end
  end.
Proof.
  unfold patch_in. rewrite bind_run. unfold gets at 1. simpl.
  destruct (store k (k8s w) !! name) as [o|] eqn:Ho; [| reflexivity].
  destruct (apply_patch body o) as [o'|] eqn:Ho'; [| reflexivity].
  assert (Halter : <[name := o']> (store k (k8s w)) = alter (patched body) name (store k (k8s w))).
  { apply map_eq. intros i. destruct (decide (i = name)) as [-> | Hne].
    - rewrite lookup_insert_eq, lookup_alter_eq, Ho. simpl. unfold patched. by rewrite Ho'.
    - by rewrite lookup_insert_ne, lookup_alter_ne. }
  unfold modify, with_k8s.
  destruct k; simpl in *; unfold with_deployments, with_replicasets, with_statefulsets,
    with_daemonsets, with_cronjobs, with_jobs; by rewrite Halter.
Qed.

Lemma run_patch_returns (k : kind) (name : string) (body : patch) (w w' : world) :
  patch_in (store k) (with_store k) name body w = (Return tt, w') →
  is_Some (store k (k8s w) !! name) ∧
  w' = with_k8s (with_store k (alter (patched body) name)) w.
Proof.
  rewrite run_patch_in. destruct (store k (k8s w) !! name) as [o|]; [| discriminate].
  destruct (apply_patch body o); [| discriminate].
  intros [= <-]. split; [by eexists | reflexivity].
Qed.

Lemma elem_of_dict_set_new {V} (k : string) (v : V) (d : list (string * V)) :
  (k, v) ∈ dict_set k v d.
Proof.
  induction d as [| [k' v'] d IH]; simpl; [apply list_elem_of_here |].
  case_bool_decide; [apply list_elem_of_here | by apply list_elem_of_further].
Qed.

Lemma elem_of_dict_set_old {V} (k k' : string) (v v' : V) (d : list (string * V)) :
  k' ≠ k → (k', v') ∈ d → (k', v') ∈ dict_set k v d.
Proof.
  intros Hne. induction d as [| [k0 v0] d IH]; simpl; [by intros ?%elem_of_nil |].
  rewrite elem_of_cons. intros [[= <- <-] | Hin].
  - rewrite bool_decide_eq_false_2 by done. apply list_elem_of_here.
  - case_bool_decide; apply list_elem_of_further; auto.
Qed.

Lemma elem_of_dict_set_inv {V} (k : string) (v : V) (d : list (string * V)) x :
  x ∈ dict_set k v d → x = (k, v) ∨ x ∈ d.
Proof.
  induction d as [| [k0 v0] d IH]; simpl.
  - intros ->%list_elem_of_singleton. by left.
  - case_bool_decide; rewrite !elem_of_cons; intros [-> | Hin]; auto.
    destruct (IH Hin); auto.
Qed.

Lemma store_with_store (k k' : kind) f (c : cluster) :
  store k (with_store k' f c) = if decide (k = k') then f (store k c) else store k c.
Proof. by destruct k, k'. Qed.

Lemma store_quiesce_other (k k' : kind) (item : Workload_item) (name : string) (c : cluster) :
  k ≠ k' ∨ name ≠ item.1 →
  store k (quiesce k' item c) !! name = store k c !! name.
Proof.
  intros Hne. unfold quiesce.
  destruct k'; try destruct (0 <? _); try reflexivity;
    rewrite store_with_store; destruct (decide _) as [-> |]; try reflexivity;
    destruct Hne as [? | Hne]; try done;
    by rewrite ?lookup_alter_ne, ?lookup_delete_ne.
Qed.

Lemma store_quiesce_is_Some (k k' : kind) (item : Workload_item) (name : string) (c : cluster) :
  k ≠ Job →
  is_Some (store k c !! name) → is_Some (store k (quiesce k' item c) !! name).
Proof.
  intros Hk Hsome. destruct (decide (k = k' ∧ name = item.1)) as [[-> ->] | Hne].
  - unfold quiesce. destruct k'; try done; try destruct (0 <? _); try done;
      rewrite store_with_store, decide_True by done;
      rewrite lookup_alter_eq; by apply fmap_is_Some.
  - rewrite store_quiesce_other; [done |].
    destruct (decide (k = k')); [right | left]; naive_solver.
Qed.

Lemma for_fold_scans (k : kind) (pvc_names : list string) body
    (xs : list Workload_item) (b b' : list (string * ScaleEntry)) (w w' : world) :
  scans k pvc_names body →
  for_fold xs b body w = (Return b', w') →
  b' = foldl record_target b (targets_in k pvc_names xs) ∧
  k8s w' = foldl quiesce_target (k8s w) (targets_in k pvc_names xs) ∧
  fs w' = fs w.
Proof.
  intros Hbody. revert b w. induction xs as [| x xs IH]; intros b w Hrun.
  - injection Hrun as <- <-. done.
  - simpl in Hrun. apply bind_Return_inv in Hrun as (b1 & w1 & Hx & Hrun).
    apply Hbody in Hx as [Hfs Hx]. apply IH in Hrun as (-> & -> & ->).
    unfold targets_in. simpl. destruct (affected k pvc_names x).
    + destruct Hx as [-> ->]. done.
    + destruct Hx as [-> ->]. done.
Qed.

Lemma print_then {A} (line : string) (m : M A) (w : world) :
  (print line;; m) w = m (with_trace (λ t, t ++ [Stdout line]) w).
Proof. reflexivity. Qed.

Lemma emit_then {A} (e : event) (m : M A) (w : world) :
  (emit e;; m) w = m (with_trace (λ t, t ++ [e]) w).
Proof. reflexivity. Qed.

Lemma run_delete_job (ns name : string) (w w' : world) :
  batch_v1.delete_namespaced_job name ns w = (Return tt, w') →
  fs w' = fs w ∧ k8s w' = with_store Job (delete name) (k8s w).
Proof.
  unfold batch_v1.delete_namespaced_job. rewrite emit_then, bind_run. unfold gets at 1. simpl.
  destruct (jobs (k8s w) !! name); [| discriminate]. by intros [= <-].
Qed.

(** Each loop of the scan is a round of [scans]. *)
Ltac scans_patch k H :=
  cbv beta iota in H;
  unfold apps_v1.patch_namespaced_deployment_scale, apps_v1.patch_namespaced_replica_set_scale,
    apps_v1.patch_namespaced_stateful_set_scale, apps_v1.patch_namespaced_daemon_set,
    batch_v1.patch_namespaced_cron_job in H;
  rewrite emit_then in H; apply (run_patch_returns k) in H as [_ ->].

Ltac scans_start k :=
  let H := fresh "H" in
  intros ? item ? ? ? H; cbv beta in H; unfold affected;
  lazymatch type of H with
  | context [if ?c then _ else _] =>
      destruct c eqn:?; [| by injection H as <- <-]
  end;
  rewrite print_then in H; unfold entry_of, quiesce, recorded, kind_name.

Ltac scans_scale k H :=
  lazymatch type of H with
  | context [when (0 <? ?n) _] =>
      simpl py_or; destruct (0 <? n) eqn:?; unfold when in H;
      apply bind_Return_inv in H as ([] & ? & H & [= <- <-]);
      [ scans_patch k H | cbv beta iota in H; injection H as <- ]; done
  end.

Lemma run_list (k : kind) (e : event) (w : world) a w' :
  (emit e;; gets (λ w, items (store k (k8s w)))) w = (Return a, w') →
  a = items (store k (k8s w)) ∧ k8s w' = k8s w ∧ fs w' = fs w.
Proof. rewrite emit_then. by intros [= <- <-]. Qed.

(** The scan as a function of the cluster it starts from. *)
Lemma Safe_detect_returns (ns : string) (pvc_names : list string) (w w1 : world)
    (backup : list (string * ScaleEntry)) :
  Safe.detect_and_scale_down ns pvc_names false w = (Return backup, w1) →
  backup = foldl record_target [] (targets pvc_names (k8s w)) ∧
  k8s w1 = foldl quiesce_target (k8s w) (targets pvc_names (k8s w)) ∧
  fs w1 = <[Safe.SCALE_TRACK_FILE := JsonScale backup]> (fs w).
Proof.
  unfold Safe.detect_and_scale_down. intros Hrun.
  assert (Hk : k8s w = k8s w) by done. assert (Hf : fs w = fs w) by done.
  revert Hrun Hk Hf. generalize w at 1 2 4 as wa. intros wa Hrun Hk Hf.
  apply bind_Return_inv in Hrun as (ds & wb & Hl & Hrun).
  apply (run_list Deployment) in Hl as (-> & Hk' & Hf').
  rewrite Hk in Hk', Hrun. rewrite Hf in Hf'. clear Hk Hf wa.
  apply bind_Return_inv in Hrun as (ss & wa & Hl & Hrun).
  apply (run_list StatefulSet) in Hl as (-> & Hk & Hf).
  rewrite Hk' in Hk, Hrun. rewrite Hf' in Hf. clear Hk' Hf' wb.
  apply bind_Return_inv in Hrun as (rs & wb & Hl & Hrun).
  apply (run_list ReplicaSet) in Hl as (-> & Hk' & Hf').
  rewrite Hk in Hk', Hrun. rewrite Hf in Hf'. clear Hk Hf wa.
  apply bind_Return_inv in Hrun as (dms & wa & Hl & Hrun).
  apply (run_list DaemonSet) in Hl as (-> & Hk & Hf).
  rewrite Hk' in Hk, Hrun. rewrite Hf' in Hf. clear Hk' Hf' wb.
  apply bind_Return_inv in Hrun as (cjs & wb & Hl & Hrun).
  apply (run_list CronJob) in Hl as (-> & Hk' & Hf').
  rewrite Hk in Hk', Hrun. rewrite Hf in Hf'. clear Hk Hf wa.
  apply bind_Return_inv in Hrun as (js & wa & Hl & Hrun).
  apply (run_list Job) in Hl as (-> & Hk & Hf).
  rewrite Hk' in Hk, Hrun. rewrite Hf' in Hf. clear Hk' Hf' wb. rename wa into wb.
  set (ts := targets pvc_names (k8s w)). rewrite <- Hk, <- Hf. clear Hk Hf. subst ts.
  unfold targets, kinds. cbn [mbind list_bind]. rewrite app_nil_r, !foldl_app.
  revert Hrun. generalize (k8s w) as c0.
  intros c0 Hrun.
  apply bind_Return_inv in Hrun as (b1 & w' & Hloop & Hrun).
  apply (for_fold_scans Deployment pvc_names) in Hloop as (-> & Hk & Hf).
  2:{ scans_start Deployment. destruct (replicas item.2) as [n|]; [| discriminate].
      scans_scale Deployment H. }
  rewrite <- Hk, <- Hf. clear Hk Hf wb. rename w' into wb.
  apply bind_Return_inv in Hrun as (b1 & w' & Hloop & Hrun).
  apply (for_fold_scans ReplicaSet pvc_names) in Hloop as (-> & Hk & Hf).
  2:{ scans_start ReplicaSet. cbv zeta in H. scans_scale ReplicaSet H. }
  rewrite <- Hk, <- Hf. clear Hk Hf wb. rename w' into wb.
  apply bind_Return_inv in Hrun as (b1 & w' & Hloop & Hrun).
  apply (for_fold_scans StatefulSet pvc_names) in Hloop as (-> & Hk & Hf).
  2:{ scans_start StatefulSet. destruct (replicas item.2) as [n|]; [| discriminate].
      scans_scale StatefulSet H. }
  rewrite <- Hk, <- Hf. clear Hk Hf wb. rename w' into wb.
  apply bind_Return_inv in Hrun as (b1 & w' & Hloop & Hrun).
  apply (for_fold_scans DaemonSet pvc_names) in Hloop as (-> & Hk & Hf).
  2:{ scans_start DaemonSet. cbv zeta in H.
      apply bind_Return_inv in H as ([] & ? & H & [= <- <-]). scans_patch DaemonSet H. done. }
  rewrite <- Hk, <- Hf. clear Hk Hf wb. rename w' into wb.
  apply bind_Return_inv in Hrun as (b1 & w' & Hloop & Hrun).
  apply (for_fold_scans CronJob pvc_names) in Hloop as (-> & Hk & Hf).
  2:{ scans_start CronJob.
      apply bind_Return_inv in H as ([] & ? & H & [= <- <-]). scans_patch CronJob H. done. }
  rewrite <- Hk, <- Hf. clear Hk Hf wb. rename w' into wb.
  apply bind_Return_inv in Hrun as (b1 & w' & Hloop & Hrun).
  apply (for_fold_scans Job pvc_names) in Hloop as (-> & Hk & Hf).
  2:{ scans_start Job.
      apply bind_Return_inv in H as ([] & ? & H & [= <- <-]).
      apply run_delete_job in H as [-> ->]. done. }
  rewrite <- Hk, <- Hf. clear Hk Hf wb.
  injection Hrun as <- <-. done.
Qed.

Lemma elem_of_targets (pvc_names : list string) (c : cluster) (k : kind) (item : Workload_item) :
  (k, item) ∈ targets pvc_names c ↔
  store k c !! item.1 = Some item.2 ∧ affected k pvc_names item = true.
Proof.
  unfold targets. rewrite list_elem_of_bind. unfold targets_in. split.
  - intros (k' & Hin & _). apply list_elem_of_fmap in Hin as (y & [= <- <-] & Hin).
    apply list_elem_of_In, filter_In in Hin as [Hin Haff]. split; [| done].
    apply list_elem_of_In in Hin. destruct item. by apply elem_of_items.
  - intros [Hin Haff]. exists k. split.
    2:{ unfold kinds.
        destruct k; repeat first [apply list_elem_of_here | apply list_elem_of_further]. }
    apply list_elem_of_fmap. exists item. split; [done |].
    apply list_elem_of_In, filter_In. split; [| done].
    apply list_elem_of_In. destruct item. by apply elem_of_items.
Qed.

Lemma targets_listed (pvc_names : list string) (c : cluster) :
  Forall (listed c) (targets pvc_names c).
Proof.
  apply Forall_forall. intros [k item] Hin. by apply elem_of_targets in Hin as [? _].
Qed.

Lemma elem_of_controllers (c : cluster) (t : kind * Workload_item) :
  t ∈ controllers c ↔ listed c t.
Proof.
  unfold controllers, listed. rewrite list_elem_of_bind. destruct t as [k [name obj]]. split.
  - intros (k' & Hin & _). apply list_elem_of_fmap in Hin as (y & [= <- <-] & Hin).
    by apply elem_of_items.
  - intros Hin. exists k. split.
    + apply list_elem_of_fmap. eexists. split; [reflexivity |]. by apply elem_of_items.
    + unfold kinds. destruct k; repeat first [apply list_elem_of_here | apply list_elem_of_further].
Qed.

Lemma NoDup_fmap_inj_on {A B} (f : A → B) (l : list A) (x y : A) :
  NoDup (f <$> l) → x ∈ l → y ∈ l → f x = f y → x = y.
Proof.
  induction l as [| a l IH]; [by intros _ ?%elem_of_nil |].
  rewrite fmap_cons, NoDup_cons, !elem_of_cons. intros [Ha Hl] [-> | Hx] [-> | Hy] Heq; auto.
  - destruct Ha. rewrite Heq. apply list_elem_of_fmap. by exists y.
  - destruct Ha. rewrite <- Heq. apply list_elem_of_fmap. by exists x.
Qed.

Lemma uids_distinct_inj (c : cluster) (t1 t2 : kind * Workload_item) :
  uids_distinct c → listed c t1 → listed c t2 → uid t1.2.2 = uid t2.2.2 → t1 = t2.
Proof.
  intros Huid H1%elem_of_controllers H2%elem_of_controllers Heq.
  by apply (NoDup_fmap_inj_on _ _ _ _ Huid H1 H2).
Qed.

(** Every entry of the backup records a controller of the cluster. *)
Lemma backup_justified (c : cluster) (ts : list (kind * Workload_item))
    (b : list (string * ScaleEntry)) :
  Forall (listed c) ts → Forall (justified c) b →
  Forall (justified c) (foldl record_target b ts).
Proof.
  intros Hts. revert b. induction Hts as [| t ts Ht Hts IH]; intros b Hb; [done |].
  simpl. apply IH. apply Forall_forall. intros e He.
  apply elem_of_dict_set_inv in He as [-> | He].
  - exists t.1, t.2. done.
  - by eapply Forall_forall in Hb.
Qed.

(** With distinct uids, every controller acted on keeps its entry. *)
Lemma backup_records (c : cluster) (t : kind * Workload_item)
    (ts : list (kind * Workload_item)) (b : list (string * ScaleEntry)) :
  uids_distinct c → listed c t → Forall (listed c) ts →
  entry_of t.1 t.2 ∈ b ∨ t ∈ ts →
  entry_of t.1 t.2 ∈ foldl record_target b ts.
Proof.
  intros Huid Ht Hts. revert b. induction Hts as [| t' ts Ht' Hts IH]; intros b Hin.
  - destruct Hin as [Hin | Hin]; [done | by apply elem_of_nil in Hin].
  - simpl. apply IH. rewrite elem_of_cons in Hin.
    destruct Hin as [Hin | [-> | Hin]]; [| left | by right].
    + left. unfold record_target. destruct (decide (uid t'.2.2 = uid t.2.2)) as [Heq | Hne].
      * rewrite (uids_distinct_inj c t' t) by done. apply elem_of_dict_set_new.
      * apply elem_of_dict_set_old; [congruence | exact Hin].
    + apply elem_of_dict_set_new.
Qed.

Lemma quiesced_is_Some (k : kind) (name : string) (ts : list (kind * Workload_item))
    (c : cluster) :
  k ≠ Job → is_Some (store k c !! name) →
  is_Some (store k (foldl quiesce_target c ts) !! name).
Proof.
  intros Hk. revert c. induction ts as [| t ts IH]; intros c Hc; [done |].
  simpl. apply IH. by apply store_quiesce_is_Some.
Qed.

Lemma replicas_patched (n : nat) (o : workload) :
  replicas (patched (ReplicasPatch (VInt n)) o) = Some n.
Proof. reflexivity. Qed.





Lemma run_restore_entry (ns : string) (k : kind) (item : Workload_item) (w : world) :
  (k ≠ Job → is_Some (store k (k8s w) !! item.1)) →
  ∃ w' more, Safe.restore_entry ns false (entry_of k item) w = (Return tt, w') ∧
    k8s w' = restore_target k item (k8s w) ∧ fs w' = fs w ∧
    trace w' = trace w ++ more ∧ (k = Job → not_resumed item.1 ∈ more).
Proof.
  intros Hsome. unfold entry_of, Safe.restore_entry.
  destruct k; cbn [kind_name recorded]; repeat case_bool_decide; try congruence;
    cbv iota; try rewrite print_then.
  6:{ eexists _, _. split; [reflexivity |]. simpl. repeat split. intros _.
      apply list_elem_of_here. }
  all: destruct Hsome as [o Ho]; [done |].
  all: unfold apps_v1.patch_namespaced_deployment_scale,
    apps_v1.patch_namespaced_replica_set_scale, apps_v1.patch_namespaced_stateful_set_scale,
    apps_v1.patch_namespaced_daemon_set, batch_v1.patch_namespaced_cron_job;
    rewrite emit_then.
  - rewrite (run_patch_in Deployment). simpl in *. rewrite Ho. simpl.
    eexists _, _. split; [reflexivity |]. simpl. repeat split; [| done].
    by rewrite <- app_assoc.
  - rewrite (run_patch_in ReplicaSet). simpl in *. rewrite Ho. simpl.
    eexists _, _. split; [reflexivity |]. simpl. repeat split; [| done].
    by rewrite <- app_assoc.
  - rewrite (run_patch_in StatefulSet). simpl in *. rewrite Ho. simpl.
    eexists _, _. split; [reflexivity |]. simpl. repeat split; [| done].
    by rewrite <- app_assoc.
  - rewrite (run_patch_in DaemonSet). simpl in *. rewrite Ho. simpl.
    eexists _, _. split; [reflexivity |]. simpl. repeat split; [| done].
    by rewrite <- app_assoc.
  - rewrite (run_patch_in CronJob). simpl in *. rewrite Ho. simpl.
    eexists _, _. split; [reflexivity |]. simpl. repeat split; [| done].
    by rewrite <- app_assoc.
Qed.

Lemma store_restore_other (k k' : kind) (item : Workload_item) (name : string) (c : cluster) :
  k ≠ k' ∨ name ≠ item.1 →
  store k (restore_target k' item c) !! name = store k c !! name.
Proof.
  intros Hne. unfold restore_target.
  destruct k'; try reflexivity;
    rewrite store_with_store; destruct (decide _) as [-> |]; try reflexivity;
    destruct Hne as [? | Hne]; try done;
    by rewrite lookup_alter_ne.
Qed.

Lemma store_restore_is_Some (k k' : kind) (item : Workload_item) (name : string) (c : cluster) :
  is_Some (store k c !! name) → is_Some (store k (restore_target k' item c) !! name).
Proof.
  intros Hsome. destruct (decide (k = k' ∧ name = item.1)) as [[-> ->] | Hne].
  - unfold restore_target. destruct k'; try done;
      rewrite store_with_store, decide_True by done;
      rewrite lookup_alter_eq; by apply fmap_is_Some.
  - rewrite store_restore_other; [done |].
    destruct (decide (k = k')); [right | left]; naive_solver.
Qed.

Lemma restore_sets (k : kind) (item : Workload_item) (c : cluster) :
  scalable k = true → is_Some (store k c !! item.1) →
  has_replicas k item.1 (py_or (replicas item.2) 0) (restore_target k item c).
Proof.
  intros Hk [o Ho]. unfold has_replicas, restore_target.
  destruct k; try discriminate; rewrite store_with_store, decide_True by done;
    by rewrite lookup_alter_eq, Ho.
Qed.

Lemma restore_keeps (c0 : cluster) (k k' : kind) (item item' : Workload_item) (c : cluster) :
  listed c0 (k, item) → listed c0 (k', item') →
  has_replicas k item.1 (py_or (replicas item.2) 0) c →
  has_replicas k item.1 (py_or (replicas item.2) 0) (restore_target k' item' c).
Proof.
  unfold listed, has_replicas. cbn [fst snd]. intros Ht Ht'.
  destruct (decide (k = k' ∧ item.1 = item'.1)) as [[-> Hname] | Hne].
  - rewrite Hname in Ht |- *. rewrite Ht in Ht'. injection Ht' as Hobj.
    destruct (store k' c !! item'.1) as [o|] eqn:Ho; [| discriminate]. intros [= Hz].
    unfold restore_target. destruct k'; try (by rewrite Ho; simpl; rewrite Hz);
      rewrite store_with_store, decide_True by done; rewrite lookup_alter_eq, Ho; simpl;
      by rewrite ?Hz, ?Hobj.
  - rewrite store_restore_other; [done |].
    destruct (decide (k = k')); [right | left]; naive_solver.
Qed.

Lemma store_restore_Job (k : kind) (item : Workload_item) (c : cluster) :
  store Job (restore_target k item c) = store Job c.
Proof. by destruct k. Qed.

Lemma kind_name_inj (k k' : kind) : kind_name k = kind_name k' → k = k'.
Proof. by destruct k, k'. Qed.

(** The loop of the restore pass over a backup that records controllers of [c0]. *)
Lemma restore_loop (ns : string) (c0 : cluster) (es : list (string * ScaleEntry)) (w : world) :
  Forall (justified c0) es →
  (∀ k name, k ≠ Job → is_Some (store k c0 !! name) → is_Some (store k (k8s w) !! name)) →
  ∃ w', for_each es (Safe.restore_entry ns false) w = (Return tt, w') ∧
    fs w' = fs w ∧ store Job (k8s w') = store Job (k8s w) ∧
    (∀ k item, scalable k = true → listed c0 (k, item) →
       entry_of k item ∈ es ∨ has_replicas k item.1 (py_or (replicas item.2) 0) (k8s w) →
       has_replicas k item.1 (py_or (replicas item.2) 0) (k8s w')) ∧
    (∀ item, entry_of Job item ∈ es ∨ not_resumed item.1 ∈ trace w →
       not_resumed item.1 ∈ trace w').
Proof.
  intros Hes. revert w. induction Hes as [| e es He Hes IH]; intros w Hdom.
  - exists w. split; [reflexivity |]. repeat split.
    + intros k item _ _ [Hin | Hin]; [by apply elem_of_nil in Hin | done].
    + intros item [Hin | Hin]; [by apply elem_of_nil in Hin | done].
  - destruct He as (k' & item' & Hlisted & ->).
    destruct (run_restore_entry ns k' item' w) as (w1 & more & Hrun & Hk & Hf & Ht & Hjob).
    { intros Hk'. apply Hdom; [done |]. by eexists. }
    destruct (IH w1) as (w' & Hloop & Hf' & Hjobs & Hrep & Hline).
    { intros k name Hk' Hsome. rewrite Hk. apply store_restore_is_Some. by apply Hdom. }
    exists w'. split; [| split; [| split; [| split]]].
    + cbn [for_each]. rewrite bind_run, Hrun. exact Hloop.
    + congruence.
    + rewrite Hjobs, Hk. apply store_restore_Job.
    + intros k item Hscal Hitem Hin. apply Hrep; [done | done |].
      rewrite elem_of_cons in Hin. destruct Hin as [[Heq | Hin] | Hin]; [right | by left | right].
      * assert (k = k' ∧ item = item') as [-> ->].
        { injection Heq as _ Hkind Hname _. apply kind_name_inj in Hkind as ->.
          split; [done |]. unfold listed in Hitem, Hlisted. cbn [fst snd] in Hitem, Hlisted.
          rewrite Hname, Hlisted in Hitem. destruct item, item'. simpl in *. congruence. }
        rewrite Hk. apply restore_sets; [done |]. apply Hdom; [by intros -> | by eexists].
      * rewrite Hk. by eapply restore_keeps.
    + intros item Hin. apply Hline.
      rewrite elem_of_cons in Hin. destruct Hin as [[Heq | Hin] | Hin]; [right | by left | right].
      * injection Heq as _ Hkind Hname _. apply (kind_name_inj Job) in Hkind as <-.
        rewrite Ht, Hname. apply elem_of_app. right. by apply Hjob.
      * rewrite Ht. apply elem_of_app. by left.
Qed.

Lemma run_scale_back_up (ns : string) (es : list (string * ScaleEntry)) (w w' : world) :
  fs w !! Safe.SCALE_TRACK_FILE = Some (JsonScale es) →
  for_each es (Safe.restore_entry ns false) w = (Return tt, w') → fs w' = fs w →
  ∃ w2, Safe.scale_back_up ns false w = (Return tt, w2) ∧
    k8s w2 = k8s w' ∧ ∀ e, e ∈ trace w' → e ∈ trace w2.
Proof.
  intros Hfile Hloop Hfs. unfold Safe.scale_back_up, os_path_exists, read_file.
  rewrite bind_run. unfold gets at 1. rewrite Hfile.
  rewrite bool_decide_eq_true_2 by (by eexists). cbn [negb].
  rewrite bind_run. rewrite bind_run. unfold gets at 1. rewrite Hfile.
  unfold mret at 1, M_ret at 1. rewrite bind_run, Hloop. unfold when, os_remove. cbn [negb].
  rewrite emit_then, bind_run. unfold gets at 1. cbn [fs with_trace]. rewrite Hfs, Hfile.
  eexists. split; [reflexivity |]. split; [reflexivity |].
  intros e He. cbn. apply elem_of_app. by left.
Qed.



(** * Further properties of the scripts *)

(** ** Names of pods and claims *)

Lemma length_str_take (n : nat) (s : string) :
  String.length (str_take n s) = String.length s `min` n.
Proof.
  revert s. induction n as [|n IH]; intros [|c s]; simpl; try reflexivity.
  by rewrite IH.
Qed.

Lemma rstrip_dash_dashes (s : string) : ∃ n, s = Safe.rstrip_dash s +:+ dashes n.
Proof.
  induction s as [|c s [n IH]]; [by exists 0 |]. simpl.
  destruct (Safe.rstrip_dash s) as [|c' rest] eqn:Hs.
  - change (s = dashes n) in IH. destruct (nat_of_ascii c =? 45) eqn:Hc.
    + exists (S n). apply Nat.eqb_eq in Hc.
      change (String c s = String (ascii_of_nat 45) (dashes n)).
      by rewrite <- Hc, ascii_nat_embedding, <- IH.
    + exists n. change (String c s = String c (dashes n)). by rewrite <- IH.
  - exists n. change (String c s = String c (String c' rest +:+ dashes n)). by rewrite <- IH.
Qed.

Lemma last_char_rstrip_dash (s : string) :
  nat_of_ascii <$> last_char (Safe.rstrip_dash s) ≠ Some 45.
Proof.
  induction s as [|c s IH]; [discriminate |]. simpl.
  destruct (Safe.rstrip_dash s) as [|c' rest] eqn:Hs.
  - destruct (nat_of_ascii c =? 45) eqn:Hc; [discriminate |].
    apply Nat.eqb_neq in Hc. simpl. congruence.
  - change (last_char (String c (String c' rest))) with
      (match last_char (String c' rest) with None => Some c | last => last end).
    destruct (last_char (String c' rest)) eqn:Hlast; [exact IH |].
    simpl in Hlast. by destruct (last_char rest).
Qed.

Lemma length_rstrip_dash (s : string) :
  String.length (Safe.rstrip_dash s) ≤ String.length s.
Proof.
  induction s as [|c s IH]; simpl; [lia |].
  destruct (Safe.rstrip_dash s); [destruct (_ =? _) |]; simpl in *; lia.
Qed.

Lemma all_allowed_rstrip_dash (s : string) :
  all_allowed s = true → all_allowed (Safe.rstrip_dash s) = true.
Proof.
  induction s as [|c s IH]; simpl; [done |]. intros [Hc Hs]%andb_true_iff.
  specialize (IH Hs). destruct (Safe.rstrip_dash s); [destruct (_ =? _) |]; simpl in *;
    rewrite ?Hc; done.
Qed.

(** X1. The pod name of the safe variant is the prefix, a dash, and a base
    taken from the source name: the base has only lower-case letters, digits
    and dashes, at most 20 characters, and does not end in a dash; it is the
    first 20 allowed characters of the lower-cased name with the dashes at
    their end removed. *)
Theorem sanitize_pod_name_shape (name prefix : string) :
  ∃ base n,
    Safe.sanitize_pod_name name prefix = prefix +:+ "-" +:+ base ∧
    str_take 20 (Safe.strip_disallowed (lower name)) = base +:+ dashes n ∧
    all_allowed base = true ∧
    String.length base ≤ 20 ∧
    nat_of_ascii <$> last_char base ≠ Some 45.
Proof.
  set (cut := str_take 20 (Safe.strip_disallowed (lower name))).
  destruct (rstrip_dash_dashes cut) as [n Hn].
  exists (Safe.rstrip_dash cut), n. split; [reflexivity |]. split; [exact Hn |].
  split; [| split].
  - apply all_allowed_rstrip_dash, all_allowed_take, all_allowed_strip.
  - etrans; [apply length_rstrip_dash |]. unfold cut. rewrite length_str_take. lia.
  - apply last_char_rstrip_dash.
Qed.

(** X2. The pod names of the basic variant and of moveStorage.py keep the
    first 20 characters of the source name: the name has the length of the
    prefix, plus one, plus the length of the source name or 20, whichever
    is smaller; in moveStorage.py that is at most 31 characters. *)
Theorem pivot_pod_name_length (prefix src : string) :
  String.length (All.pivot_pod_name prefix src)
    = String.length prefix + 1 + String.length src `min` 20 ∧
  String.length (MoveStorage.pivot_pod_name src) = 11 + String.length src `min` 20 ∧
  String.length (MoveStorage.pivot_pod_name src) ≤ 31.
Proof.
  unfold All.pivot_pod_name, MoveStorage.pivot_pod_name.
  rewrite !length_append, !length_str_take. simpl. lia.
Qed.

Lemma length_underscores_to_dashes (s : string) :
  String.length (MoveStorage.underscores_to_dashes s) = String.length s.
Proof. induction s as [|c s IH]; simpl; [done | by rewrite IH]. Qed.

Lemma length_lower (s : string) : String.length (lower s) = String.length s.
Proof. induction s as [|c s IH]; simpl; [done | by rewrite IH]. Qed.

Lemma clean_char (c : ascii) :
  let c' := if nat_of_ascii (lower_char c) =? 95 then ascii_of_nat 45 else lower_char c in
  lower_no_underscore c' = true ∧
  (class_name_char c = true → Safe.allowed c' = true).
Proof.
  cbv zeta.
  assert (lower_no_underscore
            (if nat_of_ascii (lower_char c) =? 95 then ascii_of_nat 45 else lower_char c)
          && implb (class_name_char c)
               (Safe.allowed
                  (if nat_of_ascii (lower_char c) =? 95 then ascii_of_nat 45 else lower_char c))
          = true) as [H1 H2]%andb_true_iff.
  { destruct c as [[] [] [] [] [] [] [] []]; vm_compute; reflexivity. }
  split; [exact H1 |]. intros Hc. by rewrite Hc in H2.
Qed.

Lemma clean_sc_chars (s : string) :
  all_chars lower_no_underscore (MoveStorage.underscores_to_dashes (lower s)) = true ∧
  (all_chars class_name_char s = true →
   all_allowed (MoveStorage.underscores_to_dashes (lower s)) = true).
Proof.
  induction s as [|c s [IH1 IH2]]; [done |]. simpl.
  destruct (clean_char c) as [H1 H2]. rewrite H1, IH1. split; [done |].
  intros [Hc Hs]%andb_true_iff. by rewrite H2, IH2.
Qed.

(** X3. The name moveStorage.py gives the new claim is the old name, a
    dash, and the target class cleaned: the cleaned class has no upper-case
    ASCII letter and no underscore; it has the length of the target class
    when the target class is ASCII text; when the target class has only
    ASCII letters, digits, dashes and underscores, the cleaned class has
    only lower-case letters, digits and dashes.  A dry run answers that
    name and creates nothing. *)
Theorem new_pvc_name_clean (old_pvc : PVC) (target ns : string) (snapshot : option string)
    (w : world) :
  ∃ clean_sc,
    (MoveStorage.create_new_pvc old_pvc target ns true snapshot w).1
      = Return (old_pvc.1 +:+ "-" +:+ clean_sc) ∧
    k8s (MoveStorage.create_new_pvc old_pvc target ns true snapshot w).2 = k8s w ∧
    (isascii target = true → String.length clean_sc = String.length target) ∧
    all_chars lower_no_underscore clean_sc = true ∧
    (all_chars class_name_char target = true → all_allowed clean_sc = true).
Proof.
  exists (MoveStorage.underscores_to_dashes (lower target)).
  split; [reflexivity |]. split; [reflexivity |]. split.
  - intros _. by rewrite length_underscores_to_dashes, length_lower.
  - apply clean_sc_chars.
Qed.

Lemma new_pvc_name_clean_witness :
  ∃ clean_sc,
    (MoveStorage.create_new_pvc ("data-pvc", data_pvc) "Fast_SSD" "prod" true None
       (world_of data_cluster [])).1 = Return ("data-pvc" +:+ "-" +:+ clean_sc) ∧
    k8s (MoveStorage.create_new_pvc ("data-pvc", data_pvc) "Fast_SSD" "prod" true None
           (world_of data_cluster [])).2 = k8s (world_of data_cluster []) ∧
    String.length clean_sc = String.length "Fast_SSD" ∧
    all_chars lower_no_underscore clean_sc = true ∧
    all_allowed clean_sc = true.
Proof.
  destruct (new_pvc_name_clean ("data-pvc", data_pvc) "Fast_SSD" "prod" None
              (world_of data_cluster [])) as (clean_sc & H1 & H2 & H3 & H4 & H5).
  exists clean_sc. split; [exact H1 |]. split; [exact H2 |].
  split; [apply H3; reflexivity |]. split; [exact H4 |]. apply H5. reflexivity.
Defined.

(** ** The exported pod manifest *)

Lemma last_char_append (a b : string) :
  last_char (a +:+ b) = match last_char b with None => last_char a | last => last end.
Proof.
  induction a as [|c a IH].
  - change ("" +:+ b) with b. by destruct (last_char b).
  - change (String c a +:+ b) with (String c (a +:+ b)). simpl. rewrite IH.
    destruct (last_char b); [reflexivity |]. reflexivity.
Qed.

Lemma manifest_path_neq (pod_name : string) :
  MoveStorage.MANIFEST_DIR +:+ "/" +:+ pod_name +:+ ".yaml" ≠ MoveStorage.POST_SCRIPT_PATH.
Proof.
  intros H. apply (f_equal last_char) in H.
  rewrite !last_char_append in H. by vm_compute in H.
Qed.

(** X4. For a pod that has volumes, the export writes
    manifests/<pod>.yaml and returns; the cluster is as it was.  In the
    manifest written every volume claims the new PVC, every volume of the
    pod that has a claim and is not projected is there, and every volume
    mount of every container names a volume of the manifest. *)
Theorem export_pod_manifest_consistent (pod : string * pod) (new_pvc_name : string)
    (volumes : list volume) (w : world) :
  pod_volumes pod.2 = Some volumes →
  ∃ m w', MoveStorage.export_pod_manifest pod new_pvc_name w = (Return tt, w') ∧
    k8s w' = k8s w ∧
    fs w' !! (MoveStorage.MANIFEST_DIR +:+ "/" +:+ pod.1 +:+ ".yaml") = Some (Yaml m) ∧
    m_name m = pod.1 ∧
    length (m_containers m) = length (containers pod.2) ∧
    Forall (λ v, v.2 = new_pvc_name) (m_volumes m) ∧
    (∀ vol, vol ∈ volumes → is_Some (persistent_volume_claim vol) → projected vol = false →
       vol_name vol ∈ (m_volumes m).*1) ∧
    (∀ c mounts, c ∈ m_containers m → volume_mounts c = Some mounts →
       Forall (λ mt, mt.2 ∈ (m_volumes m).*1) mounts).
Proof.
  intros Hvols. unfold MoveStorage.export_pod_manifest. rewrite Hvols. cbv zeta.
  set (kept := filter _ volumes).
  eexists _, _. split; [reflexivity |]. split; [reflexivity |]. split.
  { cbn [fs with_fs with_trace with_report].
    assert (Hne := manifest_path_neq pod.1).
    destruct (_ !! MoveStorage.POST_SCRIPT_PATH) as [[]|]; rewrite lookup_insert_ne by done;
      apply lookup_insert_eq. }
  cbn [m_name m_containers m_volumes]. split; [reflexivity |].
  split; [by rewrite length_fmap |]. split; [| split].
  - apply Forall_fmap, Forall_forall. by intros vol _.
  - intros vol Hin Hclaim Hproj. rewrite <- list_fmap_compose.
    apply list_elem_of_fmap. exists vol. split; [reflexivity |].
    apply list_elem_of_filter. split; [| exact Hin]. split; [| exact Hclaim].
    rewrite Hproj. by intros [? _].
  - intros c mounts Hc Hmounts. apply list_elem_of_fmap in Hc as (c0 & -> & _).
    cbn [volume_mounts] in Hmounts.
    destruct (MoveStorage.if_set (volume_mounts c0)) as [ms|]; [| discriminate].
    injection Hmounts as <-. apply Forall_forall. intros mt Hmt.
    apply list_elem_of_filter in Hmt as [Hmt _].
    by rewrite <- list_fmap_compose.
Qed.

Lemma export_pod_manifest_consistent_witness :
  let w := world_of data_cluster [] in
  ∃ m w', MoveStorage.export_pod_manifest ("toolbox", toolbox) "data-pvc-new-sc" w
            = (Return tt, w') ∧
    fs w' !! "manifests/toolbox.yaml" = Some (Yaml m) ∧
    m_volumes m = [("data", "data-pvc-new-sc")] ∧
    volume_mounts <$> m_containers m = [Some [("/data", "data")]].
Proof.
  intros w.
  destruct (export_pod_manifest_consistent ("toolbox", toolbox) "data-pvc-new-sc"
              [Volume "data" (Some "data-pvc") false;
               Volume "kube-api-access-x7k2p" None true;
               Volume "cache" None false] w eq_refl)
    as (m & w' & Hrun & _ & Hfile & _).
  exists m, w'. split; [exact Hrun |]. split; [exact Hfile |].
  vm_compute in Hrun. injection Hrun as <-. vm_compute in Hfile. injection Hfile as <-.
  by vm_compute.
Defined.

(** ** The backup of the quiescence step *)






(** ** Runs that find nothing to do *)

Lemma run_os_path_exists {A} (path : string) (k : bool → M A) (w : world) :
  (os_path_exists path ≫= k) w = k (bool_decide (is_Some (fs w !! path))) w.
Proof. reflexivity. Qed.

Lemma run_read_file {A} (path : string) (k : file → M A) (w : world) :
  (read_file path ≫= k) w =
  match fs w !! path with
  | Some c => k c w
  | None => (Raise (FileNotFoundError path), w)
  end.
Proof. unfold read_file. rewrite !bind_run. unfold gets at 1. by destruct (fs w !! path). Qed.

(** X6. Phase 2 of the basic variant on a ledger that is missing or holds
    no record prints one line and returns: no call is issued, the cluster
    and the files are as they were, with or without the dry-run flag. *)
Theorem All_phase_two_without_records (args : All.Args) (w : world) :
  All.recreate args = true →
  fs w !! All.metadata_file args = None ∨
  (∃ k, fs w !! All.metadata_file args = Some (JsonPivot k [])) ∨
  fs w !! All.metadata_file args = Some (JsonScale []) →
  ∃ line, All.main args w = (Return tt, with_trace (λ t, t ++ [Stdout line]) w).
Proof.
  intros Hrec Hfile. unfold All.main, All.phase_two. rewrite Hrec. cbv zeta.
  rewrite run_os_path_exists. destruct Hfile as [Hfile | [[k Hfile] | Hfile]]; rewrite Hfile.
  - rewrite bool_decide_eq_false_2 by (by intros [? ?]). by eexists.
  - rewrite bool_decide_eq_true_2 by (by eexists). cbn [negb].
    rewrite run_read_file, Hfile. by eexists.
  - rewrite bool_decide_eq_true_2 by (by eexists). cbn [negb].
    rewrite run_read_file, Hfile. by eexists.
Qed.

Lemma All_phase_two_without_records_witness :
  ∃ line, All.main basic_phase2 (world_of data_cluster [])
          = (Return tt, with_trace (λ t, t ++ [Stdout line]) (world_of data_cluster [])).
Proof.
  apply (All_phase_two_without_records basic_phase2 (world_of data_cluster []));
    [reflexivity | left; reflexivity].
Defined.

(** X7. Phase 2 of the safe variant without a ledger file prints that no
    metadata was found and returns; nothing else happens: the restore pass
    is not run and no file is removed. *)
Theorem Safe_phase_two_without_ledger (args : Safe.Args) (w : world) :
  Safe.recreate args = true →
  fs w !! Safe.DEFAULT_METADATA_FILE = None →
  Safe.main args w
    = (Return tt, with_trace (λ t, t ++ [Stdout "[!] No metadata found"]) w).
Proof.
  intros Hrec Hfile. unfold Safe.main. rewrite Hrec. cbv zeta. cbn [negb].
  rewrite run_os_path_exists, Hfile.
  by rewrite bool_decide_eq_false_2 by (by intros [? ?]).
Qed.

Lemma Safe_phase_two_without_ledger_witness :
  Safe.main safe_phase2 (world_of web_cluster [])
    = (Return tt, with_trace (λ t, t ++ [Stdout "[!] No metadata found"])
                    (world_of web_cluster [])).
Proof.
  apply (Safe_phase_two_without_ledger safe_phase2 (world_of web_cluster []));
    reflexivity.
Defined.

Lemma run_list_pvcs {A} (ns : string) (k : list PVC → M A) (w : world) :
  (v1.list_namespaced_persistent_volume_claim ns ≫= k) w =
  k (items (pvcs (k8s w)))
    (with_trace (λ t, t ++ [Api list_namespaced_persistent_volume_claim]) w).
Proof. reflexivity. Qed.

(** X8. When no claim of the namespace is in the origin class, each of
    the three scripts lists the claims, prints that there is nothing to do
    and returns: nothing is created, no ledger is written and moveStorage.py
    prints no summary, with or without the dry-run flag. *)
Theorem nothing_to_migrate (origin : string) (w : world) :
  discovered origin w = [] →
  (∀ args, All.origin_sc args = origin → All.recreate args = false →
     ∃ line, All.main args w =
       (Return tt, with_trace (λ t, t ++ [Api list_namespaced_persistent_volume_claim;
                                          Stdout line]) w)) ∧
  (∀ args, Safe.origin_sc args = origin → Safe.recreate args = false →
     ∃ line, Safe.main args w =
       (Return tt, with_trace (λ t, t ++ [Api list_namespaced_persistent_volume_claim;
                                          Stdout line]) w)) ∧
  (∀ args, MoveStorage.origin args = origin →
     ∃ line1 line2, MoveStorage.main args w =
       (Return tt, with_trace (λ t, t ++ [Stdout line1;
                                          Api list_namespaced_persistent_volume_claim;
                                          Stdout line2]) w)).
Proof.
  unfold discovered. intros Hnone. split; [| split].
  - intros args <- Hrec. unfold All.main, All.phase_one, All.list_pvcs_in_storageclass.
    rewrite Hrec. cbv zeta. rewrite bind_run, run_list_pvcs.
    unfold mret at 1, M_ret at 1. rewrite Hnone.
    eexists. unfold print. rewrite run_emit. unfold with_trace. simpl.
    by rewrite <- app_assoc.
  - intros args <- Hrec. unfold Safe.main, Safe.list_pvcs.
    rewrite Hrec. cbv zeta. cbn [negb]. rewrite bind_run, run_list_pvcs.
    unfold mret at 1, M_ret at 1. rewrite Hnone.
    eexists. unfold print. rewrite run_emit. unfold with_trace. simpl.
    by rewrite <- app_assoc.
  - intros args <-. unfold MoveStorage.main, MoveStorage.get_pvcs_by_storage_class.
    cbv zeta. rewrite print_then, bind_run, run_list_pvcs.
    unfold mret at 1, M_ret at 1. cbn [k8s with_trace]. rewrite Hnone.
    eexists _, _. unfold print. rewrite run_emit. unfold with_trace. simpl.
    by rewrite <- !app_assoc.
Qed.

Lemma nothing_to_migrate_witness :
  let w := world_of data_cluster [] in
  ∃ line, All.main (All.mkArgs "other-sc" "new-sc" "prod" false
                      All.DEFAULT_METADATA_FILE false false) w =
    (Return tt, with_trace (λ t, t ++ [Api list_namespaced_persistent_volume_claim;
                                       Stdout line]) w).
Proof.
  intros w. apply (proj1 (nothing_to_migrate "other-sc" w eq_refl)); reflexivity.
Defined.

(** ** The restore pass and its file *)

Lemma Safe_restore_entry_files (ns : string) (dry_run : bool) (e : string * ScaleEntry) :
  respects files_untouched (Safe.restore_entry ns dry_run e).
Proof.
  destruct e as [u [[k n] v]]. unfold Safe.restore_entry.
  unfold apps_v1.patch_namespaced_deployment_scale, apps_v1.patch_namespaced_replica_set_scale,
    apps_v1.patch_namespaced_stateful_set_scale, apps_v1.patch_namespaced_daemon_set,
    batch_v1.patch_namespaced_cron_job.
  files_untouched.
Qed.

Lemma run_os_remove (path : string) (w : world) :
  os_remove path w =
  match fs w !! path with
  | Some _ => (Return tt, with_fs (delete path) (with_trace (λ t, t ++ [FsRemove path]) w))
  | None => (Raise (FileNotFoundError path), with_trace (λ t, t ++ [FsRemove path]) w)
  end.
Proof.
  unfold os_remove. rewrite emit_then, bind_run. unfold gets at 1. cbn [fs with_trace].
  by destruct (fs w !! path).
Qed.

(** X9. The restore pass and the scale-state file.  Without the file the
    pass prints one line and returns, and nothing else happens.  In a dry
    run, and whenever the pass does not return, the files are as they
    were.  A pass that is not a dry run and returns has removed the
    scale-state file and touched no other file. *)
Theorem restore_pass_and_scale_file (ns : string) (dry_run : bool) (w : world) :
  let r := Safe.scale_back_up ns dry_run w in
  (fs w !! Safe.SCALE_TRACK_FILE = None →
     r = (Return tt,
          with_trace (λ t, t ++ [Stdout "[!] No scale backup file found. Cannot restore replicas."])
            w)) ∧
  (dry_run = true → fs r.2 = fs w) ∧
  (r.1 ≠ Return tt → fs r.2 = fs w) ∧
  (dry_run = false → r.1 = Return tt → is_Some (fs w !! Safe.SCALE_TRACK_FILE) →
     fs r.2 = delete Safe.SCALE_TRACK_FILE (fs w)).
Proof.
  cbv zeta. unfold Safe.scale_back_up. rewrite run_os_path_exists.
  destruct (fs w !! Safe.SCALE_TRACK_FILE) as [content|] eqn:Hfile.
  2:{ rewrite bool_decide_eq_false_2 by (by intros [? ?]). cbn [negb].
      repeat split; try done; by intros _ _ [? ?]. }
  rewrite bool_decide_eq_true_2 by (by eexists). cbn [negb].
  rewrite run_read_file, Hfile. split; [done |].
  destruct content as [k rs | es | m | ls]; try (by repeat split).
  rewrite bind_run.
  pose proof (respects_for_each files_untouched es (Safe.restore_entry ns dry_run)
                (Safe_restore_entry_files ns dry_run) w) as [Hfs _].
  destruct (for_each es (Safe.restore_entry ns dry_run) w) as [[[]|e|] w1]; simpl in Hfs;
    [| by repeat split | by repeat split].
  destruct dry_run; unfold when; cbn [negb].
  - by repeat split.
  - rewrite run_os_remove, Hfs, Hfile. cbn [fst snd]. repeat split; try done.
    intros _ _ _. simpl. by rewrite Hfs.
Qed.

Lemma restore_pass_and_scale_file_witness :
  let w := empty_ledger_world in
  let r := Safe.scale_back_up "prod" false w in
  r.1 = Return tt ∧ is_Some (fs w !! Safe.SCALE_TRACK_FILE) ∧
  fs r.2 = delete Safe.SCALE_TRACK_FILE (fs w).
Proof.
  intros w r. split; [by vm_compute |]. split; [by eexists |].
  apply (restore_pass_and_scale_file "prod" false w); [reflexivity | by vm_compute |].
  by eexists.
Defined.

(** ** A ledger of the other variant *)

(** X10. Phase 2 of the basic variant on a ledger whose records keep the
    access modes under another key than [access_modes] (the safe variant
    writes them under [modes], to the same default file): the run prints
    how many records it found and stops with a KeyError at the first
    record; no call is issued, the cluster and the files are as they
    were. *)
Theorem All_phase_two_foreign_ledger (args : All.Args) (w : world) (modes_key : string)
    (r : PivotRecord) (rs : list PivotRecord) :
  All.recreate args = true →
  fs w !! All.metadata_file args = Some (JsonPivot modes_key (r :: rs)) →
  modes_key ≠ "access_modes" →
  ∃ line, All.main args w
          = (Raise (KeyError "access_modes"), with_trace (λ t, t ++ [Stdout line]) w).
Proof.
  intros Hrec Hfile Hkey. unfold All.main, All.phase_two. rewrite Hrec. cbv zeta.
  rewrite run_os_path_exists, Hfile, bool_decide_eq_true_2 by (by eexists). cbn [negb].
  rewrite run_read_file, Hfile. rewrite print_then. cbn [for_each].
  rewrite bool_decide_eq_false_2 by done. by eexists.
Qed.

Lemma All_phase_two_foreign_ledger_witness :
  fs after_safe_phase1 !! All.metadata_file basic_phase2
    = Some (JsonPivot "modes" [pivot_record ("data-pvc", data_pvc)]) ∧
  ∃ line, All.main basic_phase2 after_safe_phase1
          = (Raise (KeyError "access_modes"),
             with_trace (λ t, t ++ [Stdout line]) after_safe_phase1).
Proof.
  split; [by vm_compute |].
  apply (All_phase_two_foreign_ledger basic_phase2 after_safe_phase1 "modes"
           (pivot_record ("data-pvc", data_pvc)) []); by vm_compute.
Defined.

Lemma Safe_recreate_record_foreign (ns target modes_key : string) (dry_run : bool)
    (r : PivotRecord) (w : world) :
  modes_key ≠ "modes" →
  ∃ w', Safe.recreate_record ns target modes_key dry_run r w = (Raise (KeyError "modes"), w') ∧
    fs w' = fs w ∧
    pvcs (k8s w') = if dry_run then pvcs (k8s w) else delete (r_old_name r) (pvcs (k8s w)).
Proof.
  intros Hkey. unfold Safe.recreate_record. rewrite bool_decide_eq_false_2 by done.
  destruct dry_run; unfold when; cbn [negb].
  - eexists. by split.
  - unfold try_except. rewrite !bind_run, run_delete_claim. cbv zeta.
    destruct (pvcs (k8s w) !! r_old_name r) eqn:Hname.
    + eexists. split; [reflexivity |]. by split.
    + eexists. split; [reflexivity |]. split; [reflexivity |]. simpl. by rewrite delete_id.
Qed.

(** X11. Phase 2 of the safe variant on a ledger whose records keep the
    access modes under another key than [modes] (the basic variant writes
    them under [access_modes], to the same file): the run stops with a
    KeyError at the first record, after it has deleted the original claim
    of that record when it is not a dry run.  Nothing is created and the
    files are as they were. *)
Theorem Safe_phase_two_foreign_ledger (args : Safe.Args) (w : world) (modes_key : string)
    (r : PivotRecord) (rs : list PivotRecord) :
  Safe.recreate args = true →
  fs w !! Safe.DEFAULT_METADATA_FILE = Some (JsonPivot modes_key (r :: rs)) →
  modes_key ≠ "modes" →
  ∃ w', Safe.main args w = (Raise (KeyError "modes"), w') ∧
    fs w' = fs w ∧
    pvcs (k8s w') =
      if Safe.dry_run args then pvcs (k8s w) else delete (r_old_name r) (pvcs (k8s w)).
Proof.
  intros Hrec Hfile Hkey. unfold Safe.main. rewrite Hrec. cbv zeta. cbn [negb].
  rewrite run_os_path_exists, Hfile, bool_decide_eq_true_2 by (by eexists). cbn [negb].
  rewrite run_read_file, Hfile. cbn [for_each].
  destruct (Safe_recreate_record_foreign (Safe.namespace args) (Safe.target_sc args) modes_key
              (Safe.dry_run args) r w Hkey) as (w' & Hrun & Hfs & Hpvcs).
  rewrite !bind_run, Hrun. by exists w'.
Qed.

Lemma Safe_phase_two_foreign_ledger_witness :
  fs after_basic_phase1 !! Safe.DEFAULT_METADATA_FILE
    = Some (JsonPivot "access_modes" [pivot_record ("data-pvc", data_pvc)]) ∧
  pvcs (k8s after_basic_phase1) !! "data-pvc" = Some data_pvc ∧
  ∃ w', Safe.main safe_phase2 after_basic_phase1 = (Raise (KeyError "modes"), w') ∧
    fs w' = fs after_basic_phase1 ∧
    pvcs (k8s w') = delete "data-pvc" (pvcs (k8s after_basic_phase1)).
Proof.
  split; [by vm_compute |]. split; [by vm_compute |].
  apply (Safe_phase_two_foreign_ledger safe_phase2 after_basic_phase1 "access_modes"
           (pivot_record ("data-pvc", data_pvc)) []); by vm_compute.
Defined.

(** ** What a run leaves alone *)

Section Evolves.

Context {X : Type} (R : relation X) `{!PreOrder R} (part : cluster → X) (P : event → bool).

Global Instance evolves_preorder : PreOrder (evolves R part P).
Proof.
  split.
  - intros w. split; [reflexivity | exists []; split; [by rewrite app_nil_r | constructor]].
  - intros w1 w2 w3 [Hk1 (t1 & Ht1 & Hf1)] [Hk2 (t2 & Ht2 & Hf2)].
    split; [by etrans |].
    exists (t1 ++ t2). split; [rewrite Ht2, Ht1, app_assoc; reflexivity | by apply Forall_app].
Qed.

Lemma evolves_emit (e : event) : P e = false → respects (evolves R part P) (emit e).
Proof.
  intros He w. split; [reflexivity |]. exists [e]. split; [reflexivity | by constructor].
Qed.

Lemma evolves_modify (f : world → world) :
  (∀ w, k8s (f w) = k8s w) → (∀ w, trace (f w) = trace w) →
  respects (evolves R part P) (modify f).
Proof.
  intros Hk Ht w. split; [simpl; by rewrite Hk |].
  exists []. split; [simpl; rewrite app_nil_r; apply Ht | constructor].
Qed.

Lemma evolves_k8s (g : cluster → cluster) :
  (∀ c, R (part c) (part (g c))) → respects (evolves R part P) (modify (with_k8s g)).
Proof.
  intros Hg w. split; [apply Hg |]. exists []. split; [by rewrite app_nil_r | constructor].
Qed.

End Evolves.

Create HintDb evolves discriminated.

#[export] Hint Extern 1 (respects (evolves _ _ _) (emit _)) =>
  apply evolves_emit; first [reflexivity | apply _] : evolves.
#[export] Hint Extern 1 (respects (evolves _ _ _) (print _)) =>
  apply evolves_emit; first [reflexivity | apply _] : evolves.
#[export] Hint Extern 1 (respects (evolves _ _ _) (time_sleep _)) =>
  apply evolves_emit; first [reflexivity | apply _] : evolves.
#[export] Hint Extern 1 (respects (evolves _ _ _) (modify (with_k8s _))) =>
  apply evolves_k8s; first [apply _ | intros ?; reflexivity] : evolves.
#[export] Hint Extern 2 (respects (evolves _ _ _) (modify _)) =>
  apply evolves_modify; first [reflexivity | apply _] : evolves.

(** The handler of the safe [create_pvc]. *)
Lemma respects_on_conflict {A} (R : relation world) (e : exn) (a b : M A) :
  respects R a → respects R b →
  respects R (match e with ApiException 409 => a | _ => b end).
Proof.
  intros Ha Hb. destruct e as [n| | | | |]; try exact Hb.
  do 409 (destruct n as [|n]; [exact Hb |]). destruct n; [exact Ha | exact Hb].
Qed.

(** Closes [respects (evolves R part P) m] for a program built from steps
    that leave the part alone and emit no event of [P]. *)
Ltac evolves :=
  unfold write_file, append_file, os_remove, read_file, os_path_exists, patch_in;
  repeat first [ solve [auto with evolves]
               | lazymatch goal with
                 | |- respects _ (match ?e with ApiException _ => _ | _ => _ end) =>
                     is_var e; apply respects_on_conflict
                 end
               | respects_step ].

Lemma evolves_create_claim (P : event → bool) (ns name : string) (body : pvc_spec) :
  P (Api (create_namespaced_persistent_volume_claim name body)) = false →
  respects (evolves (⊆) pvcs P) (v1.create_namespaced_persistent_volume_claim ns name body).
Proof.
  intros HP w. rewrite run_create_claim. cbv zeta.
  destruct (pvcs (k8s w) !! name) eqn:Hname; (split; [| eexists; split; [reflexivity |]]);
    simpl; try done; try by constructor.
  by apply insert_subseteq.
Qed.

#[export] Hint Extern 1
  (respects (evolves _ _ _) (v1.create_namespaced_persistent_volume_claim _ _ _)) =>
  apply evolves_create_claim; reflexivity : evolves.

Lemma All_copy_deletes_no_claim (ns src dst prefix : string) (dry_run : bool) :
  respects deletes_no_claim (All.copy_data_with_pod ns src dst prefix dry_run).
Proof.
  unfold All.copy_data_with_pod, v1.create_namespaced_pod, v1.read_namespaced_pod,
    v1.delete_namespaced_pod.
  cbv zeta. evolves.
Qed.

Lemma All_phase_one_deletes_no_claim (args : All.Args) :
  respects deletes_no_claim (All.phase_one args).
Proof.
  unfold All.phase_one, All.list_pvcs_in_storageclass, All.pivot_to_temp, All.create_pvc,
    v1.list_namespaced_persistent_volume_claim.
  cbv zeta. pose proof All_copy_deletes_no_claim. evolves.
Qed.

Lemma deletes_no_claim_spec (w w' : world) :
  deletes_no_claim w w' →
  claims_grow w w' ∧
  ∃ calls, trace w' = trace w ++ calls ∧ Forall (λ e, is_claim_delete e = false) calls.
Proof.
  intros [Hsub Htrace]. split; [| exact Htrace].
  intros k v Hk. by eapply lookup_weaken.
Qed.

Lemma Safe_copy_deletes_no_claim (ns src dst prefix : string) (dry_run : bool) :
  respects deletes_no_claim (Safe.copy_data ns src dst prefix dry_run).
Proof.
  unfold Safe.copy_data, v1.create_namespaced_pod, v1.read_namespaced_pod,
    v1.delete_namespaced_pod.
  cbv zeta. evolves.
Qed.

Lemma Safe_create_pvc_deletes_no_claim (ns name sc size : string) (modes : list string)
    (dry_run : bool) :
  respects deletes_no_claim (Safe.create_pvc ns name sc size modes dry_run).
Proof. unfold Safe.create_pvc. cbv zeta. evolves. Qed.

Lemma Safe_detect_deletes_no_claim (ns : string) (pvc_names : list string) (dry_run : bool) :
  respects deletes_no_claim (Safe.detect_and_scale_down ns pvc_names dry_run).
Proof.
  unfold Safe.detect_and_scale_down.
  unfold apps_v1.list_namespaced_deployment, apps_v1.list_namespaced_stateful_set,
    apps_v1.list_namespaced_replica_set, apps_v1.list_namespaced_daemon_set,
    batch_v1.list_namespaced_cron_job, batch_v1.list_namespaced_job,
    apps_v1.patch_namespaced_deployment_scale, apps_v1.patch_namespaced_replica_set_scale,
    apps_v1.patch_namespaced_stateful_set_scale, apps_v1.patch_namespaced_daemon_set,
    batch_v1.patch_namespaced_cron_job, batch_v1.delete_namespaced_job.
  cbv beta iota zeta delta [when]. evolves.
Qed.

#[export] Hint Resolve All_copy_deletes_no_claim Safe_copy_deletes_no_claim
  Safe_create_pvc_deletes_no_claim Safe_detect_deletes_no_claim : evolves.

Lemma Safe_phase_one_deletes_no_claim (args : Safe.Args) :
  Safe.recreate args = false → respects deletes_no_claim (Safe.main args).
Proof.
  intros Hrec. unfold Safe.main, Safe.list_pvcs, Safe.pivot_to_temp,
    v1.list_namespaced_persistent_volume_claim.
  rewrite Hrec. cbv beta iota zeta delta [negb]. evolves.
Qed.

(** X12. Phase 1 deletes nothing.  In both pivot scripts, whatever the
    flags and however the run ends (it returns, an exception escapes, a
    wait never ends), every claim of the namespace is still there with the
    spec it had, and no call to delete a claim has been issued. *)
Theorem phase_one_deletes_no_claim (w : world) :
  (∀ args, All.recreate args = false →
     claims_grow w (All.main args w).2 ∧
     ∃ calls, trace (All.main args w).2 = trace w ++ calls ∧
       Forall (λ e, is_claim_delete e = false) calls) ∧
  (∀ args, Safe.recreate args = false →
     claims_grow w (Safe.main args w).2 ∧
     ∃ calls, trace (Safe.main args w).2 = trace w ++ calls ∧
       Forall (λ e, is_claim_delete e = false) calls).
Proof.
  split; intros args Hrec; apply deletes_no_claim_spec.
  - unfold All.main. rewrite Hrec. apply All_phase_one_deletes_no_claim.
  - by apply Safe_phase_one_deletes_no_claim.
Qed.

Lemma phase_one_deletes_no_claim_witness :
  let w := first_copy_fails in
  pvcs (k8s w) !! "data-pvc" = Some data_pvc ∧
  pvcs (k8s (All.main basic_phase1 w).2) !! "data-pvc" = Some data_pvc ∧
  pvcs (k8s (Safe.main safe_phase1 w).2) !! "data-pvc" = Some data_pvc.
Proof.
  intros w.
  destruct (proj1 (phase_one_deletes_no_claim w) basic_phase1 eq_refl) as [Hbasic _].
  destruct (proj2 (phase_one_deletes_no_claim w) safe_phase1 eq_refl) as [Hsafe _].
  assert (pvcs (k8s w) !! "data-pvc" = Some data_pvc) as Hdata by (by vm_compute).
  split; [exact Hdata |]. split.
  - exact (Hbasic "data-pvc" data_pvc Hdata).
  - exact (Hsafe "data-pvc" data_pvc Hdata).
Defined.

(** X13. Phase 2 of the basic variant with --preserve-temp deletes
    nothing: however the run ends, every claim that was there is still
    there with the spec it had, the temporary ones included, and no call to
    delete a claim has been issued. *)
Theorem preserve_temp_deletes_no_claim (args : All.Args) (w : world) :
  All.recreate args = true → All.preserve_temp args = true →
  claims_grow w (All.main args w).2 ∧
  ∃ calls, trace (All.main args w).2 = trace w ++ calls ∧
    Forall (λ e, is_claim_delete e = false) calls.
Proof.
  intros Hrec Hkeep. apply deletes_no_claim_spec. revert w.
  change (respects deletes_no_claim (All.main args)).
  unfold All.main, All.phase_two, All.recreate_entry, All.create_pvc.
  rewrite Hrec, Hkeep. cbv beta iota zeta delta [negb]. evolves.
Qed.

Lemma preserve_temp_deletes_no_claim_witness :
  let args := All.mkArgs "old-sc" "new-sc" "prod" true All.DEFAULT_METADATA_FILE false true in
  let w := after_basic_phase1 in
  pvcs (k8s w) !! "data-pvc-temp" = Some (pivoted "new-sc" data_pvc) ∧
  pvcs (k8s (All.main args w).2) !! "data-pvc-temp" = Some (pivoted "new-sc" data_pvc).
Proof.
  intros args w.
  destruct (preserve_temp_deletes_no_claim args w eq_refl eq_refl) as [Hgrow _].
  assert (pvcs (k8s w) !! "data-pvc-temp" = Some (pivoted "new-sc" data_pvc)) as Htemp
    by (by vm_compute).
  split; [exact Htemp | exact (Hgrow _ _ Htemp)].
Defined.

(** *** moveStorage.py *)

Section MoveStorageEvolves.

Context {X : Type} (R : relation X) `{!PreOrder R} (part : cluster → X) (P : event → bool).
Context (HP_reads : ∀ e, mutation e = false → P e = false).
Context (Hpods : ∀ f c, R (part c) (part (with_pods f c))).
Context (Hsnapshots : ∀ f c, R (part c) (part (with_snapshots f c))).

Local Hint Extern 1 (respects (evolves _ _ _) (emit _)) =>
  apply evolves_emit; first [apply _ | apply HP_reads; reflexivity] : evolves.
Local Hint Extern 1 (respects (evolves _ _ _) (print _)) =>
  apply evolves_emit; first [apply _ | apply HP_reads; reflexivity] : evolves.
Local Hint Extern 1 (respects (evolves _ _ _) (time_sleep _)) =>
  apply evolves_emit; first [apply _ | apply HP_reads; reflexivity] : evolves.
Local Hint Extern 1 (respects (evolves _ _ _) (modify (with_k8s (with_pods _)))) =>
  apply evolves_k8s; first [apply _ | intros ?; apply Hpods] : evolves.
Local Hint Extern 1 (respects (evolves _ _ _) (modify (with_k8s (with_snapshots _)))) =>
  apply evolves_k8s; first [apply _ | intros ?; apply Hsnapshots] : evolves.

Context (HP_pod : ∀ name body, P (Api (create_namespaced_pod name body)) = false).
Context (HP_pod_delete : ∀ name, P (Api (delete_namespaced_pod name)) = false).
Context (HP_snapshot : ∀ name body, P (Api (create_namespaced_custom_object name body)) = false).

Lemma MoveStorage_module_init_evolves : respects (evolves R part P) MoveStorage.module_init.
Proof.
  unfold MoveStorage.module_init, write_file. evolves.
Qed.

Lemma MoveStorage_get_snapshot_class_evolves (sc : string) :
  respects (evolves R part P) (MoveStorage.get_snapshot_class_for_storage_class sc).
Proof.
  unfold MoveStorage.get_snapshot_class_for_storage_class,
    custom_api.list_cluster_custom_object.
  evolves.
Qed.

Lemma MoveStorage_create_volume_snapshot_evolves (ns pvc_name cls : string) (dry_run : bool) :
  respects (evolves R part P) (MoveStorage.create_volume_snapshot ns pvc_name cls dry_run).
Proof.
  unfold MoveStorage.create_volume_snapshot, MoveStorage.report_snapshots_used,
    custom_api.create_namespaced_custom_object, custom_api.get_namespaced_custom_object.
  cbv zeta. evolves. apply evolves_emit; first [apply _ | apply HP_snapshot].
Qed.

Lemma MoveStorage_create_pivot_pod_evolves (ns src dst : string) (dry_run : bool) :
  respects (evolves R part P) (MoveStorage.create_pivot_pod ns src dst dry_run).
Proof.
  unfold MoveStorage.create_pivot_pod, MoveStorage.report_pivot_pods,
    v1.create_namespaced_pod, v1.read_namespaced_pod, v1.delete_namespaced_pod.
  cbv zeta. evolves.
  - apply evolves_emit; first [apply _ | apply HP_pod].
  - apply evolves_emit; first [apply _ | apply HP_pod_delete].
Qed.

Lemma MoveStorage_export_pod_manifest_evolves (pod : string * pod) (new_pvc_name : string) :
  respects (evolves R part P) (MoveStorage.export_pod_manifest pod new_pvc_name).
Proof.
  unfold MoveStorage.export_pod_manifest, MoveStorage.report_pod_manifests.
  cbv beta iota zeta. evolves.
Qed.

End MoveStorageEvolves.

Lemma reads_delete_no_claim (e : event) : mutation e = false → is_claim_delete e = false.
Proof. by destruct e as [[]| | | | |]. Qed.

Lemma reads_touch_no_workload (e : event) : mutation e = false → is_workload_call e = false.
Proof. by destruct e as [[]| | | | |]. Qed.

#[export] Hint Extern 1 (respects deletes_no_claim (MoveStorage.module_init)) =>
  apply MoveStorage_module_init_evolves; first [apply _ | apply reads_delete_no_claim]
  : evolves.
#[export] Hint Extern 1
  (respects deletes_no_claim (MoveStorage.get_snapshot_class_for_storage_class _)) =>
  apply MoveStorage_get_snapshot_class_evolves; first [apply _ | apply reads_delete_no_claim]
  : evolves.
#[export] Hint Extern 1
  (respects deletes_no_claim (MoveStorage.create_volume_snapshot _ _ _ _)) =>
  apply MoveStorage_create_volume_snapshot_evolves;
  first [apply _ | apply reads_delete_no_claim | reflexivity] : evolves.
#[export] Hint Extern 1 (respects deletes_no_claim (MoveStorage.create_pivot_pod _ _ _ _)) =>
  apply MoveStorage_create_pivot_pod_evolves;
  first [apply _ | apply reads_delete_no_claim | reflexivity] : evolves.
#[export] Hint Extern 1 (respects deletes_no_claim (MoveStorage.export_pod_manifest _ _)) =>
  apply MoveStorage_export_pod_manifest_evolves;
  first [apply _ | apply reads_delete_no_claim] : evolves.

#[export] Hint Extern 1 (respects touches_no_workload (MoveStorage.module_init)) =>
  apply MoveStorage_module_init_evolves; first [apply _ | apply reads_touch_no_workload]
  : evolves.
#[export] Hint Extern 1
  (respects touches_no_workload (MoveStorage.get_snapshot_class_for_storage_class _)) =>
  apply MoveStorage_get_snapshot_class_evolves;
  first [apply _ | apply reads_touch_no_workload] : evolves.
#[export] Hint Extern 1
  (respects touches_no_workload (MoveStorage.create_volume_snapshot _ _ _ _)) =>
  apply MoveStorage_create_volume_snapshot_evolves;
  first [apply _ | apply reads_touch_no_workload | reflexivity] : evolves.
#[export] Hint Extern 1
  (respects touches_no_workload (MoveStorage.create_pivot_pod _ _ _ _)) =>
  apply MoveStorage_create_pivot_pod_evolves;
  first [apply _ | apply reads_touch_no_workload | reflexivity] : evolves.

Lemma MoveStorage_create_new_pvc_deletes_no_claim (old_pvc : PVC) (target ns : string)
    (dry_run : bool) (snapshot_name : option string) :
  respects deletes_no_claim
    (MoveStorage.create_new_pvc old_pvc target ns dry_run snapshot_name).
Proof.
  unfold MoveStorage.create_new_pvc, MoveStorage.report_new_pvcs. cbv zeta. evolves.
Qed.

Lemma MoveStorage_patch_volumes_deletes_no_claim (kind : string)
    (patch_func : string → string → patch → M unit)
    (ns old_pvc_name new_pvc_name : string) (dry_run : bool) (name : string)
    (st : workload * bool) :
  (∀ n s b, respects deletes_no_claim (patch_func n s b)) →
  respects deletes_no_claim
    (MoveStorage.patch_volumes kind patch_func ns old_pvc_name new_pvc_name dry_run name st).
Proof.
  intros Hpatch.
  unfold MoveStorage.patch_volumes, MoveStorage.report_workloads_patched.
  cbv beta iota zeta. evolves.
Qed.

Lemma MoveStorage_patch_templates_deletes_no_claim
    (patch_func : string → string → patch → M unit)
    (ns : string) (old_sc : option string) (new_pvc_name : string) (dry_run : bool)
    (name : string) (st : workload * bool) :
  (∀ n s b, respects deletes_no_claim (patch_func n s b)) →
  respects deletes_no_claim
    (MoveStorage.patch_templates patch_func ns old_sc new_pvc_name dry_run name st).
Proof.
  intros Hpatch.
  unfold MoveStorage.patch_templates, MoveStorage.report_workloads_patched.
  cbv beta iota zeta. evolves.
Qed.

Lemma MoveStorage_patch_workload_deletes_no_claim (ns : string) (old_pvc : PVC)
    (new_pvc_name : string) (dry_run export_pods : bool) :
  respects deletes_no_claim
    (MoveStorage.patch_workload_using_pvc ns old_pvc new_pvc_name dry_run export_pods).
Proof.
  unfold MoveStorage.patch_workload_using_pvc, MoveStorage.report_workloads_patched,
    v1.list_namespaced_pod.
  cbv beta iota zeta delta [negb when].
  respects_step; [| evolves].
  apply respects_for_fold_in; [apply _ |]. intros found [[kind list_func] patch_func] Hin.
  repeat (apply elem_of_cons in Hin as [[= -> -> ->] | Hin]);
    [ unfold apps_v1.list_namespaced_deployment, apps_v1.list_namespaced_stateful_set,
        apps_v1.list_namespaced_daemon_set;
      evolves;
      first [ apply MoveStorage_patch_volumes_deletes_no_claim
            | apply MoveStorage_patch_templates_deletes_no_claim ];
      intros; unfold apps_v1.patch_namespaced_deployment,
        apps_v1.patch_namespaced_stateful_set, apps_v1.patch_namespaced_daemon_set;
      evolves .. |].
  by apply elem_of_nil in Hin.
Qed.

#[export] Hint Resolve MoveStorage_create_new_pvc_deletes_no_claim
  MoveStorage_patch_workload_deletes_no_claim : evolves.

Lemma MoveStorage_migrate_deletes_no_claim (args : MoveStorage.Args) (pvc : PVC) :
  MoveStorage.delete_pvc args = false ∨ MoveStorage.copy_only args = true →
  respects deletes_no_claim (MoveStorage.migrate_pvc args pvc).
Proof.
  intros Hflags.
  unfold MoveStorage.migrate_pvc, MoveStorage.report_pvcs_found, MoveStorage.delete_old_pvc.
  cbv beta iota zeta.
  destruct Hflags as [-> | ->]; cbv beta iota zeta delta [negb]; evolves.
Qed.

Lemma MoveStorage_main_deletes_no_claim (args : MoveStorage.Args) :
  MoveStorage.delete_pvc args = false ∨ MoveStorage.copy_only args = true →
  respects deletes_no_claim (MoveStorage.main args).
Proof.
  intros Hflags. pose proof (MoveStorage_migrate_deletes_no_claim args) as Hmigrate.
  unfold MoveStorage.main, MoveStorage.get_pvcs_by_storage_class,
    v1.list_namespaced_persistent_volume_claim.
  cbv beta iota zeta. evolves.
Qed.

(** X14. moveStorage.py deletes a claim only when asked to: without
    --delete-pvc, or with --copy-only, however the run ends, every claim
    that was there is still there with the spec it had, and no call to
    delete a claim has been issued. *)
Theorem move_storage_deletes_no_claim (args : MoveStorage.Args) (w : world) :
  MoveStorage.delete_pvc args = false ∨ MoveStorage.copy_only args = true →
  claims_grow w (MoveStorage.script args w).2 ∧
  ∃ calls, trace (MoveStorage.script args w).2 = trace w ++ calls ∧
    Forall (λ e, is_claim_delete e = false) calls.
Proof.
  intros Hflags. apply deletes_no_claim_spec. revert w.
  change (respects deletes_no_claim (MoveStorage.script args)).
  pose proof (MoveStorage_main_deletes_no_claim args Hflags) as Hmain.
  unfold MoveStorage.script. evolves.
Qed.

Lemma move_storage_deletes_no_claim_witness :
  let args := MoveStorage.mkArgs "old-sc" "new-sc" "prod" false false false false false in
  let w := world_of data_cluster [Running; Succeeded] in
  pvcs (k8s w) !! "data-pvc" = Some data_pvc ∧
  pvcs (k8s (MoveStorage.script args w).2) !! "data-pvc" = Some data_pvc.
Proof.
  intros args w.
  destruct (move_storage_deletes_no_claim args w (or_introl eq_refl)) as [Hgrow _].
  assert (pvcs (k8s w) !! "data-pvc" = Some data_pvc) as Hdata by (by vm_compute).
  split; [exact Hdata | exact (Hgrow _ _ Hdata)].
Defined.

(** *** Controllers *)

Lemma All_main_touches_no_workload (args : All.Args) :
  respects touches_no_workload (All.main args).
Proof.
  unfold All.main, All.phase_one, All.phase_two, All.list_pvcs_in_storageclass,
    All.pivot_to_temp, All.recreate_entry, All.create_pvc, All.copy_data_with_pod,
    v1.list_namespaced_persistent_volume_claim, v1.create_namespaced_persistent_volume_claim,
    v1.delete_namespaced_persistent_volume_claim,
    v1.create_namespaced_pod, v1.read_namespaced_pod, v1.delete_namespaced_pod.
  cbv beta iota zeta delta [negb]. evolves.
Qed.

Lemma Safe_phase_one_touches_no_workload (args : Safe.Args) :
  Safe.recreate args = false → Safe.set_replica_0 args = false →
  respects touches_no_workload (Safe.main args).
Proof.
  intros Hrec Hset.
  unfold Safe.main, Safe.list_pvcs, Safe.pivot_to_temp, Safe.create_pvc, Safe.copy_data,
    v1.list_namespaced_persistent_volume_claim, v1.create_namespaced_persistent_volume_claim,
    v1.create_namespaced_pod, v1.read_namespaced_pod, v1.delete_namespaced_pod.
  rewrite Hrec, Hset. cbv beta iota zeta delta [negb when]. evolves.
Qed.

Lemma MoveStorage_copy_only_touches_no_workload (args : MoveStorage.Args) :
  MoveStorage.copy_only args = true →
  respects touches_no_workload (MoveStorage.script args).
Proof.
  intros Hcopy.
  unfold MoveStorage.script, MoveStorage.main, MoveStorage.get_pvcs_by_storage_class,
    MoveStorage.migrate_pvc, MoveStorage.report_pvcs_found, MoveStorage.create_new_pvc,
    MoveStorage.report_new_pvcs,
    v1.list_namespaced_persistent_volume_claim, v1.create_namespaced_persistent_volume_claim.
  rewrite Hcopy. cbv beta iota zeta. evolves.
Qed.

(** X15. The runs that leave the controllers alone: the basic pivot script
    in both phases, phase 1 of the safe one without --set-replica-0, and
    moveStorage.py with --copy-only.  However such a run ends, the
    Deployments, StatefulSets, ReplicaSets, DaemonSets, CronJobs and Jobs of
    the namespace are as they were, and no call that patches or deletes one
    has been issued. *)
Theorem controllers_left_alone (i : invocation) (w : world) :
  leaves_workloads i = true →
  workloads (k8s (run i w).2) = workloads (k8s w) ∧
  ∃ calls, trace (run i w).2 = trace w ++ calls ∧
    Forall (λ e, is_workload_call e = false) calls.
Proof.
  intros Hi.
  assert (respects touches_no_workload (run i)) as Hrun.
  { destruct i as [args | args | args]; simpl in Hi |- *.
    - apply All_main_touches_no_workload.
    - apply andb_true_iff in Hi as [Hrec Hset]. apply negb_true_iff in Hrec, Hset.
      by apply Safe_phase_one_touches_no_workload.
    - by apply MoveStorage_copy_only_touches_no_workload. }
  destruct (Hrun w) as [Heq Htrace]. split; [by rewrite Heq | exact Htrace].
Qed.

Lemma controllers_left_alone_witness :
  let i := RunMoveStorage
             (MoveStorage.mkArgs "old-sc" "new-sc" "prod" false false false false true) in
  let w := world_of web_cluster [Running; Succeeded] in
  (run i w).1 = Return tt ∧
  workloads (k8s (run i w).2) = workloads (k8s w).
Proof.
  intros i w. split; [by vm_compute |].
  by destruct (controllers_left_alone i w eq_refl) as [Heq _].
Defined.

(** ** What the quiescence step leaves alone *)






(** ** Quiescence comes first *)

Lemma quiet_then {A B} (P Q : event → bool) (m : M A) (f : A → M B) (w : world) :
  respects (quiet P) m → (∀ a, respects (quiet Q) (f a)) →
  ∃ before after, trace ((m ≫= f) w).2 = trace w ++ before ++ after ∧
    Forall (λ e, P e = false) before ∧ Forall (λ e, Q e = false) after.
Proof.
  intros Hm Hf. rewrite bind_run. destruct (Hm w) as [_ (t1 & Ht1 & HP)].
  destruct (m w) as [[a|e|] w1]; simpl in Ht1.
  - destruct (Hf a w1) as [_ (t2 & Ht2 & HQ)]. exists t1, t2.
    split; [by rewrite Ht2, Ht1, app_assoc | done].
  - exists t1, []. rewrite app_nil_r. by repeat split.
  - exists t1, []. rewrite app_nil_r. by repeat split.
Qed.

(** X17. In phase 1 of the safe variant the quiescence step comes before
    the copies: however the run ends, every call that patches or deletes a
    controller has been issued before the first call that creates a claim
    or starts a pod. *)
Theorem quiescence_before_copies (args : Safe.Args) (w : world) :
  Safe.recreate args = false →
  ∃ before after, trace (Safe.main args w).2 = trace w ++ before ++ after ∧
    Forall (λ e, is_copy_call e = false) before ∧
    Forall (λ e, is_workload_call e = false) after.
Proof.
  intros Hrec. unfold Safe.main. rewrite Hrec. cbv zeta. cbn [negb].
  unfold Safe.list_pvcs. rewrite bind_run, run_list_pvcs.
  unfold mret at 1, M_ret at 1.
  set (w0 := with_trace _ w).
  destruct (filter _ (items (pvcs (k8s w)))) as [|p ps].
  { exists [Api list_namespaced_persistent_volume_claim;
             Stdout ("[!] No PVCs found in SC '" +:+ Safe.origin_sc args +:+ "'")], [].
    split; [| by repeat constructor].
    unfold print. rewrite run_emit. unfold w0. simpl. by rewrite <- app_assoc. }
  set (found := p :: ps).
  destruct (quiet_then is_copy_call is_workload_call
    (when (Safe.set_replica_0 args)
       (print "[=] Scaling workloads using these PVCs to 0 before starting...";;
        Safe.detect_and_scale_down (Safe.namespace args) ((λ p : PVC, p.1) <$> found)
          (Safe.dry_run args);;
        mret tt))
    (λ _, metadata ← for_fold found []
            (Safe.pivot_to_temp (Safe.namespace args) (Safe.target_sc args) (Safe.dry_run args));
          when (negb (Safe.dry_run args))
            (write_file Safe.DEFAULT_METADATA_FILE (JsonPivot "modes" metadata);;
             print "[~] Phase 1 complete. Delete old PVCs and run with --recreate")) w0)
    as (before & after & Htrace & Hbefore & Hafter).
  - unfold Safe.detect_and_scale_down.
    unfold apps_v1.list_namespaced_deployment, apps_v1.list_namespaced_stateful_set,
      apps_v1.list_namespaced_replica_set, apps_v1.list_namespaced_daemon_set,
      batch_v1.list_namespaced_cron_job, batch_v1.list_namespaced_job,
      apps_v1.patch_namespaced_deployment_scale, apps_v1.patch_namespaced_replica_set_scale,
      apps_v1.patch_namespaced_stateful_set_scale, apps_v1.patch_namespaced_daemon_set,
      batch_v1.patch_namespaced_cron_job, batch_v1.delete_namespaced_job.
    cbv beta iota zeta delta [when]. evolves.
  - intros _. unfold Safe.pivot_to_temp, Safe.create_pvc, Safe.copy_data,
      v1.create_namespaced_persistent_volume_claim,
      v1.create_namespaced_pod, v1.read_namespaced_pod, v1.delete_namespaced_pod.
    cbv beta iota zeta delta [when]. evolves.
  - exists (Api list_namespaced_persistent_volume_claim :: before), after.
    split; [| split; [by constructor | exact Hafter]].
    etrans; [exact Htrace |]. unfold w0. simpl. by rewrite <- app_assoc.
Qed.

Lemma quiescence_before_copies_witness :
  let args := Safe.mkArgs "old-sc" "new-sc" "prod" false false true in
  let w := world_of web_cluster [Running; Succeeded] in
  ∃ before after, trace (Safe.main args w).2 = trace w ++ before ++ after ∧
    Forall (λ e, is_copy_call e = false) before ∧
    Forall (λ e, is_workload_call e = false) after.
Proof.
  intros args w. apply (quiescence_before_copies args w). reflexivity.
Defined.

(** ** What moveStorage.py creates *)

Lemma for_each_establishes {A} (R : relation world) `{!PreOrder R} (Q : world → Prop)
    (xs : list A) (body : A → M unit) (x : A) (w w' : world) :
  (∀ y, respects R (body y)) →
  (∀ w1 w2, Q w1 → R w1 w2 → Q w2) →
  (∀ w1 w2, body x w1 = (Return tt, w2) → Q w2) →
  x ∈ xs → for_each xs body w = (Return tt, w') → Q w'.
Proof.
  intros Hbody Hstable Hx. revert w. induction xs as [|y ys IH]; intros w Hin Hrun.
  - by apply elem_of_nil in Hin.
  - simpl in Hrun. apply bind_Return_inv in Hrun as ([] & w1 & Hy & Hrun).
    apply elem_of_cons in Hin as [<- | Hin]; [| by eapply IH].
    apply (Hstable w1); [by eapply Hx |].
    pose proof (respects_for_each R ys body Hbody w1) as Hrest. by rewrite Hrun in Hrest.
Qed.

Lemma MoveStorage_create_new_pvc_returns (pvc : PVC) (target ns : string)
    (source : option string) (name : string) (w w' : world) :
  MoveStorage.create_new_pvc pvc target ns false source w = (Return name, w') →
  name = new_claim_name target pvc ∧
  pvcs (k8s w') !! name
    = Some (new_claim target pvc (if truthy source then source else None)).
Proof.
  unfold MoveStorage.create_new_pvc. cbv zeta. rewrite bind_run, run_create_claim. cbv zeta.
  destruct (pvcs (k8s w) !! _); [discriminate |].
  rewrite print_then. intros [= <- <-]. split; [reflexivity |]. simpl.
  rewrite lookup_insert_eq. by destruct (truthy source).
Qed.

Lemma MoveStorage_migrate_creates (args : MoveStorage.Args) (pvc : PVC) (w w' : world) :
  MoveStorage.dry_run args = false →
  MoveStorage.delete_pvc args = false ∨ MoveStorage.copy_only args = true →
  MoveStorage.migrate_pvc args pvc w = (Return tt, w') →
  ∃ source, pvcs (k8s w') !! new_claim_name (MoveStorage.target args) pvc
              = Some (new_claim (MoveStorage.target args) pvc source) ∧
    (MoveStorage.prefer_snapshot args = false → source = None).
Proof.
  intros Hdry Hflags. unfold MoveStorage.migrate_pvc. cbv zeta. rewrite Hdry.
  rewrite print_then. intros Hrun.
  apply bind_Return_inv in Hrun as ([] & w1 & _ & Hrun).
  apply bind_Return_inv in Hrun as (source & w2 & Hsource & Hrun).
  apply bind_Return_inv in Hrun as (name & w3 & Hcreate & Hrun).
  apply MoveStorage_create_new_pvc_returns in Hcreate as [-> Hnew].
  exists (if truthy source then source else None). split.
  - assert (respects deletes_no_claim
      (when (negb (truthy source))
         (MoveStorage.create_pivot_pod (MoveStorage.namespace args) pvc.1
            (new_claim_name (MoveStorage.target args) pvc) false);;
       if MoveStorage.copy_only args
       then print "[~] Skipping workload patching and PVC deletion due to --copy-only."
       else
         MoveStorage.patch_workload_using_pvc (MoveStorage.namespace args) pvc
           (new_claim_name (MoveStorage.target args) pvc) false
           (MoveStorage.export_pods args);;
         MoveStorage.delete_old_pvc (MoveStorage.namespace args) pvc.1 false
           (MoveStorage.delete_pvc args))) as Hrest.
    { unfold MoveStorage.delete_old_pvc.
      destruct Hflags as [-> | ->]; cbv beta iota zeta delta [negb]; evolves. }
    specialize (Hrest w3). rewrite Hrun in Hrest.
    apply deletes_no_claim_spec in Hrest as [Hgrow _]. by apply Hgrow.
  - intros Hprefer. rewrite Hprefer in Hsource. by injection Hsource as <- _.
Qed.

(** X18. What moveStorage.py creates.  After a run that is not a dry run
    and returns, without --delete-pvc or with --copy-only: for every claim
    found in the origin class, the claim <name>-<target class, cleaned> is
    in the target class with the same size and access modes (cut from a
    snapshot only if snapshots were preferred), and the original claim is
    still there, unchanged. *)
Theorem move_storage_creates_claims (args : MoveStorage.Args) (pvc : PVC) (w w' : world) :
  MoveStorage.dry_run args = false →
  MoveStorage.delete_pvc args = false ∨ MoveStorage.copy_only args = true →
  pvc ∈ discovered (MoveStorage.origin args) w →
  MoveStorage.main args w = (Return tt, w') →
  pvcs (k8s w') !! pvc.1 = Some pvc.2 ∧
  ∃ source, pvcs (k8s w') !! new_claim_name (MoveStorage.target args) pvc
              = Some (new_claim (MoveStorage.target args) pvc source) ∧
    (MoveStorage.prefer_snapshot args = false → source = None).
Proof.
  intros Hdry Hflags Hin Hrun. split.
  - pose proof (MoveStorage_main_deletes_no_claim args Hflags w) as Hmain.
    rewrite Hrun in Hmain. apply deletes_no_claim_spec in Hmain as [Hgrow _].
    apply Hgrow. destruct pvc as [name spec]. by apply elem_of_discovered in Hin as [? _].
  - revert Hrun. unfold MoveStorage.main, MoveStorage.get_pvcs_by_storage_class. cbv zeta.
    rewrite print_then, bind_run, run_list_pvcs. unfold mret at 1, M_ret at 1.
    cbn [k8s with_trace]. fold (discovered (MoveStorage.origin args) w).
    destruct (discovered (MoveStorage.origin args) w) as [|p ps] eqn:Hfound;
      [by apply elem_of_nil in Hin |].
    rewrite Hdry. intros Hrun.
    apply bind_Return_inv in Hrun as ([] & w1 & Hloop & Hdone).
    cbv iota in Hdone. injection Hdone as <-. cbn [k8s with_trace].
    eapply (for_each_establishes deletes_no_claim
              (λ w, ∃ source, pvcs (k8s w) !! new_claim_name (MoveStorage.target args) pvc
                      = Some (new_claim (MoveStorage.target args) pvc source) ∧
                    (MoveStorage.prefer_snapshot args = false → source = None)));
      [| | | exact Hin | exact Hloop].
    + intros y. by apply MoveStorage_migrate_deletes_no_claim.
    + intros w2 w3 (source & Hnew & Hsource) [Hgrow _]%deletes_no_claim_spec.
      exists source. split; [by apply Hgrow | exact Hsource].
    + intros w2 w3. by apply MoveStorage_migrate_creates.
Qed.

Lemma move_storage_creates_claims_witness :
  let args := MoveStorage.mkArgs "old-sc" "new-sc" "prod" false false false false false in
  let pvc := ("data-pvc", data_pvc) in
  let w := world_of data_cluster [Running; Succeeded] in
  let w' := (MoveStorage.main args w).2 in
  pvcs (k8s w') !! "data-pvc" = Some data_pvc ∧
  ∃ source, pvcs (k8s w') !! new_claim_name "new-sc" pvc
              = Some (new_claim "new-sc" pvc source) ∧
    (MoveStorage.prefer_snapshot args = false → source = None).
Proof.
  intros args pvc w w'.
  apply (move_storage_creates_claims args pvc w w');
    [reflexivity | left; reflexivity | apply elem_of_discovered; by vm_compute
    | by vm_compute].
Defined.

(** ** A dry run of the quiescence step *)


(** ** A dry run of the quiescence step *)

Lemma for_fold_predicts real dry (xs : list Workload_item)
    (b b' : list (string * ScaleEntry)) (w w' wd : world) :
  predicts real dry →
  for_fold xs b real w = (Return b', w') →
  ∃ wd', for_fold xs b dry wd = (Return b', wd') ∧ k8s wd' = k8s wd ∧ fs wd' = fs wd.
Proof.
  intros Hstep. revert b w wd. induction xs as [|x xs IH]; intros b w wd Hrun.
  - injection Hrun as <- _. by exists wd.
  - simpl in Hrun. apply bind_Return_inv in Hrun as (b1 & w1 & Hx & Hrun).
    destruct (Hstep _ _ _ _ _ Hx wd) as (wd1 & Hdx & Hk1 & Hf1).
    destruct (IH _ _ wd1 Hrun) as (wd' & Hd & Hk & Hf).
    exists wd'. split; [| split; congruence].
    simpl. by rewrite bind_run, Hdx.
Qed.

Lemma run_list_then {A V} (e : event) (proj : cluster → gmap string V)
    (k : list (string * V) → M A) (w : world) :
  ((emit e;; gets (λ w, items (proj (k8s w)))) ≫= k) w
  = k (items (proj (k8s w))) (with_trace (λ t, t ++ [e]) w).
Proof. reflexivity. Qed.

Ltac predicts_start :=
  let H := fresh "H" in
  intros ? item ? ? ? H ?; cbv beta iota in H |- *;
  lazymatch type of H with
  | context [if ?c then _ else _] =>
      destruct c eqn:?; [| injection H as <- _; by eexists]
  end;
  rewrite print_then in H |- *.

Ltac predicts_end H :=
  apply bind_Return_inv in H as ([] & ? & _ & [= <- _]);
  eexists; split; [reflexivity | done].

Ltac predicts_scale H :=
  lazymatch type of H with
  | context [when (0 <? ?n) _] =>
      destruct (0 <? n) eqn:?; unfold when in H |- *; cbv iota in H |- *; predicts_end H
  end.

(** One loop of the scan, in the real run [Hrun] and in the dry run of the
    goal; [tac] shows that the dry round predicts the real one. *)
Ltac predict_loop Hrun Hk Hf tac :=
  let Hloop := fresh "Hloop" in
  let Hd := fresh "Hd" in
  let Hk' := fresh "Hk" in
  let Hf' := fresh "Hf" in
  apply bind_Return_inv in Hrun as (? & ? & Hloop & Hrun);
  rewrite bind_run;
  lazymatch type of Hloop with
  | for_fold ?xs ?b ?real _ = _ =>
      lazymatch goal with
      | |- context [for_fold xs b ?dry ?wd0] =>
          let Hp := fresh "Hp" in
          assert (predicts real dry) as Hp;
          [ tac
          | destruct (for_fold_predicts real dry xs b _ _ _ wd0 Hp Hloop)
              as (? & Hd & Hk' & Hf');
            rewrite Hd; rewrite Hk in Hk'; rewrite Hf in Hf';
            clear Hp Hloop Hd Hk Hf; rename Hk' into Hk; rename Hf' into Hf ]
      end
  end.

(** X19. A dry run of the quiescence step predicts the real one: when the
    real step returns a backup, the dry run from the same cluster returns
    the same backup, and leaves the cluster and the files as they were. *)
Theorem dry_run_predicts_backup (ns : string) (pvc_names : list string) (w w1 wd : world)
    (backup : list (string * ScaleEntry)) :
  Safe.detect_and_scale_down ns pvc_names false w = (Return backup, w1) →
  k8s wd = k8s w →
  ∃ wd', Safe.detect_and_scale_down ns pvc_names true wd = (Return backup, wd') ∧
    k8s wd' = k8s wd ∧ fs wd' = fs wd.
Proof.
  unfold Safe.detect_and_scale_down. intros Hrun Hsame.
  unfold apps_v1.list_namespaced_deployment, apps_v1.list_namespaced_stateful_set,
    apps_v1.list_namespaced_replica_set, apps_v1.list_namespaced_daemon_set,
    batch_v1.list_namespaced_cron_job, batch_v1.list_namespaced_job in Hrun |- *.
  rewrite !run_list_then in Hrun. rewrite !run_list_then.
  cbn [k8s fs with_trace] in Hrun |- *. rewrite Hsame.
  lazymatch goal with
  | |- context [(for_fold (items (deployments (k8s w))) _ _ ≫= _) ?wd0] =>
      assert (k8s wd0 = k8s w) as Hk by exact Hsame;
      assert (fs wd0 = fs wd) as Hf by reflexivity
  end.
  predict_loop Hrun Hk Hf
    ltac:(predicts_start; destruct (replicas item.2) as [n|]; [| discriminate];
          predicts_scale H).
  predict_loop Hrun Hk Hf ltac:(predicts_start; cbv zeta in H |- *; predicts_scale H).
  predict_loop Hrun Hk Hf
    ltac:(predicts_start; destruct (replicas item.2) as [n|]; [| discriminate];
          predicts_scale H).
  predict_loop Hrun Hk Hf ltac:(predicts_start; cbv zeta in H; predicts_end H).
  predict_loop Hrun Hk Hf ltac:(predicts_start; predicts_end H).
  predict_loop Hrun Hk Hf ltac:(predicts_start; predicts_end H).
  injection Hrun as <- _. eexists. split; [reflexivity |]. by split.
Qed.

Lemma dry_run_predicts_backup_witness :
  let w := world_of web_cluster [] in
  ∃ wd', Safe.detect_and_scale_down "prod" ["data-pvc"] true w
         = (Return [("uid-web", ("Deployment", "web", VInt 3));
                    ("uid-nightly", ("Job", "nightly", VStr "deleted"))], wd') ∧
    k8s wd' = k8s w ∧ fs wd' = fs w.
Proof.
  intros w.
  apply (dry_run_predicts_backup "prod" ["data-pvc"] w
           (Safe.detect_and_scale_down "prod" ["data-pvc"] false w).2 w);
    [by vm_compute | reflexivity].
Defined.

(** ** CronJobs and DaemonSets through quiescence and restore *)

Lemma quiesced_invariant (Z : cluster → Prop) (k : kind) (item : Workload_item)
    (ts : list (kind * Workload_item)) (c : cluster) :
  k ≠ Job →
  (∀ k' item' c, Z c → Z (quiesce k' item' c)) →
  (∀ c, is_Some (store k c !! item.1) → Z (quiesce k item c)) →
  is_Some (store k c !! item.1) →
  (k, item) ∈ ts ∨ Z c →
  Z (foldl quiesce_target c ts).
Proof.
  intros Hk Hkeep Hset. revert c. induction ts as [|t ts IH]; intros c Hc Hin.
  - destruct Hin as [Hin | Hin]; [by apply elem_of_nil in Hin | done].
  - simpl. apply IH; [by apply store_quiesce_is_Some |].
    rewrite elem_of_cons in Hin. destruct Hin as [[<- | Hin] | Hin]; [right | by left | right].
    + by apply Hset.
    + by apply Hkeep.
Qed.

Lemma restore_loop_invariant (Z : cluster → Prop) (ns : string) (c0 : cluster)
    (k : kind) (item : Workload_item) (es : list (string * ScaleEntry)) (w w' : world) :
  k ≠ Job →
  (∀ k' item' c, Z c → Z (restore_target k' item' c)) →
  (∀ c, is_Some (store k c !! item.1) → Z (restore_target k item c)) →
  Forall (justified c0) es →
  (∀ k name, k ≠ Job → is_Some (store k c0 !! name) → is_Some (store k (k8s w) !! name)) →
  listed c0 (k, item) →
  entry_of k item ∈ es ∨ Z (k8s w) →
  for_each es (Safe.restore_entry ns false) w = (Return tt, w') →
  Z (k8s w').
Proof.
  intros Hk Hkeep Hset Hes. revert w.
  induction Hes as [|e es He Hes IH]; intros w Hdom Hitem Hin Hrun.
  - injection Hrun as <-. destruct Hin as [Hin | Hin]; [by apply elem_of_nil in Hin | done].
  - destruct He as (k' & item' & Hlisted & ->).
    destruct (run_restore_entry ns k' item' w) as (w1 & more & Hstep & Hk1 & _).
    { intros Hk'. apply Hdom; [done |]. by eexists. }
    cbn [for_each] in Hrun. rewrite bind_run, Hstep in Hrun.
    apply (IH w1); [| exact Hitem | | exact Hrun].
    + intros k0 name Hk0 Hsome. rewrite Hk1. apply store_restore_is_Some. by apply Hdom.
    + rewrite elem_of_cons in Hin. destruct Hin as [[Heq | Hin] | Hin]; [right | by left | right].
      * rewrite Hk1. injection Heq as _ Hkind Hname _. apply kind_name_inj in Hkind as <-.
        assert (item' = item) as ->.
        { unfold listed in Hitem, Hlisted. cbn [fst snd] in Hitem, Hlisted.
          rewrite Hname, Hlisted in Hitem. destruct item, item'. simpl in *. congruence. }
        apply Hset. apply Hdom; [done | by eexists].
      * rewrite Hk1. by apply Hkeep.
Qed.

Lemma quiesce_keeps_field {X} (f : workload → X) (v : X) (k k' : kind) (name : string)
    (item : Workload_item) (c : cluster) :
  (∀ o, store k' c !! item.1 = Some o → k' = k → name = item.1 → f o = v →
        f <$> store k (quiesce k' item c) !! name = Some v) →
  has_field f k name v c → has_field f k name v (quiesce k' item c).
Proof.
  intros Hsame. unfold has_field.
  destruct (decide (k' = k ∧ name = item.1)) as [[-> ->] | Hne].
  - destruct (store k c !! item.1) as [o|] eqn:Ho; [| discriminate]. intros [= Hv].
    by apply (Hsame o).
  - rewrite store_quiesce_other; [done |].
    destruct (decide (k = k')); [right | left]; naive_solver.
Qed.

Lemma restore_keeps_field {X} (f : workload → X) (v : X) (k k' : kind) (name : string)
    (item : Workload_item) (c : cluster) :
  (∀ o, store k' c !! item.1 = Some o → k' = k → name = item.1 → f o = v →
        f <$> store k (restore_target k' item c) !! name = Some v) →
  has_field f k name v c → has_field f k name v (restore_target k' item c).
Proof.
  intros Hsame. unfold has_field.
  destruct (decide (k' = k ∧ name = item.1)) as [[-> ->] | Hne].
  - destruct (store k c !! item.1) as [o|] eqn:Ho; [| discriminate]. intros [= Hv].
    by apply (Hsame o).
  - rewrite store_restore_other; [done |].
    destruct (decide (k = k')); [right | left]; naive_solver.
Qed.

Lemma quiesce_suspends (k' : kind) (item' : Workload_item) (name : string) (c : cluster) :
  has_field suspend CronJob name (Some true) c →
  has_field suspend CronJob name (Some true) (quiesce k' item' c).
Proof.
  apply quiesce_keeps_field. intros o Ho -> -> Hv. unfold quiesce.
  rewrite store_with_store, decide_True by done. by rewrite lookup_alter_eq, Ho.
Qed.

Lemma quiesce_pauses (k' : kind) (item' : Workload_item) (name : string) (c : cluster) :
  has_field node_selector DaemonSet name (Some migration_paused) c →
  has_field node_selector DaemonSet name (Some migration_paused) (quiesce k' item' c).
Proof.
  apply quiesce_keeps_field. intros o Ho -> -> Hv. unfold quiesce.
  rewrite store_with_store, decide_True by done. by rewrite lookup_alter_eq, Ho.
Qed.

Lemma restore_resumes (k' : kind) (item' : Workload_item) (name : string) (c : cluster) :
  has_field suspend CronJob name (Some false) c →
  has_field suspend CronJob name (Some false) (restore_target k' item' c).
Proof.
  apply restore_keeps_field. intros o Ho -> -> Hv. unfold restore_target.
  rewrite store_with_store, decide_True by done. by rewrite lookup_alter_eq, Ho.
Qed.

Lemma restore_unpauses (k' : kind) (item' : Workload_item) (name : string) (c : cluster) :
  has_field node_selector DaemonSet name None c →
  has_field node_selector DaemonSet name None (restore_target k' item' c).
Proof.
  apply restore_keeps_field. intros o Ho -> -> Hv. unfold restore_target.
  rewrite store_with_store, decide_True by done. by rewrite lookup_alter_eq, Ho.
Qed.

(** X20. CronJobs and DaemonSets through quiescence and restore, under the
    conditions of the symmetry of the scalable kinds (distinct uids; the
    restore pass starts from the controllers and the scale-state file the
    quiescence step left).  Every CronJob that mounts one of the claims is
    suspended after the quiescence step and not suspended after the restore
    pass; every such DaemonSet has the node selector migration-paused=true
    after the quiescence step and no node selector after the restore pass.
    What they were before the migration plays no part. *)
Theorem restore_of_cron_jobs_and_daemon_sets (ns : string) (pvc_names : list string)
    (w w1 w1' : world) (backup : list (string * ScaleEntry)) :
  uids_distinct (k8s w) →
  Safe.detect_and_scale_down ns pvc_names false w = (Return backup, w1) →
  workloads_kept w1 w1' →
  fs w1' !! Safe.SCALE_TRACK_FILE = fs w1 !! Safe.SCALE_TRACK_FILE →
  ∃ w2, Safe.scale_back_up ns false w1' = (Return tt, w2) ∧
    (∀ item, store CronJob (k8s w) !! item.1 = Some item.2 →
       affected CronJob pvc_names item = true →
       has_field suspend CronJob item.1 (Some true) (k8s w1) ∧
       has_field suspend CronJob item.1 (Some false) (k8s w2)) ∧
    (∀ item, store DaemonSet (k8s w) !! item.1 = Some item.2 →
       affected DaemonSet pvc_names item = true →
       has_field node_selector DaemonSet item.1 (Some migration_paused) (k8s w1) ∧
       has_field node_selector DaemonSet item.1 None (k8s w2)).
Proof.
  intros Huid Hrun Hkept Hfile.
  apply Safe_detect_returns in Hrun as (Hb & Hk & Hf).
  pose proof (targets_listed pvc_names (k8s w)) as Hts.
  assert (Forall (justified (k8s w)) backup) as Hjust.
  { rewrite Hb. by apply backup_justified. }
  rewrite Hf, lookup_insert_eq in Hfile.
  assert (∀ k name, k ≠ Job → is_Some (store k (k8s w) !! name) →
            is_Some (store k (k8s w1') !! name)) as Hdom.
  { intros k name Hjob Hsome. rewrite Hkept, Hk. by apply quiesced_is_Some. }
  destruct (restore_loop ns (k8s w) backup w1' Hjust Hdom) as (w' & Hloop & Hfs & _).
  destruct (run_scale_back_up ns backup w1' w' Hfile Hloop Hfs) as (w2 & Hback & Hk2 & _).
  exists w2. split; [exact Hback |]. rewrite Hk2, Hk. split.
  - intros item Hitem Haff.
    assert ((CronJob, item) ∈ targets pvc_names (k8s w)) as Hin by (by apply elem_of_targets).
    split.
    + apply (quiesced_invariant _ CronJob item); [done | | | by eexists | by left].
      * intros k' item' c. apply quiesce_suspends.
      * intros c [o Ho]. unfold has_field, quiesce.
        rewrite store_with_store, decide_True by done. by rewrite lookup_alter_eq, Ho.
    + apply (restore_loop_invariant _ ns (k8s w) CronJob item backup w1' w');
        [done | | | exact Hjust | exact Hdom | exact Hitem | | exact Hloop].
      * intros k' item' c. apply restore_resumes.
      * intros c [o Ho]. unfold has_field, restore_target.
        rewrite store_with_store, decide_True by done. by rewrite lookup_alter_eq, Ho.
      * left. rewrite Hb.
        apply (backup_records (k8s w) (CronJob, item)); [done | done | done | by right].
  - intros item Hitem Haff.
    assert ((DaemonSet, item) ∈ targets pvc_names (k8s w)) as Hin by (by apply elem_of_targets).
    split.
    + apply (quiesced_invariant _ DaemonSet item); [done | | | by eexists | by left].
      * intros k' item' c. apply quiesce_pauses.
      * intros c [o Ho]. unfold has_field, quiesce.
        rewrite store_with_store, decide_True by done. by rewrite lookup_alter_eq, Ho.
    + apply (restore_loop_invariant _ ns (k8s w) DaemonSet item backup w1' w');
        [done | | | exact Hjust | exact Hdom | exact Hitem | | exact Hloop].
      * intros k' item' c. apply restore_unpauses.
      * intros c [o Ho]. unfold has_field, restore_target.
        rewrite store_with_store, decide_True by done. by rewrite lookup_alter_eq, Ho.
      * left. rewrite Hb.
        apply (backup_records (k8s w) (DaemonSet, item)); [done | done | done | by right].
Qed.

Lemma restore_of_cron_jobs_and_daemon_sets_witness :
  let w := world_of batch_cluster [] in
  let r := Safe.detect_and_scale_down "prod" ["data-pvc"] false w in
  ∃ w2, Safe.scale_back_up "prod" false r.2 = (Return tt, w2) ∧
    (∀ item, store CronJob (k8s w) !! item.1 = Some item.2 →
       affected CronJob ["data-pvc"] item = true →
       has_field suspend CronJob item.1 (Some true) (k8s r.2) ∧
       has_field suspend CronJob item.1 (Some false) (k8s w2)) ∧
    (∀ item, store DaemonSet (k8s w) !! item.1 = Some item.2 →
       affected DaemonSet ["data-pvc"] item = true →
       has_field node_selector DaemonSet item.1 (Some migration_paused) (k8s r.2) ∧
       has_field node_selector DaemonSet item.1 None (k8s w2)).
Proof.
  intros w r.
  apply (restore_of_cron_jobs_and_daemon_sets "prod" ["data-pvc"] w r.2 r.2
           [("uid-agent", ("DaemonSet", "agent", VStr "patched"));
            ("uid-report", ("CronJob", "report", VBool true))]).
  - apply (bool_decide_unpack _). by vm_compute.
  - by vm_compute.
  - intros k. reflexivity.
  - reflexivity.
Defined.

(** ** Dry runs and files *)

Lemma All_main_dry_files (args : All.Args) :
  All.dry_run args = true → respects files_untouched (All.main args).
Proof.
  intros Hdry.
  unfold All.main, All.phase_one, All.phase_two, All.list_pvcs_in_storageclass,
    All.pivot_to_temp, All.recreate_entry, All.create_pvc, All.copy_data_with_pod,
    v1.list_namespaced_persistent_volume_claim, os_path_exists, read_file.
  rewrite Hdry. cbv beta iota zeta delta [negb andb when]. files_untouched.
Qed.

Lemma Safe_main_dry_files (args : Safe.Args) :
  Safe.dry_run args = true → respects files_untouched (Safe.main args).
Proof.
  intros Hdry.
  unfold Safe.main, Safe.list_pvcs, Safe.pivot_to_temp, Safe.recreate_record,
    Safe.create_pvc, Safe.copy_data, Safe.detect_and_scale_down, Safe.scale_back_up,
    v1.list_namespaced_persistent_volume_claim, os_path_exists, read_file.
  unfold apps_v1.list_namespaced_deployment, apps_v1.list_namespaced_stateful_set,
    apps_v1.list_namespaced_replica_set, apps_v1.list_namespaced_daemon_set,
    batch_v1.list_namespaced_cron_job, batch_v1.list_namespaced_job.
  rewrite Hdry. cbv beta iota zeta delta [negb andb when].
  pose proof (Safe_restore_entry_files (Safe.namespace args) true) as Hrestore.
  files_untouched.
Qed.

(** X21. A dry run of either pivot script touches no file: however the run
    ends, the files are as they were (no ledger and no scale-state file is
    written or removed) and no write, append or remove has been issued. *)
Theorem pivot_dry_run_touches_no_file (w : world) :
  (∀ args, All.dry_run args = true →
     fs (All.main args w).2 = fs w ∧
     ∃ calls, trace (All.main args w).2 = trace w ++ calls ∧
       Forall (λ e, is_file_event e = false) calls) ∧
  (∀ args, Safe.dry_run args = true →
     fs (Safe.main args w).2 = fs w ∧
     ∃ calls, trace (Safe.main args w).2 = trace w ++ calls ∧
       Forall (λ e, is_file_event e = false) calls).
Proof.
  split; intros args Hdry.
  - by apply All_main_dry_files.
  - by apply Safe_main_dry_files.
Qed.

Lemma pivot_dry_run_touches_no_file_witness :
  let w := empty_ledger_world in
  let args := Safe.mkArgs "old-sc" "new-sc" "prod" true true false in
  (Safe.main args w).1 = Return tt ∧ fs (Safe.main args w).2 = fs w.
Proof.
  intros w args. split; [by vm_compute |].
  by destruct (proj2 (pivot_dry_run_touches_no_file w) args eq_refl) as [Hfs _].
Defined.

(** ** The snapshot path *)

(** X22. A snapshot that has no status yet stops the run: when the snapshot
    API is served, the name <pvc>-snap is free and the first look at the new
    snapshot shows no status, create_volume_snapshot ends with
    KeyError('status'); the snapshot it created is left in the cluster and
    nothing else is changed. *)
Theorem snapshot_without_status (ns pvc_name cls : string) (w : world)
    (classes : list snapshot_class) (later : list snap_obs) :
  snapshot_classes (k8s w) = Some classes →
  snapshots (k8s w) !! (pvc_name +:+ "-snap") = None →
  csi w (pvc_name +:+ "-snap") = NoStatus :: later →
  ∃ w', MoveStorage.create_volume_snapshot ns pvc_name cls false w
          = (Raise (KeyError "status"), w') ∧
    snapshots (k8s w') = <[pvc_name +:+ "-snap" := Snapshot cls pvc_name later]> (snapshots (k8s w)) ∧
    pvcs (k8s w') = pvcs (k8s w) ∧ pods (k8s w') = pods (k8s w) ∧ fs w' = fs w.
Proof.
  intros Hserved Hfree Hlife.
  unfold MoveStorage.create_volume_snapshot, custom_api.create_namespaced_custom_object.
  cbv zeta. set (name := pvc_name +:+ "-snap") in *.
  rewrite !bind_run, run_emit, !bind_run. unfold gets at 1. cbn [k8s with_trace].
  rewrite Hfree. rewrite bind_run. unfold gets at 1. cbn [k8s with_trace]. rewrite Hserved.
  rewrite bind_run. unfold gets at 1. cbn [csi with_trace]. rewrite Hlife.
  unfold modify at 1. rewrite print_then. rewrite bind_run. unfold gets at 1.
  unfold snapshot_polls. cbn [k8s with_trace with_k8s snapshots with_snapshots].
  rewrite lookup_insert_eq. cbn [snap_status length while_true].
  unfold custom_api.get_namespaced_custom_object.
  rewrite !bind_run, run_emit, !bind_run. unfold gets at 1.
  cbn [k8s with_trace with_k8s snapshots with_snapshots]. rewrite lookup_insert_eq.
  eexists. split; [reflexivity |]. cbn. rewrite insert_insert_eq. by repeat split.
Qed.

Lemma snapshot_without_status_witness :
  let w := slow_snapshot_world in
  ∃ w', MoveStorage.create_volume_snapshot "prod" "data-pvc" "csi-snapclass" false w
          = (Raise (KeyError "status"), w') ∧
    snapshots (k8s w') !! "data-pvc-snap"
      = Some (Snapshot "csi-snapclass" "data-pvc" [ReadyToUse (Some true)]) ∧
    MoveStorage.script prefer_snapshot_args w
      = (Raise (KeyError "status"), (MoveStorage.script prefer_snapshot_args w).2).
Proof.
  intros w.
  destruct (snapshot_without_status "prod" "data-pvc" "csi-snapclass" w
              [SnapshotClass "csi-snapclass" (Some "Delete") (Some "old-sc.csi.example.com")]
              [ReadyToUse (Some true)] eq_refl eq_refl eq_refl)
    as (w' & Hrun & Hsnap & _).
  exists w'. split; [exact Hrun |]. split; [| by vm_compute].
  rewrite Hsnap. apply lookup_insert_eq.
Defined.

(** X23. The probe for a snapshot class answers the first class of the
    listing that has the deletion policy Delete and whose driver contains
    the name of the storage class; it answers None when the listing has no
    such class, and when the listing fails.  It never raises, and it leaves
    the cluster and the files alone. *)
Theorem snapshot_class_probe (storage_class : string) (w : world) :
  ∃ found w', MoveStorage.get_snapshot_class_for_storage_class storage_class w
                = (Return found, w') ∧
    k8s w' = k8s w ∧ fs w' = fs w ∧
    match snapshot_classes (k8s w), found with
    | Some classes, Some name =>
        ∃ before sc after, classes = before ++ sc :: after ∧ sc_name sc = name ∧
          usable storage_class sc = true ∧
          Forall (λ sc', usable storage_class sc' = false) before
    | Some classes, None => Forall (λ sc, usable storage_class sc = false) classes
    | None, found => found = None
    end.
Proof.
  destruct (MoveStorage_probe_answers storage_class w) as (w' & Hrun & Hk & Hf & _).
  exists (usable_class storage_class (k8s w)), w'. split; [exact Hrun |].
  split; [exact Hk |]. split; [exact Hf |].
  unfold usable_class. destruct (snapshot_classes (k8s w)) as [classes|]; [| reflexivity].
  induction classes as [|sc classes IH]; simpl; [constructor |].
  fold (usable storage_class sc). destruct (usable storage_class sc) eqn:Hsc.
  - exists [], sc, classes. by repeat split.
  - destruct (MoveStorage.first_usable_class storage_class classes) as [name|].
    + destruct IH as (before & sc' & after & -> & Hname & Husable & Hbefore).
      exists (sc :: before), sc', after. repeat split; try done. by constructor.
    + by constructor.
Qed.

(** ** The dry run of moveStorage.py *)

Lemma passes_ret {A} (a : A) : passes (mret a).
Proof. intros w. by exists a, w. Qed.

Lemma passes_gets {A} (f : world → A) : passes (gets f).
Proof. intros w. by exists (f w), w. Qed.

Lemma passes_modify (f : world → world) :
  (∀ w, k8s (f w) = k8s w) → (∀ w, summary (report (f w)) = summary (report w)) →
  passes (modify f).
Proof. intros Hk Hr w. exists tt, (f w). by repeat split. Qed.

Lemma passes_emit (e : event) : passes (emit e).
Proof. by apply passes_modify. Qed.

Lemma passes_bind {A B} (m : M A) (f : A → M B) :
  passes m → (∀ a, passes (f a)) → passes (m ≫= f).
Proof.
  intros Hm Hf w. destruct (Hm w) as (a & w1 & Hrun & Hk1 & Hr1).
  destruct (Hf a w1) as (b & w2 & Hrun' & Hk2 & Hr2).
  exists b, w2. rewrite bind_run, Hrun. split; [exact Hrun' |]. split; congruence.
Qed.

Lemma passes_when (b : bool) (m : M unit) : passes m → passes (when b m).
Proof. intros Hm. destruct b; [exact Hm | apply passes_ret]. Qed.

Lemma passes_for_fold_in {A S} (xs : list A) (s : S) (body : S → A → M S) :
  (∀ s x, x ∈ xs → passes (body s x)) → passes (for_fold xs s body).
Proof.
  revert s. induction xs as [|x xs IH]; intros s Hb; simpl.
  - apply passes_ret.
  - apply passes_bind; [apply Hb; left | intros s'; apply IH].
    intros s'' y Hy. apply Hb. by right.
Qed.

Lemma passes_for_fold {A S} (xs : list A) (s : S) (body : S → A → M S) :
  (∀ s x, passes (body s x)) → passes (for_fold xs s body).
Proof. intros Hb. apply passes_for_fold_in. intros s' x _. apply Hb. Qed.

Create HintDb passes discriminated.

#[export] Hint Resolve passes_emit : passes.
#[export] Hint Extern 1 (passes (print _)) => apply passes_emit : passes.
#[export] Hint Extern 1 (passes (time_sleep _)) => apply passes_emit : passes.
#[export] Hint Extern 1 (passes (modify _)) =>
  apply passes_modify; intros ?; reflexivity : passes.

(** One structural step of a proof of [passes]. *)
Ltac passes_step :=
  lazymatch goal with
  | |- passes (mbind _ _) => apply passes_bind; [| intros ?; cbv beta]
  | |- passes (mret _) => apply passes_ret
  | |- passes (gets _) => apply passes_gets
  | |- passes (when _ _) => apply passes_when
  | |- passes (for_fold _ _ _) => apply passes_for_fold; intros ? ?; cbv beta
  | |- passes (if ?b then _ else _) => destruct b
  | |- passes (match ?x with _ => _ end) => destruct x
  | |- passes (match ?x with _ => _ end _) => destruct x; cbv beta iota
  end.

Ltac passes :=
  unfold write_file, append_file;
  repeat first [ solve [auto with passes] | passes_step ].

Lemma MoveStorage_probe_passes (origin : string) :
  passes (MoveStorage.get_snapshot_class_for_storage_class origin).
Proof.
  intros w. destruct (MoveStorage_probe_answers origin w) as (w' & Hrun & Hk & _ & _ & _ & _ & Hr).
  eexists _, w'. split; [exact Hrun |]. split; [exact Hk |]. by rewrite Hr.
Qed.

Lemma MoveStorage_export_passes (pod : string * pod) (new_pvc_name : string) (vs : list volume) :
  pod_volumes pod.2 = Some vs → passes (MoveStorage.export_pod_manifest pod new_pvc_name).
Proof.
  intros Hvs. unfold MoveStorage.export_pod_manifest, MoveStorage.report_pod_manifests.
  rewrite Hvs. cbv zeta. passes.
Qed.

Lemma MoveStorage_patch_volumes_passes (kind : string)
    (patch_func : string → string → patch → M unit)
    (ns old_pvc_name new_pvc_name name : string) (st : workload * bool) :
  passes (MoveStorage.patch_volumes kind patch_func ns old_pvc_name new_pvc_name true name st).
Proof.
  unfold MoveStorage.patch_volumes, MoveStorage.report_workloads_patched.
  cbv beta iota zeta. passes.
Qed.

Lemma MoveStorage_patch_templates_passes
    (patch_func : string → string → patch → M unit)
    (ns : string) (old_sc : option string) (new_pvc_name name : string) (st : workload * bool) :
  passes (MoveStorage.patch_templates patch_func ns old_sc new_pvc_name true name st).
Proof.
  unfold MoveStorage.patch_templates, MoveStorage.report_workloads_patched.
  cbv beta iota zeta. passes.
Qed.

#[export] Hint Resolve MoveStorage_probe_passes MoveStorage_patch_volumes_passes
  MoveStorage_patch_templates_passes : passes.

Lemma MoveStorage_patch_workload_passes (ns : string) (old_pvc : PVC)
    (new_pvc_name : string) (export_pods : bool) :
  passes (MoveStorage.patch_workload_using_pvc ns old_pvc new_pvc_name true export_pods).
Proof.
  unfold MoveStorage.patch_workload_using_pvc, MoveStorage.report_workloads_patched,
    v1.list_namespaced_pod.
  cbv beta iota zeta delta [negb].
  apply passes_bind.
  { apply passes_for_fold_in. intros found [[kind list_func] patch_func] Hin.
    repeat (apply elem_of_cons in Hin as [[= -> -> ->] | Hin]);
      [ unfold apps_v1.list_namespaced_deployment, apps_v1.list_namespaced_stateful_set,
          apps_v1.list_namespaced_daemon_set; passes .. |].
    by apply elem_of_nil in Hin. }
  intros found. apply passes_bind; [passes |]. intros pods.
  apply passes_bind; [| intros ?; passes].
  apply passes_for_fold. intros found' pod.
  destruct (existsb id _); [apply passes_ret |].
  destruct (pod_volumes pod.2) as [vs|] eqn:Hvs; simpl; [| apply passes_ret].
  destruct (existsb _ vs); [| apply passes_ret].
  pose proof (MoveStorage_export_passes pod new_pvc_name vs Hvs) as Hexport.
  passes.
Qed.

Lemma MoveStorage_delete_old_pvc_passes (ns pvc_name : string) (delete_enabled : bool) :
  passes (MoveStorage.delete_old_pvc ns pvc_name true delete_enabled).
Proof.
  unfold MoveStorage.delete_old_pvc, MoveStorage.report_pvcs_deleted. passes.
Qed.

#[export] Hint Resolve MoveStorage_patch_workload_passes MoveStorage_delete_old_pvc_passes
  : passes.

(** The snapshot a dry run plans for a claim. *)
Lemma MoveStorage_snapshot_planned (args : MoveStorage.Args) (pvc : PVC) (w : world) :
  ∃ w',
    (if MoveStorage.prefer_snapshot args then
       snapshot_class ← MoveStorage.get_snapshot_class_for_storage_class (MoveStorage.origin args);
       if truthy snapshot_class then
         print ("[~] Detected snapshot class '" +:+ py_or snapshot_class EmptyString
                +:+ "'. Creating snapshot.");;
         snapshot_name ← MoveStorage.create_volume_snapshot (MoveStorage.namespace args) pvc.1
                            (py_or snapshot_class EmptyString) true;
         mret (Some snapshot_name)
       else
         print "[!] No usable snapshot class found. Falling back to pivot copy.";;
         mret None
     else mret None) w
    = (Return (if snapshot_planned args (k8s w) then Some (pvc.1 +:+ "-snap") else None), w') ∧
    k8s w' = k8s w ∧ summary (report w') = summary (report w).
Proof.
  unfold snapshot_planned. destruct (MoveStorage.prefer_snapshot args); [| by eexists].
  destruct (MoveStorage_probe_answers (MoveStorage.origin args) w)
    as (w1 & Hprobe & Hk & _ & _ & _ & _ & Hr).
  rewrite bind_run, Hprobe. cbn [andb].
  destruct (truthy (usable_class (MoveStorage.origin args) (k8s w))).
  - unfold MoveStorage.create_volume_snapshot, MoveStorage.report_snapshots_used. cbv zeta.
    eexists. split; [reflexivity |]. simpl. by rewrite Hk, Hr.
  - eexists. split; [reflexivity |]. simpl. by rewrite Hk, Hr.
Qed.

Lemma MoveStorage_create_new_pvc_planned (pvc : PVC) (target ns : string)
    (source : option string) (w : world) :
  ∃ w', MoveStorage.create_new_pvc pvc target ns true source w
          = (Return (new_claim_name target pvc), w') ∧
    k8s w' = k8s w ∧
    summary (report w')
      = ((summary (report w)).1.1, (summary (report w)).1.2 ++ [new_claim_name target pvc],
         (summary (report w)).2).
Proof. eexists. split; [reflexivity |]. by split. Qed.

Lemma MoveStorage_create_pivot_pod_planned (ns src dst : string) (w : world) :
  ∃ w', MoveStorage.create_pivot_pod ns src dst true w = (Return tt, w') ∧
    k8s w' = k8s w ∧
    summary (report w')
      = ((summary (report w)).1.1, (summary (report w)).1.2,
         (summary (report w)).2 ++ [MoveStorage.pivot_pod_name src]).
Proof. eexists. split; [reflexivity |]. by split. Qed.

Lemma MoveStorage_migrate_dry (args : MoveStorage.Args) (pvc : PVC) (w : world) :
  MoveStorage.dry_run args = true →
  ∃ w', MoveStorage.migrate_pvc args pvc w = (Return tt, w') ∧
    k8s w' = k8s w ∧
    summary (report w') = planned args (k8s w) (summary (report w)) pvc.
Proof.
  intros Hdry. unfold MoveStorage.migrate_pvc. cbv zeta. rewrite Hdry.
  rewrite print_then. unfold MoveStorage.report_pvcs_found.
  rewrite bind_run. unfold modify at 1.
  match goal with |- context [mbind _ _ ?w0] => set (w1 := w0) end.
  assert (k8s w1 = k8s w) as Hk1 by reflexivity.
  assert (summary (report w1)
          = ((summary (report w)).1.1 ++ [pvc.1], (summary (report w)).1.2,
             (summary (report w)).2)) as Hr1 by reflexivity.
  clearbody w1.
  destruct (MoveStorage_snapshot_planned args pvc w1) as (w2 & Hsnap & Hk2 & Hr2).
  rewrite bind_run, Hsnap.
  destruct (MoveStorage_create_new_pvc_planned pvc (MoveStorage.target args)
              (MoveStorage.namespace args)
              (if snapshot_planned args (k8s w1) then Some (pvc.1 +:+ "-snap") else None) w2)
    as (w3 & Hnew & Hk3 & Hr3).
  rewrite bind_run, Hnew.
  assert (passes
    (if MoveStorage.copy_only args
     then print "[~] Skipping workload patching and PVC deletion due to --copy-only."
     else
       MoveStorage.patch_workload_using_pvc (MoveStorage.namespace args) pvc
         (new_claim_name (MoveStorage.target args) pvc) true (MoveStorage.export_pods args);;
       MoveStorage.delete_old_pvc (MoveStorage.namespace args) pvc.1 true
         (MoveStorage.delete_pvc args))) as Hrest by passes.
  rewrite bind_run. unfold planned. rewrite Hk1.
  destruct (snapshot_planned args (k8s w)).
  - rewrite truthy_snapshot_name. unfold when. cbn [negb].
    unfold mret at 1, M_ret at 1.
    destruct (Hrest w3) as ([] & w4 & Hrun & Hk4 & Hr4). rewrite Hrun.
    exists w4. split; [reflexivity |]. split; [congruence |].
    rewrite Hr4, Hr3, Hr2, Hr1. simpl. by rewrite app_nil_r.
  - unfold when. cbn [truthy negb].
    destruct (MoveStorage_create_pivot_pod_planned (MoveStorage.namespace args) pvc.1
                (new_claim_name (MoveStorage.target args) pvc) w3)
      as (w4 & Hpod & Hk4 & Hr4).
    rewrite Hpod.
    destruct (Hrest w4) as ([] & w5 & Hrun & Hk5 & Hr5). rewrite Hrun.
    exists w5. split; [reflexivity |]. split; [congruence |].
    rewrite Hr5, Hr4, Hr3, Hr2, Hr1. reflexivity.
Qed.

Lemma elem_of_snoc_here {A} (l : list A) (x : A) : x ∈ l ++ [x].
Proof. apply elem_of_app. right. apply list_elem_of_here. Qed.

Lemma elem_of_snoc_further {A} (l : list A) (x y : A) : x ∈ l → x ∈ l ++ [y].
Proof. intros. apply elem_of_app. by left. Qed.

Lemma foldl_planned (args : MoveStorage.Args) (c : cluster) (ds : list PVC)
    (s : list string * list string * list string) :
  foldl (planned args c) s ds
  = (s.1.1 ++ (dry_plan args c ds).1.1, s.1.2 ++ (dry_plan args c ds).1.2,
     s.2 ++ (dry_plan args c ds).2).
Proof.
  revert s. induction ds as [|p ds IH]; intros [[s1 s2] s3].
  - unfold dry_plan. simpl. destruct (snapshot_planned args c); by rewrite !app_nil_r.
  - simpl. rewrite IH. unfold planned, dry_plan. simpl.
    destruct (snapshot_planned args c); simpl; by rewrite <- !app_assoc.
Qed.

Lemma MoveStorage_loop_dry (args : MoveStorage.Args) (ds : list PVC) (w : world) :
  MoveStorage.dry_run args = true →
  ∃ w', for_each ds (MoveStorage.migrate_pvc args) w = (Return tt, w') ∧
    k8s w' = k8s w ∧
    summary (report w') = foldl (planned args (k8s w)) (summary (report w)) ds.
Proof.
  intros Hdry. revert w. induction ds as [|p ds IH]; intros w.
  - by exists w.
  - destruct (MoveStorage_migrate_dry args p w Hdry) as (w1 & Hp & Hk1 & Hr1).
    destruct (IH w1) as (w2 & Hds & Hk2 & Hr2).
    exists w2. cbn [for_each foldl]. rewrite bind_run, Hp.
    split; [exact Hds |]. split; [congruence |]. by rewrite Hr2, Hk1, Hr1.
Qed.

(** X24. A dry run of moveStorage.py always returns and leaves the cluster
    as it was.  Its report then lists every claim of the origin class once,
    in the order of the listing: its name among the claims found, the name
    <claim>-<cleaned target class> among the new claims, and the pod
    pivot-copy-<claim> among the copy pods unless snapshots are preferred
    and a usable snapshot class is there (then no copy pod at all).  When
    there is such a claim, the summary prints these three counts. *)
Theorem move_storage_dry_run (args : MoveStorage.Args) (w : world) :
  MoveStorage.dry_run args = true →
  let ds := discovered (MoveStorage.origin args) w in
  ∃ w', MoveStorage.script args w = (Return tt, w') ∧
    k8s w' = k8s w ∧
    summary (report w') = dry_plan args (k8s w) ds ∧
    (ds ≠ [] →
       Stdout ("PVCs found:             " +:+ pretty (length ds)) ∈ trace w' ∧
       Stdout ("New PVCs to create:     " +:+ pretty (length ds)) ∈ trace w' ∧
       Stdout ("Pivot pods to launch:   "
               +:+ pretty (if snapshot_planned args (k8s w) then 0 else length ds))
         ∈ trace w').
Proof.
  intros Hdry ds. unfold MoveStorage.script.
  assert (∃ w0, MoveStorage.module_init w = (Return tt, w0) ∧ k8s w0 = k8s w ∧
            summary (report w0) = ([], [], [])) as (w0 & Hinit & Hk0 & Hr0)
    by (by eexists).
  rewrite bind_run, Hinit.
  unfold MoveStorage.main, MoveStorage.get_pvcs_by_storage_class. cbv zeta.
  rewrite print_then, bind_run, run_list_pvcs. unfold mret at 1, M_ret at 1.
  cbn [k8s with_trace]. rewrite Hk0.
  fold (discovered (MoveStorage.origin args) w). fold ds.
  match goal with |- context [_ ?w0 = (Return (), _)] => set (w1 := w0) end.
  assert (k8s w1 = k8s w) as Hk1 by exact Hk0.
  assert (summary (report w1) = ([], [], [])) as Hr1 by exact Hr0.
  clearbody w1.
  destruct ds as [|p ds'] eqn:Hds.
  - eexists. split; [reflexivity |]. split; [done |]. split; [| done].
    unfold dry_plan. simpl. by destruct (snapshot_planned args (k8s w)).
  - rewrite <- Hds.
    destruct (MoveStorage_loop_dry args ds w1 Hdry) as (w2 & Hloop & Hk2 & Hr2).
    rewrite bind_run, Hloop, Hdry.
    rewrite Hr1, Hk1, foldl_planned in Hr2. cbn [fst snd app] in Hr2.
    assert (summary (report w2) = dry_plan args (k8s w) ds) as Hplan
      by (rewrite Hr2; unfold dry_plan; reflexivity).
    clear Hr2. unfold dry_plan in Hplan.
    injection Hplan as Hfound Hnew Hpods.
    rewrite bind_run. unfold gets at 1. cbv beta iota. rewrite !print_then.
    assert (length (pvcs_found (report w2)) = length ds) as ->
      by (by rewrite Hfound, length_fmap).
    assert (length (new_pvcs (report w2)) = length ds) as ->
      by (by rewrite Hnew, length_fmap).
    assert (length (pivot_pods (report w2))
            = if snapshot_planned args (k8s w) then 0 else length ds) as ->
      by (rewrite Hpods; destruct (snapshot_planned args (k8s w));
          [done | by rewrite length_fmap]).
    destruct (MoveStorage.copy_only args).
    all: unfold when; rewrite ?print_then.
    all: eexists; (split; [reflexivity |]).
    all: split; [exact (eq_trans Hk2 Hk1) |].
    all: split; [unfold summary, dry_plan; cbn [report with_trace]; by rewrite Hfound, Hnew, Hpods |].
    all: intros _; cbn [trace with_trace].
    all: repeat split; repeat first [apply elem_of_snoc_here | apply elem_of_snoc_further].
Qed.

Lemma move_storage_dry_run_witness :
  let args := MoveStorage.mkArgs "old-sc" "new_SC" "prod" true false false false false in
  let w := world_of data_cluster [] in
  ∃ w', MoveStorage.script args w = (Return tt, w') ∧
    k8s w' = k8s w ∧
    summary (report w') = (["data-pvc"], ["data-pvc-new-sc"], ["pivot-copy-data-pvc"]) ∧
    Stdout "Pivot pods to launch:   1" ∈ trace w'.
Proof.
  intros args w.
  destruct (move_storage_dry_run args w eq_refl) as (w' & Hrun & Hk & Hr & Hprints).
  exists w'. split; [exact Hrun |]. split; [exact Hk |]. split; [exact Hr |].
  apply Hprints. by vm_compute.
Defined.

(** ** Repointing the controllers in moveStorage.py *)

Lemma with_store_compose (k : kind) (f g : gmap string workload → gmap string workload)
    (c : cluster) :
  with_store k f (with_store k g c) = with_store k (f ∘ g) c.
Proof. by destruct k, c. Qed.

Lemma with_store_insert_id (k : kind) (name : string) (o : workload) (c : cluster) :
  store k c !! name = Some o → with_store k (insert name o) c = c.
Proof.
  intros Ho. destruct k, c; simpl in *; unfold with_deployments, with_replicasets,
    with_statefulsets, with_daemonsets, with_cronjobs, with_jobs; simpl; f_equal;
    by apply insert_id.
Qed.

Lemma for_fold_runs {A S} (I : S → world → Prop) (pure : S → A → S)
    (body : S → A → M S) (xs : list A) :
  (∀ s x w, I s w → ∃ w', body s x w = (Return (pure s x), w') ∧ I (pure s x) w') →
  ∀ s w, I s w →
    ∃ w', for_fold xs s body w = (Return (foldl pure s xs), w') ∧ I (foldl pure s xs) w'.
Proof.
  intros Hstep. induction xs as [|x xs IH]; intros s w HI.
  - by exists w.
  - destruct (Hstep s x w HI) as (w1 & Hx & HI1).
    destruct (IH _ _ HI1) as (w2 & Hxs & HI2).
    exists w2. simpl. by rewrite bind_run, Hx.
Qed.

Lemma with_store_alter_insert (k : kind) (f : workload → workload) (name : string)
    (o : workload) (c : cluster) :
  with_store k (alter f name) (with_store k (insert name o) c)
  = with_store k (insert name (f o)) c.
Proof.
  rewrite with_store_compose.
  destruct k, c; simpl; unfold with_deployments, with_replicasets, with_statefulsets,
    with_daemonsets, with_cronjobs, with_jobs; simpl; f_equal; apply alter_insert_eq.
Qed.

(** A patch with the local copy, when the cluster has an earlier state of
    the copy. *)
Lemma run_patch_synced (k : kind) (patch_func : string → string → patch → M unit)
    (ns name : string) (oc : workload) (c0 : cluster) (st : workload * bool)
    (wl : workload) (w : world) :
  patches k patch_func → synced k name oc c0 st w →
  ∃ w', patch_func name ns (ObjectPatch wl) w = (Return tt, w') ∧
    ∀ u, synced k name oc c0 (wl, u) w'.
Proof.
  intros Hpf Hsync. destruct (Hpf name ns (ObjectPatch wl) w) as [e ->].
  rewrite run_patch_in. cbn [k8s with_trace]. rewrite Hsync.
  rewrite store_with_store, decide_True by done. rewrite lookup_insert_eq.
  cbn [apply_patch]. eexists. split; [reflexivity |]. intros u.
  unfold synced. cbn [k8s with_k8s with_trace fst]. rewrite Hsync.
  by rewrite with_store_alter_insert.
Qed.

Lemma MoveStorage_patch_volumes_runs (k : kind) (kind_name : string)
    (patch_func : string → string → patch → M unit)
    (ns old_pvc_name new_pvc_name name : string) (oc : workload) (c0 : cluster)
    (st : workload * bool) (w : world) :
  patches k patch_func → synced k name oc c0 st w →
  let st' := foldl (volume_step old_pvc_name new_pvc_name) st
               (MoveStorage.enumerate (py_or (volumes st.1) [])) in
  ∃ w', MoveStorage.patch_volumes kind_name patch_func ns old_pvc_name new_pvc_name false
          name st w = (Return st', w') ∧
    synced k name oc c0 st' w'.
Proof.
  intros Hpf Hsync. unfold MoveStorage.patch_volumes. cbv zeta.
  apply (for_fold_runs (synced k name oc c0)); [| exact Hsync].
  clear st w Hsync. intros [wl u] [i vol] w Hsync. unfold volume_step. cbn [fst snd].
  case_bool_decide; [| by exists w].
  destruct (run_patch_synced k patch_func ns name oc c0 (wl, u)
              (MoveStorage.set_claim_name i new_pvc_name wl) w Hpf Hsync) as (w1 & Hrun & Hs1).
  rewrite bind_run, Hrun, print_then. eexists. split; [reflexivity |]. apply Hs1.
Qed.

Lemma MoveStorage_patch_templates_runs (k : kind)
    (patch_func : string → string → patch → M unit)
    (ns : string) (old_sc : option string) (new_pvc_name name : string) (oc : workload)
    (c0 : cluster) (st : workload * bool) (w : world) :
  patches k patch_func → synced k name oc c0 st w →
  let st' := foldl (template_step old_sc new_pvc_name) st
               (MoveStorage.enumerate (py_or (volume_claim_templates st.1) [])) in
  ∃ w', MoveStorage.patch_templates patch_func ns old_sc new_pvc_name false name st w
          = (Return st', w') ∧
    synced k name oc c0 st' w'.
Proof.
  intros Hpf Hsync. unfold MoveStorage.patch_templates. cbv zeta.
  apply (for_fold_runs (synced k name oc c0)); [| exact Hsync].
  clear st w Hsync. intros [wl u] [i vct] w Hsync. unfold template_step. cbn [fst snd].
  case_bool_decide; [| by exists w].
  destruct (run_patch_synced k patch_func ns name oc c0 (wl, u)
              (MoveStorage.set_template_class i new_pvc_name wl) w Hpf Hsync)
    as (w1 & Hrun & Hs1).
  rewrite bind_run, Hrun, print_then. eexists. split; [reflexivity |]. apply Hs1.
Qed.

Lemma volume_steps_from (old_pvc_name new_pvc_name : string) (suf pre : list volume)
    (wl : workload) (u : bool) :
  volumes wl = Some (pre ++ suf) →
  (foldl (volume_step old_pvc_name new_pvc_name) (wl, u)
     (zip (seq (length pre) (length suf)) suf)).1
  = Workload (uid wl) (replicas wl)
      (Some (pre ++ (retarget_volume old_pvc_name new_pvc_name <$> suf)))
      (volume_claim_templates wl) (node_selector wl) (suspend wl).
Proof.
  revert pre wl u. induction suf as [|v suf IH]; intros pre wl u Hvs.
  - destruct wl. simpl in *. by subst.
  - cbn [length seq zip zip_with foldl fmap list_fmap].
    unfold volume_step at 2, retarget_volume at 1. cbn [fst snd].
    replace (S (length pre)) with (length (pre ++ [v])) by (rewrite length_app; simpl; lia).
    case_bool_decide.
    + replace (length (pre ++ [v]))
        with (length (pre ++ [Volume (vol_name v) (Some new_pvc_name) (projected v)]))
        by (by rewrite !length_app).
      rewrite IH.
      * cbn. by rewrite <- app_assoc.
      * unfold MoveStorage.set_claim_name. cbn. rewrite Hvs. cbn.
        rewrite <- (Nat.add_0_r (length pre)), alter_app_r. cbn. by rewrite <- app_assoc.
    + rewrite IH; [by rewrite <- app_assoc | by rewrite <- app_assoc].
Qed.

Lemma volume_steps (old_pvc_name new_pvc_name : string) (st : workload * bool) :
  (foldl (volume_step old_pvc_name new_pvc_name) st
     (MoveStorage.enumerate (py_or (volumes st.1) []))).1
  = Workload (uid st.1) (replicas st.1)
      ((λ vs : list volume, retarget_volume old_pvc_name new_pvc_name <$> vs) <$> volumes st.1)
      (volume_claim_templates st.1) (node_selector st.1) (suspend st.1).
Proof.
  destruct st as [wl u]. cbn [fst]. unfold MoveStorage.enumerate.
  destruct (volumes wl) as [vs|] eqn:Hvs; cbn [py_or default].
  - exact (volume_steps_from old_pvc_name new_pvc_name vs [] wl u Hvs).
  - destruct wl. simpl in *. by subst.
Qed.

Lemma template_steps_from (old_sc : option string) (new_pvc_name : string)
    (suf pre : list claim_template) (wl : workload) (u : bool) :
  volume_claim_templates wl = Some (pre ++ suf) →
  (foldl (template_step old_sc new_pvc_name) (wl, u)
     (zip (seq (length pre) (length suf)) suf)).1
  = Workload (uid wl) (replicas wl) (volumes wl)
      (Some (pre ++ (retarget_template old_sc new_pvc_name <$> suf)))
      (node_selector wl) (suspend wl).
Proof.
  revert pre wl u. induction suf as [|v suf IH]; intros pre wl u Hvs.
  - destruct wl. simpl in *. by subst.
  - cbn [length seq zip zip_with foldl fmap list_fmap].
    unfold template_step at 2, retarget_template at 1. cbn [fst snd].
    replace (S (length pre)) with (length (pre ++ [v])) by (rewrite length_app; simpl; lia).
    case_bool_decide.
    + replace (length (pre ++ [v]))
        with (length (pre ++ [ClaimTemplate (vct_name v) (Some new_pvc_name)]))
        by (by rewrite !length_app).
      rewrite IH.
      * cbn. by rewrite <- app_assoc.
      * unfold MoveStorage.set_template_class. cbn. rewrite Hvs. cbn.
        rewrite <- (Nat.add_0_r (length pre)), alter_app_r. cbn. by rewrite <- app_assoc.
    + rewrite IH; [by rewrite <- app_assoc | by rewrite <- app_assoc].
Qed.

Lemma template_steps (old_sc : option string) (new_pvc_name : string) (st : workload * bool) :
  (foldl (template_step old_sc new_pvc_name) st
     (MoveStorage.enumerate (py_or (volume_claim_templates st.1) []))).1
  = Workload (uid st.1) (replicas st.1) (volumes st.1)
      ((λ vcts : list claim_template, retarget_template old_sc new_pvc_name <$> vcts)
         <$> volume_claim_templates st.1)
      (node_selector st.1) (suspend st.1).
Proof.
  destruct st as [wl u]. cbn [fst]. unfold MoveStorage.enumerate.
  destruct (volume_claim_templates wl) as [vs|] eqn:Hvs; cbn [py_or default].
  - exact (template_steps_from old_sc new_pvc_name vs [] wl u Hvs).
  - destruct wl. simpl in *. by subst.
Qed.

Lemma patched_object_self (o : workload) : patched (ObjectPatch o) o = o.
Proof. by destruct o. Qed.

Lemma synced_start (k : kind) (name : string) (o : workload) (u : bool) (w : world) :
  store k (k8s w) !! name = Some o → synced k name o (k8s w) (o, u) w.
Proof.
  intros Ho. unfold synced. cbn [fst]. rewrite patched_object_self.
  symmetry. by apply with_store_insert_id.
Qed.

Lemma repoints_volumes (k : kind) (kind_name : string)
    (patch_func : string → string → patch → M unit) (ns : string) (old_pvc : PVC)
    (new_pvc_name : string) :
  patches k patch_func → k ≠ StatefulSet →
  repoints k old_pvc new_pvc_name (λ found item,
    st ← MoveStorage.patch_volumes kind_name patch_func ns old_pvc.1 new_pvc_name false
           item.1 (item.2, false);
    mret (if (st.2 : bool) then true else found)).
Proof.
  intros Hpf Hk found [name o] w Hitem. cbn [fst snd] in *.
  destruct (MoveStorage_patch_volumes_runs k kind_name patch_func ns old_pvc.1 new_pvc_name
              name o (k8s w) (o, false) w Hpf (synced_start k name o false w Hitem))
    as (w1 & Hrun & Hs1).
  rewrite bind_run, Hrun. eexists _, _. split; [reflexivity |].
  unfold synced in Hs1. rewrite Hs1, volume_steps. cbn [fst].
  f_equal. unfold retargeted. by destruct k.
Qed.

Lemma repoints_templates_and_volumes (kind_name : string)
    (patch_func : string → string → patch → M unit) (ns : string) (old_pvc : PVC)
    (new_pvc_name : string) :
  patches StatefulSet patch_func →
  repoints StatefulSet old_pvc new_pvc_name (λ found item,
    st ← (st ← MoveStorage.patch_templates patch_func ns (storage_class_name old_pvc.2)
                 new_pvc_name false item.1 (item.2, false);
          MoveStorage.patch_volumes kind_name patch_func ns old_pvc.1 new_pvc_name false
            item.1 st);
    mret (if (st.2 : bool) then true else found)).
Proof.
  intros Hpf found [name o] w Hitem. cbn [fst snd] in *.
  destruct (MoveStorage_patch_templates_runs StatefulSet patch_func ns
              (storage_class_name old_pvc.2) new_pvc_name
              name o (k8s w) (o, false) w Hpf (synced_start _ name o false w Hitem))
    as (w1 & Hrun1 & Hs1).
  destruct (MoveStorage_patch_volumes_runs StatefulSet kind_name patch_func ns old_pvc.1
              new_pvc_name name o (k8s w) _ w1 Hpf Hs1)
    as (w2 & Hrun2 & Hs2).
  rewrite !bind_run, Hrun1, Hrun2. eexists _, _. split; [reflexivity |].
  unfold synced in Hs2. rewrite Hs2, volume_steps, template_steps. reflexivity.
Qed.

Lemma for_fold_repoints (k : kind) (old_pvc : PVC) (new_pvc_name : string)
    (body : bool → Workload_item → M bool) (xs : list Workload_item) (found : bool)
    (w : world) :
  repoints k old_pvc new_pvc_name body →
  NoDup xs.*1 →
  (∀ item, item ∈ xs → store k (k8s w) !! item.1 = Some item.2) →
  ∃ found' w', for_fold xs found body w = (Return found', w') ∧
    k8s w' = foldl (λ c item,
                      with_store k (insert item.1 (retargeted k old_pvc new_pvc_name item.2)) c)
               (k8s w) xs.
Proof.
  intros Hstep. revert found w. induction xs as [|x xs IH]; intros found w Hnd Hxs.
  - by exists found, w.
  - apply NoDup_cons in Hnd as [Hx Hnd].
    destruct (Hstep found x w) as (found1 & w1 & Hrun & Hk1); [apply Hxs; left |].
    destruct (IH found1 w1 Hnd) as (found2 & w2 & Hrest & Hk2).
    { intros y Hy. rewrite Hk1, store_with_store, decide_True by done.
      rewrite lookup_insert_ne; [apply Hxs; by right |].
      intros Heq. apply Hx. rewrite Heq. apply list_elem_of_fmap. by exists y. }
    exists found2, w2. cbn [for_fold foldl]. rewrite bind_run, Hrun.
    split; [exact Hrest |]. by rewrite Hk2, Hk1.
Qed.

Lemma with_store_ext (k : kind) (f g : gmap string workload → gmap string workload)
    (c : cluster) :
  f (store k c) = g (store k c) → with_store k f c = with_store k g c.
Proof.
  destruct k, c; simpl; unfold with_deployments, with_replicasets, with_statefulsets,
    with_daemonsets, with_cronjobs, with_jobs; simpl; by intros ->.
Qed.

Lemma foldl_with_store_insert (k : kind) (r : workload → workload) (xs : list Workload_item)
    (c : cluster) :
  foldl (λ c item, with_store k (insert item.1 (r item.2)) c) c xs
  = with_store k (λ m, foldl (λ m (item : Workload_item), <[item.1 := r item.2]> m) m xs) c.
Proof.
  revert c. induction xs as [|x xs IH]; intros c; cbn [foldl].
  - by destruct k, c.
  - by rewrite IH, with_store_compose.
Qed.

Lemma foldl_insert_lookup {V} (r : V → V) (xs : list (string * V)) (m : gmap string V)
    (i : string) :
  NoDup xs.*1 →
  foldl (λ m (item : string * V), <[item.1 := r item.2]> m) m xs !! i
  = match list_find (λ item : string * V, item.1 = i) xs with
    | Some (_, item) => Some (r item.2)
    | None => m !! i
    end.
Proof.
  revert m. induction xs as [|x xs IH]; intros m Hnd; [done |].
  apply NoDup_cons in Hnd as [Hx Hnd]. cbn [foldl list_find]. rewrite IH by done.
  destruct (decide (x.1 = i)) as [<- | Hne].
  - cbn. destruct (list_find _ xs) as [[j y]|] eqn:Hfind.
    + apply list_find_Some in Hfind as (Hy & Heq & _). exfalso. apply Hx.
      rewrite <- Heq. apply list_elem_of_fmap. exists y. split; [done |].
      by eapply list_elem_of_lookup_2.
    + cbn. by rewrite lookup_insert_eq.
  - destruct (list_find _ xs) as [[j y]|]; cbn; [done |]. by rewrite lookup_insert_ne.
Qed.

Lemma foldl_insert_items {V} (r : V → V) (m : gmap string V) :
  foldl (λ m (item : string * V), <[item.1 := r item.2]> m) m (items m) = r <$> m.
Proof.
  apply map_eq. intros i. rewrite foldl_insert_lookup by apply NoDup_items.
  rewrite lookup_fmap. destruct (list_find _ (items m)) as [[j [i' o]]|] eqn:Hfind.
  - apply list_find_Some in Hfind as (Hin & Heq & _). cbn in Heq. subst i'.
    apply list_elem_of_lookup_2, elem_of_items in Hin. by rewrite Hin.
  - destruct (m !! i) as [o|] eqn:Hi; [| done]. exfalso.
    apply elem_of_items in Hi. eapply list_find_None in Hfind.
    rewrite Forall_forall in Hfind. by apply (Hfind (i, o)).
Qed.

Lemma patches_deployment : patches Deployment apps_v1.patch_namespaced_deployment.
Proof. intros name ns body w. by eexists. Qed.

Lemma patches_stateful_set : patches StatefulSet apps_v1.patch_namespaced_stateful_set.
Proof. intros name ns body w. by eexists. Qed.

Lemma patches_daemon_set : patches DaemonSet apps_v1.patch_namespaced_daemon_set.
Proof. intros name ns body w. by eexists. Qed.

(** The loop over the controllers of one kind, after they have been listed. *)
Lemma repoint_kind (k : kind) (old_pvc : PVC) (new_pvc_name : string)
    (body : bool → Workload_item → M bool) (found : bool) (w : world) :
  repoints k old_pvc new_pvc_name body →
  ∃ found' w', for_fold (items (store k (k8s w))) found body w = (Return found', w') ∧
    k8s w' = with_store k (fmap (retargeted k old_pvc new_pvc_name)) (k8s w).
Proof.
  intros Hbody.
  destruct (for_fold_repoints k old_pvc new_pvc_name body (items (store k (k8s w))) found w
              Hbody (NoDup_items _)) as (found' & w' & Hrun & Hk).
  { intros [name o] Hin. by apply elem_of_items. }
  exists found', w'. split; [exact Hrun |].
  rewrite Hk, foldl_with_store_insert. apply with_store_ext, foldl_insert_items.
Qed.

(** The loop of the goal over the controllers of kind [k], from the
    cluster [c]; [tac] shows that a round repoints its controller. *)
Ltac repoint_loop k old_pvc new_pvc_name c tac :=
  let Hbody := fresh "Hbody" in
  let Hrun := fresh "Hrun" in
  rewrite bind_run, run_list_then;
  lazymatch goal with
  | |- context [for_fold _ ?f ?body ?w0] =>
      assert (repoints k old_pvc new_pvc_name body) as Hbody by tac;
      let found' := fresh "found" in
      let w' := fresh "w" in
      let Hk := fresh "Hk" in
      assert (∃ found' w', for_fold (items (store k c)) f body w0 = (Return found', w') ∧
                k8s w' = with_store k (fmap (retargeted k old_pvc new_pvc_name)) c)
        as (found' & w' & Hrun & Hk)
        by exact (repoint_kind k old_pvc new_pvc_name body f w0 Hbody);
      change (store k c) with (ltac:(let t := eval cbv [store] in (store k c) in exact t)) in Hrun;
      rewrite Hrun; clear Hrun Hbody
  end.

(** X25. patch_workload_using_pvc, when it is not a dry run, always
    returns, and repoints the Deployments, StatefulSets and DaemonSets of
    the namespace: every volume of their pod templates that claimed the old
    claim claims the new one, the other volumes are as they were; every
    claim template of a StatefulSet that was in the storage class of the
    old claim gets the name of the new claim as its storage class.
    Everything else in the cluster (claims, pods, ReplicaSets, CronJobs,
    Jobs, snapshots) is as it was. *)
Theorem patch_workload_repoints (ns : string) (old_pvc : PVC) (new_pvc_name : string)
    (export_pods : bool) (w : world) :
  ∃ w', MoveStorage.patch_workload_using_pvc ns old_pvc new_pvc_name false export_pods w
          = (Return tt, w') ∧
    k8s w' = repointed old_pvc new_pvc_name (k8s w).
Proof.
  unfold MoveStorage.patch_workload_using_pvc. cbv zeta. cbn [for_fold].
  cbv beta iota.
  unfold apps_v1.list_namespaced_deployment, apps_v1.list_namespaced_stateful_set,
    apps_v1.list_namespaced_daemon_set.
  rewrite bind_run.
  repoint_loop Deployment old_pvc new_pvc_name (k8s w)
    ltac:(intros ? ? ?; cbv beta; case_bool_decide; [discriminate |];
          exact (repoints_volumes Deployment "Deployment" _ ns old_pvc new_pvc_name
                   patches_deployment ltac:(done) _ _ _)).
  cbv beta iota.
  repoint_loop StatefulSet old_pvc new_pvc_name (k8s w0)
    ltac:(intros ? ? ?; cbv beta; case_bool_decide; [| done];
          exact (repoints_templates_and_volumes "StatefulSet" _ ns old_pvc new_pvc_name
                   patches_stateful_set _ _ _)).
  cbv beta iota.
  repoint_loop DaemonSet old_pvc new_pvc_name (k8s w1)
    ltac:(intros ? ? ?; cbv beta; case_bool_decide; [discriminate |];
          exact (repoints_volumes DaemonSet "DaemonSet" _ ns old_pvc new_pvc_name
                   patches_daemon_set ltac:(done) _ _ _)).
  unfold mret at 1, M_ret at 1. cbv beta iota.
  lazymatch goal with
  | |- ∃ w', ?m w2 = _ ∧ _ => assert (passes m) as Hpods
  end.
  { unfold v1.list_namespaced_pod.
    apply passes_bind; [passes |]. intros pods.
    apply passes_bind; [| intros ?; passes].
    apply passes_for_fold. intros found' pod.
    destruct (existsb id _); [apply passes_ret |].
    destruct (pod_volumes pod.2) as [vs|] eqn:Hvs; simpl; [| apply passes_ret].
    destruct (existsb _ vs); [| apply passes_ret].
    pose proof (MoveStorage_export_passes pod new_pvc_name vs Hvs) as Hexport.
    passes. }
  destruct (Hpods w2) as ([] & w3 & Hrun & Hk3 & _).
  exists w3. split; [exact Hrun |].
  rewrite Hk3, Hk1, Hk0, Hk. by destruct (k8s w).
Qed.

(** ** Runs that do not return *)

Global Instance file_kept_preorder (path : string) : PreOrder (file_kept path).
Proof.
  split; [by intros w |]. intros w1 w2 w3 H1 H2. unfold file_kept in *. congruence.
Qed.

Lemma file_kept_modify (path : string) (f : world → world) :
  (∀ w, fs (f w) !! path = fs w !! path) → respects (file_kept path) (modify f).
Proof. intros Hf w. apply Hf. Qed.

Create HintDb file_kept discriminated.

#[export] Hint Extern 1 (respects (file_kept _) (emit _)) =>
  apply file_kept_modify; reflexivity : file_kept.
#[export] Hint Extern 1 (respects (file_kept _) (print _)) =>
  apply file_kept_modify; reflexivity : file_kept.
#[export] Hint Extern 1 (respects (file_kept _) (time_sleep _)) =>
  apply file_kept_modify; reflexivity : file_kept.
#[export] Hint Extern 1 (respects (file_kept _) (modify _)) =>
  apply file_kept_modify; reflexivity : file_kept.

Ltac file_kept :=
  repeat first [ solve [auto with file_kept]
               | lazymatch goal with
                 | |- respects _ (match ?e with ApiException _ => _ | _ => _ end) =>
                     is_var e; apply respects_on_conflict
                 end
               | respects_step ].

Lemma file_kept_write_file (path other : string) (content : file) :
  other ≠ path → respects (file_kept path) (write_file other content).
Proof.
  intros Hne. unfold write_file. file_kept.
  apply file_kept_modify. intros w. cbn. by rewrite lookup_insert_ne.
Qed.

Lemma file_kept_os_remove (path other : string) :
  other ≠ path → respects (file_kept path) (os_remove other).
Proof.
  intros Hne. unfold os_remove. file_kept.
  apply file_kept_modify. intros w. cbn. by rewrite lookup_delete_ne.
Qed.

Lemma file_kept_read_file (path other : string) : respects (file_kept path) (read_file other).
Proof. unfold read_file. file_kept. Qed.

Lemma file_kept_patch_in (path : string) (kind : cluster → gmap string workload)
    (with_kind : (gmap string workload → gmap string workload) → cluster → cluster)
    (name : string) (body : patch) :
  respects (file_kept path) (patch_in kind with_kind name body).
Proof. unfold patch_in. file_kept. Qed.

#[export] Hint Resolve file_kept_read_file file_kept_patch_in : file_kept.
#[export] Hint Extern 1 (respects (file_kept _) (write_file _ _)) =>
  apply file_kept_write_file; discriminate : file_kept.
#[export] Hint Extern 1 (respects (file_kept _) (os_remove _)) =>
  apply file_kept_os_remove; discriminate : file_kept.

Section ReturnsOr.
Context (R : relation world) `{!PreOrder R}.

Lemma returns_or_respects {A} (m : M A) : respects R m → returns_or R m.
Proof. intros Hm w. right. apply Hm. Qed.

Lemma returns_or_passes {A} (m : M A) : passes m → returns_or R m.
Proof. intros Hm w. left. destruct (Hm w) as (a & w' & -> & _). by exists a. Qed.

Lemma returns_or_bind {A B} (m : M A) (f : A → M B) :
  respects R m → (∀ a, returns_or R (f a)) → returns_or R (m ≫= f).
Proof.
  intros Hm Hf w. rewrite bind_run. specialize (Hm w).
  destruct (m w) as [[a|e|] w1]; simpl in Hm; [| by right ..].
  destruct (Hf a w1) as [Hret | HR]; [by left | right]. by transitivity w1.
Qed.

Lemma returns_or_then {A B} (m : M A) (f : A → M B) :
  returns_or R m → (∀ a, passes (f a)) → returns_or R (m ≫= f).
Proof.
  intros Hm Hf w. rewrite bind_run. specialize (Hm w).
  destruct (m w) as [[a|e|] w1]; simpl in Hm.
  - left. destruct (Hf a w1) as (b & w2 & -> & _). by exists b.
  - destruct Hm as [[a Ha] | HR]; [discriminate | by right].
  - destruct Hm as [[a Ha] | HR]; [discriminate | by right].
Qed.

Lemma returns_or_when (b : bool) (m : M unit) : returns_or R m → returns_or R (when b m).
Proof. intros Hm. destruct b; [exact Hm |]. intros w. left. by exists tt. Qed.

End ReturnsOr.

Lemma returns_or_os_remove (path other : string) : returns_or (file_kept path) (os_remove other).
Proof.
  intros w. rewrite run_os_remove. destruct (fs w !! other); [left; by exists tt | by right].
Qed.

Lemma All_create_pvc_file_kept (path ns name sc size : string) (modes : list string)
    (dry_run : bool) :
  respects (file_kept path) (All.create_pvc ns name sc size modes dry_run).
Proof.
  unfold All.create_pvc, v1.create_namespaced_persistent_volume_claim. cbv zeta. file_kept.
Qed.

Lemma All_copy_file_kept (path ns src dst prefix : string) (dry_run : bool) :
  respects (file_kept path) (All.copy_data_with_pod ns src dst prefix dry_run).
Proof.
  unfold All.copy_data_with_pod, v1.create_namespaced_pod, v1.read_namespaced_pod,
    v1.delete_namespaced_pod.
  cbv zeta. file_kept.
Qed.

#[export] Hint Resolve All_create_pvc_file_kept All_copy_file_kept : file_kept.

Lemma All_main_returns_or (path : string) (args : All.Args) :
  returns_or (file_kept path) (All.main args).
Proof.
  unfold All.main. destruct (All.recreate args).
  - unfold All.phase_two. cbv zeta.
    apply returns_or_bind; [apply _ | unfold os_path_exists; file_kept |]. intros present.
    destruct (negb present); [apply returns_or_respects; file_kept |].
    apply returns_or_bind; [apply _ | file_kept |]. intros loaded.
    destruct loaded as [key [|r rs] | [|b bs] | |];
      try (apply returns_or_respects; solve [file_kept]).
    apply returns_or_bind; [apply _ | file_kept |]. intros _.
    apply returns_or_bind; [apply _ | |].
    { unfold All.recreate_entry, v1.delete_namespaced_persistent_volume_claim.
      cbv zeta. file_kept. }
    intros _. apply returns_or_then; [| intros ?; passes].
    apply returns_or_when. apply returns_or_then; [| intros ?; passes].
    apply returns_or_os_remove.
  - unfold All.phase_one. cbv zeta.
    apply returns_or_bind; [apply _ | |].
    { unfold All.list_pvcs_in_storageclass, v1.list_namespaced_persistent_volume_claim.
      file_kept. }
    intros pvcs. destruct pvcs as [|p ps]; [apply returns_or_respects; file_kept |].
    apply returns_or_bind; [apply _ | file_kept |]. intros _.
    apply returns_or_bind; [apply _ | |].
    { unfold All.pivot_to_temp. cbv zeta. file_kept. }
    intros info. apply returns_or_passes. passes.
Qed.

Lemma Safe_create_pvc_file_kept (path ns name sc size : string) (modes : list string)
    (dry_run : bool) :
  respects (file_kept path) (Safe.create_pvc ns name sc size modes dry_run).
Proof.
  unfold Safe.create_pvc, v1.create_namespaced_persistent_volume_claim. cbv zeta. file_kept.
Qed.

Lemma Safe_copy_file_kept (path ns src dst prefix : string) (dry_run : bool) :
  respects (file_kept path) (Safe.copy_data ns src dst prefix dry_run).
Proof.
  unfold Safe.copy_data, v1.create_namespaced_pod, v1.read_namespaced_pod,
    v1.delete_namespaced_pod.
  cbv zeta. file_kept.
Qed.

Lemma Safe_detect_file_kept (ns : string) (pvc_names : list string) (dry_run : bool) :
  respects (file_kept Safe.DEFAULT_METADATA_FILE)
    (Safe.detect_and_scale_down ns pvc_names dry_run).
Proof.
  unfold Safe.detect_and_scale_down.
  unfold apps_v1.list_namespaced_deployment, apps_v1.list_namespaced_stateful_set,
    apps_v1.list_namespaced_replica_set, apps_v1.list_namespaced_daemon_set,
    batch_v1.list_namespaced_cron_job, batch_v1.list_namespaced_job,
    apps_v1.patch_namespaced_deployment_scale, apps_v1.patch_namespaced_replica_set_scale,
    apps_v1.patch_namespaced_stateful_set_scale, apps_v1.patch_namespaced_daemon_set,
    batch_v1.patch_namespaced_cron_job, batch_v1.delete_namespaced_job.
  cbv beta iota zeta delta [when]. file_kept.
Qed.

Lemma Safe_scale_back_up_file_kept (ns : string) (dry_run : bool) :
  respects (file_kept Safe.DEFAULT_METADATA_FILE) (Safe.scale_back_up ns dry_run).
Proof.
  unfold Safe.scale_back_up, Safe.restore_entry, os_path_exists.
  unfold apps_v1.patch_namespaced_deployment_scale, apps_v1.patch_namespaced_replica_set_scale,
    apps_v1.patch_namespaced_stateful_set_scale, apps_v1.patch_namespaced_daemon_set,
    batch_v1.patch_namespaced_cron_job.
  cbv beta iota zeta delta [when]. file_kept.
Qed.

#[export] Hint Resolve Safe_create_pvc_file_kept Safe_copy_file_kept Safe_detect_file_kept
  Safe_scale_back_up_file_kept : file_kept.

Lemma Safe_main_returns_or (args : Safe.Args) :
  returns_or (file_kept Safe.DEFAULT_METADATA_FILE) (Safe.main args).
Proof.
  unfold Safe.main. cbv zeta. destruct (negb (Safe.recreate args)).
  - apply returns_or_bind; [apply _ | |].
    { unfold Safe.list_pvcs, v1.list_namespaced_persistent_volume_claim. file_kept. }
    intros pvcs. destruct pvcs as [|p ps]; [apply returns_or_respects; file_kept |].
    apply returns_or_bind; [apply _ | file_kept |]. intros _.
    apply returns_or_bind; [apply _ | |].
    { unfold Safe.pivot_to_temp. cbv zeta. file_kept. }
    intros metadata. apply returns_or_passes. passes.
  - apply returns_or_bind; [apply _ | unfold os_path_exists; file_kept |]. intros present.
    destruct (negb present); [apply returns_or_respects; file_kept |].
    apply returns_or_bind; [apply _ | file_kept |]. intros loaded.
    assert (∀ m : M unit, respects (file_kept Safe.DEFAULT_METADATA_FILE) m →
      returns_or (file_kept Safe.DEFAULT_METADATA_FILE)
        (m;; Safe.scale_back_up (Safe.namespace args) (Safe.dry_run args);;
         when (negb (Safe.dry_run args)) (os_remove Safe.DEFAULT_METADATA_FILE))) as Htail.
    { intros m Hm. apply returns_or_bind; [apply _ | exact Hm |]. intros _.
      apply returns_or_bind; [apply _ | file_kept |]. intros _.
      apply returns_or_when, returns_or_os_remove. }
    destruct loaded as [key rs | [|b bs] | |];
      try (apply returns_or_respects; solve [file_kept]).
    + apply Htail. unfold Safe.recreate_record, v1.delete_namespaced_persistent_volume_claim.
      cbv zeta. file_kept.
    + apply returns_or_bind; [apply _ | file_kept |]. intros _.
      apply returns_or_when, returns_or_os_remove.
Qed.

(** X26. A run of a pivot script that does not return (an exception
    escapes, or a wait never ends) leaves the ledger as it was.  For the
    basic variant no file at all has changed: phase 1 has written no ledger,
    also not for the claims it has copied already, and phase 2 has kept the
    ledger.  For the safe variant the ledger file is as it was (the
    scale-state file may have been written or removed). *)
Theorem interrupted_run_keeps_ledger :
  (∀ args w, (All.main args w).1 ≠ Return tt → fs (All.main args w).2 = fs w) ∧
  (∀ args w, (Safe.main args w).1 ≠ Return tt →
     fs (Safe.main args w).2 !! Safe.DEFAULT_METADATA_FILE
     = fs w !! Safe.DEFAULT_METADATA_FILE).
Proof.
  split; intros args w Hstop.
  - apply map_eq. intros path.
    destruct (All_main_returns_or path args w) as [[[] Hret] | Hkept]; [done | exact Hkept].
  - destruct (Safe_main_returns_or args w) as [[[] Hret] | Hkept]; [done | exact Hkept].
Qed.

Lemma interrupted_run_keeps_ledger_witness :
  (All.main basic_phase1 stuck_copy).1 = Hang ∧
  fs (All.main basic_phase1 stuck_copy).2 = fs stuck_copy.
Proof.
  split; [by vm_compute |].
  apply (proj1 interrupted_run_keeps_ledger basic_phase1 stuck_copy). by vm_compute.
Defined.

(** ** The copy pod at its edges *)

(** X27. A copy pod whose name is taken (a pod left by an interrupted run,
    or by a claim with the same first 20 characters) stops the copy of each
    of the three scripts: the call that creates the pod is answered 409, the
    exception escapes, and the cluster and the files are as they were: the
    pod in the way is not deleted and nothing is copied. *)
Theorem copy_pod_name_taken (ns src dst prefix : string) (w : world) :
  (is_Some (pods (k8s w) !! All.pivot_pod_name prefix src) →
     let r := All.copy_data_with_pod ns src dst prefix false w in
     r.1 = Raise (ApiException 409) ∧ k8s r.2 = k8s w ∧ fs r.2 = fs w) ∧
  (is_Some (pods (k8s w) !! Safe.sanitize_pod_name src prefix) →
     let r := Safe.copy_data ns src dst prefix false w in
     r.1 = Raise (ApiException 409) ∧ k8s r.2 = k8s w ∧ fs r.2 = fs w) ∧
  (is_Some (pods (k8s w) !! MoveStorage.pivot_pod_name src) →
     let r := MoveStorage.create_pivot_pod ns src dst false w in
     r.1 = Raise (ApiException 409) ∧ k8s r.2 = k8s w ∧ fs r.2 = fs w).
Proof.
  split; [| split]; intros Htaken r; subst r.
  - unfold All.copy_data_with_pod. cbv zeta.
    by rewrite bind_run, (run_create_pod_taken _ _ _ _ Htaken).
  - unfold Safe.copy_data. cbv zeta.
    by rewrite bind_run, (run_create_pod_taken _ _ _ _ Htaken).
  - unfold MoveStorage.create_pivot_pod. cbv zeta.
    by rewrite bind_run, (run_create_pod_taken _ _ _ _ Htaken).
Qed.

Lemma copy_pod_name_taken_witness :
  let w := world_of (with_pods (insert "pivot-copy-data-pvc" toolbox) data_cluster) [Succeeded] in
  let r := MoveStorage.create_pivot_pod "prod" "data-pvc" "data-pvc-new-sc" false w in
  r.1 = Raise (ApiException 409) ∧ k8s r.2 = k8s w ∧ fs r.2 = fs w.
Proof.
  intros w.
  apply (proj2 (proj2 (copy_pod_name_taken "prod" "data-pvc" "data-pvc-new-sc" "pivot1" w))).
  by eexists.
Defined.

(** The wait loop of a copy, whatever it answers when the pod has settled. *)
Lemma wait_loop_settles {A} (name : string) (body : M (option A)) (g : pod_phase → A) :
  (∀ w p, pods (k8s w) !! name = Some p →
     ∃ w', body w = (Return (if finished (hd Pending (phases p))
                             then Some (g (hd Pending (phases p))) else None), w') ∧
           phases <$> pods (k8s w') !! name = Some (tail (phases p))) →
  ∀ life w ph,
    phases <$> pods (k8s w) !! name = Some life →
    terminal_phase life = Some ph →
    ∃ w', while_true (S (length life)) body w = (Return (g ph), w') ∧
          is_Some (pods (k8s w') !! name).
Proof.
  intros Hbody life. induction life as [|ph rest IH]; intros w ph' Hlife Hend; [done |].
  destruct (pods (k8s w) !! name) as [p|] eqn:Hp; [| discriminate].
  simpl in Hlife. injection Hlife as Hlife.
  destruct (Hbody w p Hp) as (w1 & Hrun & Hnext).
  rewrite Hlife in Hrun, Hnext. simpl in Hrun, Hnext.
  change (while_true (S (length (ph :: rest))) body)
    with (r ← body; match r with Some a => mret a | None => while_true (S (length rest)) body end).
  rewrite bind_run, Hrun. simpl in Hend.
  destruct (finished ph).
  - injection Hend as <-. exists w1. split; [reflexivity |].
    destruct (pods (k8s w1) !! name); [by eexists | discriminate].
  - by apply IH.
Qed.

Lemma wait_loop_stuck {A} (name : string) (body : M (option A)) (g : pod_phase → A) :
  (∀ w p, pods (k8s w) !! name = Some p →
     ∃ w', body w = (Return (if finished (hd Pending (phases p))
                             then Some (g (hd Pending (phases p))) else None), w') ∧
           phases <$> pods (k8s w') !! name = Some (tail (phases p))) →
  ∀ life w,
    phases <$> pods (k8s w) !! name = Some life →
    terminal_phase life = None →
    ∃ w', while_true (S (length life)) body w = (Hang, w') ∧
          is_Some (pods (k8s w') !! name).
Proof.
  intros Hbody life. induction life as [|ph rest IH]; intros w Hlife Hend.
  - destruct (pods (k8s w) !! name) as [p|] eqn:Hp; [| discriminate].
    simpl in Hlife. injection Hlife as Hlife.
    destruct (Hbody w p Hp) as (w1 & Hrun & Hnext).
    rewrite Hlife in Hrun. simpl in *. rewrite bind_run, Hrun.
    exists w1. split; [reflexivity |].
    destruct (pods (k8s w1) !! name); [by eexists | discriminate].
  - destruct (pods (k8s w) !! name) as [p|] eqn:Hp; [| discriminate].
    simpl in Hlife. injection Hlife as Hlife.
    destruct (Hbody w p Hp) as (w1 & Hrun & Hnext).
    rewrite Hlife in Hrun, Hnext. simpl in Hrun, Hnext.
    change (while_true (S (length (ph :: rest))) body)
      with (r ← body; match r with Some a => mret a | None => while_true (S (length rest)) body end).
    rewrite bind_run, Hrun. simpl in Hend.
    destruct (finished ph); [discriminate |]. by apply IH.
Qed.

(** The start of a copy: the pod is created and the wait begins. *)
Lemma copy_started_life (ns name line : string) (body : pod) (w : world) :
  pods (k8s w) !! name = None →
  phases <$> pods (k8s (copy_started ns name body line w)) !! name
  = Some (kubelet w (pods_started w)).
Proof.
  intros Hfree. unfold copy_started.
  destruct (run_create_pod ns name body w Hfree) as (w1 & Hcreate & Hlife).
  by rewrite bind_run, Hcreate.
Qed.

Lemma copy_starts {A} (ns name line : string) (body : pod) (poll : M (option A))
    (k : A → M unit) (w : world) :
  pods (k8s w) !! name = None →
  (v1.create_namespaced_pod ns name body;; print line;;
   fuel ← gets (pod_polls name); while_true fuel poll ≫= k) w
  = (while_true (S (length (kubelet w (pods_started w)))) poll ≫= k)
      (copy_started ns name body line w).
Proof.
  intros Hfree. pose proof (copy_started_life ns name line body w Hfree) as Hlife.
  unfold copy_started in *.
  destruct (run_create_pod ns name body w Hfree) as (w1 & Hcreate & _).
  rewrite (bind_run _ (λ _, print line)), Hcreate in Hlife |- *.
  rewrite (bind_run (v1.create_namespaced_pod ns name body)), Hcreate.
  rewrite print_then, bind_run. unfold gets at 1. unfold pod_polls.
  change (print line w1).2 with (with_trace (λ t, t ++ [Stdout line]) w1) in Hlife |- *.
  destruct (pods (k8s (with_trace _ w1)) !! name) as [p|]; [| discriminate].
  simpl in Hlife. by injection Hlife as ->.
Qed.

Ltac copy_start Hfree w2 Hlife :=
  rewrite (copy_starts _ _ _ _ _ _ _ Hfree);
  lazymatch goal with
  | |- context [copy_started ?ns ?name ?body ?line ?w] =>
      pose proof (copy_started_life ns name line body w Hfree) as Hlife;
      set (w2 := copy_started ns name body line w) in *
  end.

Lemma All_poll_step (ns name : string) (w : world) (p : pod) :
  pods (k8s w) !! name = Some p →
  ∃ w', (phase ← v1.read_namespaced_pod name ns;
         if finished phase then
           print ("[✓] Pivot pod finished with status: " +:+ phase_str phase);;
           mret (Some tt)
         else
           time_sleep 2;;
           mret None) w
        = (Return (if finished (hd Pending (phases p)) then Some tt else None), w') ∧
    phases <$> pods (k8s w') !! name = Some (tail (phases p)).
Proof.
  intros Hp. destruct (run_read_pod ns name p w Hp) as (w' & Hread & Hnext).
  rewrite bind_run, Hread. destruct (finished _).
  - rewrite print_then. eexists. split; [reflexivity | exact Hnext].
  - unfold time_sleep. rewrite emit_then. eexists. split; [reflexivity | exact Hnext].
Qed.

Lemma Safe_poll_step (ns name : string) (w : world) (p : pod) :
  pods (k8s w) !! name = Some p →
  ∃ w', (p ← v1.read_namespaced_pod name ns;
         if finished p then mret (Some tt)
         else
           time_sleep 2;;
           mret None) w
        = (Return (if finished (hd Pending (phases p)) then Some tt else None), w') ∧
    phases <$> pods (k8s w') !! name = Some (tail (phases p)).
Proof.
  intros Hp. destruct (run_read_pod ns name p w Hp) as (w' & Hread & Hnext).
  rewrite bind_run, Hread. destruct (finished _).
  - eexists. split; [reflexivity | exact Hnext].
  - unfold time_sleep. rewrite emit_then. eexists. split; [reflexivity | exact Hnext].
Qed.

Lemma MoveStorage_poll_step (ns name : string) (w : world) (p : pod) :
  pods (k8s w) !! name = Some p →
  ∃ w', (pod_status ← v1.read_namespaced_pod name ns;
         if finished pod_status then mret (Some pod_status)
         else
           time_sleep 2;;
           mret None) w
        = (Return (if finished (hd Pending (phases p))
                   then Some (hd Pending (phases p)) else None), w') ∧
    phases <$> pods (k8s w') !! name = Some (tail (phases p)).
Proof.
  intros Hp. destruct (run_read_pod ns name p w Hp) as (w' & Hread & Hnext).
  rewrite bind_run, Hread. destruct (finished _).
  - eexists. split; [reflexivity | exact Hnext].
  - unfold time_sleep. rewrite emit_then. eexists. split; [reflexivity | exact Hnext].
Qed.

(** X28. A copy pod that never settles in Succeeded or Failed keeps the
    copy of each of the three scripts waiting for ever (there is no
    timeout): the run does not return, and the pod is still in the cluster. *)
Theorem stuck_copy_never_returns (ns src dst prefix : string) (w : world) :
  terminal_phase (kubelet w (pods_started w)) = None →
  (pods (k8s w) !! All.pivot_pod_name prefix src = None →
     let r := All.copy_data_with_pod ns src dst prefix false w in
     r.1 = Hang ∧ is_Some (pods (k8s r.2) !! All.pivot_pod_name prefix src)) ∧
  (pods (k8s w) !! Safe.sanitize_pod_name src prefix = None →
     let r := Safe.copy_data ns src dst prefix false w in
     r.1 = Hang ∧ is_Some (pods (k8s r.2) !! Safe.sanitize_pod_name src prefix)) ∧
  (pods (k8s w) !! MoveStorage.pivot_pod_name src = None →
     let r := MoveStorage.create_pivot_pod ns src dst false w in
     r.1 = Hang ∧ is_Some (pods (k8s r.2) !! MoveStorage.pivot_pod_name src)).
Proof.
  intros Hstuck. split; [| split]; intros Hfree r; subst r.
  - unfold All.copy_data_with_pod. cbv zeta.
    copy_start Hfree w2 Hlife.
    destruct (wait_loop_stuck _ _ (λ _, tt) (All_poll_step ns _) _ w2 Hlife Hstuck)
      as (w3 & Hloop & Hpod).
    by rewrite bind_run, Hloop.
  - unfold Safe.copy_data. cbv zeta.
    copy_start Hfree w2 Hlife.
    destruct (wait_loop_stuck _ _ (λ _, tt) (Safe_poll_step ns _) _ w2 Hlife Hstuck)
      as (w3 & Hloop & Hpod).
    by rewrite bind_run, Hloop.
  - unfold MoveStorage.create_pivot_pod. cbv zeta.
    copy_start Hfree w2 Hlife.
    destruct (wait_loop_stuck _ _ id (MoveStorage_poll_step ns _) _ w2 Hlife Hstuck)
      as (w3 & Hloop & Hpod).
    by rewrite bind_run, Hloop.
Qed.

Lemma stuck_copy_never_returns_witness :
  let r := Safe.copy_data "prod" "data-pvc" "data-pvc-temp" "pivot1" false stuck_copy in
  r.1 = Hang ∧ is_Some (pods (k8s r.2) !! "pivot1-data-pvc").
Proof.
  apply (proj1 (proj2 (stuck_copy_never_returns "prod" "data-pvc" "data-pvc-temp" "pivot1"
                         stuck_copy eq_refl))).
  reflexivity.
Defined.

Lemma MoveStorage_copy_pod_only (ns src dst : string) :
  respects (pod_only (MoveStorage.pivot_pod_name src))
    (MoveStorage.create_pivot_pod ns src dst false).
Proof.
  unfold MoveStorage.create_pivot_pod, print, time_sleep. cbv zeta iota. pod_only.
Qed.

(** X29. The copy of moveStorage.py, when the name of the pod is free and
    the pod settles, in Succeeded or in Failed alike: create_pivot_pod
    returns, the pod is deleted again, and the cluster and the files are as
    they were before the copy; a failed copy is not told apart from a
    successful one. *)
Theorem move_storage_copy_returns (ns src dst : string) (w : world) :
  pods (k8s w) !! MoveStorage.pivot_pod_name src = None →
  is_Some (terminal_phase (kubelet w (pods_started w))) →
  ∃ w', MoveStorage.create_pivot_pod ns src dst false w = (Return tt, w') ∧
    k8s w' = k8s w ∧ fs w' = fs w.
Proof.
  intros Hfree [ph Hend].
  pose proof (MoveStorage_copy_pod_only ns src dst w) as Honly.
  assert (∃ w', MoveStorage.create_pivot_pod ns src dst false w = (Return tt, w') ∧
            pods (k8s w') !! MoveStorage.pivot_pod_name src = None) as (w' & Hrun & Hgone).
  { unfold MoveStorage.create_pivot_pod. cbv zeta iota.
    copy_start Hfree w2 Hlife.
    destruct (wait_loop_settles _ _ id (MoveStorage_poll_step ns _) _ w2 ph Hlife Hend)
      as (w3 & Hloop & Hpod).
    rewrite bind_run, Hloop, print_then.
    apply run_delete_pod. exact Hpod. }
  exists w'. split; [exact Hrun |]. rewrite Hrun in Honly.
  by apply (pod_only_absent (MoveStorage.pivot_pod_name src)).
Qed.

Lemma move_storage_copy_returns_witness :
  let w := world_of data_cluster [Running; Failed] in
  ∃ w', MoveStorage.create_pivot_pod "prod" "data-pvc" "data-pvc-new-sc" false w
          = (Return tt, w') ∧
    k8s w' = k8s w ∧ fs w' = fs w.
Proof.
  intros w. apply (move_storage_copy_returns "prod" "data-pvc" "data-pvc-new-sc" w).
  - reflexivity.
  - by eexists.
Defined.

(** ** The post-migration script *)

Global Instance post_script_grows_preorder : PreOrder post_script_grows.
Proof.
  split.
  - intros w lines Hw. exists []. by rewrite app_nil_r.
  - intros w1 w2 w3 H12 H23 lines Hw.
    destruct (H12 lines Hw) as (more1 & Hw2). destruct (H23 _ Hw2) as (more2 & Hw3).
    exists (more1 ++ more2). by rewrite app_assoc.
Qed.

Create HintDb files discriminated.

Section Files.

Context (R : relation world) `{!PreOrder R}.
Context (Hsame : ∀ w w', fs w' = fs w → R w w').

Lemma files_modify (f : world → world) :
  (∀ w, fs (f w) = fs w) → respects R (modify f).
Proof. intros Hf w. apply Hsame, Hf. Qed.

Local Hint Extern 1 (respects _ (emit _)) => apply files_modify; reflexivity : files.
Local Hint Extern 1 (respects _ (print _)) => apply files_modify; reflexivity : files.
Local Hint Extern 1 (respects _ (time_sleep _)) => apply files_modify; reflexivity : files.
Local Hint Extern 1 (respects _ (modify _)) => apply files_modify; reflexivity : files.

Ltac files :=
  unfold patch_in;
  repeat first [ solve [auto with files]
               | lazymatch goal with
                 | |- respects _ (match ?e with ApiException _ => _ | _ => _ end) =>
                     is_var e; apply respects_on_conflict
                 end
               | respects_step ].

Lemma MoveStorage_patch_volumes_files (kind : string)
    (patch_func : string → string → patch → M unit)
    (ns old_pvc_name new_pvc_name : string) (dry_run : bool) (name : string)
    (st : workload * bool) :
  (∀ n s b, respects R (patch_func n s b)) →
  respects R
    (MoveStorage.patch_volumes kind patch_func ns old_pvc_name new_pvc_name dry_run name st).
Proof.
  intros Hpatch.
  unfold MoveStorage.patch_volumes, MoveStorage.report_workloads_patched.
  cbv beta iota zeta. files.
Qed.

Lemma MoveStorage_patch_templates_files
    (patch_func : string → string → patch → M unit)
    (ns : string) (old_sc : option string) (new_pvc_name : string) (dry_run : bool)
    (name : string) (st : workload * bool) :
  (∀ n s b, respects R (patch_func n s b)) →
  respects R
    (MoveStorage.patch_templates patch_func ns old_sc new_pvc_name dry_run name st).
Proof.
  intros Hpatch.
  unfold MoveStorage.patch_templates, MoveStorage.report_workloads_patched.
  cbv beta iota zeta. files.
Qed.

Context (args : MoveStorage.Args).
Context (Hexport : MoveStorage.export_pods args = true →
           ∀ pod new_pvc_name, respects R (MoveStorage.export_pod_manifest pod new_pvc_name)).

Lemma MoveStorage_patch_workload_files (ns : string) (old_pvc : PVC)
    (new_pvc_name : string) (dry_run : bool) :
  respects R
    (MoveStorage.patch_workload_using_pvc ns old_pvc new_pvc_name dry_run
       (MoveStorage.export_pods args)).
Proof.
  unfold MoveStorage.patch_workload_using_pvc, MoveStorage.report_workloads_patched,
    v1.list_namespaced_pod.
  destruct (MoveStorage.export_pods args);
    [specialize (Hexport eq_refl) | clear Hexport];
    cbv beta iota zeta delta [negb when];
    (respects_step; [| files]);
    (apply respects_for_fold_in; [apply _ |]);
    intros found [[kind list_func] patch_func] Hin;
    (repeat (apply elem_of_cons in Hin as [[= -> -> ->] | Hin]);
      [ unfold apps_v1.list_namespaced_deployment, apps_v1.list_namespaced_stateful_set,
          apps_v1.list_namespaced_daemon_set;
        files;
        first [ apply MoveStorage_patch_volumes_files
              | apply MoveStorage_patch_templates_files ];
        intros; unfold apps_v1.patch_namespaced_deployment,
          apps_v1.patch_namespaced_stateful_set, apps_v1.patch_namespaced_daemon_set;
        files .. |]);
    by apply elem_of_nil in Hin.
Qed.

Lemma MoveStorage_main_files : respects R (MoveStorage.main args).
Proof.
  pose proof MoveStorage_patch_workload_files as Hpatch.
  unfold MoveStorage.main, MoveStorage.get_pvcs_by_storage_class, MoveStorage.migrate_pvc,
    MoveStorage.report_pvcs_found, MoveStorage.delete_old_pvc,
    MoveStorage.get_snapshot_class_for_storage_class, MoveStorage.create_volume_snapshot,
    MoveStorage.report_snapshots_used, MoveStorage.create_new_pvc, MoveStorage.report_new_pvcs,
    MoveStorage.create_pivot_pod, MoveStorage.report_pivot_pods,
    MoveStorage.report_pvcs_deleted,
    custom_api.list_cluster_custom_object, custom_api.create_namespaced_custom_object,
    custom_api.get_namespaced_custom_object,
    v1.list_namespaced_persistent_volume_claim, v1.create_namespaced_persistent_volume_claim,
    v1.delete_namespaced_persistent_volume_claim,
    v1.create_namespaced_pod, v1.read_namespaced_pod, v1.delete_namespaced_pod.
  cbv beta iota zeta. files.
Qed.

End Files.

Lemma post_script_grows_same (w w' : world) : fs w' = fs w → post_script_grows w w'.
Proof. intros Hfs lines Hw. exists []. by rewrite Hfs, app_nil_r. Qed.

Lemma file_kept_same (path : string) (w w' : world) : fs w' = fs w → file_kept path w w'.
Proof. intros Hfs. unfold file_kept. by rewrite Hfs. Qed.

Lemma MoveStorage_export_grows (pod : string * pod) (new_pvc_name : string) :
  respects post_script_grows (MoveStorage.export_pod_manifest pod new_pvc_name).
Proof.
  intros w lines Hw. unfold MoveStorage.export_pod_manifest.
  destruct (pod_volumes pod.2) as [vs|]; [| exists []; by rewrite app_nil_r].
  cbv zeta.
  lazymatch goal with
  | |- ∃ more, fs (?m w).2 !! _ = _ =>
      assert (∃ w', m w = (Return tt, w') ∧
                fs w' !! MoveStorage.POST_SCRIPT_PATH
                = Some (Text (lines ++ MoveStorage.post_script_lines pod.1 (pod_namespace pod.2))))
        as (w' & -> & Hw')
  end.
  { eexists. split; [reflexivity |]. cbn [fs with_fs with_trace with_report].
    assert (Hne := manifest_path_neq pod.1).
    rewrite lookup_insert_ne by done. rewrite Hw. apply lookup_insert_eq. }
  by eexists.
Qed.

(** X30. Every run of moveStorage.py starts the post-migration script
    anew, a dry run too: however the run ends, manifests/post-migrate.sh
    holds the two header lines followed by what this run has appended, and
    nothing of what was there before; without --export-pods it holds the
    header only. *)
Theorem post_script_is_rewritten (args : MoveStorage.Args) (w : world) :
  ∃ more,
    fs (MoveStorage.script args w).2 !! MoveStorage.POST_SCRIPT_PATH
      = Some (Text (post_script_header ++ more)) ∧
    (MoveStorage.export_pods args = false → more = []).
Proof.
  unfold MoveStorage.script.
  assert (∃ w0, MoveStorage.module_init w = (Return tt, w0) ∧
            fs w0 !! MoveStorage.POST_SCRIPT_PATH = Some (Text post_script_header))
    as (w0 & Hinit & Hw0).
  { eexists. split; [reflexivity |]. cbn. by rewrite lookup_insert_eq. }
  rewrite bind_run, Hinit.
  destruct (MoveStorage_main_files post_script_grows post_script_grows_same args
              (λ _, MoveStorage_export_grows) w0 _ Hw0) as (more & Hmore).
  exists more. split; [exact Hmore |]. intros Hexp.
  pose proof (MoveStorage_main_files (file_kept MoveStorage.POST_SCRIPT_PATH)
                (file_kept_same _) args) as Hkept.
  rewrite Hexp in Hkept. specialize (Hkept (λ H, ltac:(discriminate H)) w0).
  unfold file_kept in Hkept. rewrite Hmore, Hw0 in Hkept.
  assert (post_script_header ++ more = post_script_header ++ []) as Heq
    by (rewrite app_nil_r; congruence).
  by apply app_inv_head in Heq.
Qed.

Lemma post_script_is_rewritten_witness :
  let args := MoveStorage.mkArgs "old-sc" "new-sc" "prod" true false false false false in
  let w := World data_cluster
             (<[MoveStorage.POST_SCRIPT_PATH := Text ["kubectl apply -f old.yaml"]]> ∅)
             [] (λ _, [Succeeded]) 0 (λ _, []) no_report in
  fs (MoveStorage.script args w).2 !! MoveStorage.POST_SCRIPT_PATH
  = Some (Text post_script_header).
Proof.
  intros args w. destruct (post_script_is_rewritten args w) as (more & Hfs & Hnone).
  rewrite (Hnone eq_refl), app_nil_r in Hfs. exact Hfs.
Defined.
